(* ===== verification/_CoqProject ===== *)
-Q . S2P
Prelude.v
Parcel.v
Parcelables.v
ParcelProps.v
Ipc.v
NetmanagerIpc.v
Sends.v
Host.v
NetIds.v
ConnState.v
ConnNetwork.v
ConnService.v
ConnInv.v
ConnOps.v
ConnSpec.v
ConnRegister.v
ConnUpdate.v
ConnCorrect.v
ConnProps.v
ConnCalls.v
ConnMore.v
ConnLink.v
ConnIpc.v
CppStrings.v
Files.v
Policy.v
PolicySpec.v
PolicyCorrect.v
PolicyProps.v
PolicyIpc.v
Ethernet.v
EthernetSpec.v
EthernetInv.v
EthernetCorrect.v
EthernetProps.v
EthernetStart.v
EthernetStartProps.v
EthernetIpc.v
Netlink.v
NetlinkSpec.v
NetlinkCorrect.v
NetlinkSocket.v
NetlinkProps.v
NetlinkSocketProps.v
NetdRoute.v
Regex.v
Dns.v
DnsSpec.v
DnsCorrect.v
DnsProps.v
DnsIpc.v
Client.v
Clients.v
ClientSpec.v
ClientProps.v
EthernetConn.v
EthernetConnProps.v
EthernetNetd.v
Timer.v
TimerProps.v
BlockingQueue.v
BlockingQueueProps.v
NetUtils.v
NetUtilsProps.v
NetdHeaders.v
Log.v
Napi.v
NapiPolicy.v
NapiEthernet.v
NapiDns.v
NapiSafe.v
NapiSpec.v
NapiRefine.v
NapiHistory.v
NapiPolicyProps.v
NapiEthernetProps.v
NapiDnsProps.v
NapiSample.v
NapiProps.v
NapiMap.v
