(* ===== verification/Prelude.v ===== *)
(** * Network manager: a verification development

    The repository is the network manager of a device: system services that
    register the networks a device can use, choose the default one, configure
    the native daemon netd, and keep the network policy of each application
    (uid). This development models the services as executable definitions and
    proves what makes them correct.

    ** The program and its parts

    A client process calls a service through the client library, which keeps
    the object of the service until its death is announced, and a proxy; the
    message parcel goes to the stub in the service process, which calls the service. The
    connection service keeps suppliers (a modem, an interface), a [Network]
    for each and a [NetService] for each capability of a network; it activates
    networks through a controller and tells netd about interfaces, routes,
    resolvers and MTU through [NetdController]; it broadcasts state changes and
    calls the callbacks of clients. The policy service keeps a policy per uid in
    memory and in a JSON file. The ethernet service watches the links of the
    kernel, runs DHCP, and registers each interface as a supplier with the
    connection service. The DNS resolver service asks the resolver of netd and
    turns the list it gets in memory into values that travel. Three modules for
    JavaScript make the client libraries asynchronous: a call takes its
    arguments into a context, a thread of a pool calls the client, and the
    thread of the script settles a promise or calls a callback. The native daemon
    is a prebuilt binary; its headers have code of their own, which hands the
    requests of its servers to a pool of threads and keeps addresses and sockets.

    ** The files

    Shared:
    - [Prelude]: machine integers ([to_u], [to_i]), stateful code [st] in which
      [None] is undefined behaviour (a null or dangling pointer, an uncaught
      exception), its weakest preconditions [wp], list lemmas, numbers as bytes
      in memory, the hint database [netdb].
    - [Parcel]: the message parcel of the platform, an interface with laws
      (typed, first in first out), and code that marshals into it.
    - [Parcelables]: the types that travel, one module per struct
      (frameworks/innerkitsimpl: net_link_info.cpp, inet_addr.cpp, route.cpp,
      net_specifier.cpp, net_supplier_info.cpp, net_conn_callback_info.cpp,
      dns_addr_info.cpp, static_configuration.cpp, interface_configuration.cpp);
      properties in [ParcelProps].
    - [Ipc]: the pieces of stubs and proxies, and how a request travels;
      [NetmanagerIpc]: what the ethernet and DNS services share of them;
      [Sends]: what marshalling a type appends to a message.
    - [Host]: the process around a service: the platform as an interface
      (netd library, cellular client, broadcasts, callbacks, system ability
      manager), the log of outgoing calls, and services/common
      (netd_controller.cpp, broadcast_manager.cpp).

    Connection service (services/netconnmanager):
    - [NetIds]: net_id_manager.cpp.
    - [ConnState]: the heap of suppliers, networks and services; a pointer is a
      location, an object is never freed while a pointer to it is kept, and
      [release_network] is the destructor that runs when the last one goes.
    - [ConnNetwork]: net_supplier.cpp, net_controller/, network.cpp.
    - [ConnService]: net_service.cpp and net_conn_service.cpp. A request is one
      step, and so is the thread of a reconnection timer, a request of its own,
      enabled while a timer is pending. Nothing in the code makes them follow one
      another (see below).
    - [ConnInv], [ConnOps], [ConnRegister], [ConnUpdate]: the invariant and what
      every operation does to it. [ConnSpec]: the abstract registry. [ConnCorrect]:
      every request is safe and refines the registry.
    - [ConnProps], [ConnCalls], [ConnMore], [ConnLink]: the properties.
    - [ConnIpc]: ipc/net_conn_service_stub.cpp, ipc/net_conn_service_proxy.cpp
      and both sides of the callback, and their properties.

    Policy service (services/netpolicymanager):
    - [CppStrings]: [std::stol], [c_str], and what [std::to_string] prints.
    - [Files]: the JSON library and the file system as interfaces with laws.
    - [Policy]: net_policy_file.cpp, net_policy_traffic.cpp,
      net_policy_service.cpp.
    - [PolicySpec], [PolicyCorrect], [PolicyProps]: the service as a finite map.
    - [PolicyIpc]: its stub and proxy, and their properties.

    Ethernet service (services/ethernetmanager):
    - [Ethernet]: dev_interface_state.cpp, ethernet_management.cpp,
      ethernet_service.cpp. The kernel, the DHCP library and the connection
      client are the interface [EthPlatform].
    - [EthernetSpec]: every operation as an update of one interface and the
      calls it makes. [EthernetInv], [EthernetCorrect]: the invariant and that
      every request keeps it. [EthernetProps]: the properties. [EthernetStart],
      [EthernetStartProps]: the start statement by statement, among requests,
      and which of them race with it.
    - [EthernetIpc]: its stub and proxy, and their properties.
    - [Netlink]: the parsers of netLink_rtnl.cpp on a buffer of bytes, a read
      outside of which is undefined. [NetlinkSpec]: the format of the kernel, and
      where a parser can read. [NetlinkCorrect]: the loops. [NetlinkProps]: the
      properties of the parsers.
    - [NetlinkSocket]: the sockets and the listener of netLink_rtnl.cpp on the
      system calls [KernelOps]; [kernel_platform] is the [EthPlatform] made of
      them. [NetlinkSocketProps]: their properties.
    - [NetdRoute]: the route that netd_controller.cpp asks of the kernel when it
      is compiled without the native netd.
    - [EthernetConn]: what the service relies on ([RegistryLaws]), and that its
      interfaces stay registered. [EthernetConnProps]: the connection service,
      behind client, proxy and stub and with other clients, keeps these promises.
      [EthernetNetd]: a configuration on its way to netd.

    DNS resolver service (services/dnsresolvermanager):
    - [Regex]: the part of [std::regex] that the service uses, decided by
      derivatives.
    - [Dns]: dns_resolver_service.cpp and the resolver queries of
      netd_controller.cpp, over a memory: the list of [getaddrinfo] is a chain of
      blocks; a load or a release of a block that is not there is undefined, and
      so is [free] of one that is not an allocation of its own.
    - [DnsSpec]: the list as a Rocq list with the blocks it occupies, the loops
      over it and its release. [DnsCorrect]: every operation. [DnsProps]: the
      properties. [DnsIpc]: the stub and proxy, and their properties.

    Client libraries (frameworks/innerkitsimpl):
    - [Client]: the interfaces of the services as records of methods, of which
      the proxies are implementations, and what the four clients share
      ([GetProxy], [OnRemoteDied]). [Clients]: net_conn_client.cpp,
      net_policy_client.cpp, dns_resolver_client.cpp, ethernet_client.cpp.
    - [ClientSpec]: the states of a client and their invariant. [ClientProps]:
      the properties, from the client to the service.

    Timer (services/common/include/timer.h):
    - [Timer]: one thread of control and the threads of [Start] and [StartOnce],
      step by step, with the mutex and the condition variable. [TimerProps]: the
      invariant, how far a stop is from its end, and the properties.

    JavaScript bindings (frameworks/js):
    - [Napi]: the engine as the interface [Napi], the contexts and handles of a
      module ([jworld]), code that may leave early or use what is released
      ([nm]), napi_common.cpp, and what the functions of the modules share.
    - [NapiPolicy]: napi_net_policy.cpp. [NapiEthernet]: napi_ethernet.cpp.
      [NapiDns]: napi_dns_resolver.cpp.
    - [NapiSafe]: the invariant of contexts and handles, with any engine; a
      module promises to keep it ([SafeBinding]). [NapiSpec]: the values of a
      script, the laws of the engine, the machine of asynchronous calls.
      [NapiRefine]: a module that keeps its contract ([GoodBinding]) refines the
      machine and answers its calls. [NapiPolicyProps], [NapiEthernetProps],
      [NapiDnsProps]: the three modules keep theirs. [NapiHistory]: the order in
      which calls take effect. [NapiSample]: an engine and a run on it.
      [NapiProps]: the properties. [NapiMap]: from the script to the policy
      service.

    Native daemon and log (prebuilts/librarys/netd/include, utils/log):
    - [BlockingQueue]: blocking_queue.h, statement by statement, for any number of
      threads. [BlockingQueueProps]: the ring as a list, the invariant of the
      threads, the wake-ups that are under way, how far a run is from its end.
    - [NetUtils]: net_utils.h; what it only declares is the interface
      [NetUtilsLib]. [NetUtilsProps]: numbers in memory in either byte order, the
      order of addresses, socket addresses in memory.
    - [NetdHeaders]: dnsresolv.h, netlink_event.h, traffic_controller.h,
      interface_controller.h, socket_base.h, job.h, server_template.h and the
      jobs of fwmark_server.h and dnsresolv_service.h, and the descriptors that
      the state of a resolver query holds.
    - [Log]: net_mgr_log_wrapper.h and .cpp, with their properties.

    ** What the theorems show

    Connection service, for requests that run one at a time.
    [conn_no_undefined_behaviour]: from every reachable state every request
    returns. [conn_consistent]: the lists, the heap and the default service
    agree. [capability_race]: two requests at once, and they do not.
    [registry_refinement]: every request acts on an abstract registry as
    specified. [supplier_identity], [register_idempotent],
    [unregister_removes], [callback_roundtrip]: identities, repetition, removal.
    [service_connect], [never_requests_network], [reconnect_tears_down]: the
    activation of a network and its two defects. [link_update_calls],
    [link_update_loses_route]: what a link update stores and which calls of netd
    it makes, and two of them that undo each other. [reserve_fresh], [reserve_exhausted_reuses],
    [first_reservations], [release_then_reserve]: network ids.

    IPC and clients. [conn_ipc_transparent], [policy_ipc_transparent],
    [eth_ipc_transparent], [dns_ipc_transparent]: a call through proxy and stub
    is the call of the service. [conn_client_transparent],
    [policy_client_transparent], [eth_client_transparent],
    [dns_client_transparent]: so is a call of the client library, which answers
    itself when there is no service. [client_watches]: the recipients of death
    notices, each added and taken back once. [client_recovers]: a client finds
    the next object after any attempts in vain. [failed_cast_leaks]: a recipient
    that stays. [conn_ipc_no_effect],
    [callback_delivered]: cut and foreign messages, notifications.
    [parcel_roundtrips], [netlinkinfo_truncated]: the types that travel.

    Policy service. [policy_refinement]: a process answers every sequence of
    requests as a map from uids to policies. [policy_survives_restart]: the file
    has the lasting policies. [policy_restart_keeps_deleted],
    [policy_unwritable], [policy_bad_uid_aborts]: what goes wrong.

    Ethernet service. [eth_no_undefined_behaviour]: every request returns.
    [eth_link_event], [eth_configure]: exactly what a link event and a
    configuration do. [eth_dhcp_in_turn]: the DHCP client is started and stopped
    in turn. [eth_static_overridden], [eth_link_info_unnamed]: two defects.
    [netlink_roundtrip], [netlink_parsers_agree], [netlink_total]: the parsers
    on messages of the kernel, against each other, and on any bytes;
    [netlink_full_buffer_overruns]: the bytes they do not survive. [link_dump],
    [netlink_descriptors], [listener_spins]: the sockets, what they leave open,
    and the listener that ends in polling. [eth_start_tracks]: the start of the
    service on the answer of the kernel. [eth_start_interleaved]: the same start
    as its statements with requests between them: which requests race with it,
    and without a race how many steps it takes, which interfaces it ends with,
    and which link messages it loses. [eth_suppliers]: with the connection
    service, every interface is the supplier whose id it keeps, and
    [eth_static_reaches_netd]: a static configuration is stored there and makes
    exactly the calls of netd that it should. Both hold while each service
    handles one request at a time, the connection service lives and nobody
    removes a supplier.
    [add_route]: a route without the native netd.

    DNS resolver service. [dns_addresses]: what [GetAddressesByName] answers, and
    that it releases the list of the resolver exactly once when [free] accepts
    its blocks, and is undefined when not. [dns_infos_leak]: what [GetAddrInfo]
    answers, and that it never releases it. [domain_accepts]: the names that are
    resolved. [dns_stub_survives]: the messages that end the service.

    Timer. [timer_stop_terminates]: a stop returns, and then the thread is gone.
    [timer_one_thread]: there is
    one thread at most, and none that could use a destroyed timer.
    [once_outlives_timer], [once_runs_after_stop], [copied_timer_never_stops]:
    three defects.

    JavaScript bindings. [js_behaves]: with any engine, failing or not, nothing
    that is released is used and nothing is answered twice. [js_refines],
    [js_answers]: with the documented engine a module is the machine of
    asynchronous calls on its client, and every call with good arguments is
    answered. [js_types]: the types of the answers. [js_unanswered]: a call with
    bad ones, which is not. [js_linearizes]: the answers are those of one
    growing sequence of requests, which take effect one after another by the
    definition of [execute]. [script_policies]: so a script that sets and reads policies, through everything down to the
    file, deals with a map.

    Native daemon. [queue_fifo]: however any threads interleave, the blocking
    queue is a list with a bound, first in first out, and nothing undefined
    happens. [queue_progress]: no notification is lost, and threads whose pushes
    and pops balance make all of their calls. [addr_order]: the comparisons of
    addresses are a total order. [sockaddr_roundtrip]: a socket address survives
    its way through memory. [fd_closed_once]: the state of a resolver query closes
    the new descriptors that it is given, once. [no_capacity], [large_capacity], [largest_capacity],
    [unknown_family], [reset_own_descriptor]: the edges where this ends.

    ** Bounds and assumptions

    The refinement of the registry holds for up to 64512 registrations, the
    number of network ids until the counter wraps; supplier ids are
    [uint32_t], converted to [int32_t] in replies. The only loop that is not
    over a container is that of [ReserveNetId]; it is recursion on its number of
    iterations, at most 64412. The loops over the list of the resolver have the
    number of blocks in memory as fuel, which no list in it exceeds. The loops
    over link messages and their attributes have the number of bytes as fuel,
    and every round takes four at least. The listener of the kernel never ends:
    its theorems are about any number of rounds. Vectors
    that the code indexes with a [uint32_t] hold fewer than 2^32 elements. The
    blocking queue is of a capacity below 2^31 (the servers of the daemon use
    256); a run of it takes at most 20 steps for a call, and 10 for a wake-up
    nobody asked for. Code
    outside of the repository appears as type classes whose laws are its
    documented behaviour ([ParcelLaws], [JsonLaws], [HealthyDisk],
    [ResolverLaws], [socket_law], [read_law], [select_law], [NapiLaws],
    [NetUtilsLaws]), each with a concrete instance on which the witnesses run.

    ** What is not modelled

    The functions that the prebuilt headers only declare (they are in a binary),
    among them the pool that uses the blocking queue, the macros of the log,
    build files and tests. The code is that of a build with the native netd,
    apart from [NetdRoute]: without it the other calls of netd_controller.cpp
    return at once. Constructors that only initialise, empty destructors,
    getters of one member and the registration of the modules with their loaders
    have no definitions of their own. A number of a script is an integer; the
    arrays of bytes in the contexts of the bindings are the strings that are
    read of them, and the counts of bytes beside them, which nothing reads, are
    left out; what a script does inside of a callback comes after the step that
    calls it. The list of handlers of the netlink listener is changed without a
    lock by another thread: the model makes each message one step. The timer has
    one thread of control, and its tasks do not call it.

    Concurrent requests. The client libraries take a mutex to get and give up
    their object, the policy service and its file take one, and so do the network
    ids, the resolver calls of [NetdController] and the requests of the ethernet
    service.
    [NetConnService], [NetService], [Network] and [NetSupplier] take none, though
    requests come on several threads and the reconnection timer has its own: what
    two of them do at once is a data race, of which nothing is proved; the
    theorems of the connection service, and those of other services on top of it,
    are about requests that follow one another. The start of the ethernet service
    is one step of [eth_handle]; [EthernetStart] has it as many, and a request
    that uses the table while it is filled without its mutex
    (ethernet_management.cpp, Init) is undefined there; a request after the loop
    sees what the loop has written. A work of the bindings is one step from its
    context to the service and back. *)

From Stdlib Require Export ZArith Lia.
From stdpp Require Export base numbers option pretty strings gmap list.

Open Scope Z_scope.

(** ** Machine integers

    The C++ sources use [int32_t], [uint8_t], [uint16_t], [uint32_t] and
    [uint64_t]; a value is a [Z] and a conversion to a narrower type is the
    reduction modulo the width that the language defines. *)

Definition to_u (w : Z) (x : Z) : Z := x mod 2 ^ w.

Definition to_i (w : Z) (x : Z) : Z :=
  let y := x mod 2 ^ w in if y <? 2 ^ (w - 1) then y else y - 2 ^ w.

Definition in_u (w : Z) (x : Z) : Prop := 0 <= x < 2 ^ w.

Definition in_i (w : Z) (x : Z) : Prop := - 2 ^ (w - 1) <= x < 2 ^ (w - 1).

(** [std::to_string] of an integer or a [bool]. *)
Definition to_string (x : Z) : string := pretty x.

Definition bool_to_string (b : bool) : string := to_string (if b then 1 else 0).

Declare Scope cpp_scope.
Delimit Scope cpp_scope with cpp.
Notation "'(uint8_t)' x" := (to_u 8 x) (at level 9, x at level 9, only parsing) : cpp_scope.
Notation "'(uint16_t)' x" := (to_u 16 x) (at level 9, x at level 9, only parsing) : cpp_scope.
Notation "'(uint32_t)' x" := (to_u 32 x) (at level 9, x at level 9, only parsing) : cpp_scope.
Notation "'(int32_t)' x" := (to_i 32 x) (at level 9, x at level 9, only parsing) : cpp_scope.
Notation "a '&' b" := (Z.land a b) (at level 40, left associativity, only parsing) : cpp_scope.

(** ** Stateful code with undefined behaviour

    [st S A] is code over the state [S]: [None] is undefined behaviour (a
    dereference of a null or dangling pointer, an uncaught exception), and
    [Some (a, s)] is a normal return. *)

Definition st (S A : Type) : Type := S → option (A * S).

#[export] Instance st_ret S : MRet (st S) := λ A a s, Some (a, s).
#[export] Instance st_bind S : MBind (st S) :=
  λ A B k m s, match m s with Some (a, s') => k a s' | None => None end.

Definition gets {S A} (f : S → A) : st S A := λ s, Some (f s, s).
Definition modify {S} (f : S → S) : st S unit := λ s, Some (tt, f s).
Definition ub {S A} : st S A := λ _, None.
Definition deref {S A} (o : option A) : st S A :=
  match o with Some a => mret a | None => ub end.

(** A loop over the elements of a container, in order. *)
Fixpoint for_each {S A} (f : A → st S unit) (l : list A) : st S unit :=
  match l with
  | [] => mret tt
  | x :: l' => f x ≫= λ _, for_each f l'
  end.

(** [wp m Q s]: run from [s], [m] has no undefined behaviour and returns a
    value and a state that satisfy [Q]. *)
Definition wp {S A} (m : st S A) (Q : A → S → Prop) (s : S) : Prop :=
  ∃ a s', m s = Some (a, s') ∧ Q a s'.

(** First element that satisfies a boolean test: the shape of the lookup
    loops of the sources. *)
Fixpoint find_first {A} (p : A → bool) (l : list A) : option A :=
  match l with
  | [] => None
  | x :: l' => if p x then Some x else find_first p l'
  end.

(** Erase the first element that satisfies a test: the shape of the
    [erase(it); return] loops. *)
Fixpoint erase_first {A} (p : A → bool) (l : list A) : list A :=
  match l with
  | [] => []
  | x :: l' => if p x then l' else x :: erase_first p l'
  end.

(** ** Lemmas on machine integers *)

Create HintDb netdb.

Lemma to_u_small w x : in_u w x → to_u w x = x.
Proof. intros [??]. unfold to_u. by apply Z.mod_small. Qed.

Lemma to_i_small w x : 0 < w → in_i w x → to_i w x = x.
Proof.
  unfold in_i, to_i. intros Hw [Hl Hu].
  assert (Hp : 2 ^ w = 2 * 2 ^ (w - 1)).
  { rewrite <- Z.pow_succ_r by lia. f_equal. lia. }
  assert (0 < 2 ^ (w - 1)) by (apply Z.pow_pos_nonneg; lia).
  destruct (decide (0 <= x)).
  - rewrite (Z.mod_small x (2 ^ w)) by lia.
    destruct (Z.ltb_spec x (2 ^ (w - 1))); lia.
  - assert (Hm : x mod 2 ^ w = x + 2 ^ w).
    { symmetry. apply Z.mod_unique with (-1); lia. }
    rewrite Hm. destruct (Z.ltb_spec (x + 2 ^ w) (2 ^ (w - 1))); lia.
Qed.

Lemma to_u_range w x : 0 <= w → in_u w (to_u w x).
Proof. intros. unfold in_u, to_u. apply Z.mod_pos_bound. by apply Z.pow_pos_nonneg. Qed.

Lemma to_i_range w x : 0 < w → in_i w (to_i w x).
Proof.
  intros Hw. unfold in_i, to_i. pose proof (Z.mod_pos_bound x (2 ^ w)) as Hm.
  assert (2 ^ w = 2 * 2 ^ (w - 1)) by (rewrite <- Z.pow_succ_r by lia; f_equal; lia).
  assert (0 < 2 ^ (w - 1)) by (apply Z.pow_pos_nonneg; lia). destruct (Z.ltb_spec (x mod 2 ^ w) (2 ^ (w - 1))); lia.
Qed.

Lemma to_i_to_u p : in_i 32 p → to_i 32 (to_u 32 p) = p.
Proof.
  intros Hp. unfold to_i, to_u. rewrite Z.mod_mod by done. exact (to_i_small 32 p ltac:(done) Hp).
Qed.

Lemma to_i_idem x : to_i 32 (to_i 32 x) = to_i 32 x.
Proof. by apply to_i_small, to_i_range. Qed.

Lemma to_u_to_i x : to_u 32 (to_i 32 x) = to_u 32 x.
Proof.
  unfold to_i, to_u. destruct (_ <? _); [by apply Z.mod_mod|].
  replace (x mod 2 ^ 32 - 2 ^ 32) with (x mod 2 ^ 32 + (-1) * 2 ^ 32) by lia. rewrite Z_mod_plus_full. by apply Z.mod_mod.
Qed.

(** ** Lemmas on stateful code *)

Lemma wp_ret {S A} (a : A) (Q : A → S → Prop) s : Q a s → wp (mret a) Q s.
Proof. intros. by exists a, s. Qed.

Lemma wp_bind {S A B} (m : st S A) (k : A → st S B) Q s :
  wp m (λ a, wp (k a) Q) s → wp (m ≫= k) Q s.
Proof.
  intros (a & s' & Hm & b & s'' & Hk & HQ). exists b, s''. split; [|done].
  unfold mbind, st_bind. by rewrite Hm.
Qed.

Lemma wp_gets {S A} (f : S → A) (Q : A → S → Prop) s : Q (f s) s → wp (gets f) Q s.
Proof. intros. by exists (f s), s. Qed.

Lemma wp_modify {S} (f : S → S) (Q : unit → S → Prop) s : Q tt (f s) → wp (modify f) Q s.
Proof. intros. by exists tt, (f s). Qed.

Lemma wp_deref {S A} (a : A) (o : option A) (Q : A → S → Prop) s :
  o = Some a → Q a s → wp (deref o) Q s.
Proof. intros -> ?. by apply wp_ret. Qed.

Lemma wp_mono {S A} (m : st S A) (P Q : A → S → Prop) s :
  wp m P s → (∀ a s', P a s' → Q a s') → wp m Q s.
Proof. intros (a & s' & Hm & HP) HPQ. exists a, s'. auto. Qed.

Lemma wp_run {S A} (m : st S A) (Q : A → S → Prop) s a s' :
  wp m Q s → m s = Some (a, s') → Q a s'.
Proof. intros (a0 & s0 & Hm & HQ) Hr. by simplify_eq. Qed.

(** The result of a run satisfies every postcondition that the run has. *)
Lemma wp_and {S A} (m : st S A) (P Q : A → S → Prop) s :
  wp m P s → wp m Q s → wp m (λ a s', P a s' ∧ Q a s') s.
Proof.
  intros (a & s' & Hm & HP) HQ. exists a, s'. split; [done|].
  split; [done|]. exact (wp_run m Q s a s' HQ Hm).
Qed.

(** Code that runs a method and wraps its value. *)
Lemma bind_run {S A B} (m : st S A) (g : A → B) w r w' :
  (a ← m ; mret (g a)) w = Some (r, w') → ∃ a, m w = Some (a, w') ∧ r = g a.
Proof.
  unfold mbind, st_bind. destruct (m w) as [[a w1]|]; [|done]. intros [= <- <-]. eauto.
Qed.

(** Loop rule: an invariant that every iteration preserves. *)
Lemma wp_for_each {S A} (f : A → st S unit) (l : list A) (I : list A → S → Prop)
    (Q : unit → S → Prop) s :
  I l s →
  (∀ x l' s, I (x :: l') s → wp (f x) (λ _, I l') s) →
  (∀ s, I [] s → Q tt s) →
  wp (for_each f l) Q s.
Proof.
  intros HI Hstep HQ. revert s HI. induction l as [|x l IH]; intros s HI; simpl.
  - apply wp_ret. auto.
  - apply wp_bind. eapply wp_mono; [by apply Hstep|]. intros [] s' HI'. by apply IH.
Qed.

#[export] Hint Resolve wp_ret wp_gets wp_modify : netdb.

(** Steps through straight-line code. *)
Ltac wp_step :=
  match goal with
  | |- wp (mret _) _ _ => apply wp_ret
  | |- wp (_ ≫= _) _ _ => apply wp_bind
  | |- wp (gets _) _ _ => apply wp_gets
  | |- wp (modify _) _ _ => apply wp_modify
  | |- wp (if ?b then _ else _) _ _ => destruct b eqn:?
  end.

Ltac wp_steps := repeat wp_step.

(** ** Lemmas on the lookup and erase loops *)

Lemma find_first_Some {A} (p : A → bool) l x :
  find_first p l = Some x → x ∈ l ∧ p x = true.
Proof.
  induction l as [|y l IH]; simpl; [done|].
  destruct (p y) eqn:E; intros H.
  - simplify_eq. split; [left|done].
  - destruct (IH H). split; [by right|done].
Qed.

Lemma find_first_None {A} (p : A → bool) l :
  find_first p l = None ↔ ∀ x, x ∈ l → p x = false.
Proof.
  induction l as [|y l IH]; simpl.
  - split; [|done]. intros _ x Hx. by apply not_elem_of_nil in Hx.
  - destruct (p y) eqn:E.
    + split; [done|]. intros H. specialize (H y). rewrite E in H.
      exfalso. enough (true = false) by done. apply H. left.
    + rewrite IH. split.
      * intros H x Hx. apply elem_of_cons in Hx as [->|Hx]; auto.
      * intros H x Hx. apply H. by right.
Qed.

Lemma find_first_exists {A} (p : A → bool) l x :
  x ∈ l → p x = true → is_Some (find_first p l).
Proof.
  intros Hx Hp. destruct (find_first p l) eqn:E; [eauto|].
  rewrite find_first_None in E. rewrite E in Hp by done. done.
Qed.

Lemma find_first_ext {A} (p q : A → bool) l :
  (∀ x, x ∈ l → p x = q x) → find_first p l = find_first q l.
Proof.
  induction l as [|y l IH]; simpl; [done|]. intros H.
  rewrite (H y) by left. destruct (q y); [done|]. apply IH. intros x ?. apply H. by right.
Qed.

Lemma find_first_unique {A} (p : A → bool) l x :
  x ∈ l → p x = true → (∀ y, y ∈ l → p y = true → y = x) → find_first p l = Some x.
Proof.
  intros Hx Hp Hu. destruct (find_first_exists p l x Hx Hp) as [y Hy].
  rewrite Hy. apply find_first_Some in Hy as [??]. by rewrite (Hu y).
Qed.

Lemma erase_first_none {A} (p : A → bool) l :
  (∀ x, x ∈ l → p x = false) → erase_first p l = l.
Proof.
  induction l as [|y l IH]; simpl; [done|]. intros H.
  rewrite (H y) by left. f_equal. apply IH. intros x ?. apply H. by right.
Qed.

Lemma erase_first_sublist {A} (p : A → bool) l : erase_first p l `sublist_of` l.
Proof.
  induction l as [|y l IH]; simpl; [done|].
  destruct (p y); [by apply sublist_cons|by apply sublist_skip].
Qed.

Lemma elem_of_erase_first {A} (p : A → bool) l x : x ∈ erase_first p l → x ∈ l.
Proof. intros H. eapply elem_of_sublist; [exact H|apply erase_first_sublist]. Qed.

Lemma NoDup_erase_first {A} (p : A → bool) l : NoDup l → NoDup (erase_first p l).
Proof. intros H. eapply sublist_NoDup; [exact H|apply erase_first_sublist]. Qed.

(** When at most one element passes the test, erasing the first is filtering. *)
Lemma erase_first_filter {A} (p : A → bool) l :
  NoDup l → (∀ x y, x ∈ l → y ∈ l → p x = true → p y = true → x = y) →
  erase_first p l = filter (λ x, p x = false) l.
Proof.
  induction l as [|y l IH]; simpl; [done|]. intros Hnd Hu.
  apply NoDup_cons in Hnd as [Hy Hnd]. rewrite filter_cons.
  destruct (p y) eqn:E.
  - rewrite decide_False by congruence. symmetry.
    clear IH. induction l as [|z l IHl]; [done|].
    rewrite filter_cons. rewrite decide_True.
    + f_equal. apply IHl; [rewrite elem_of_cons in Hy; tauto| by apply NoDup_cons in Hnd as [_ ?]|].
      intros a b Ha Hb. apply Hu; rewrite !elem_of_cons in *; tauto.
    + destruct (p z) eqn:Ez; [|done]. exfalso. apply Hy.
      rewrite (Hu y z); [left| left | right; left | done | done].
  - rewrite decide_True by done. f_equal. apply IH; [done|].
    intros a b Ha Hb. apply Hu; by right.
Qed.

#[export] Hint Resolve elem_of_erase_first NoDup_erase_first : netdb.

(** A proper prefix of a concatenation ends in the first or in the second part. *)
Lemma prefix_app_cases {A} (l l1 l2 : list A) :
  l `prefix_of` l1 ++ l2 → l ≠ l1 ++ l2 →
  (l `prefix_of` l1 ∧ l ≠ l1) ∨ ∃ l', l = l1 ++ l' ∧ l' `prefix_of` l2 ∧ l' ≠ l2.
Proof.
  intros Hl Hne.
  assert (Hr : ∀ l', l1 ++ l' `prefix_of` l1 ++ l2 → l1 ++ l' ≠ l1 ++ l2 →
    l' `prefix_of` l2 ∧ l' ≠ l2) by (intros l' Hp Hn; split; [by eapply prefix_app_inv|by intros ->]).
  destruct (prefix_weak_total l l1 (l1 ++ l2)) as [Hp|[l' ->]]; [done|by exists l2| |].
  - destruct (decide (length l = length l1)) as [Hlen|Hlen].
    + assert (l1 = l) as ->.
      { destruct Hp as [l' ->]. rewrite length_app in Hlen.
        destruct l'; [by rewrite app_nil_r|simpl in Hlen; lia]. }
      right. exists []. rewrite app_nil_r. split; [done|]. apply Hr; by rewrite app_nil_r.
    + left. split; [done|]. by intros ->.
  - right. eauto.
Qed.

(** The sum of a quantity over a list of which one element changes. *)
Lemma sum_insert {A} (f : A → nat) (l : list A) i x y :
  l !! i = Some x → (sum_list_with f (<[i := y]> l) + f x = sum_list_with f l + f y)%nat.
Proof.
  revert i. induction l as [|z l IH]; intros [|i] Hl; simpl in *; [done|done|injection Hl as ->; lia|].
  specialize (IH i Hl). lia.
Qed.

(** ** Numbers in memory *)

(** The value of bytes, the lowest first, and the bytes of a value. *)
Fixpoint le_value (bs : list Z) : Z :=
  match bs with [] => 0 | b :: bs' => b + 256 * le_value bs' end.

Fixpoint le_bytes (n : nat) (x : Z) : list Z :=
  match n with O => [] | S n' => x mod 256 :: le_bytes n' (x / 256) end.

Definition bytes (bs : list Z) : Prop := Forall (in_u 8) bs.

Lemma le_value_range bs : bytes bs → in_u (8 * Z.of_nat (length bs)) (le_value bs).
Proof.
  unfold in_u. induction 1 as [|b bs [Hl Hu] _ IH]; [done|]. cbn [le_value length].
  change (2 ^ 8) with 256 in Hu.
  replace (8 * Z.of_nat (S (length bs))) with (8 + 8 * Z.of_nat (length bs)) by lia.
  rewrite Z.pow_add_r by lia. change (2 ^ 8) with 256. nia.
Qed.

Lemma le_bytes_length n x : length (le_bytes n x) = n.
Proof. revert x. induction n as [|n IH]; intros x; simpl; [done|]. by rewrite IH. Qed.

Lemma le_bytes_bytes n x : bytes (le_bytes n x).
Proof.
  revert x. induction n as [|n IH]; intros x; simpl; [constructor|]. constructor; [|apply IH].
  unfold in_u. apply Z.mod_pos_bound. lia.
Qed.

Lemma le_value_bytes n x : in_u (8 * Z.of_nat n) x → le_value (le_bytes n x) = x.
Proof.
  unfold in_u. revert x. induction n as [|n IH]; intros x Hx.
  - simpl in *. change (2 ^ 0) with 1 in Hx. lia.
  - cbn [le_bytes le_value].
    replace (8 * Z.of_nat (S n)) with (8 + 8 * Z.of_nat n) in Hx by lia.
    rewrite Z.pow_add_r in Hx by lia. change (2 ^ 8) with 256 in Hx.
    rewrite IH; [Z.to_euclidean_division_equations; lia|].
    split; [apply Z.div_pos; lia|]. apply Z.div_lt_upper_bound; lia.
Qed.

Lemma le_bytes_value bs : bytes bs → le_bytes (length bs) (le_value bs) = bs.
Proof.
  unfold bytes, in_u. induction 1 as [|b bs Hb _ IH]; [done|]. change (2 ^ 8) with 256 in Hb. cbn [length le_bytes le_value].
  assert (Hd : (b + 256 * le_value bs) / 256 = le_value bs) by (symmetry; apply Z.div_unique with b; lia).
  assert (Hm : (b + 256 * le_value bs) mod 256 = b) by (symmetry; apply Z.mod_unique with (le_value bs); lia).
  by rewrite Hd, Hm, IH.
Qed.

(** The value of bytes in network order. *)
Definition be_value (bs : list Z) : Z := le_value (rev bs).

(** The bytes of an object from an offset on; a read outside of it is undefined. *)
Definition bytes_at (buf : list Z) (off n : nat) : option (list Z) :=
  let s := take n (drop off buf) in
  if decide (length s = n) then Some s else None.

Lemma bytes_at_some buf off n :
  (off + n ≤ length buf)%nat → bytes_at buf off n = Some (take n (drop off buf)).
Proof.
  intros Hn. unfold bytes_at. rewrite decide_True; [done|]. rewrite length_take, length_drop. lia.
Qed.
