(* ===== verification/Parcel.v ===== *)
(** * Parcels: the message buffers of the IPC layer

    [Parcel] and [MessageParcel] belong to the platform, not to this
    repository, so a parcel is the interface [ParcelOps] with the laws
    [ParcelLaws] its documentation states: a typed first-in first-out buffer,
    whose writes may fail and whose reads fail when nothing is left.
    [pm] is the code that marshals into or unmarshals out of one parcel, with
    [None] for the early [return false] / [return nullptr] of the sources.
    A bounded queue instance shows that the laws can hold. *)

From S2P Require Import Prelude.

(** The kinds of values the sources write with [WriteX] and read with [ReadX]. *)
Inductive pkind :=
  | KBool | KInt32 | KUint8 | KUint16 | KUint32 | KUint64
  | KString | KInterfaceToken | KRemoteObject | KUInt32Vector.

#[export] Instance pkind_eq_dec : EqDecision pkind.
Proof. solve_decision. Defined.

Definition kty (k : pkind) : Type :=
  match k with
  | KBool => bool
  | KInt32 | KUint8 | KUint16 | KUint32 | KUint64 => Z
  | KString | KInterfaceToken => string
  | KRemoteObject => nat
  | KUInt32Vector => list Z
  end.

Record pitem := PItem { pi_kind : pkind; pi_val : kty pi_kind }.

Class ParcelOps (P : Type) := {
  parcel_new : P;
  pwrite : ∀ k : pkind, kty k → P → bool * P;
  pread : ∀ k : pkind, P → option (kty k) * P;
}.

(** [unread p l]: the data still to be read from [p] is [l], in order. *)
Class ParcelLaws (P : Type) `{ParcelOps P} := {
  unread : P → list pitem → Prop;
  unread_new : unread parcel_new [];
  unread_write : ∀ k v p p' l,
    unread p l → pwrite k v p = (true, p') → unread p' (l ++ [PItem k v]);
  unread_read : ∀ k v p l,
    unread p (PItem k v :: l) → ∃ p', pread k p = (Some v, p') ∧ unread p' l;
  unread_empty : ∀ k p,
    unread p [] → ∃ p', pread k p = (None, p') ∧ unread p' [];
}.

(** ** Marshalling code *)

Definition pm (P A : Type) : Type := P → option A * P.

#[export] Instance pm_ret P : MRet (pm P) := λ A a p, (Some a, p).
#[export] Instance pm_bind P : MBind (pm P) :=
  λ A B k m p, match m p with (Some a, p') => k a p' | (None, p') => (None, p') end.

Section Code.
Context {P : Type} `{ParcelOps P}.

Definition Write (k : pkind) (v : kty k) : pm P unit :=
  λ p, let '(ok, p') := pwrite k v p in (if ok then Some tt else None, p').

Definition Read (k : pkind) : pm P (kty k) := pread k.

Definition WriteBool : bool → pm P unit := Write KBool.
Definition WriteInt32 : Z → pm P unit := Write KInt32.
Definition WriteUint8 : Z → pm P unit := Write KUint8.
Definition WriteUint16 : Z → pm P unit := Write KUint16.
Definition WriteUint32 : Z → pm P unit := Write KUint32.
Definition WriteUint64 : Z → pm P unit := Write KUint64.
Definition WriteString : string → pm P unit := Write KString.
Definition ReadBool : pm P bool := Read KBool.
Definition ReadInt32 : pm P Z := Read KInt32.
Definition ReadUint8 : pm P Z := Read KUint8.
Definition ReadUint16 : pm P Z := Read KUint16.
Definition ReadUint32 : pm P Z := Read KUint32.
Definition ReadUint64 : pm P Z := Read KUint64.
Definition ReadString : pm P string := Read KString.

(** [for (auto it = l.begin(); it != l.end(); it++) if (!it->Marshalling(parcel)) return false;] *)
Fixpoint write_each {A} (w : A → pm P unit) (l : list A) : pm P unit :=
  match l with
  | [] => mret tt
  | x :: l' => w x ≫= λ _, write_each w l'
  end.

(** [for (uint32_t i = 0; i < size; i++) { x = Unmarshalling(parcel); ... push_back(x); }] *)
Fixpoint read_times {A} (r : pm P A) (n : nat) : pm P (list A) :=
  match n with
  | O => mret []
  | S n' => r ≫= λ x, read_times r n' ≫= λ l, mret (x :: l)
  end.

Definition read_list {A} (r : pm P A) (size : Z) : pm P (list A) :=
  read_times r (Z.to_nat size).

(** What a writer appends when it succeeds. *)
Definition writes `{!ParcelLaws P} (m : pm P unit) (l : list pitem) : Prop :=
  ∀ p q p', unread p q → m p = (Some tt, p') → unread p' (q ++ l).

(** What a reader returns and consumes. *)
Definition reads `{!ParcelLaws P} {A} (m : pm P A) (x : A) (l : list pitem) : Prop :=
  ∀ p q, unread p (l ++ q) → ∃ p', m p = (Some x, p') ∧ unread p' q.

(** [m] refuses every proper prefix of [w]: it reads what is there and fails
    at the first missing item. *)
Definition truncated `{!ParcelLaws P} {A} (m : pm P A) (w : list pitem) : Prop :=
  ∀ l p, l `prefix_of` w → l ≠ w → unread p l → ∃ p', m p = (None, p') ∧ unread p' [].

End Code.

(** Types that travel in parcels. *)
Class Parcelable (T : Type) := {
  marshal : ∀ {P} `{ParcelOps P}, T → pm P unit;
  unmarshal : ∀ {P} `{ParcelOps P}, pm P T;
}.

(** The contract: a wire format that both directions follow, for the values
    that satisfy [fits]. *)
Class ParcelableLaws (T : Type) `{Parcelable T} := {
  wire : T → list pitem;
  fits : T → Prop;
  marshal_writes : ∀ {P} `{ParcelLaws P} (x : T), writes (P:=P) (marshal x) (wire x);
  unmarshal_reads : ∀ {P} `{ParcelLaws P} (x : T),
    fits x → reads (P:=P) unmarshal x (wire x);
}.

(** ** Composition lemmas *)

Section Laws.
Context {P : Type} `{ParcelLaws P}.

Lemma writes_ret : writes (P:=P) (mret tt) [].
Proof. intros p q p' Hp [= <-]. by rewrite app_nil_r. Qed.

Lemma writes_Write k v : writes (P:=P) (Write k v) [PItem k v].
Proof.
  intros p q p' Hp. unfold Write. destruct (pwrite k v p) as [[] p0] eqn:E; [|done].
  intros [= <-]. by eapply unread_write.
Qed.

Lemma writes_bind (m n : pm P unit) l1 l2 :
  writes m l1 → writes n l2 → writes (m ≫= λ _, n) (l1 ++ l2).
Proof.
  intros Hm Hn p q p' Hp. unfold mbind, pm_bind.
  destruct (m p) as [[[]|] p0] eqn:E; [|done]. intros Hr.
  rewrite app_assoc. eapply Hn; [|exact Hr]. by eapply Hm.
Qed.

Lemma writes_each {A} (w : A → pm P unit) (f : A → list pitem) l :
  (∀ x, writes (w x) (f x)) → writes (write_each w l) (concat (f <$> l)).
Proof.
  intros Hw. induction l as [|x l IH]; simpl; [apply writes_ret|].
  by apply writes_bind.
Qed.

Lemma reads_ret {A} (x : A) : reads (P:=P) (mret x) x [].
Proof. intros p q Hp. by exists p. Qed.

Lemma reads_Read k v : reads (P:=P) (Read k) v [PItem k v].
Proof. intros p q Hp. by apply unread_read. Qed.

Lemma reads_bind {A B} (m : pm P A) (k : A → pm P B) x y l1 l2 :
  reads m x l1 → reads (k x) y l2 → reads (m ≫= k) y (l1 ++ l2).
Proof.
  intros Hm Hk p q Hp. rewrite <- app_assoc in Hp.
  destruct (Hm _ _ Hp) as (p1 & E1 & Hp1). destruct (Hk _ _ Hp1) as (p2 & E2 & Hp2).
  exists p2. unfold mbind, pm_bind. by rewrite E1.
Qed.

Lemma reads_times {A} (r : pm P A) (f : A → list pitem) (l : list A) :
  Forall (λ x, reads r x (f x)) l → reads (read_times r (length l)) l (concat (f <$> l)).
Proof.
  induction 1 as [|x l Hx Hl IH]; simpl; [apply reads_ret|].
  eapply reads_bind; [done|]. rewrite <- (app_nil_r (concat _)).
  eapply reads_bind; [done|]. apply reads_ret.
Qed.

Lemma reads_list {A} (r : pm P A) (f : A → list pitem) (l : list A) :
  Z.of_nat (length l) < 2 ^ 32 → Forall (λ x, reads r x (f x)) l →
  reads (read_list r (to_u 32 (Z.of_nat (length l)))) l (concat (f <$> l)).
Proof.
  intros Hl Hr. unfold read_list. rewrite to_u_small by (split; lia).
  rewrite Nat2Z.id. by apply reads_times.
Qed.

(** The bind rules with the consumed items left open, for goals whose wire
    format is one flat list. *)
Lemma writes_bind_cons k v (n : pm P unit) l :
  writes n l → writes (Write k v ≫= λ _, n) (PItem k v :: l).
Proof. intros. change (PItem k v :: l) with ([PItem k v] ++ l). by apply writes_bind; [apply writes_Write|]. Qed.

Lemma reads_bind_cons {B} k v (f : kty k → pm P B) y l :
  reads (f v) y l → reads (Read k ≫= f) y (PItem k v :: l).
Proof.
  intros. change (PItem k v :: l) with ([PItem k v] ++ l).
  by eapply reads_bind; [apply reads_Read|].
Qed.

Lemma truncated_nil {A} (m : pm P A) : truncated m [].
Proof. intros l p Hl Hne. by apply prefix_nil_inv in Hl. Qed.

Lemma truncated_bind {A B} (m : pm P A) (k : A → pm P B) x l1 l2 :
  reads m x l1 → truncated m l1 → truncated (k x) l2 → truncated (m ≫= k) (l1 ++ l2).
Proof.
  intros Hr Hm Hk l p Hl Hne Hp. unfold mbind, pm_bind.
  destruct (prefix_app_cases _ _ _ Hl Hne) as [[Hpr Hn]|(l' & -> & Hpr & Hn)].
  - destruct (Hm l p Hpr Hn Hp) as (p' & -> & ?). by exists p'.
  - destruct (Hr _ _ Hp) as (p1 & -> & Hp1). by apply (Hk l' p1).
Qed.

Lemma truncated_bind_cons {B} k v (f : kty k → pm P B) l :
  truncated (f v) l → truncated (Read k ≫= f) (PItem k v :: l).
Proof.
  intros Hf. change (PItem k v :: l) with ([PItem k v] ++ l).
  eapply truncated_bind; [apply reads_Read| |done].
  intros l' p Hl Hne Hp. destruct l' as [|y l'].
  - destruct (unread_empty k p Hp) as (p' & E & ?). by exists p'.
  - exfalso. apply Hne. apply prefix_cons_inv_2 in Hl as Hl2. apply prefix_nil_inv in Hl2.
    apply prefix_cons_inv_1 in Hl. by subst.
Qed.

Lemma truncated_times {A} (r : pm P A) (f : A → list pitem) (l : list A) :
  (∀ x, reads r x (f x)) → (∀ x, truncated r (f x)) →
  truncated (read_times r (length l)) (concat (f <$> l)).
Proof.
  intros Hr Ht. induction l as [|x l IH]; simpl; [apply truncated_nil|].
  eapply truncated_bind; [done|done|]. rewrite <- (app_nil_r (concat _)).
  eapply truncated_bind; [apply reads_times; by apply Forall_true|done|apply truncated_nil].
Qed.

Lemma reads_ret_eq {A} (x y : A) : x = y → reads (P:=P) (mret x) y [].
Proof. intros ->. apply reads_ret. Qed.

End Laws.

(** A marshalled value is read back, from any parcel, with nothing left over. *)
Lemma parcelable_roundtrip {T} `{ParcelableLaws T} {P} `{ParcelLaws P} (x : T) p q p' :
  unread p q → fits x → marshal x p = (Some tt, p') →
  ∀ p0, unread p0 (wire x) →
  unread p' (q ++ wire x) ∧ ∃ p1, unmarshal p0 = (Some x, p1) ∧ unread p1 [].
Proof.
  intros Hq Hf Hm p0 Hp0. split; [by eapply marshal_writes|].
  apply unmarshal_reads; [done|]. by rewrite app_nil_r.
Qed.

#[export] Hint Resolve writes_ret writes_Write reads_ret reads_Read : netdb.

(** ** A bounded queue is a parcel *)

Module Queue.

Definition queue := list pitem.

Definition capacity : nat := 1024.

Definition qwrite (k : pkind) (v : kty k) (p : queue) : bool * queue :=
  if decide (length p < capacity)%nat then (true, p ++ [PItem k v]) else (false, p).

Definition qcast (k k' : pkind) (v : kty k) : option (kty k') :=
  match decide (k = k') with
  | left e => Some (eq_rect k kty v k' e)
  | right _ => None
  end.

Definition qread (k : pkind) (p : queue) : option (kty k) * queue :=
  match p with
  | [] => (None, [])
  | i :: p' => match qcast (pi_kind i) k (pi_val i) with
               | Some v => (Some v, p')
               | None => (None, p)
               end
  end.

#[export] Instance queue_ops : ParcelOps queue :=
  {| parcel_new := []; pwrite := qwrite; pread := qread |}.

Lemma qcast_same k v : qcast k k v = Some v.
Proof. unfold qcast. by rewrite (decide_True_pi (P := k = k) eq_refl). Qed.

#[export] Instance queue_laws : ParcelLaws queue.
Proof.
  refine {| unread := λ p l, p = l |}.
  - done.
  - intros k v p p' l ->. simpl. unfold qwrite. case_decide; by intros [= <-].
  - intros k v p l ->. exists l. simpl. by rewrite qcast_same.
  - intros k p ->. by exists [].
Defined.

End Queue.
