(* ===== verification/Parcelables.v ===== *)
(** * The data types that travel in parcels

    One module per [Parcelable] struct of
    [interfaces/innerkits/native/*/include] with the code of
    [frameworks/innerkitsimpl/*/src/*.cpp]: the fields, [operator==],
    [Marshalling] (member and static), [Unmarshalling] and [ToString]. A
    [uintN_t] field is a [Z]; its range is in [fits] only where the code
    depends on it. *)

From S2P Require Import Prelude Parcel.

(** [static bool T::Marshalling(Parcel &parcel, const sptr<T> &object)] first
    refuses a null pointer. *)
Definition marshal_ptr {P T} `{ParcelOps P} (m : T → pm P unit) (object : option T) : pm P unit :=
  match object with
  | None => λ p, (None, p)
  | Some x => m x
  end.

Definition dquote : string := String (Ascii.ascii_of_nat 34) EmptyString.
Definition newline : string := String (Ascii.ascii_of_nat 10) EmptyString.

(** ** inet_addr.h, inet_addr.cpp *)

Module INetAddr.

Record t := mk {
  type_ : Z;
  family_ : Z;
  prefixlen_ : Z;
  address_ : string;
  netMask_ : string;
  hostName_ : string;
}.

Definition UNKNOWN : Z := 0.
Definition IPV4 : Z := 1.
Definition IPV6 : Z := 2.

(** The default member initialisers. *)
Definition default : t := mk UNKNOWN 0 0 "" "" "".

#[global] Instance t_eq_dec : EqDecision t.
Proof. solve_decision. Defined.

Definition eqb (a b : t) : bool :=
  let out := true in
  let out := out && (type_ a =? type_ b) in
  let out := out && (family_ a =? family_ b) in
  let out := out && (prefixlen_ a =? prefixlen_ b) in
  let out := out && String.eqb (address_ a) (address_ b) in
  let out := out && String.eqb (netMask_ a) (netMask_ b) in
  let out := out && String.eqb (hostName_ a) (hostName_ b) in
  out.

Definition Marshalling {P} `{ParcelOps P} (x : t) : pm P unit :=
  WriteUint8 (type_ x) ;;
  WriteUint8 (family_ x) ;;
  WriteUint8 (prefixlen_ x) ;;
  WriteString (address_ x) ;;
  WriteString (netMask_ x) ;;
  WriteString (hostName_ x).

Definition Unmarshalling {P} `{ParcelOps P} : pm P t :=
  type ← ReadUint8 ;
  family ← ReadUint8 ;
  prefixlen ← ReadUint8 ;
  address ← ReadString ;
  netMask ← ReadString ;
  hostName ← ReadString ;
  mret (mk type family prefixlen address netMask hostName).

Definition MarshallingPtr {P} `{ParcelOps P} (object : option t) : pm P unit :=
  marshal_ptr (λ object,
    WriteUint8 (type_ object) ;;
    WriteUint8 (family_ object) ;;
    WriteUint8 (prefixlen_ object) ;;
    WriteString (address_ object) ;;
    WriteString (netMask_ object) ;;
    WriteString (hostName_ object)) object.

Definition ToString (x : t) : string :=
  let familyStr := to_string (family_ x) in
  let prefixlenStr := to_string (prefixlen_ x) in
  "{" +:+
  dquote +:+ "family_" +:+ dquote +:+ ":" +:+ dquote +:+ familyStr +:+ dquote +:+ "," +:+
  dquote +:+ "prefixlen_" +:+ dquote +:+ ":" +:+ dquote +:+ prefixlenStr +:+ dquote +:+ "," +:+
  dquote +:+ "address_" +:+ dquote +:+ ":" +:+ dquote +:+ address_ x +:+ dquote +:+ "," +:+
  dquote +:+ "netMask_" +:+ dquote +:+ ":" +:+ dquote +:+ netMask_ x +:+ dquote +:+ "}".

#[global] Instance parcelable : Parcelable t :=
  {| marshal := λ P H x, Marshalling x; unmarshal := λ P H, Unmarshalling |}.

Definition wire (x : t) : list pitem :=
  [PItem KUint8 (type_ x); PItem KUint8 (family_ x); PItem KUint8 (prefixlen_ x);
   PItem KString (address_ x); PItem KString (netMask_ x); PItem KString (hostName_ x)].

End INetAddr.

(** ** route.h, route.cpp *)

Module Route.

Record t := mk {
  iface_ : string;
  destination_ : INetAddr.t;
  gateway_ : INetAddr.t;
}.

Definition default : t := mk "" INetAddr.default INetAddr.default.

#[global] Instance t_eq_dec : EqDecision t.
Proof. solve_decision. Defined.

Definition eqb (a b : t) : bool :=
  let out := true in
  let out := out && String.eqb (iface_ a) (iface_ b) in
  let out := out && INetAddr.eqb (destination_ a) (destination_ b) in
  let out := out && INetAddr.eqb (gateway_ a) (gateway_ b) in
  out.

Definition Marshalling {P} `{ParcelOps P} (x : t) : pm P unit :=
  WriteString (iface_ x) ;;
  INetAddr.Marshalling (destination_ x) ;;
  INetAddr.Marshalling (gateway_ x).

Definition Unmarshalling {P} `{ParcelOps P} : pm P t :=
  iface ← ReadString ;
  destination ← INetAddr.Unmarshalling ;
  gateway ← INetAddr.Unmarshalling ;
  mret (mk iface destination gateway).

Definition MarshallingPtr {P} `{ParcelOps P} (object : option t) : pm P unit :=
  marshal_ptr (λ object,
    WriteString (iface_ object) ;;
    INetAddr.Marshalling (destination_ object) ;;
    INetAddr.Marshalling (gateway_ object)) object.

Definition ToString (tab : string) (x : t) : string :=
  newline +:+ tab +:+ "[Route]" +:+
  newline +:+ tab +:+ "iface_ = " +:+ iface_ x +:+
  newline +:+ tab +:+ "destination_ = " +:+ INetAddr.ToString (destination_ x) +:+
  newline +:+ tab +:+ "gateway_ = " +:+ INetAddr.ToString (gateway_ x).

#[global] Instance parcelable : Parcelable t :=
  {| marshal := λ P H x, Marshalling x; unmarshal := λ P H, Unmarshalling |}.

Definition wire (x : t) : list pitem :=
  PItem KString (iface_ x) :: INetAddr.wire (destination_ x) ++ INetAddr.wire (gateway_ x).

End Route.

(** ** net_link_info.h, net_link_info.cpp *)

Module NetLinkInfo.

Record t := mk {
  ifaceName_ : string;
  domain_ : string;
  netAddrList_ : list INetAddr.t;
  dnsList_ : list INetAddr.t;
  routeList_ : list Route.t;
  mtu_ : Z;
}.

Definition default : t := mk "" "" [] [] [] 0.

#[global] Instance t_eq_dec : EqDecision t.
Proof. solve_decision. Defined.

(** [parcel.WriteUint32(list.size())] and the loop over the list. *)
Definition write_list {P A} `{ParcelOps P} (w : A → pm P unit) (l : list A) : pm P unit :=
  WriteUint32 (to_u 32 (Z.of_nat (length l))) ;; write_each w l.

Definition Marshalling {P} `{ParcelOps P} (x : t) : pm P unit :=
  WriteString (ifaceName_ x) ;;
  WriteString (domain_ x) ;;
  write_list INetAddr.Marshalling (netAddrList_ x) ;;
  write_list INetAddr.Marshalling (dnsList_ x) ;;
  write_list Route.Marshalling (routeList_ x) ;;
  WriteUint16 (mtu_ x).

Definition Unmarshalling {P} `{ParcelOps P} : pm P t :=
  ifaceName ← ReadString ;
  domain ← ReadString ;
  size ← ReadUint32 ;
  netAddrList ← read_list INetAddr.Unmarshalling size ;
  size ← ReadUint32 ;
  dnsList ← read_list INetAddr.Unmarshalling size ;
  size ← ReadUint32 ;
  routeList ← read_list Route.Unmarshalling size ;
  mtu ← ReadUint16 ;
  mret (mk ifaceName domain netAddrList dnsList routeList mtu).

Definition MarshallingPtr {P} `{ParcelOps P} (object : option t) : pm P unit :=
  marshal_ptr (λ object,
    WriteString (ifaceName_ object) ;;
    WriteString (domain_ object) ;;
    write_list INetAddr.Marshalling (netAddrList_ object) ;;
    write_list INetAddr.Marshalling (dnsList_ object) ;;
    write_list Route.Marshalling (routeList_ object) ;;
    WriteUint16 (mtu_ object)) object.

Definition ToString (tab : string) (x : t) : string :=
  let each {A} (f : A → string) (l : list A) : string :=
    foldr (λ a s, f a +:+ s) EmptyString l in
  newline +:+ tab +:+ "[NetLinkInfo]" +:+
  newline +:+ tab +:+ "ifaceName_ = " +:+ ifaceName_ x +:+
  newline +:+ tab +:+ "domain_ = " +:+ domain_ x +:+
  newline +:+ tab +:+ "netAddrList_ = " +:+ each INetAddr.ToString (netAddrList_ x) +:+
  newline +:+ tab +:+ "dnsList_ = " +:+ each INetAddr.ToString (dnsList_ x) +:+
  newline +:+ tab +:+ "routeList_ = " +:+ each (Route.ToString (tab +:+ "    ")) (routeList_ x) +:+
  newline +:+ tab +:+ "mtu_ = " +:+ to_string (mtu_ x).

#[global] Instance parcelable : Parcelable t :=
  {| marshal := λ P H x, Marshalling x; unmarshal := λ P H, Unmarshalling |}.

Definition wire_list {A} (f : A → list pitem) (l : list A) : list pitem :=
  PItem KUint32 (to_u 32 (Z.of_nat (length l))) :: concat (f <$> l).

Definition wire (x : t) : list pitem :=
  PItem KString (ifaceName_ x) :: PItem KString (domain_ x) ::
  wire_list INetAddr.wire (netAddrList_ x) ++ wire_list INetAddr.wire (dnsList_ x) ++
  wire_list Route.wire (routeList_ x) ++ [PItem KUint16 (mtu_ x)].

(** The element counts are written as [uint32_t]. *)
Definition fits (x : t) : Prop :=
  Z.of_nat (length (netAddrList_ x)) < 2 ^ 32 ∧
  Z.of_nat (length (dnsList_ x)) < 2 ^ 32 ∧
  Z.of_nat (length (routeList_ x)) < 2 ^ 32.

End NetLinkInfo.

(** ** net_specifier.h, net_specifier.cpp *)

Module NetSpecifier.

Definition NET_CAPABILITIES_NONE : Z := 0.
Definition NET_CAPABILITIES_INTERNET : Z := Z.shiftl 1 0.
Definition NET_CAPABILITIES_MMS : Z := Z.shiftl 1 1.
Definition NET_CAPABILITIES_MAX : Z := NET_CAPABILITIES_MMS + 1.

Definition NET_TYPE_UNKNOWN : Z := 0.
Definition NET_TYPE_CELLULAR : Z := 1.
Definition NET_TYPE_ETHERNET : Z := 2.
Definition NET_TYPE_MAX : Z := 3.

Record t := mk {
  ident_ : string;
  netType_ : Z;
  netCapabilities_ : Z;
}.

Definition default : t := mk "" NET_TYPE_UNKNOWN NET_CAPABILITIES_NONE.

Definition Marshalling {P} `{ParcelOps P} (x : t) : pm P unit :=
  WriteString (ident_ x) ;;
  WriteUint32 (netType_ x) ;;
  WriteUint64 (netCapabilities_ x).

Definition Unmarshalling {P} `{ParcelOps P} : pm P t :=
  ident ← ReadString ;
  netType ← ReadUint32 ;
  netCapabilities ← ReadUint64 ;
  mret (mk ident netType netCapabilities).

Definition MarshallingPtr {P} `{ParcelOps P} (object : option t) : pm P unit :=
  marshal_ptr (λ object,
    WriteString (ident_ object) ;;
    WriteUint32 (netType_ object) ;;
    WriteUint64 (netCapabilities_ object)) object.

Definition ToString (tab : string) (x : t) : string :=
  newline +:+ tab +:+ "[NetSpecifier]" +:+
  newline +:+ tab +:+ "ident_ = " +:+ ident_ x +:+
  newline +:+ tab +:+ "netType_ = " +:+ to_string (netType_ x) +:+
  newline +:+ tab +:+ "netCapabilities_ = " +:+ to_string (netCapabilities_ x).

(** [operator<] *)
Definition ltb (x spec : t) : bool :=
  (netType_ x <? netType_ spec) ||
  ((netType_ x =? netType_ spec) && (netCapabilities_ x <? netCapabilities_ spec)).

#[global] Instance parcelable : Parcelable t :=
  {| marshal := λ P H x, Marshalling x; unmarshal := λ P H, Unmarshalling |}.

Definition wire (x : t) : list pitem :=
  [PItem KString (ident_ x); PItem KUint32 (netType_ x); PItem KUint64 (netCapabilities_ x)].

End NetSpecifier.

(** ** net_supplier_info.h, net_supplier_info.cpp *)

Module NetSupplierInfo.

Record t := mk {
  isAvailable_ : bool;
  isRoaming_ : bool;
  strength_ : Z;
  frequency_ : Z;
}.

Definition default : t := mk false false 0 0.

Definition Marshalling {P} `{ParcelOps P} (x : t) : pm P unit :=
  WriteBool (isAvailable_ x) ;;
  WriteBool (isRoaming_ x) ;;
  WriteUint8 (strength_ x) ;;
  WriteUint32 (frequency_ x).

Definition Unmarshalling {P} `{ParcelOps P} : pm P t :=
  isAvailable ← ReadBool ;
  isRoaming ← ReadBool ;
  strength ← ReadUint8 ;
  frequency ← ReadUint32 ;
  mret (mk isAvailable isRoaming strength frequency).

Definition MarshallingPtr {P} `{ParcelOps P} (object : option t) : pm P unit :=
  marshal_ptr (λ object,
    WriteBool (isAvailable_ object) ;;
    WriteBool (isRoaming_ object) ;;
    WriteUint8 (strength_ object) ;;
    WriteUint32 (frequency_ object)) object.

Definition ToString (tab : string) (x : t) : string :=
  newline +:+ tab +:+ "[NetSupplierInfo]" +:+
  newline +:+ tab +:+ "isAvailable_ = " +:+ bool_to_string (isAvailable_ x) +:+
  newline +:+ tab +:+ "isRoaming_ = " +:+ bool_to_string (isRoaming_ x) +:+
  newline +:+ tab +:+ "strength_ = " +:+ to_string (strength_ x) +:+
  newline +:+ tab +:+ "frequency_ = " +:+ to_string (frequency_ x).

#[global] Instance parcelable : Parcelable t :=
  {| marshal := λ P H x, Marshalling x; unmarshal := λ P H, Unmarshalling |}.

Definition wire (x : t) : list pitem :=
  [PItem KBool (isAvailable_ x); PItem KBool (isRoaming_ x);
   PItem KUint8 (strength_ x); PItem KUint32 (frequency_ x)].

End NetSupplierInfo.

(** ** net_conn_callback_info.h, net_conn_callback_info.cpp *)

Module NetConnCallbackInfo.

Record t := mk {
  netState_ : Z;
  netType_ : Z;
}.

Definition default : t := mk 0 0.

Definition Marshalling {P} `{ParcelOps P} (x : t) : pm P unit :=
  WriteInt32 (netState_ x) ;;
  WriteUint32 (netType_ x).

Definition Unmarshalling {P} `{ParcelOps P} : pm P t :=
  netState ← ReadInt32 ;
  netType ← ReadUint32 ;
  mret (mk netState netType).

Definition MarshallingPtr {P} `{ParcelOps P} (object : option t) : pm P unit :=
  marshal_ptr (λ object,
    WriteInt32 (netState_ object) ;;
    WriteUint32 (netType_ object)) object.

Definition ToString (tab : string) (x : t) : string :=
  newline +:+ tab +:+ "[NetConnCallbackInfo]" +:+
  newline +:+ tab +:+ "netState_ = " +:+ to_string (netState_ x) +:+
  newline +:+ tab +:+ "netType_ = " +:+ to_string (netType_ x).

#[global] Instance parcelable : Parcelable t :=
  {| marshal := λ P H x, Marshalling x; unmarshal := λ P H, Unmarshalling |}.

Definition wire (x : t) : list pitem :=
  [PItem KInt32 (netState_ x); PItem KUint32 (netType_ x)].

End NetConnCallbackInfo.

(** ** dns_addr_info.h, dns_addr_info.cpp *)

Module DnsAddrInfo.

Record t := mk {
  flags_ : Z;
  family_ : Z;
  sockType_ : Z;
  protocol_ : Z;
  addr_ : string;
  canonName_ : string;
}.

Definition default : t := mk 0 0 0 0 "" "".

Definition Marshalling {P} `{ParcelOps P} (x : t) : pm P unit :=
  WriteInt32 (flags_ x) ;;
  WriteInt32 (family_ x) ;;
  WriteInt32 (sockType_ x) ;;
  WriteInt32 (protocol_ x) ;;
  WriteString (addr_ x).

Definition Unmarshalling {P} `{ParcelOps P} : pm P t :=
  flags ← ReadInt32 ;
  family ← ReadInt32 ;
  sockType ← ReadInt32 ;
  protocol ← ReadInt32 ;
  addr ← ReadString ;
  mret (mk flags family sockType protocol addr (canonName_ default)).

#[global] Instance parcelable : Parcelable t :=
  {| marshal := λ P H x, Marshalling x; unmarshal := λ P H, Unmarshalling |}.

Definition wire (x : t) : list pitem :=
  [PItem KInt32 (flags_ x); PItem KInt32 (family_ x); PItem KInt32 (sockType_ x);
   PItem KInt32 (protocol_ x); PItem KString (addr_ x)].

(** [canonName_] is not part of the wire format. *)
Definition fits (x : t) : Prop := canonName_ x = ""%string.

End DnsAddrInfo.

(** ** static_configuration.h, static_configuration.cpp *)

Module StaticConfiguration.

Record t := mk {
  ipAddr_ : INetAddr.t;
  route_ : INetAddr.t;
  gate_ : INetAddr.t;
  netMask_ : INetAddr.t;
  dnsServers_ : list INetAddr.t;
  domain_ : string;
}.

Definition default : t :=
  mk INetAddr.default INetAddr.default INetAddr.default INetAddr.default [] "".

Definition Marshalling {P} `{ParcelOps P} (x : t) : pm P unit :=
  INetAddr.Marshalling (ipAddr_ x) ;;
  INetAddr.Marshalling (route_ x) ;;
  INetAddr.Marshalling (gate_ x) ;;
  INetAddr.Marshalling (netMask_ x) ;;
  WriteUint32 (to_u 32 (Z.of_nat (length (dnsServers_ x)))) ;;
  write_each INetAddr.Marshalling (dnsServers_ x) ;;
  WriteString (domain_ x).

Definition Unmarshalling {P} `{ParcelOps P} : pm P t :=
  ipAddr ← INetAddr.Unmarshalling ;
  route ← INetAddr.Unmarshalling ;
  gate ← INetAddr.Unmarshalling ;
  netMask ← INetAddr.Unmarshalling ;
  size ← ReadUint32 ;
  dnsServers ← read_list INetAddr.Unmarshalling size ;
  domain ← ReadString ;
  mret (mk ipAddr route gate netMask dnsServers domain).

#[global] Instance parcelable : Parcelable t :=
  {| marshal := λ P H x, Marshalling x; unmarshal := λ P H, Unmarshalling |}.

Definition wire (x : t) : list pitem :=
  INetAddr.wire (ipAddr_ x) ++ INetAddr.wire (route_ x) ++ INetAddr.wire (gate_ x) ++
  INetAddr.wire (netMask_ x) ++
  PItem KUint32 (to_u 32 (Z.of_nat (length (dnsServers_ x)))) ::
  concat (INetAddr.wire <$> dnsServers_ x) ++ [PItem KString (domain_ x)].

Definition fits (x : t) : Prop := Z.of_nat (length (dnsServers_ x)) < 2 ^ 32.

End StaticConfiguration.

(** ** interface_configuration.h, interface_configuration.cpp *)

Module InterfaceConfiguration.

Definition STATIC : Z := 0.
Definition DHCP : Z := 1.

Record t := mk {
  mode_ : Z;
  ipStatic_ : StaticConfiguration.t;
}.

Definition Marshalling {P} `{ParcelOps P} (x : t) : pm P unit :=
  WriteInt32 (to_i 32 (mode_ x)) ;;
  StaticConfiguration.Marshalling (ipStatic_ x).

Definition Unmarshalling {P} `{ParcelOps P} : pm P t :=
  mode ← ReadInt32 ;
  sc ← StaticConfiguration.Unmarshalling ;
  mret (mk mode sc).

#[global] Instance parcelable : Parcelable t :=
  {| marshal := λ P H x, Marshalling x; unmarshal := λ P H, Unmarshalling |}.

Definition wire (x : t) : list pitem :=
  PItem KInt32 (to_i 32 (mode_ x)) :: StaticConfiguration.wire (ipStatic_ x).

Definition fits (x : t) : Prop :=
  in_i 32 (mode_ x) ∧ StaticConfiguration.fits (ipStatic_ x).

End InterfaceConfiguration.

(** * The wire contract of every type *)

(** Flat formats: a sequence of scalar fields. *)
Ltac solve_writes :=
  intros; repeat (apply writes_bind_cons); apply writes_Write.

Ltac solve_reads :=
  intros; repeat (apply reads_bind_cons); apply reads_ret_eq.

#[export] Instance INetAddr_laws : ParcelableLaws INetAddr.t.
Proof.
  refine {| wire := INetAddr.wire; fits := λ _, True |}.
  - intros. simpl. unfold INetAddr.Marshalling, INetAddr.wire. solve_writes.
  - intros P ? ? [] _. simpl. unfold INetAddr.Unmarshalling, INetAddr.wire. by solve_reads.
Defined.

#[export] Instance NetSpecifier_laws : ParcelableLaws NetSpecifier.t.
Proof.
  refine {| wire := NetSpecifier.wire; fits := λ _, True |}.
  - intros. simpl. unfold NetSpecifier.Marshalling, NetSpecifier.wire. solve_writes.
  - intros P ? ? [] _. simpl. unfold NetSpecifier.Unmarshalling, NetSpecifier.wire. by solve_reads.
Defined.

#[export] Instance NetSupplierInfo_laws : ParcelableLaws NetSupplierInfo.t.
Proof.
  refine {| wire := NetSupplierInfo.wire; fits := λ _, True |}.
  - intros. simpl. unfold NetSupplierInfo.Marshalling, NetSupplierInfo.wire. solve_writes.
  - intros P ? ? [] _. simpl. unfold NetSupplierInfo.Unmarshalling, NetSupplierInfo.wire.
    by solve_reads.
Defined.

#[export] Instance NetConnCallbackInfo_laws : ParcelableLaws NetConnCallbackInfo.t.
Proof.
  refine {| wire := NetConnCallbackInfo.wire; fits := λ _, True |}.
  - intros. simpl. unfold NetConnCallbackInfo.Marshalling, NetConnCallbackInfo.wire. solve_writes.
  - intros P ? ? [] _. simpl. unfold NetConnCallbackInfo.Unmarshalling, NetConnCallbackInfo.wire.
    by solve_reads.
Defined.

#[export] Instance DnsAddrInfo_laws : ParcelableLaws DnsAddrInfo.t.
Proof.
  refine {| wire := DnsAddrInfo.wire; fits := DnsAddrInfo.fits |}.
  - intros. simpl. unfold DnsAddrInfo.Marshalling, DnsAddrInfo.wire. solve_writes.
  - intros P ? ? [] Hf. simpl. unfold DnsAddrInfo.Unmarshalling, DnsAddrInfo.wire.
    unfold DnsAddrInfo.fits in Hf. simpl in Hf. subst. by solve_reads.
Defined.

Section Wire.
Context {P : Type} `{ParcelLaws P}.

Lemma writes_INetAddr x : writes (P:=P) (INetAddr.Marshalling x) (INetAddr.wire x).
Proof. exact (marshal_writes x). Qed.

Lemma reads_INetAddr x : reads (P:=P) INetAddr.Unmarshalling x (INetAddr.wire x).
Proof. exact (unmarshal_reads x I). Qed.

Lemma writes_Route x : writes (P:=P) (Route.Marshalling x) (Route.wire x).
Proof.
  unfold Route.Marshalling, Route.wire. apply writes_bind_cons.
  apply writes_bind; apply writes_INetAddr.
Qed.

Lemma reads_Route x : reads (P:=P) Route.Unmarshalling x (Route.wire x).
Proof.
  destruct x as [i d g]. unfold Route.Unmarshalling, Route.wire. apply reads_bind_cons.
  eapply reads_bind; [apply reads_INetAddr|]. rewrite <- (app_nil_r (INetAddr.wire _)).
  eapply reads_bind; [apply reads_INetAddr|]. apply reads_ret.
Qed.

Lemma writes_list {A} (w : A → pm P unit) (f : A → list pitem) l :
  (∀ x, writes (w x) (f x)) → writes (NetLinkInfo.write_list w l) (NetLinkInfo.wire_list f l).
Proof.
  intros Hw. unfold NetLinkInfo.write_list, NetLinkInfo.wire_list.
  apply writes_bind_cons. by apply writes_each.
Qed.

Lemma reads_sized_list {A B} (r : pm P A) (f : A → list pitem) l (k : list A → pm P B) y q :
  (∀ x, reads r x (f x)) → Z.of_nat (length l) < 2 ^ 32 → reads (k l) y q →
  reads (ReadUint32 ≫= λ size, read_list r size ≫= k) y (NetLinkInfo.wire_list f l ++ q).
Proof.
  intros Hr Hl Hk. unfold NetLinkInfo.wire_list. simpl. apply reads_bind_cons.
  eapply reads_bind; [|done]. apply reads_list; [done|]. by apply Forall_true.
Qed.

End Wire.

#[export] Hint Resolve writes_INetAddr reads_INetAddr writes_Route reads_Route : netdb.

#[export] Instance Route_laws : ParcelableLaws Route.t.
Proof.
  refine {| wire := Route.wire; fits := λ _, True |}.
  - intros. apply writes_Route.
  - intros. apply reads_Route.
Defined.

#[export] Instance NetLinkInfo_laws : ParcelableLaws NetLinkInfo.t.
Proof.
  refine {| wire := NetLinkInfo.wire; fits := NetLinkInfo.fits |}.
  - intros. simpl. unfold NetLinkInfo.Marshalling, NetLinkInfo.wire.
    do 2 apply writes_bind_cons.
    repeat (apply writes_bind; [apply writes_list; intros; eauto with netdb|]). apply writes_Write.
  - intros P ? ? [i d na dn rl m] (H1 & H2 & H3). simpl in *.
    unfold NetLinkInfo.Unmarshalling, NetLinkInfo.wire. simpl.
    do 2 apply reads_bind_cons.
    repeat (apply reads_sized_list; [intros; eauto with netdb|done|]).
    apply reads_bind_cons. apply reads_ret.
Defined.

#[export] Instance StaticConfiguration_laws : ParcelableLaws StaticConfiguration.t.
Proof.
  refine {| wire := StaticConfiguration.wire; fits := StaticConfiguration.fits |}.
  - intros. simpl. unfold StaticConfiguration.Marshalling, StaticConfiguration.wire.
    repeat (apply writes_bind; [apply writes_INetAddr|]). apply writes_bind_cons.
    apply writes_bind; [apply writes_each; intros; eauto with netdb|]. apply writes_Write.
  - intros P ? ? [i r g n dl d] Hf. unfold StaticConfiguration.fits in Hf. simpl in *.
    unfold StaticConfiguration.Unmarshalling, StaticConfiguration.wire.
    cbn -[INetAddr.wire app].
    repeat (eapply reads_bind; [apply reads_INetAddr|]).
    apply (reads_sized_list INetAddr.Unmarshalling INetAddr.wire); [eauto with netdb|done|].
    apply reads_bind_cons. apply reads_ret.
Defined.

#[export] Instance InterfaceConfiguration_laws : ParcelableLaws InterfaceConfiguration.t.
Proof.
  refine {| wire := InterfaceConfiguration.wire; fits := InterfaceConfiguration.fits |}.
  - intros. simpl. unfold InterfaceConfiguration.Marshalling, InterfaceConfiguration.wire.
    apply writes_bind_cons. exact (marshal_writes (InterfaceConfiguration.ipStatic_ x)).
  - intros P ? ? [m s] [Hm Hs]. simpl in *.
    unfold InterfaceConfiguration.Unmarshalling, InterfaceConfiguration.wire. simpl.
    rewrite to_i_small by (lia || done). apply reads_bind_cons.
    rewrite <- (app_nil_r (StaticConfiguration.wire s)).
    eapply reads_bind; [exact (unmarshal_reads s Hs)|]. apply reads_ret.
Defined.

(** ** Equality and order *)

Lemma INetAddr_eqb_eq a b : INetAddr.eqb a b = true ↔ a = b.
Proof.
  destruct a, b. unfold INetAddr.eqb. simpl.
  rewrite !andb_true_iff, !Z.eqb_eq, !String.eqb_eq.
  split; [intros; destruct_and!; by subst | intros [=]; subst; tauto].
Qed.

Lemma Route_eqb_eq a b : Route.eqb a b = true ↔ a = b.
Proof.
  destruct a, b. unfold Route.eqb. simpl.
  rewrite !andb_true_iff, !String.eqb_eq, !INetAddr_eqb_eq.
  split; [intros; destruct_and!; by subst | intros [=]; subst; tauto].
Qed.

(** ** Truncated messages *)

Section Truncated.
Context {P : Type} `{ParcelLaws P}.

Lemma truncated_INetAddr x : truncated (P:=P) INetAddr.Unmarshalling (INetAddr.wire x).
Proof.
  destruct x. unfold INetAddr.Unmarshalling, INetAddr.wire.
  repeat apply truncated_bind_cons. apply truncated_nil.
Qed.

Lemma truncated_Route x : truncated (P:=P) Route.Unmarshalling (Route.wire x).
Proof.
  destruct x as [i d g]. unfold Route.Unmarshalling, Route.wire. cbn -[INetAddr.wire].
  apply truncated_bind_cons.
  eapply truncated_bind; [apply reads_INetAddr|apply truncated_INetAddr|].
  rewrite <- (app_nil_r (INetAddr.wire _)).
  eapply truncated_bind; [apply reads_INetAddr|apply truncated_INetAddr|]. apply truncated_nil.
Qed.

Lemma truncated_sized_list {A B} (r : pm P A) (f : A → list pitem) l (k : list A → pm P B) q :
  (∀ x, reads r x (f x)) → (∀ x, truncated r (f x)) → Z.of_nat (length l) < 2 ^ 32 →
  truncated (k l) q →
  truncated (ReadUint32 ≫= λ size, read_list r size ≫= k) (NetLinkInfo.wire_list f l ++ q).
Proof.
  intros Hr Ht Hl Hk. unfold NetLinkInfo.wire_list. simpl. apply truncated_bind_cons.
  eapply truncated_bind; [apply reads_list; [done|by apply Forall_true]| |done].
  unfold read_list. rewrite to_u_small by (split; lia). rewrite Nat2Z.id.
  by apply truncated_times.
Qed.

Lemma truncated_NetLinkInfo x :
  NetLinkInfo.fits x → truncated (P:=P) NetLinkInfo.Unmarshalling (NetLinkInfo.wire x).
Proof.
  destruct x as [i d na dn rl m]. intros (H1 & H2 & H3). simpl in *.
  unfold NetLinkInfo.Unmarshalling, NetLinkInfo.wire. simpl. do 2 apply truncated_bind_cons.
  apply truncated_sized_list; [apply reads_INetAddr|apply truncated_INetAddr|done|].
  apply truncated_sized_list; [apply reads_INetAddr|apply truncated_INetAddr|done|].
  apply truncated_sized_list; [apply reads_Route|apply truncated_Route|done|].
  apply truncated_bind_cons. apply truncated_nil.
Qed.

End Truncated.
