(* ===== verification/ParcelProps.v ===== *)
(** * Round trips of the parcelable types

    What one process marshals, the other unmarshals, for every type that
    crosses the IPC boundary; a message that was cut short is refused. *)

From S2P Require Import Prelude Parcel Parcelables.

(** A value written to an empty parcel is read back from it. *)
Lemma fresh_roundtrip {T} `{ParcelableLaws T} {P} `{ParcelLaws P} (x : T) (p : P) :
  fits x → marshal x parcel_new = (Some tt, p) →
  ∃ p', unmarshal p = (Some x, p') ∧ unread p' [].
Proof.
  intros Hf Hm. apply (unmarshal_reads (P:=P) x Hf). rewrite app_nil_r.
  apply (marshal_writes (P:=P) x parcel_new [] p); [apply unread_new|done].
Qed.

Import Queue.

Definition an_addr : INetAddr.t := INetAddr.mk 1 2 24 "192.168.0.1" "255.255.255.0" "gw".

Definition a_link : NetLinkInfo.t :=
  NetLinkInfo.mk "eth0" "lan" [an_addr] [an_addr; INetAddr.default]
    [Route.mk "eth0" an_addr INetAddr.default] 1500.

Definition a_config : InterfaceConfiguration.t :=
  InterfaceConfiguration.mk 0
    (StaticConfiguration.mk an_addr INetAddr.default an_addr an_addr [an_addr] "lan").

(** C34. Every type that crosses the process boundary survives the parcel: what
    [Marshalling] writes, [Unmarshalling] reads back as the same value, with
    every element of its lists in order, and nothing is left in the parcel. The
    formats hold lists with fewer than 2^32 elements, modes of 32 bits, and DNS
    answers without a canonical name (the only field that is not written). *)
Theorem parcel_roundtrips {P} `{ParcelLaws P} (p : P) :
  (∀ x, NetLinkInfo.fits x → NetLinkInfo.Marshalling x parcel_new = (Some tt, p) →
     ∃ p', NetLinkInfo.Unmarshalling p = (Some x, p') ∧ unread p' []) ∧
  (∀ x, InterfaceConfiguration.fits x → InterfaceConfiguration.Marshalling x parcel_new = (Some tt, p) →
     ∃ p', InterfaceConfiguration.Unmarshalling p = (Some x, p') ∧ unread p' []) ∧
  (∀ x, INetAddr.Marshalling x parcel_new = (Some tt, p) →
     ∃ p', INetAddr.Unmarshalling p = (Some x, p') ∧ unread p' []) ∧
  (∀ x, Route.Marshalling x parcel_new = (Some tt, p) →
     ∃ p', Route.Unmarshalling p = (Some x, p') ∧ unread p' []) ∧
  (∀ x, NetSpecifier.Marshalling x parcel_new = (Some tt, p) →
     ∃ p', NetSpecifier.Unmarshalling p = (Some x, p') ∧ unread p' []) ∧
  (∀ x, NetSupplierInfo.Marshalling x parcel_new = (Some tt, p) →
     ∃ p', NetSupplierInfo.Unmarshalling p = (Some x, p') ∧ unread p' []) ∧
  (∀ x, NetConnCallbackInfo.Marshalling x parcel_new = (Some tt, p) →
     ∃ p', NetConnCallbackInfo.Unmarshalling p = (Some x, p') ∧ unread p' []) ∧
  (∀ x, DnsAddrInfo.canonName_ x = ""%string → DnsAddrInfo.Marshalling x parcel_new = (Some tt, p) →
     ∃ p', DnsAddrInfo.Unmarshalling p = (Some x, p') ∧ unread p' []).
Proof.
  repeat split; intros x; first [exact (fresh_roundtrip x p) | exact (fresh_roundtrip x p I)].
Qed.

Lemma parcel_roundtrips_witness :
  (∃ p p' : queue, NetLinkInfo.Marshalling a_link parcel_new = (Some tt, p) ∧
     NetLinkInfo.Unmarshalling p = (Some a_link, p') ∧ unread p' []) ∧
  (∃ p p' : queue, InterfaceConfiguration.Marshalling a_config parcel_new = (Some tt, p) ∧
     InterfaceConfiguration.Unmarshalling p = (Some a_config, p') ∧ unread p' []).
Proof.
  split.
  - eexists. edestruct (parcel_roundtrips (P:=queue)) as (Hr & _). edestruct (Hr a_link) as (p' & H1 & H2).
    + vm_compute. done.
    + vm_compute. reflexivity.
    + exists p'. split; [vm_compute; reflexivity|]. split; [exact H1|exact H2].
  - eexists. edestruct (parcel_roundtrips (P:=queue)) as (_ & Hr & _). edestruct (Hr a_config) as (p' & H1 & H2).
    + vm_compute. repeat split; discriminate.
    + vm_compute. reflexivity.
    + exists p'. split; [vm_compute; reflexivity|]. split; [exact H1|exact H2].
Defined.

(** Cut messages are refused: from a parcel that holds a proper prefix of
    marshalled link information, [NetLinkInfo::Unmarshalling] returns null, having
    read what was there. *)
Theorem netlinkinfo_truncated {P} `{ParcelLaws P} (x : NetLinkInfo.t) (p : P) l :
  NetLinkInfo.fits x → l `prefix_of` NetLinkInfo.wire x → l ≠ NetLinkInfo.wire x → unread p l →
  ∃ p', NetLinkInfo.Unmarshalling p = (None, p') ∧ unread p' [].
Proof. intros Hf. apply (truncated_NetLinkInfo x Hf). Qed.

Lemma netlinkinfo_truncated_witness :
  ∃ p' : queue, NetLinkInfo.Unmarshalling (take 20 (NetLinkInfo.wire a_link)) = (None, p') ∧
    unread p' [].
Proof.
  apply (netlinkinfo_truncated (P:=queue) a_link (take 20 (NetLinkInfo.wire a_link))
    (take 20 (NetLinkInfo.wire a_link))).
  - vm_compute. done.
  - apply prefix_take.
  - vm_compute. discriminate.
  - reflexivity.
Defined.
