(* ===== verification/Ipc.v ===== *)
(** * Stubs and proxies

    The pieces of which every [OnRemoteRequest], every handler of a stub and
    every method of a proxy are made. The transport is the platform's: a proxy
    is written against [remote], the [SendRequest] of the object it holds, and
    a stub is a function of the two parcels and the service state. *)

From S2P Require Import Prelude Parcel.

(** Constants and default handler of the IPC library. *)
Class IpcPlatform (P : Type) := {
  ERR_FLATTEN_OBJECT : Z;
  ERR_NULL_OBJECT : Z;
  IPC_PROXY_ERR : Z;
  IPCObjectStub_OnRemoteRequest : Z → P → P → Z * P;
}.

Section Ipc.
Context {P : Type} `{ParcelOps P} {S : Type}.

(** A handler takes [data] and [reply] and returns its code and the reply. *)
Definition handler : Type := P → P → st S (Z * P).

Definition finish (code : Z) : handler := λ _ reply, mret (code, reply).

(** [if (!data.ReadX(a)) return fail;] *)
Definition reading {A} (m : pm P A) (fail : Z) (k : A → handler) : handler := λ data reply,
  match m data with
  | (Some a, data') => k a data' reply
  | (None, _) => mret (fail, reply)
  end.

(** [auto a = T::Unmarshalling(data);] without a test. *)
Definition reading_any {A} (m : pm P A) (k : option A → handler) : handler := λ data reply,
  let '(o, data') := m data in k o data' reply.

(** A call of the service's own method. *)
Definition calling {A} (m : st S A) (k : A → handler) : handler := λ data reply,
  m ≫= λ a, k a data reply.

(** [if (!reply.WriteInt32(ret)) return fail; return ERR_NONE;] *)
Definition answer (ret fail : Z) : handler := λ _ reply,
  let '(ok, reply') := pwrite KInt32 ret reply in mret (if ok : bool then 0 else fail, reply').

(** [reply.WriteInt32(result); return result;] *)
Definition answer_code (result : Z) : handler := λ _ reply,
  mret (result, (pwrite KInt32 result reply).2).

(** [data.ReadInterfaceToken()]: empty when the parcel holds none. *)
Definition read_token (data : P) : string * P :=
  match pread KInterfaceToken data with
  | (Some t, data') => (t, data')
  | (None, data') => (EmptyString, data')
  end.

(** [OnRemoteRequest]: the descriptor, the function map, the default. *)
Definition on_remote_request `{IpcPlatform P} (descriptor : string) (map : Z → option handler)
    (code : Z) : handler := λ data reply,
  let '(token, data') := read_token data in
  if negb (String.eqb descriptor token) then mret (ERR_FLATTEN_OBJECT, reply)
  else match map code with
       | Some f => f data' reply
       | None => mret (IPCObjectStub_OnRemoteRequest code data' reply)
       end.

(** [Remote()]: null, or an object with its [SendRequest]. *)
Definition remote : Type := option (Z → handler).

(** [if (!data.WriteX(a)) return fail;] *)
Definition writing (m : pm P unit) (fail : Z) (k : P → st S Z) (data : P) : st S Z :=
  match m data with
  | (Some _, data') => k data'
  | (None, _) => mret fail
  end.

(** The same without the test. *)
Definition writing_any (m : pm P unit) (k : P → st S Z) (data : P) : st S Z := k (m data).2.

(** [remote->SendRequest(code, data, reply, option)] *)
Definition sending (r : remote) (null : Z) (code : Z) (k : Z → P → st S Z) (data : P) : st S Z :=
  match r with
  | None => mret null
  | Some f => ret ← f code data parcel_new ; k ret.1 ret.2
  end.

(** [reply.ReadInt32()]: 0 when the reply is empty. *)
Definition read_int32 (reply : P) : Z :=
  match pread KInt32 reply with (Some v, _) => v | (None, _) => 0 end.

(** [if (error != ERR_NONE) return error; return reply.ReadInt32();] *)
Definition error_or_reply (error : Z) (reply : P) : st S Z :=
  if negb (error =? 0) then mret error else mret (read_int32 reply).

(** [writing] and [sending] in a method whose result has another type: [fail]
    is its answer to a failed write, a null remote object and an error. *)
Definition writing_or {A} (m : pm P unit) (fail : A) (k : P → st S A) (data : P) : st S A :=
  match m data with
  | (Some _, data') => k data'
  | (None, _) => mret fail
  end.

Definition sending_then {A} (r : remote) (fail : A) (code : Z) (k : P → st S A) (data : P) : st S A :=
  match r with
  | None => mret fail
  | Some f =>
    ret ← f code data parcel_new ;
    if negb (ret.1 =? 0) then mret fail else k ret.2
  end.

Definition sending_or {A} (r : remote) (fail : A) (code : Z) (k : P → A) : P → st S A :=
  sending_then r fail code (λ reply, mret (k reply)).

Definition WriteInterfaceToken (descriptor : string) : pm P unit := Write KInterfaceToken descriptor.
Definition WriteRemoteObject (object : nat) : pm P unit := Write KRemoteObject object.
Definition ReadRemoteObject : pm P nat := Read KRemoteObject.

End Ipc.
Arguments handler : clear implicits.
Arguments remote : clear implicits.

(** A parcel whose writes always succeed. *)
Class RoomyParcel (P : Type) `{ParcelOps P} := {
  roomy : ∀ k v p, ∃ p', pwrite k v p = (true, p');
}.

(** ** How a request travels *)

Section IpcLemmas.
Context {P : Type} `{ParcelLaws P} `{!RoomyParcel P} {S : Type}.

Lemma roomy_Write k v (p : P) q :
  unread p q → ∃ p', Write k v p = (Some tt, p') ∧ unread p' (q ++ [PItem k v]).
Proof.
  intros Hp. destruct (roomy k v p) as [p' Hw]. exists p'. unfold Write. rewrite Hw.
  split; [done|]. by eapply unread_write.
Qed.

(** [sends m l]: [m] never fails and appends [l]. *)
Definition sends (m : pm P unit) (l : list pitem) : Prop :=
  ∀ p q, unread p q → ∃ p', m p = (Some tt, p') ∧ unread p' (q ++ l).

Lemma sends_Write k v : sends (Write k v) [PItem k v].
Proof. intros p q. apply roomy_Write. Qed.

Lemma sends_ret : sends (mret tt) [].
Proof. intros p q Hp. exists p. by rewrite app_nil_r. Qed.

Lemma sends_bind (m n : pm P unit) l1 l2 :
  sends m l1 → sends n l2 → sends (m ≫= λ _, n) (l1 ++ l2).
Proof.
  intros Hm Hn p q Hp. destruct (Hm p q Hp) as (p1 & E1 & H1). destruct (Hn p1 _ H1) as (p2 & E2 & H2).
  exists p2. unfold mbind, pm_bind. rewrite E1. by rewrite app_assoc.
Qed.

Lemma sends_bind_cons k v (n : pm P unit) l :
  sends n l → sends (Write k v ≫= λ _, n) (PItem k v :: l).
Proof. intros. change (PItem k v :: l) with ([PItem k v] ++ l). by apply sends_bind; [apply sends_Write|]. Qed.

Lemma sends_each {A} (w : A → pm P unit) (f : A → list pitem) l :
  (∀ x, sends (w x) (f x)) → sends (write_each w l) (concat (f <$> l)).
Proof.
  intros Hw. induction l as [|x l IH]; [apply sends_ret|]. rewrite fmap_cons. by apply sends_bind.
Qed.

Lemma writing_sends m l fail (k : P → st S Z) p q Q s :
  sends m l → unread p q → (∀ p', unread p' (q ++ l) → wp (k p') Q s) → wp (writing m fail k p) Q s.
Proof. intros Hm Hp HQ. unfold writing. destruct (Hm p q Hp) as (p' & -> & Hp'). by apply HQ. Qed.

Lemma writing_any_sends m l (k : P → st S Z) p q Q s :
  sends m l → unread p q → (∀ p', unread p' (q ++ l) → wp (k p') Q s) → wp (writing_any m k p) Q s.
Proof. intros Hm Hp HQ. unfold writing_any. destruct (Hm p q Hp) as (p' & -> & Hp'). by apply HQ. Qed.

Lemma writing_or_sends {A} m l (fail : A) (k : P → st S A) p q Q s :
  sends m l → unread p q → (∀ p', unread p' (q ++ l) → wp (k p') Q s) →
  wp (writing_or m fail k p) Q s.
Proof. intros Hm Hp HQ. unfold writing_or. destruct (Hm p q Hp) as (p' & -> & Hp'). by apply HQ. Qed.

(** The answer of the remote object, and its error. *)
Lemma sending_then_wp {A} (f : Z → handler P S) (fail : A) code (k : P → st S A) p Q s :
  wp (f code p parcel_new) (λ x, wp (if negb (x.1 =? 0) then mret fail else k x.2) Q) s →
  wp (sending_then (Some f) fail code k p) Q s.
Proof. intros Hf. by apply wp_bind. Qed.

Lemma sending_or_wp {A} (f : Z → handler P S) (fail : A) code (k : P → A) p Q s :
  wp (f code p parcel_new) (λ x, Q (if negb (x.1 =? 0) then fail else k x.2)) s →
  wp (sending_or (Some f) fail code k p) Q s.
Proof.
  intros Hf. apply sending_then_wp. eapply wp_mono; [exact Hf|]. intros x s'. cbn beta.
  destruct (negb (x.1 =? 0)); intros HQ; by apply wp_ret.
Qed.

Lemma sending_some f null code (k : Z → P → st S Z) p Q s :
  wp (f code p parcel_new) (λ ret, wp (k ret.1 ret.2) Q) s → wp (sending (Some f) null code k p) Q s.
Proof. intros Hf. by apply wp_bind. Qed.

Lemma reading_reads {A} (m : pm P A) x l fail (k : A → handler P S) p r q Q s :
  reads m x l → unread p (l ++ q) → (∀ p', unread p' q → wp (k x p' r) Q s) →
  wp (reading m fail k p r) Q s.
Proof. intros Hm Hp HQ. unfold reading. destruct (Hm p q Hp) as (p' & -> & Hp'). by apply HQ. Qed.

Lemma reading_item k v fail (f : kty k → handler P S) p r q Q s :
  unread p (PItem k v :: q) → (∀ p', unread p' q → wp (f v p' r) Q s) →
  wp (reading (Read k) fail f p r) Q s.
Proof. intros Hp HQ. by eapply reading_reads; [apply (reads_Read k v)|exact Hp|]. Qed.

Lemma reading_any_reads {A} (m : pm P A) x l (k : option A → handler P S) p r q Q s :
  reads m x l → unread p (l ++ q) → (∀ p', unread p' q → wp (k (Some x) p' r) Q s) →
  wp (reading_any m k p r) Q s.
Proof. intros Hm Hp HQ. unfold reading_any. destruct (Hm p q Hp) as (p' & -> & Hp'). by apply HQ. Qed.

Lemma calling_runs {A} (m : st S A) a s' (k : A → handler P S) p r Q s :
  m s = Some (a, s') → wp (k a p r) Q s' → wp (calling m k p r) Q s.
Proof. intros Hm HQ. apply wp_bind. by exists a, s'. Qed.

(** A reply that holds the answer. *)
Lemma answer_wp ret fail p r (Q : Z * P → S → Prop) s :
  unread r [] → (∀ r', unread r' [PItem KInt32 ret] → Q (0, r') s) → wp (answer ret fail p r) Q s.
Proof.
  intros Hr HQ. unfold answer. destruct (roomy KInt32 ret r) as [r' Hw]. rewrite Hw. apply wp_ret.
  apply HQ. by apply (unread_write _ _ _ _ [] Hr Hw).
Qed.

Lemma answer_code_wp ret p r (Q : Z * P → S → Prop) s :
  unread r [] → (∀ r', unread r' [PItem KInt32 ret] → Q (ret, r') s) → wp (answer_code ret p r) Q s.
Proof.
  intros Hr HQ. unfold answer_code. destruct (roomy KInt32 ret r) as [r' Hw]. rewrite Hw. apply wp_ret.
  apply HQ. by apply (unread_write _ _ _ _ [] Hr Hw).
Qed.

Lemma read_int32_reads (p : P) v q : unread p (PItem KInt32 v :: q) → read_int32 p = v.
Proof. intros Hp. unfold read_int32. destruct (unread_read _ _ _ _ Hp) as (p' & -> & _). done. Qed.

Lemma error_or_reply_ok r v (Q : Z → S → Prop) s :
  unread r [PItem KInt32 v] → Q v s → wp (error_or_reply (S:=S) 0 r) Q s.
Proof. intros Hr HQ. unfold error_or_reply. simpl. rewrite (read_int32_reads r v []) by done. by apply wp_ret. Qed.

Lemma error_or_reply_code r v (Q : Z → S → Prop) s :
  unread r [PItem KInt32 v] → Q v s → wp (error_or_reply (S:=S) v r) Q s.
Proof.
  intros Hr HQ. unfold error_or_reply. rewrite (read_int32_reads r v []) by done.
  destruct (negb _); by apply wp_ret.
Qed.

(** The stub lets a message with the right descriptor through. *)
Lemma on_remote_request_ok `{IpcPlatform P} d map code f p r l Q (s : S) :
  map code = Some f → unread p (PItem KInterfaceToken d :: l) →
  (∀ p', unread p' l → wp (f p' r) Q s) → wp (on_remote_request d map code p r) Q s.
Proof.
  intros Hf Hp HQ. unfold on_remote_request, read_token.
  destruct (unread_read _ _ _ _ Hp) as (p' & -> & Hp'). rewrite String.eqb_refl, Hf. by apply HQ.
Qed.

End IpcLemmas.

(** The next typed read of a handler, when the parcel holds the item. *)
Ltac read_next :=
  first [ eapply (reading_item KUint32) | eapply (reading_item KString)
        | eapply (reading_item KUint64) | eapply (reading_item KInt32)
        | eapply (reading_item KUint8) | eapply (reading_item KUint16)
        | eapply (reading_item KBool) ];
  [eassumption|intros ? ?].

(** ** An unbounded queue *)

Module Unbounded.

Record buffer := mkBuffer { items : list pitem }.

#[export] Instance unbounded_ops : ParcelOps buffer := {
  parcel_new := mkBuffer [];
  pwrite k v p := (true, mkBuffer (items p ++ [PItem k v]));
  pread k p := let '(o, l) := Queue.qread k (items p) in (o, mkBuffer l);
}.

#[export] Instance unbounded_laws : ParcelLaws buffer.
Proof.
  refine {| unread := λ p l, items p = l |}.
  - done.
  - by intros k v p p' l <- [= <-].
  - intros k v p l Hp. exists (mkBuffer l). simpl. rewrite Hp. simpl. by rewrite Queue.qcast_same.
  - intros k p Hp. exists (mkBuffer []). simpl. by rewrite Hp.
Defined.

#[export] Instance unbounded_roomy : RoomyParcel buffer.
Proof. split. intros k v p. by eexists. Qed.

#[export] Instance unbounded_ipc : IpcPlatform buffer := {
  ERR_FLATTEN_OBJECT := 5;
  ERR_NULL_OBJECT := 7;
  IPC_PROXY_ERR := 11;
  IPCObjectStub_OnRemoteRequest code _ reply := (305, reply);
}.

End Unbounded.
