(* ===== verification/NetmanagerIpc.v ===== *)
(** * What the stubs and proxies of the ethernet and DNS services share

    The codes of [netmanager_constants.h], the end of a handler and the
    dispatch of a request. *)

From S2P Require Import Prelude Parcel Ipc.

(** The codes are an offset that the error library computes, and the position
    in the enumeration. *)
Class ErrCodes := { COMMON_ERR_OFFSET : Z }.

Section Codes.
Context `{ErrCodes}.
Definition NETMANAGER_SUCCESS : Z := 0.
Definition NETMANAGER_ERR_STRING_EMPTY : Z := COMMON_ERR_OFFSET + 4.
Definition NETMANAGER_ERR_LOCAL_PTR_NULL : Z := COMMON_ERR_OFFSET + 5.
Definition NETMANAGER_ERR_DESCRIPTOR_MISMATCH : Z := COMMON_ERR_OFFSET + 7.
Definition NETMANAGER_ERR_WRITE_DESCRIPTOR_TOKEN_FAIL : Z := COMMON_ERR_OFFSET + 8.
Definition NETMANAGER_ERR_WRITE_DATA_FAIL : Z := COMMON_ERR_OFFSET + 9.
Definition NETMANAGER_ERR_WRITE_REPLY_FAIL : Z := COMMON_ERR_OFFSET + 10.
Definition NETMANAGER_ERR_READ_DATA_FAIL : Z := COMMON_ERR_OFFSET + 11.
Definition NETMANAGER_ERR_READ_REPLY_FAIL : Z := COMMON_ERR_OFFSET + 12.
Definition NETMANAGER_ERR_IPC_CONNECT_STUB_FAIL : Z := COMMON_ERR_OFFSET + 13.
End Codes.

Section Stub.
Context {P : Type} `{ParcelOps P} {S : Type} `{ErrCodes}.

(** [if (!<writes to reply>) return NETMANAGER_ERR_WRITE_REPLY_FAIL; ...;
    return NETMANAGER_SUCCESS;] *)
Definition replying (m : pm P unit) : handler P S := λ _ reply,
  match m reply with
  | (Some _, reply') => mret (NETMANAGER_SUCCESS, reply')
  | (None, reply') => mret (NETMANAGER_ERR_WRITE_REPLY_FAIL, reply')
  end.

(** [OnRemoteRequest] with the code for a wrong descriptor. *)
Definition netmanager_request `{IpcPlatform P} (descriptor : string) (map : Z → option (handler P S))
    (code : Z) : handler P S := λ data reply,
  let '(token, data') := read_token data in
  if negb (String.eqb descriptor token) then mret (NETMANAGER_ERR_DESCRIPTOR_MISMATCH, reply)
  else match map code with
       | Some f => f data' reply
       | None => mret (IPCObjectStub_OnRemoteRequest code data' reply)
       end.

End Stub.

Section StubLemmas.
Context {P : Type} `{ParcelLaws P} `{!RoomyParcel P} {S : Type} `{ErrCodes}.

Lemma replying_wp m l p r (Q : Z * P → S → Prop) s :
  sends m l → unread r [] → (∀ r', unread r' l → Q (0, r') s) → wp (replying m p r) Q s.
Proof.
  intros Hm Hr HQ. unfold replying. destruct (Hm r [] Hr) as (r' & -> & Hr'). by apply wp_ret, HQ.
Qed.

(** The stub lets a message with the right descriptor through. *)
Lemma netmanager_request_ok `{IpcPlatform P} d map code f p r l Q (s : S) :
  map code = Some f → unread p (PItem KInterfaceToken d :: l) →
  (∀ p', unread p' l → wp (f p' r) Q s) → wp (netmanager_request d map code p r) Q s.
Proof.
  intros Hf Hp HQ. unfold netmanager_request, read_token.
  destruct (unread_read _ _ _ _ Hp) as (p' & -> & Hp'). rewrite String.eqb_refl, Hf. by apply HQ.
Qed.

Lemma sends_names l : sends (P:=P) (write_each WriteString l) (PItem KString <$> l).
Proof.
  induction l as [|x l IH]; [apply sends_ret|]. rewrite fmap_cons. by apply sends_bind_cons.
Qed.

(** A request that is handled is a call of the service with its answer wrapped. *)
Lemma handled {A R} (m : st S A) (g : A → R) s r s' :
  (a ← m ; mret (g a)) s = Some (r, s') → ∃ a, m s = Some (a, s') ∧ r = g a.
Proof.
  unfold mbind, st_bind. destruct (m s) as [[a s1]|]; [|done]. intros [= <- <-]. eauto.
Qed.

End StubLemmas.
