(* ===== verification/Sends.v ===== *)
(** * Sending the parcelable types

    [Marshalling] into a parcel with room for everything: what it appends, for
    every type that is an argument of a request; and what [Unmarshalling] reads
    back from it. *)

From S2P Require Import Prelude Parcel Parcelables Ipc.

Section Sends.
Context {P : Type} `{ParcelLaws P}.

Lemma reads_DnsAddrInfo x :
  DnsAddrInfo.fits x → reads (P:=P) DnsAddrInfo.Unmarshalling x (DnsAddrInfo.wire x).
Proof. intros Hx. exact (unmarshal_reads x Hx). Qed.

Lemma reads_NetSpecifier x : reads (P:=P) NetSpecifier.Unmarshalling x (NetSpecifier.wire x).
Proof. exact (unmarshal_reads x I). Qed.

Lemma reads_NetSupplierInfo x : reads (P:=P) NetSupplierInfo.Unmarshalling x (NetSupplierInfo.wire x).
Proof. exact (unmarshal_reads x I). Qed.

Lemma reads_NetLinkInfo x :
  NetLinkInfo.fits x → reads (P:=P) NetLinkInfo.Unmarshalling x (NetLinkInfo.wire x).
Proof. intros Hx. exact (unmarshal_reads x Hx). Qed.

Lemma reads_InterfaceConfiguration x :
  InterfaceConfiguration.fits x →
  reads (P:=P) InterfaceConfiguration.Unmarshalling x (InterfaceConfiguration.wire x).
Proof. intros Hx. exact (unmarshal_reads x Hx). Qed.

Context `{!RoomyParcel P}.

Lemma sends_NetSpecifier x : sends (P:=P) (NetSpecifier.Marshalling x) (NetSpecifier.wire x).
Proof. destruct x. repeat apply sends_bind_cons. apply sends_Write. Qed.

Lemma sends_NetSupplierInfo x : sends (P:=P) (NetSupplierInfo.Marshalling x) (NetSupplierInfo.wire x).
Proof. destruct x. repeat apply sends_bind_cons. apply sends_Write. Qed.

Lemma sends_INetAddr x : sends (P:=P) (INetAddr.Marshalling x) (INetAddr.wire x).
Proof. destruct x. repeat apply sends_bind_cons. apply sends_Write. Qed.

Lemma sends_DnsAddrInfo x : sends (P:=P) (DnsAddrInfo.Marshalling x) (DnsAddrInfo.wire x).
Proof. destruct x. repeat apply sends_bind_cons. apply sends_Write. Qed.

Lemma sends_Route x : sends (P:=P) (Route.Marshalling x) (Route.wire x).
Proof.
  unfold Route.Marshalling, Route.wire. apply sends_bind_cons.
  apply sends_bind; apply sends_INetAddr.
Qed.

Lemma sends_write_list {A} (w : A → pm P unit) (f : A → list pitem) l :
  (∀ x, sends (w x) (f x)) → sends (NetLinkInfo.write_list w l) (NetLinkInfo.wire_list f l).
Proof. intros Hw. apply sends_bind_cons. by apply sends_each. Qed.

Lemma sends_NetLinkInfo x : sends (P:=P) (NetLinkInfo.Marshalling x) (NetLinkInfo.wire x).
Proof.
  unfold NetLinkInfo.Marshalling, NetLinkInfo.wire. do 2 apply sends_bind_cons.
  apply sends_bind; [apply sends_write_list, sends_INetAddr|].
  apply sends_bind; [apply sends_write_list, sends_INetAddr|].
  apply sends_bind; [apply sends_write_list, sends_Route|]. apply sends_Write.
Qed.

Lemma sends_InterfaceConfiguration x :
  sends (P:=P) (InterfaceConfiguration.Marshalling x) (InterfaceConfiguration.wire x).
Proof.
  unfold InterfaceConfiguration.Marshalling, InterfaceConfiguration.wire, StaticConfiguration.Marshalling,
    StaticConfiguration.wire. apply sends_bind_cons. do 4 (apply sends_bind; [apply sends_INetAddr|]).
  apply sends_bind_cons. apply sends_bind; [apply sends_each, sends_INetAddr|apply sends_Write].
Qed.

End Sends.

#[export] Hint Resolve sends_Write sends_NetSpecifier sends_NetSupplierInfo sends_NetLinkInfo
  sends_InterfaceConfiguration sends_DnsAddrInfo : netdb.
