(* ===== verification/Host.v ===== *)
(** * The host process: what the services call outside of this repository

    [Platform] is the interface of the code that is not in the repository:
    the prebuilt netd library ([prebuilts/librarys/netd]), the cellular data
    client, the common event service, the system ability manager and the
    callback objects of other processes. Every call may change the unknown
    state [E] behind it. [host] is the process: that state, the [NetdController]
    singleton of [services/common] and a log of the outgoing calls, in order.
    [BroadcastManager] and [NetdController] are modelled here. *)

From S2P Require Import Prelude Parcel Parcelables.

(** Calls on the netd library, with the arguments the library receives. *)
Inductive NetdCall :=
  | NdNetworkCreatePhysical (netId permission : Z)
  | NdNetworkDestroy (netId : Z)
  | NdNetworkAddInterface (netId : Z) (iface : string)
  | NdNetworkRemoveInterface (netId : Z) (iface : string)
  | NdNetworkAddRoute (netId : Z) (ifName destination nextHop : string)
  | NdNetworkRemoveRoute (netId : Z) (ifName destination nextHop : string)
  | NdInterfaceClearAddrs (ifName : string)
  | NdInterfaceGetMtu (ifName : string)
  | NdInterfaceSetMtu (ifName : string) (mtu : Z)
  | NdInterfaceAddAddress (ifName ipAddr : string) (prefixLength : Z)
  | NdInterfaceDelAddress (ifName ipAddr : string) (prefixLength : Z)
  | NdInterfaceSetConfig (ifName : string) (flags : list string)
  | NdSetResolverConfig (netId baseTimeoutMsec retryCount : Z) (servers domains : list string)
  | NdCreateNetworkCache (netId : Z)
  | NdDestoryNetworkCache (netId : Z)
  | NdFlushNetworkCache (netId : Z).

(** [BroadcastInfo] with the parameters of the want. *)
Record CommonEvent := mkCommonEvent {
  ce_action : string;
  ce_data : string;
  ce_code : Z;
  ce_ordered : bool;
  ce_params : list (string * string);
}.

(** A remote callback: [AsObject().GetRefPtr()] identifies it. *)
Record INetConnCallback := mkCallback { cb_object : nat }.

Inductive event :=
  | EvNetd (c : NetdCall)
  | EvRequestNet (ident : string) (cap : Z)
  | EvReleaseNet (ident : string) (cap : Z)
  | EvBroadcast (e : CommonEvent)
  | EvNotify (cb : INetConnCallback) (info : NetConnCallbackInfo.t)
  | EvPublishAbility.

#[global] Instance NetdCall_eq_dec : EqDecision NetdCall.
Proof. solve_decision. Defined.
#[global] Instance CommonEvent_eq_dec : EqDecision CommonEvent.
Proof. solve_decision. Defined.
#[global] Instance INetConnCallback_eq_dec : EqDecision INetConnCallback.
Proof. solve_decision. Defined.
#[global] Instance NetConnCallbackInfo_eq_dec : EqDecision NetConnCallbackInfo.t.
Proof. solve_decision. Defined.
#[global] Instance event_eq_dec : EqDecision event.
Proof. solve_decision. Defined.

Class Platform (E : Type) := {
  native_init : E → unit * E;
  native_netd : NetdCall → E → Z * E;
  native_interfaceGetConfig : string → E → list string * E;
  CellularRequestNet : string → Z → E → Z * E;
  CellularReleaseNet : string → Z → E → Z * E;
  PublishCommonEvent : CommonEvent → E → bool * E;
  RemoteNetConnStateChanged : INetConnCallback → NetConnCallbackInfo.t → E → Z * E;
  PublishAbility : E → bool * E;
  registerLocalResult : bool;
}.

(** ** The process state *)

Module NetdController.

Record t := mk {
  initFlag_ : bool;
  netdService_ : bool;       (* the unique_ptr is not null *)
  dnsResolvService_ : bool;
}.

(** The members before the constructor runs. *)
Definition blank : t := mk false false false.

Definition ERR_SERVICE_UPDATE_NET_LINK_INFO_FAIL : Z := -3.

End NetdController.

Record host (E : Type) := mkHost {
  h_netd : option NetdController.t;
  h_env : E;
  h_log : list event;
}.
Arguments mkHost {E}.
Arguments h_netd {E}.
Arguments h_env {E}.
Arguments h_log {E}.

Section Host.
Context {E : Type} `{Platform E}.

(** A call that leaves the process: logged, answered by the platform. *)
Definition ext {A} (ev : event) (f : E → A * E) : st (host E) A := λ h,
  let '(a, e) := f (h_env h) in Some (a, mkHost (h_netd h) e (h_log h ++ [ev])).

(** A query of the platform that is not an effect. *)
Definition query {A} (f : E → A * E) : st (host E) A := λ h,
  let '(a, e) := f (h_env h) in Some (a, mkHost (h_netd h) e (h_log h)).

Definition set_netd (c : option NetdController.t) : st (host E) unit :=
  modify (λ h, mkHost c (h_env h) (h_log h)).

Definition netd (c : NetdCall) : st (host E) Z := ext (EvNetd c) (native_netd c).

End Host.

(** ** broadcast_manager.cpp *)

Module BroadcastManager.
Section Code.
Context {E : Type} `{Platform E}.

(** [SendBroadcastEx], which the three [SendBroadcast] overloads forward to. *)
Definition SendBroadcastEx (info : CommonEvent) : st (host E) bool :=
  if String.eqb (ce_action info) "" then mret false
  else ext (EvBroadcast info) (PublishCommonEvent info).

Definition SendBroadcast (info : CommonEvent) : st (host E) bool := SendBroadcastEx info.

End Code.
End BroadcastManager.

(** ** netd_controller.cpp, built with [NATIVE_NETD_FEATURE] as every service of
    the repository is. Locks serialise the resolver calls; each call is one
    step of the model. *)

Module NetdControllerOps.
Import NetdController.
Section Code.
Context {E : Type} `{Platform E}.

Definition Init (c : t) : st (host E) t :=
  if initFlag_ c then mret c
  else query native_init ;; mret (mk true true true).

(** The singleton is created, and so initialised, on first use. *)
Definition GetInstance : st (host E) t :=
  o ← gets h_netd ;
  match o with
  | Some c => mret c
  | None => c ← Init blank ; set_netd (Some c) ;; mret c
  end.

(** [if (netdService_ == nullptr) return ERR...; return netdService_->call(...);] *)
Definition call_netd (c : NetdCall) : st (host E) Z :=
  self ← GetInstance ;
  if netdService_ self then netd c else mret ERR_SERVICE_UPDATE_NET_LINK_INFO_FAIL.

Definition call_dns (c : NetdCall) : st (host E) Z :=
  self ← GetInstance ;
  if dnsResolvService_ self then netd c else mret ERR_SERVICE_UPDATE_NET_LINK_INFO_FAIL.

Definition NetworkCreatePhysical (netId permission : Z) : st (host E) Z :=
  call_netd (NdNetworkCreatePhysical netId permission).

Definition NetworkDestroy (netId : Z) : st (host E) Z := call_netd (NdNetworkDestroy netId).

Definition NetworkAddInterface (netId : Z) (iface : string) : st (host E) Z :=
  call_netd (NdNetworkAddInterface netId iface).

Definition NetworkRemoveInterface (netId : Z) (iface : string) : st (host E) Z :=
  call_netd (NdNetworkRemoveInterface netId iface).

Definition NetworkAddRoute (netId : Z) (ifName destination nextHop : string) : st (host E) Z :=
  call_netd (NdNetworkAddRoute netId ifName destination nextHop).

Definition NetworkRemoveRoute (netId : Z) (ifName destination nextHop : string) : st (host E) Z :=
  call_netd (NdNetworkRemoveRoute netId ifName destination nextHop).

(** [std::find] of a flag, [erase] of that occurrence, [push_back] of the other. *)
Definition switch_flag (off on : string) (flags : list string) : list string :=
  erase_first (String.eqb off) flags ++ [on].

Definition SetInterfaceDown (iface : string) : st (host E) unit :=
  self ← GetInstance ;
  if netdService_ self then
    flags ← query (native_interfaceGetConfig iface) ;
    netd (NdInterfaceSetConfig iface (switch_flag "up" "down" flags)) ;; mret tt
  else mret tt.

Definition SetInterfaceUp (iface : string) : st (host E) unit :=
  self ← GetInstance ;
  if netdService_ self then
    flags ← query (native_interfaceGetConfig iface) ;
    netd (NdInterfaceSetConfig iface (switch_flag "down" "up" flags)) ;; mret tt
  else mret tt.

Definition InterfaceClearAddrs (ifName : string) : st (host E) unit :=
  self ← GetInstance ;
  if netdService_ self then netd (NdInterfaceClearAddrs ifName) ;; mret tt else mret tt.

Definition InterfaceGetMtu (ifName : string) : st (host E) Z :=
  call_netd (NdInterfaceGetMtu ifName).

Definition InterfaceSetMtu (ifName : string) (mtu : Z) : st (host E) Z :=
  call_netd (NdInterfaceSetMtu ifName mtu).

Definition InterfaceAddAddress (ifName ipAddr : string) (prefixLength : Z) : st (host E) Z :=
  call_netd (NdInterfaceAddAddress ifName ipAddr prefixLength).

Definition InterfaceDelAddress (ifName ipAddr : string) (prefixLength : Z) : st (host E) Z :=
  call_netd (NdInterfaceDelAddress ifName ipAddr prefixLength).

(** The resolver calls take [uint16_t netId]: the caller's value is converted. *)
Definition SetResolverConfig (netId baseTimeoutMsec retryCount : Z)
    (servers domains : list string) : st (host E) Z :=
  call_dns (NdSetResolverConfig (to_u 16 netId) (to_u 16 baseTimeoutMsec) (to_u 8 retryCount)
              servers domains).

Definition CreateNetworkCache (netId : Z) : st (host E) Z :=
  call_dns (NdCreateNetworkCache (to_u 16 netId)).

Definition DestoryNetworkCache (netId : Z) : st (host E) Z :=
  call_dns (NdDestoryNetworkCache (to_u 16 netId)).

Definition FlushNetworkCache (netId : Z) : st (host E) Z :=
  call_dns (NdFlushNetworkCache (to_u 16 netId)).

End Code.
End NetdControllerOps.

(** ** What the calls do to the log *)

(** The only controller a process can hold is an initialised one. *)
Definition netd_ok (o : option NetdController.t) : Prop :=
  ∀ c, o = Some c → c = NetdController.mk true true true.

(** [emits m evs]: from a process whose controller, if any, is initialised,
    [m] has no undefined behaviour, its outgoing calls are exactly [evs], in
    order, and the controller is still as required. *)
Definition emits {E A} (m : st (host E) A) (evs : list event) : Prop :=
  ∀ h, netd_ok (h_netd h) →
    wp m (λ _ h', h_log h' = h_log h ++ evs ∧ netd_ok (h_netd h')) h.

Section HostLemmas.
Context {E : Type} `{Platform E}.

Lemma emits_ret {A} (a : A) : emits (E:=E) (mret a) [].
Proof. intros h Hh. apply wp_ret. by rewrite app_nil_r. Qed.

Lemma emits_bind {A B} (m : st (host E) A) (k : A → st (host E) B) l1 l2 :
  emits m l1 → (∀ a, emits (k a) l2) → emits (m ≫= k) (l1 ++ l2).
Proof.
  intros Hm Hk h Hh. apply wp_bind. eapply wp_mono; [by apply Hm|].
  intros a h1 [E1 Hn1]. eapply wp_mono; [by apply Hk|].
  intros b h2 [E2 Hn2]. by rewrite E2, E1, app_assoc.
Qed.

Lemma emits_bind_nil {A B} (m : st (host E) A) (k : A → st (host E) B) l :
  emits m [] → (∀ a, emits (k a) l) → emits (m ≫= k) l.
Proof. intros. by apply (emits_bind m k [] l). Qed.

Lemma emits_ext {A} ev (f : E → A * E) : emits (ext ev f) [ev].
Proof.
  intros h Hh. unfold wp, ext. destruct (f (h_env h)) as [a e]. exists a. by eexists.
Qed.

Lemma emits_query {A} (f : E → A * E) : emits (query f) [].
Proof.
  intros h Hh. unfold wp, query. destruct (f (h_env h)) as [a e]. exists a.
  eexists. by rewrite app_nil_r.
Qed.

Lemma emits_for_each {A} (f : A → st (host E) unit) (g : A → list event) l :
  (∀ x, x ∈ l → emits (f x) (g x)) → emits (for_each f l) (concat (g <$> l)).
Proof.
  induction l as [|x l IH]; simpl; intros Hf; [apply emits_ret|].
  apply emits_bind; [apply Hf; left|]. intros _. apply IH. intros y Hy. apply Hf. by right.
Qed.

(** The singleton is there, and initialised, whenever it is asked for. *)
Lemma wp_GetInstance (Q : NetdController.t → host E → Prop) h :
  netd_ok (h_netd h) →
  (∀ h', h_netd h' = Some (NetdController.mk true true true) → h_log h' = h_log h →
     Q (NetdController.mk true true true) h') →
  wp NetdControllerOps.GetInstance Q h.
Proof.
  intros Hh HQ. unfold NetdControllerOps.GetInstance. apply wp_bind, wp_gets.
  destruct (h_netd h) as [c|] eqn:Ec.
  - rewrite (Hh c eq_refl) in Ec |- *. by apply wp_ret, HQ.
  - unfold NetdControllerOps.Init. simpl. apply wp_bind. apply wp_bind.
    unfold wp, query. destruct (native_init (h_env h)) as [[] e].
    eexists _, _. split; [done|]. apply wp_ret. apply wp_bind, wp_modify, wp_ret. by apply HQ.
Qed.

Lemma emits_call_netd c : emits (NetdControllerOps.call_netd c) [EvNetd c].
Proof.
  intros h Hh. apply wp_bind, wp_GetInstance; [done|]. intros h' Hn Hl. simpl.
  rewrite <- Hl. apply emits_ext. rewrite Hn. by intros ? [= <-].
Qed.

Lemma emits_call_dns c : emits (NetdControllerOps.call_dns c) [EvNetd c].
Proof.
  intros h Hh. apply wp_bind, wp_GetInstance; [done|]. intros h' Hn Hl. simpl.
  rewrite <- Hl. apply emits_ext. rewrite Hn. by intros ? [= <-].
Qed.

Lemma emits_SendBroadcast info :
  ce_action info ≠ ""%string → emits (BroadcastManager.SendBroadcast info) [EvBroadcast info].
Proof.
  intros Ha. unfold BroadcastManager.SendBroadcast, BroadcastManager.SendBroadcastEx.
  destruct (String.eqb_spec (ce_action info) ""); [done|]. apply emits_ext.
Qed.

End HostLemmas.

#[export] Hint Resolve emits_ret emits_ext emits_query emits_call_netd emits_call_dns : netdb.

(** ** A platform to run examples on

    Every call succeeds and has no state. *)

Module SamplePlatform.

#[global] Instance sample : Platform unit := {
  native_init e := (tt, e);
  native_netd _ e := (0, e);
  native_interfaceGetConfig _ e := (["up"%string], e);
  CellularRequestNet _ _ e := (1, e);
  CellularReleaseNet _ _ e := (1, e);
  PublishCommonEvent _ e := (true, e);
  RemoteNetConnStateChanged _ _ e := (0, e);
  PublishAbility e := (true, e);
  registerLocalResult := true;
}.

End SamplePlatform.
