(* ===== verification/NetIds.v ===== *)
(** * NetIdManager: network identifiers

    [services/netconnmanager/{include,src}/net_id_manager.*]. The loop of
    [ReserveNetId] runs at most [maxNetId_ - MIN_NET_ID + 1] times, which is the
    count of its structural recursion. *)

From S2P Require Import Prelude.

Module NetIdManager.

Definition TUN_IF_RANGE : Z := 0x0400.
Definition MAX_NET_ID : Z := 65535 - TUN_IF_RANGE.
Definition MIN_NET_ID : Z := 100.

Record t := mk {
  lastNetId_ : Z;
  maxNetId_ : Z;
  netIdInUse_ : gmap Z bool;
}.

(** The default member initialisers. *)
Definition init : t := mk (-1) MAX_NET_ID ∅.

(** [if (lastNetId_ < maxNetId_) ++lastNetId_; else lastNetId_ = MIN_NET_ID;] *)
Definition advance (s : t) : t :=
  let last := if lastNetId_ s <? maxNetId_ s then lastNetId_ s + 1 else MIN_NET_ID in
  mk last (maxNetId_ s) (netIdInUse_ s).

(** The [for] loop, with [n] iterations left; inserting an id breaks. *)
Fixpoint reserve_loop (n : nat) (s : t) : t :=
  match n with
  | O => s
  | S n' =>
    let s := advance s in
    match netIdInUse_ s !! lastNetId_ s with
    | None => mk (lastNetId_ s) (maxNetId_ s) (<[lastNetId_ s := true]> (netIdInUse_ s))
    | Some _ => reserve_loop n' s
    end
  end.

Definition ReserveNetId (s : t) : Z * t :=
  let s' := reserve_loop (Z.to_nat (maxNetId_ s - MIN_NET_ID + 1)) s in
  (lastNetId_ s', s').

Definition ReleaseNetId (netId : Z) (s : t) : t :=
  match netIdInUse_ s !! netId with
  | Some _ => mk (lastNetId_ s) (maxNetId_ s) (delete netId (netIdInUse_ s))
  | None => s
  end.

(** The states the manager can be in. Until the counter passes [MIN_NET_ID]
    it has never wrapped, so no larger id is in use. *)
Definition wf (s : t) : Prop :=
  maxNetId_ s = MAX_NET_ID ∧
  -1 <= lastNetId_ s <= MAX_NET_ID ∧
  (∀ id, is_Some (netIdInUse_ s !! id) → 0 <= id <= MAX_NET_ID) ∧
  (lastNetId_ s < MIN_NET_ID → ∀ id, is_Some (netIdInUse_ s !! id) → id <= lastNetId_ s).

(** An id that the cyclic search can still hand out. *)
Definition free (s : t) (id : Z) : Prop :=
  MIN_NET_ID <= id <= MAX_NET_ID ∧ netIdInUse_ s !! id = None.

(** The number of steps of the search from [last] to [id]. *)
Definition distance (last id : Z) : Z :=
  if last <? id then id - last else MAX_NET_ID - last + (id - MIN_NET_ID + 1).

(** What [n] reservations in a row return. *)
Fixpoint reserve_many (n : nat) (s : t) : list Z * t :=
  match n with
  | O => ([], s)
  | S n' => let '(id, s1) := ReserveNetId s in
            let '(ids, s2) := reserve_many n' s1 in (id :: ids, s2)
  end.

(** The outcome of a successful reservation of [id]. *)
Definition reserved (s : t) (id : Z) (s' : t) : Prop :=
  netIdInUse_ s !! id = None ∧ netIdInUse_ s' = <[id := true]> (netIdInUse_ s) ∧
  lastNetId_ s' = id ∧ maxNetId_ s' = maxNetId_ s.

End NetIdManager.

Import NetIdManager.

Lemma advance_wf s : wf s → 0 <= lastNetId_ (advance s) <= MAX_NET_ID.
Proof.
  intros (Hm & Hl & _). unfold advance, MAX_NET_ID, TUN_IF_RANGE, MIN_NET_ID in *. simpl.
  destruct (Z.ltb_spec (lastNetId_ s) (maxNetId_ s)); lia.
Qed.

Lemma wf_init : wf init.
Proof.
  unfold wf, init, MAX_NET_ID, TUN_IF_RANGE, MIN_NET_ID. simpl.
  split; [done|]. split; [lia|].
  split; intros ?; [|intros ?]; rewrite lookup_empty; by intros [? ?].
Qed.

Lemma reserve_loop_S n s s1 :
  s1 = advance s →
  reserve_loop (S n) s =
  match netIdInUse_ s1 !! lastNetId_ s1 with
  | None => mk (lastNetId_ s1) (maxNetId_ s1) (<[lastNetId_ s1 := true]> (netIdInUse_ s1))
  | Some _ => reserve_loop n s1
  end.
Proof. by intros ->. Qed.

(** The search finds a free id when its count of iterations reaches one. *)
Lemma reserve_loop_finds n s id :
  maxNetId_ s = MAX_NET_ID → -1 <= lastNetId_ s <= MAX_NET_ID →
  MIN_NET_ID <= id <= MAX_NET_ID → netIdInUse_ s !! id = None →
  1 <= distance (lastNetId_ s) id <= Z.of_nat n →
  ∃ id', reserved s id' (reserve_loop n s) ∧ 0 <= id' <= MAX_NET_ID ∧
         (MIN_NET_ID - 1 <= lastNetId_ s → MIN_NET_ID <= id').
Proof.
  revert s. induction n as [|n IH]; intros s Hm Hl Hid Hfree Hd; [lia|].
  set (s1 := advance s). rewrite (reserve_loop_S n s s1) by done.
  assert (Hs1 : lastNetId_ s1 = if lastNetId_ s <? MAX_NET_ID then lastNetId_ s + 1 else MIN_NET_ID)
    by (unfold s1, advance; simpl; by rewrite Hm).
  assert (Hu : netIdInUse_ s1 = netIdInUse_ s) by done.
  assert (Hm1 : maxNetId_ s1 = maxNetId_ s) by done.
  assert (Hr1 : 0 <= lastNetId_ s1 <= MAX_NET_ID).
  { rewrite Hs1. unfold MAX_NET_ID, TUN_IF_RANGE, MIN_NET_ID in *.
    destruct (Z.ltb_spec (lastNetId_ s) (65535 - 1024)); lia. }
  assert (Hlow : MIN_NET_ID - 1 <= lastNetId_ s → MIN_NET_ID <= lastNetId_ s1).
  { rewrite Hs1. intros. destruct (lastNetId_ s <? MAX_NET_ID); lia. }
  destruct (netIdInUse_ s1 !! lastNetId_ s1) as [b|] eqn:E.
  - assert (lastNetId_ s1 ≠ id) by (intros <-; rewrite Hu in E; congruence).
    destruct (IH s1) as (id' & (Hf & Hi & Hla & Hma) & Hr & Hlow'); try done; [lia| |].
    + unfold distance in *. rewrite Hs1 in *. unfold MAX_NET_ID, TUN_IF_RANGE, MIN_NET_ID in *.
      destruct (Z.ltb_spec (lastNetId_ s) (65535 - 1024)), (Z.ltb_spec (lastNetId_ s) id);
        match goal with |- context [?a <? id] => destruct (Z.ltb_spec a id) end; lia.
    + exists id'. split; [|split; [done|intros; apply Hlow'; specialize (Hlow ltac:(done)); lia]].
      exact (conj Hf (conj Hi (conj Hla Hma))).
  - exists (lastNetId_ s1). unfold reserved. simpl. by rewrite Hu in *.
Qed.

Lemma reserve_loop_exhausted n s :
  maxNetId_ s = MAX_NET_ID → MIN_NET_ID - 1 <= lastNetId_ s <= MAX_NET_ID →
  (∀ id, MIN_NET_ID <= id <= MAX_NET_ID → is_Some (netIdInUse_ s !! id)) →
  netIdInUse_ (reserve_loop n s) = netIdInUse_ s ∧
  (n ≠ O → MIN_NET_ID <= lastNetId_ (reserve_loop n s) <= MAX_NET_ID).
Proof.
  revert s. induction n as [|n IH]; intros s Hm Hl Hall; [done|].
  set (s1 := advance s). rewrite (reserve_loop_S n s s1) by done.
  assert (Hr1 : MIN_NET_ID <= lastNetId_ s1 <= MAX_NET_ID).
  { unfold s1, advance. simpl. rewrite Hm. unfold MAX_NET_ID, TUN_IF_RANGE, MIN_NET_ID in *.
    destruct (Z.ltb_spec (lastNetId_ s) (65535 - 1024)); lia. }
  destruct (Hall _ Hr1) as [b Hb]. change (netIdInUse_ s) with (netIdInUse_ s1) in Hb.
  rewrite Hb. destruct (IH s1) as [Hu Hr]; try done; [lia|].
  split; [done|]. intros _. destruct n; [done|]. by apply Hr.
Qed.

(** While nothing larger is in use, the very next id is taken. *)
Lemma ReserveNetId_next s :
  wf s → lastNetId_ s < MAX_NET_ID → netIdInUse_ s !! (lastNetId_ s + 1) = None →
  ReserveNetId s =
    (lastNetId_ s + 1, mk (lastNetId_ s + 1) MAX_NET_ID
                          (<[lastNetId_ s + 1 := true]> (netIdInUse_ s))).
Proof.
  intros (Hm & Hl & _) Hlt Hfree. unfold ReserveNetId.
  assert (Hn : Z.to_nat (maxNetId_ s - MIN_NET_ID + 1) = S (Z.to_nat 64411)).
  { rewrite Hm. change (MAX_NET_ID - MIN_NET_ID + 1) with (Z.succ 64411).
    apply Z2Nat.inj_succ. lia. }
  rewrite Hn, (reserve_loop_S _ s (mk (lastNetId_ s + 1) MAX_NET_ID (netIdInUse_ s))).
  - cbn [lastNetId_ maxNetId_ netIdInUse_]. by rewrite Hfree.
  - unfold advance. rewrite Hm. destruct (Z.ltb_spec (lastNetId_ s) MAX_NET_ID); [done|lia].
Qed.

Lemma reserved_wf s id s' :
  wf s → reserved s id s' → 0 <= id <= MAX_NET_ID →
  (id < MIN_NET_ID → lastNetId_ s < MIN_NET_ID ∧ lastNetId_ s <= id) → wf s'.
Proof.
  intros (Hm & Hl & Hr & Hu) (Hf & Hi & Hla & Hma) Hid Hlow. unfold wf.
  rewrite Hma, Hi, Hla. split; [done|]. split; [lia|]. split.
  - intros i. rewrite lookup_insert. case_decide; [lia|]. apply Hr.
  - intros Hlt i. rewrite lookup_insert. case_decide; [lia|].
    intros Hi'. destruct (Hlow Hlt). specialize (Hu ltac:(done) i Hi'). lia.
Qed.

Lemma reserve_many_S n s :
  reserve_many (S n) s =
  (let '(id, s1) := ReserveNetId s in
   let '(ids, s2) := reserve_many n s1 in (id :: ids, s2)).
Proof. done. Qed.

(** From a state with no larger id in use, [n] reservations count up. *)
Lemma reserve_many_counts n s :
  wf s → (∀ id, is_Some (netIdInUse_ s !! id) → id <= lastNetId_ s) →
  lastNetId_ s + Z.of_nat n <= MAX_NET_ID →
  (reserve_many n s).1 = seqZ (lastNetId_ s + 1) (Z.of_nat n).
Proof.
  revert s. induction n as [|n IH]; intros s Hwf Hu Hn; [done|].
  assert (Hf : netIdInUse_ s !! (lastNetId_ s + 1) = None).
  { destruct (netIdInUse_ s !! (lastNetId_ s + 1)) eqn:E; [|done].
    specialize (Hu _ ltac:(by eexists)). lia. }
  rewrite reserve_many_S, ReserveNetId_next by (done || lia).
  set (s1 := mk _ _ _). assert (Hwf1 : wf s1).
  { pose proof Hwf as (Hm & Hl & _). eapply reserved_wf; [exact Hwf| | |].
    - by repeat split; [|simpl; symmetry].
    - simpl. lia.
    - simpl. lia. }
  assert (Hc : (reserve_many n s1).1 = seqZ (lastNetId_ s1 + 1) (Z.of_nat n)).
  { apply IH; [done| |simpl; lia]. intros id. unfold s1. simpl.
    rewrite lookup_insert. case_decide; [lia|]. intros Hi. specialize (Hu _ Hi). lia. }
  destruct (reserve_many n s1) as [ids s2]. simpl in *. rewrite Hc.
  rewrite (seqZ_cons (lastNetId_ s + 1)) by lia. f_equal. f_equal; lia.
Qed.

Lemma wf_below s : wf s → lastNetId_ s < MIN_NET_ID →
  netIdInUse_ s !! (lastNetId_ s + 1) = None.
Proof.
  intros (_ & _ & _ & Hu) Hlt. destruct (netIdInUse_ s !! (lastNetId_ s + 1)) eqn:E; [|done].
  specialize (Hu Hlt _ ltac:(by eexists)). lia.
Qed.

Lemma ReserveNetId_spec s id :
  wf s → free s id →
  reserved s (ReserveNetId s).1 (ReserveNetId s).2 ∧
  0 <= (ReserveNetId s).1 <= MAX_NET_ID ∧ wf (ReserveNetId s).2 ∧
  (MIN_NET_ID - 1 <= lastNetId_ s → MIN_NET_ID <= (ReserveNetId s).1).
Proof.
  intros Hwf [Hid Hfree]. pose proof Hwf as (Hm & Hl & _).
  destruct (decide (lastNetId_ s < MIN_NET_ID)) as [Hlt|Hge].
  - pose proof (wf_below s Hwf Hlt) as Hn. unfold MAX_NET_ID, TUN_IF_RANGE, MIN_NET_ID in *.
    rewrite ReserveNetId_next by (done || (unfold MAX_NET_ID, TUN_IF_RANGE; lia)). simpl.
    assert (Hres : reserved s (lastNetId_ s + 1)
      (mk (lastNetId_ s + 1) MAX_NET_ID (<[lastNetId_ s + 1:=true]> (netIdInUse_ s))))
      by (by repeat split).
    split; [done|]. split; [lia|]. split; [|lia].
    eapply reserved_wf; [done|exact Hres|unfold MAX_NET_ID, TUN_IF_RANGE; lia|].
    unfold MIN_NET_ID. lia.
  - destruct (reserve_loop_finds (Z.to_nat (maxNetId_ s - MIN_NET_ID + 1)) s id)
      as (id' & Hres & Hr & Hlow); try done.
    + rewrite Hm. unfold distance.
      unfold MAX_NET_ID, TUN_IF_RANGE, MIN_NET_ID in *.
      rewrite Z2Nat.id by lia. destruct (Z.ltb_spec (lastNetId_ s) id); lia.
    + unfold ReserveNetId. cbn [fst snd]. assert (Hid' := Hres). destruct Hid' as (_ & _ & -> & _).
      split; [done|]. split; [done|]. split; [|done].
      eapply reserved_wf; [done|exact Hres|done|]. lia.
Qed.

Lemma ReleaseNetId_wf s id : wf s → wf (ReleaseNetId id s).
Proof.
  intros (Hm & Hl & Hr & Hu). unfold ReleaseNetId.
  destruct (netIdInUse_ s !! id); [|done]. unfold wf. simpl.
  split; [done|]. split; [done|].
  split; intros ?; [|intros ?]; rewrite lookup_delete; case_decide; try by intros [? ?]; auto.
Qed.

(** * The properties *)

(** C33. From every state the manager can be in, as long as one id of
    [MIN_NET_ID..maxNetId_] is free, [ReserveNetId] returns an id that was not
    in use, records exactly that id as used, stays within [0..MAX_NET_ID] and
    keeps the manager well formed; once the counter has passed [MIN_NET_ID]
    the id is not below it. The bound of the loop is therefore large enough. *)
Theorem reserve_fresh s id :
  wf s → free s id →
  let '(r, s') := ReserveNetId s in
  reserved s r s' ∧ 0 <= r <= MAX_NET_ID ∧ wf s' ∧
  (MIN_NET_ID - 1 <= lastNetId_ s → MIN_NET_ID <= r).
Proof.
  intros Hwf Hf. pose proof (ReserveNetId_spec s id Hwf Hf) as Hs.
  by destruct (ReserveNetId s) as [r s'].
Qed.

Lemma reserve_fresh_witness :
  let s := mk 101 MAX_NET_ID {[100 := true; 101 := true; 102 := true]} in
  wf s ∧ free s 103 ∧
  (let '(r, s') := ReserveNetId s in
   reserved s r s' ∧ 0 <= r <= MAX_NET_ID ∧ wf s' ∧
   (MIN_NET_ID - 1 <= lastNetId_ s → MIN_NET_ID <= r)).
Proof.
  intros s.
  assert (Hwf : wf s).
  { unfold wf, s, MAX_NET_ID, TUN_IF_RANGE, MIN_NET_ID. simpl. split; [done|].
    split; [lia|]. split; [|lia]. intros i Hi.
    rewrite !lookup_insert, lookup_singleton in Hi. repeat case_decide; try lia.
    by destruct Hi. }
  assert (Hf : free s 103) by (split; [unfold MAX_NET_ID, TUN_IF_RANGE, MIN_NET_ID; lia|done]).
  split; [exact Hwf|]. split; [exact Hf|]. exact (reserve_fresh s 103 Hwf Hf).
Defined.

(** When every id of [MIN_NET_ID..maxNetId_] is in use, [ReserveNetId] still
    returns an id of that range: one that another network already has. *)
Theorem reserve_exhausted_reuses s :
  wf s → MIN_NET_ID - 1 <= lastNetId_ s →
  (∀ id, MIN_NET_ID <= id <= MAX_NET_ID → is_Some (netIdInUse_ s !! id)) →
  let '(r, s') := ReserveNetId s in
  MIN_NET_ID <= r <= MAX_NET_ID ∧ is_Some (netIdInUse_ s !! r) ∧
  netIdInUse_ s' = netIdInUse_ s.
Proof.
  intros (Hm & Hl & _) Hge Hall. unfold ReserveNetId.
  destruct (reserve_loop_exhausted (Z.to_nat (maxNetId_ s - MIN_NET_ID + 1)) s Hm) as [Hu Hr];
    [lia|done|].
  assert (Hr' : MIN_NET_ID <= lastNetId_ (reserve_loop (Z.to_nat (maxNetId_ s - MIN_NET_ID + 1)) s)
                <= MAX_NET_ID).
  { apply Hr. rewrite Hm. unfold MAX_NET_ID, TUN_IF_RANGE, MIN_NET_ID. lia. }
  split; [done|]. split; [by apply Hall|done].
Qed.

(** A manager whose whole range is in use. *)
Definition full_range (n : Z) : gset Z := list_to_set (seqZ MIN_NET_ID n).

Definition full_state (n : Z) : t := mk 200 MAX_NET_ID (gset_to_gmap true (full_range n)).

Lemma lookup_full_range n id :
  n = 64412 → MIN_NET_ID <= id <= MAX_NET_ID → netIdInUse_ (full_state n) !! id = Some true.
Proof.
  intros Hn Hid. apply lookup_gset_to_gmap_Some. split; [|done].
  unfold full_range. rewrite elem_of_list_to_set, elem_of_seqZ.
  unfold MAX_NET_ID, TUN_IF_RANGE, MIN_NET_ID in *. lia.
Qed.

Lemma full_state_wf n : n = 64412 → wf (full_state n).
Proof.
  intros Hn. unfold wf. simpl. split; [done|].
  split; [unfold MAX_NET_ID, TUN_IF_RANGE; lia|]. split; [|unfold MIN_NET_ID; lia].
  intros id [b [Hb _]%lookup_gset_to_gmap_Some]. unfold full_range in Hb.
  rewrite elem_of_list_to_set, elem_of_seqZ in Hb.
  unfold MAX_NET_ID, TUN_IF_RANGE, MIN_NET_ID in *. lia.
Qed.

Lemma reserve_exhausted_reuses_witness :
  ∃ n, n = 64412 ∧ wf (full_state n) ∧
  (let '(r, s') := ReserveNetId (full_state n) in
   MIN_NET_ID <= r <= MAX_NET_ID ∧ is_Some (netIdInUse_ (full_state n) !! r) ∧
   netIdInUse_ s' = netIdInUse_ (full_state n)).
Proof.
  assert (Hn : ∃ n, n = 64412) by (by eexists). destruct Hn as [n Hn].
  exists n. split; [exact Hn|]. split; [exact (full_state_wf n Hn)|].
  apply (reserve_exhausted_reuses (full_state n) (full_state_wf n Hn)).
  - simpl. unfold MIN_NET_ID. lia.
  - intros id Hid. exists true. exact (lookup_full_range n id Hn Hid).
Defined.

(** Starting from the initial state, the first 64512 reservations return
    0, 1, 2, ... in order: the first hundred ids are below [MIN_NET_ID], which
    the loop only honours after the counter wraps. *)
Theorem first_reservations (n : nat) :
  Z.of_nat n <= 64512 → (reserve_many n init).1 = seqZ 0 (Z.of_nat n).
Proof.
  intros Hn. rewrite reserve_many_counts; [done|apply wf_init| |].
  - intros id. simpl. rewrite lookup_empty. by intros [? ?].
  - simpl. unfold MAX_NET_ID, TUN_IF_RANGE. lia.
Qed.

Lemma first_reservations_witness : (reserve_many 3 init).1 = [0; 1; 2].
Proof. apply (first_reservations 3). lia. Defined.

(** [ReleaseNetId] undoes a reservation: when the whole range is in use
    after the counter has passed it, releasing an id makes the next
    [ReserveNetId] return exactly that id, and leaves the map as it was. *)
Theorem release_then_reserve s id :
  wf s → MIN_NET_ID - 1 <= lastNetId_ s → MIN_NET_ID <= id <= MAX_NET_ID →
  (∀ i, MIN_NET_ID <= i <= MAX_NET_ID → netIdInUse_ s !! i = Some true) →
  let '(r, s') := ReserveNetId (ReleaseNetId id s) in
  r = id ∧ netIdInUse_ s' = netIdInUse_ s.
Proof.
  intros Hwf Hge Hid Hall. set (s1 := ReleaseNetId id s).
  assert (Hs1 : netIdInUse_ s1 = delete id (netIdInUse_ s) ∧ lastNetId_ s1 = lastNetId_ s).
  { unfold s1, ReleaseNetId. by rewrite (Hall id Hid). }
  destruct Hs1 as [Hu Hl].
  destruct (ReserveNetId_spec s1 id) as ((Hf & Hi & _) & Hr & _ & Hlow).
  { by apply ReleaseNetId_wf. }
  { split; [done|]. rewrite Hu. apply lookup_delete_eq. }
  destruct (ReserveNetId s1) as [r s']. simpl in *.
  assert (r = id) as ->.
  { destruct (decide (r = id)) as [|Hne]; [done|].
    rewrite Hu, lookup_delete_ne, Hall in Hf by (done || lia). done. }
  split; [done|]. rewrite Hi, Hu, insert_delete_eq. apply insert_id. by apply Hall.
Qed.

Lemma release_then_reserve_witness :
  ∃ n, n = 64412 ∧ wf (full_state n) ∧
  (let '(r, s') := ReserveNetId (ReleaseNetId 777 (full_state n)) in
   r = 777 ∧ netIdInUse_ s' = netIdInUse_ (full_state n)).
Proof.
  assert (Hn : ∃ n, n = 64412) by (by eexists). destruct Hn as [n Hn].
  exists n. split; [exact Hn|]. split; [exact (full_state_wf n Hn)|].
  apply (release_then_reserve (full_state n) 777 (full_state_wf n Hn)).
  - simpl. unfold MIN_NET_ID. lia.
  - unfold MAX_NET_ID, TUN_IF_RANGE, MIN_NET_ID. lia.
  - intros i Hi. exact (lookup_full_range n i Hn Hi).
Defined.
