(* ===== verification/ConnState.v ===== *)
(** * The state of the connection manager

    The objects of [services/netconnmanager]: [NetSupplier], [Network] and
    [NetService] live in a heap and refer to each other by [sptr], so each kind
    has a map from locations to objects and a counter that allocates them. A
    location is never reused. [world] is the whole process state behind
    [NetConnService]. *)

From S2P Require Import Prelude Parcel Parcelables Host NetIds.

(** [net_controller/*.h]: the only implementation is [TelephonyController]. *)
Inductive INetController := TelephonyController.

Module NetSupplier.
Record t := mk {
  netController_ : option INetController;
  netSupplierType_ : Z;
  netSupplierIdent_ : string;
  supplierId_ : Z;
  frequency_ : Z;
  strength_ : Z;
  connected_ : bool;
  isAvailable_ : bool;
  isRoaming_ : bool;
}.
Definition REG_OK : Z := 1.
End NetSupplier.

Module Network.
Record t := mk {
  netLinkInfo_ : NetLinkInfo.t;
  ipAddr_ : INetAddr.t;
  dns_ : INetAddr.t;
  route_ : Route.t;
  isPhyNetCreated_ : bool;
  isConnecting_ : bool;
  isConnected_ : bool;
  supplier_ : nat;
  netId_ : Z;
}.
End Network.

(** [enum ServiceState] of [net_service.h]. *)
Inductive ServiceState :=
  | SERVICE_STATE_UNKNOWN | SERVICE_STATE_IDLE | SERVICE_STATE_CONNECTING
  | SERVICE_STATE_READY | SERVICE_STATE_CONNECTED | SERVICE_STATE_DISCONNECTING
  | SERVICE_STATE_DISCONNECTED | SERVICE_STATE_FAILURE.

#[global] Instance ServiceState_eq_dec : EqDecision ServiceState.
Proof. solve_decision. Defined.

Definition state_code (s : ServiceState) : Z :=
  match s with
  | SERVICE_STATE_UNKNOWN => 0 | SERVICE_STATE_IDLE => 1 | SERVICE_STATE_CONNECTING => 2
  | SERVICE_STATE_READY => 3 | SERVICE_STATE_CONNECTED => 4 | SERVICE_STATE_DISCONNECTING => 5
  | SERVICE_STATE_DISCONNECTED => 6 | SERVICE_STATE_FAILURE => 7
  end.

Module NetService.
Record t := mk {
  ident_ : string;
  networkType_ : Z;
  state_ : ServiceState;
  netCapability_ : Z;
  network_ : nat;
  netConnCallback_ : list INetConnCallback;
}.
End NetService.

(** [enum ResultCode] of [net_conn_types.h]. *)
Definition ERR_NONE : Z := 0.
Definition ERR_SERVICE_REQUEST_SUCCESS : Z := -1.
Definition ERR_SERVICE_REQUEST_CONNECT_FAIL : Z := -2.
Definition ERR_SERVICE_UPDATE_NET_LINK_INFO_FAIL : Z := -3.
Definition ERR_SERVICE_CONNECTING : Z := -4.
Definition ERR_SERVICE_CONNECTED : Z := -5.
Definition ERR_SERVICE_DISCONNECTED_FAIL : Z := -6.
Definition ERR_SERVICE_DISCONNECTING : Z := -7.
Definition ERR_SERVICE_DISCONNECTED_SUCCESS : Z := -8.
Definition ERR_SERVICE_NULL_PTR : Z := -9.
Definition ERR_NO_SUPPLIER : Z := -10.
Definition ERR_NO_NETWORK : Z := -11.
Definition ERR_INVALID_PARAMS : Z := -12.
Definition ERR_INVALID_NETORK_TYPE : Z := -13.
Definition ERR_NET_TYPE_NOT_FOUND : Z := -18.
Definition ERR_NO_ANY_NET_TYPE : Z := -19.
Definition ERR_NO_REGISTERED : Z := -20.

(** The members of [NetConnService]; [reConnectTimer_] is the number of detached
    threads its [StartOnce] has started that have not run their task yet. *)
Record NetConnService := mkConn {
  registerToService_ : bool;
  running_ : bool;                     (* state_ == STATE_RUNNING *)
  defaultNetService_ : option nat;
  netServices_ : list nat;
  networks_ : list nat;
  netSupplier_ : list nat;
  reConnectTimer_ : nat;
}.

Record world (E : Type) := mkWorld {
  w_host : host E;
  w_suppliers : gmap nat NetSupplier.t;
  w_networks : gmap nat Network.t;
  w_services : gmap nat NetService.t;
  w_nsuppliers : nat;
  w_nnetworks : nat;
  w_nservices : nat;
  g_nextNetSupplierId : Z;
  w_netIds : NetIdManager.t;
  w_netControllers : gmap Z INetController;
  w_conn : NetConnService;
}.
Arguments mkWorld {E}.
Arguments w_host {E}.
Arguments w_suppliers {E}.
Arguments w_networks {E}.
Arguments w_services {E}.
Arguments w_nsuppliers {E}.
Arguments w_nnetworks {E}.
Arguments w_nservices {E}.
Arguments g_nextNetSupplierId {E}.
Arguments w_netIds {E}.
Arguments w_netControllers {E}.
Arguments w_conn {E}.

(** The process when the service has been constructed. *)
Definition conn_init : NetConnService := mkConn false false None [] [] [] 0.

Definition world_init {E} (e : E) : world E :=
  mkWorld (mkHost None e []) ∅ ∅ ∅ 0 0 0 0x03EB NetIdManager.init ∅ conn_init.

(** ** Field updates *)

Section Updates.
Context {E : Type}.
Implicit Type w : world E.

Definition set_host (h : host E) w : world E :=
  mkWorld h (w_suppliers w) (w_networks w) (w_services w) (w_nsuppliers w) (w_nnetworks w)
    (w_nservices w) (g_nextNetSupplierId w) (w_netIds w) (w_netControllers w) (w_conn w).

Definition set_suppliers m w : world E :=
  mkWorld (w_host w) m (w_networks w) (w_services w) (w_nsuppliers w) (w_nnetworks w)
    (w_nservices w) (g_nextNetSupplierId w) (w_netIds w) (w_netControllers w) (w_conn w).

Definition set_networks m w : world E :=
  mkWorld (w_host w) (w_suppliers w) m (w_services w) (w_nsuppliers w) (w_nnetworks w)
    (w_nservices w) (g_nextNetSupplierId w) (w_netIds w) (w_netControllers w) (w_conn w).

Definition set_services m w : world E :=
  mkWorld (w_host w) (w_suppliers w) (w_networks w) m (w_nsuppliers w) (w_nnetworks w)
    (w_nservices w) (g_nextNetSupplierId w) (w_netIds w) (w_netControllers w) (w_conn w).

Definition set_nextId z w : world E :=
  mkWorld (w_host w) (w_suppliers w) (w_networks w) (w_services w) (w_nsuppliers w) (w_nnetworks w)
    (w_nservices w) z (w_netIds w) (w_netControllers w) (w_conn w).

Definition set_netIds s w : world E :=
  mkWorld (w_host w) (w_suppliers w) (w_networks w) (w_services w) (w_nsuppliers w) (w_nnetworks w)
    (w_nservices w) (g_nextNetSupplierId w) s (w_netControllers w) (w_conn w).

Definition set_netControllers m w : world E :=
  mkWorld (w_host w) (w_suppliers w) (w_networks w) (w_services w) (w_nsuppliers w) (w_nnetworks w)
    (w_nservices w) (g_nextNetSupplierId w) (w_netIds w) m (w_conn w).

Definition set_conn c w : world E :=
  mkWorld (w_host w) (w_suppliers w) (w_networks w) (w_services w) (w_nsuppliers w) (w_nnetworks w)
    (w_nservices w) (g_nextNetSupplierId w) (w_netIds w) (w_netControllers w) c.

(** [make_unique<T>(...)]: a new object at a new location. *)
Definition new_supplier (x : NetSupplier.t) : st (world E) nat := λ w,
  let l := w_nsuppliers w in
  Some (l, mkWorld (w_host w) (<[l := x]> (w_suppliers w)) (w_networks w) (w_services w) (S l)
             (w_nnetworks w) (w_nservices w) (g_nextNetSupplierId w) (w_netIds w)
             (w_netControllers w) (w_conn w)).

Definition new_network (x : Network.t) : st (world E) nat := λ w,
  let l := w_nnetworks w in
  Some (l, mkWorld (w_host w) (w_suppliers w) (<[l := x]> (w_networks w)) (w_services w)
             (w_nsuppliers w) (S l) (w_nservices w) (g_nextNetSupplierId w) (w_netIds w)
             (w_netControllers w) (w_conn w)).

Definition new_service (x : NetService.t) : st (world E) nat := λ w,
  let l := w_nservices w in
  Some (l, mkWorld (w_host w) (w_suppliers w) (w_networks w) (<[l := x]> (w_services w))
             (w_nsuppliers w) (w_nnetworks w) (S l) (g_nextNetSupplierId w) (w_netIds w)
             (w_netControllers w) (w_conn w)).

(** Dereferencing an [sptr]: a dangling pointer is undefined behaviour. *)
Definition get_supplier (l : nat) : st (world E) NetSupplier.t :=
  o ← gets (λ w, w_suppliers w !! l) ; deref o.
Definition get_network (l : nat) : st (world E) Network.t :=
  o ← gets (λ w, w_networks w !! l) ; deref o.
Definition get_service (l : nat) : st (world E) NetService.t :=
  o ← gets (λ w, w_services w !! l) ; deref o.

Definition put_supplier (l : nat) (x : NetSupplier.t) : st (world E) unit :=
  modify (λ w, set_suppliers (<[l := x]> (w_suppliers w)) w).
Definition put_network (l : nat) (x : Network.t) : st (world E) unit :=
  modify (λ w, set_networks (<[l := x]> (w_networks w)) w).
Definition put_service (l : nat) (x : NetService.t) : st (world E) unit :=
  modify (λ w, set_services (<[l := x]> (w_services w)) w).

(** Code that only talks to the outside. *)
Definition on_host {A} (m : st (host E) A) : st (world E) A := λ w,
  match m (w_host w) with Some (a, h) => Some (a, set_host h w) | None => None end.

End Updates.

(** Member updates of the service singleton. *)
Definition conn_default d c : NetConnService :=
  mkConn (registerToService_ c) (running_ c) d (netServices_ c) (networks_ c) (netSupplier_ c)
    (reConnectTimer_ c).
Definition conn_services l c : NetConnService :=
  mkConn (registerToService_ c) (running_ c) (defaultNetService_ c) l (networks_ c)
    (netSupplier_ c) (reConnectTimer_ c).
Definition conn_networks l c : NetConnService :=
  mkConn (registerToService_ c) (running_ c) (defaultNetService_ c) (netServices_ c) l
    (netSupplier_ c) (reConnectTimer_ c).
Definition conn_suppliers l c : NetConnService :=
  mkConn (registerToService_ c) (running_ c) (defaultNetService_ c) (netServices_ c) (networks_ c)
    l (reConnectTimer_ c).
Definition conn_timer n c : NetConnService :=
  mkConn (registerToService_ c) (running_ c) (defaultNetService_ c) (netServices_ c) (networks_ c)
    (netSupplier_ c) n.
Definition conn_running r b c : NetConnService :=
  mkConn r b (defaultNetService_ c) (netServices_ c) (networks_ c) (netSupplier_ c)
    (reConnectTimer_ c).

Definition modify_conn {E} (f : NetConnService → NetConnService) : st (world E) unit :=
  modify (λ w, set_conn (f (w_conn w)) w).

(** ** Rules *)

Section Rules.
Context {E : Type}.
Implicit Type w : world E.

Lemma wp_get_supplier l x (Q : NetSupplier.t → world E → Prop) w :
  w_suppliers w !! l = Some x → Q x w → wp (get_supplier l) Q w.
Proof. intros. apply wp_bind, wp_gets. by eapply wp_deref. Qed.

Lemma wp_get_network l x (Q : Network.t → world E → Prop) w :
  w_networks w !! l = Some x → Q x w → wp (get_network l) Q w.
Proof. intros. apply wp_bind, wp_gets. by eapply wp_deref. Qed.

Lemma wp_get_service l x (Q : NetService.t → world E → Prop) w :
  w_services w !! l = Some x → Q x w → wp (get_service l) Q w.
Proof. intros. apply wp_bind, wp_gets. by eapply wp_deref. Qed.

Lemma wp_on_host {A} (m : st (host E) A) (Q : A → world E → Prop) w :
  wp m (λ a h, Q a (set_host h w)) (w_host w) → wp (on_host m) Q w.
Proof.
  intros (a & h & Hm & HQ). exists a, (set_host h w). split; [|done].
  unfold on_host. by rewrite Hm.
Qed.

(** Outgoing calls, seen from the world: only the host changes. *)
Lemma wp_emits {A} (m : st (host E) A) evs (Q : A → world E → Prop) w :
  emits m evs → netd_ok (h_netd (w_host w)) →
  (∀ a h, h_log h = h_log (w_host w) ++ evs → netd_ok (h_netd h) → Q a (set_host h w)) →
  wp (on_host m) Q w.
Proof.
  intros Hm Hok HQ. apply wp_on_host. eapply wp_mono; [by apply Hm|].
  intros a h [Hl Hn]. by apply HQ.
Qed.

Lemma wp_new_supplier x (Q : nat → world E → Prop) w :
  Q (w_nsuppliers w) (mkWorld (w_host w) (<[w_nsuppliers w := x]> (w_suppliers w)) (w_networks w)
    (w_services w) (S (w_nsuppliers w)) (w_nnetworks w) (w_nservices w) (g_nextNetSupplierId w)
    (w_netIds w) (w_netControllers w) (w_conn w)) → wp (new_supplier x) Q w.
Proof. intros HQ. eexists _, _. split; [done|exact HQ]. Qed.

Lemma wp_new_network x (Q : nat → world E → Prop) w :
  Q (w_nnetworks w) (mkWorld (w_host w) (w_suppliers w) (<[w_nnetworks w := x]> (w_networks w))
    (w_services w) (w_nsuppliers w) (S (w_nnetworks w)) (w_nservices w) (g_nextNetSupplierId w)
    (w_netIds w) (w_netControllers w) (w_conn w)) → wp (new_network x) Q w.
Proof. intros HQ. eexists _, _. split; [done|exact HQ]. Qed.

Lemma wp_new_service x (Q : nat → world E → Prop) w :
  Q (w_nservices w) (mkWorld (w_host w) (w_suppliers w) (w_networks w)
    (<[w_nservices w := x]> (w_services w)) (w_nsuppliers w) (w_nnetworks w) (S (w_nservices w))
    (g_nextNetSupplierId w) (w_netIds w) (w_netControllers w) (w_conn w)) →
  wp (new_service x) Q w.
Proof. intros HQ. eexists _, _. split; [done|exact HQ]. Qed.

End Rules.
