(* ===== verification/ConnNetwork.v ===== *)
(** * NetSupplier, the controllers and Network

    [net_supplier.cpp], [net_controller/*.cpp] and [network.cpp]: activation of a
    network through its supplier, and the incremental update of netd from the
    link information of a network. *)

From S2P Require Import Prelude Parcel Parcelables Host NetIds ConnState.
Import NetSpecifier.

(** ** net_controller *)

Module NetControllers.
Section Code.
Context {E : Type} `{Platform E}.

Definition GetNetControllerFromMap (netType : Z) : st (world E) (option INetController) :=
  gets (λ w, w_netControllers w !! netType).

Definition MakeNetController (netType : Z) : st (world E) (option INetController) :=
  netController ← GetNetControllerFromMap netType ;
  match netController with
  | Some c => mret (Some c)
  | None =>
    if netType =? NET_TYPE_CELLULAR then
      modify (λ w, set_netControllers
        (<[NET_TYPE_CELLULAR := TelephonyController]> (w_netControllers w)) w) ;;
      mret (Some TelephonyController)
    else mret None
  end.

(** [TelephonyController::RequestNetwork], [::ReleaseNetwork] *)
Definition RequestNetwork (c : INetController) (ident : string) (cap : Z) : st (world E) Z :=
  match c with
  | TelephonyController =>
    on_host (ext (EvRequestNet ident (to_u 32 cap)) (CellularRequestNet ident (to_u 32 cap)))
  end.

Definition ReleaseNetwork (c : INetController) (ident : string) (cap : Z) : st (world E) Z :=
  match c with
  | TelephonyController =>
    on_host (ext (EvReleaseNet ident (to_u 32 cap)) (CellularReleaseNet ident (to_u 32 cap)))
  end.

End Code.
End NetControllers.

(** ** net_supplier.cpp *)

Module NetSupplierOps.
Import NetSupplier.
Section Code.
Context {E : Type} `{Platform E}.

Definition with_connected (b : bool) (s : t) : t :=
  mk (netController_ s) (netSupplierType_ s) (netSupplierIdent_ s) (supplierId_ s) (frequency_ s)
    (strength_ s) b (isAvailable_ s) (isRoaming_ s).

(** The constructor; [g_nextNetSupplierId++] on an atomic [uint32_t]. *)
Definition construct (netSupplierType : Z) (netSupplierIdent : string) : st (world E) nat :=
  netController ← NetControllers.MakeNetController netSupplierType ;
  supplierId ← gets g_nextNetSupplierId ;
  modify (set_nextId (to_u 32 (supplierId + 1))) ;;
  new_supplier (mk netController netSupplierType netSupplierIdent supplierId 0 0 false false false).

Definition eqb (a b : t) : bool :=
  (supplierId_ a =? supplierId_ b) && (netSupplierType_ a =? netSupplierType_ b) &&
  String.eqb (netSupplierIdent_ a) (netSupplierIdent_ b).

Definition SupplierConnection (self : nat) (netCapabilities : Z) : st (world E) bool :=
  s ← get_supplier self ;
  match netController_ s with
  | None => mret false
  | Some c =>
    errCode ← NetControllers.RequestNetwork c (netSupplierIdent_ s) netCapabilities ;
    if errCode =? REG_OK then
      s ← get_supplier self ; put_supplier self (with_connected true s) ;; mret true
    else mret false
  end.

Definition SupplierDisconnection (self : nat) (netCapabilities : Z) : st (world E) bool :=
  s ← get_supplier self ;
  match netController_ s with
  | None => mret false
  | Some c =>
    errCode ← NetControllers.ReleaseNetwork c (netSupplierIdent_ s) netCapabilities ;
    if errCode =? REG_OK then
      s ← get_supplier self ; put_supplier self (with_connected false s) ;; mret true
    else mret false
  end.

(** [frequency_] is a [uint16_t] member, the argument's is a [uint32_t]. *)
Definition UpdateNetSupplierInfo (self : nat) (info : NetSupplierInfo.t) : st (world E) unit :=
  s ← get_supplier self ;
  put_supplier self
    (mk (netController_ s) (netSupplierType_ s) (netSupplierIdent_ s) (supplierId_ s)
       (to_u 16 (NetSupplierInfo.frequency_ info)) (NetSupplierInfo.strength_ info)
       (connected_ s) (NetSupplierInfo.isAvailable_ info) (NetSupplierInfo.isRoaming_ info)).

Definition GetSupplierId (self : nat) : st (world E) Z :=
  s ← get_supplier self ; mret (supplierId_ s).
Definition GetNetSupplierType (self : nat) : st (world E) Z :=
  s ← get_supplier self ; mret (netSupplierType_ s).
Definition GetNetSupplierIdent (self : nat) : st (world E) string :=
  s ← get_supplier self ; mret (netSupplierIdent_ s).

(** [GetStrength] and [GetFrequency] return the member converted to [bool]. *)
Definition GetConnected (s : t) : bool := connected_ s.
Definition GetAvailable (s : t) : bool := isAvailable_ s.
Definition GetRoaming (s : t) : bool := isRoaming_ s.
Definition GetStrength (s : t) : bool := negb (strength_ s =? 0).
Definition GetFrequency (s : t) : bool := negb (frequency_ s =? 0).

End Code.
End NetSupplierOps.

(** ** network.cpp *)

Module NetworkOps.
Import Network.
Section Code.
Context {E : Type} `{Platform E}.

Definition with_connection (connecting connected : bool) (n : t) : t :=
  mk (netLinkInfo_ n) (ipAddr_ n) (dns_ n) (route_ n) (isPhyNetCreated_ n) connecting connected
    (supplier_ n) (netId_ n).
Definition with_phy (b : bool) (n : t) : t :=
  mk (netLinkInfo_ n) (ipAddr_ n) (dns_ n) (route_ n) b (isConnecting_ n) (isConnected_ n)
    (supplier_ n) (netId_ n).
Definition with_linkinfo (i : NetLinkInfo.t) (n : t) : t :=
  mk i (ipAddr_ n) (dns_ n) (route_ n) (isPhyNetCreated_ n) (isConnecting_ n) (isConnected_ n)
    (supplier_ n) (netId_ n).
Definition with_ipAddr (a : INetAddr.t) (n : t) : t :=
  mk (netLinkInfo_ n) a (dns_ n) (route_ n) (isPhyNetCreated_ n) (isConnecting_ n)
    (isConnected_ n) (supplier_ n) (netId_ n).
Definition with_dns (a : INetAddr.t) (n : t) : t :=
  mk (netLinkInfo_ n) (ipAddr_ n) a (route_ n) (isPhyNetCreated_ n) (isConnecting_ n)
    (isConnected_ n) (supplier_ n) (netId_ n).
Definition with_route (r : Route.t) (n : t) : t :=
  mk (netLinkInfo_ n) (ipAddr_ n) (dns_ n) r (isPhyNetCreated_ n) (isConnecting_ n)
    (isConnected_ n) (supplier_ n) (netId_ n).

Definition ReserveNetId : st (world E) Z :=
  s ← gets w_netIds ;
  let '(id, s') := NetIdManager.ReserveNetId s in
  modify (set_netIds s') ;; mret id.

(** The constructor. *)
Definition construct (supplier : nat) : st (world E) nat :=
  netId ← ReserveNetId ;
  on_host (NetdControllerOps.CreateNetworkCache netId) ;;
  new_network (mk NetLinkInfo.default INetAddr.default INetAddr.default Route.default
                 false false false supplier netId).

(** The destructor: [sptr] runs it when the last reference goes away. *)
Definition destruct (self : nat) : st (world E) unit :=
  n ← get_network self ;
  on_host (NetdControllerOps.DestoryNetworkCache (netId_ n)) ;;
  modify (λ w, set_networks (delete self (w_networks w)) w).

(** [operator==]; [supplier_] is never null. *)
Definition eqb (a b : t) : st (world E) bool :=
  sa ← get_supplier (supplier_ a) ;
  sb ← get_supplier (supplier_ b) ;
  mret (NetSupplierOps.eqb sa sb && (netId_ a =? netId_ b)).

Definition NetworkConnect (self : nat) (netCapability : Z) : st (world E) bool :=
  n ← get_network self ;
  if isConnected_ n then mret true
  else
    ret ← NetSupplierOps.SupplierDisconnection (supplier_ n) netCapability ;
    if negb ret then mret ret
    else
      n ← get_network self ;
      put_network self (with_connection true true n) ;;
      mret ret.

Definition NetworkDisconnect (self : nat) (netCapability : Z) : st (world E) bool :=
  n ← get_network self ;
  if negb (isConnecting_ n) && negb (isConnected_ n) then mret false
  else NetSupplierOps.SupplierDisconnection (supplier_ n) netCapability.

Definition SetIpAdress (self : nat) (ipAdress : INetAddr.t) : st (world E) unit :=
  n ← get_network self ; put_network self (with_ipAddr ipAdress n).
Definition SetDns (self : nat) (dns : INetAddr.t) : st (world E) unit :=
  n ← get_network self ; put_network self (with_dns dns n).
Definition SetRoute (self : nat) (route : Route.t) : st (world E) unit :=
  n ← get_network self ; put_network self (with_route route n).
Definition SetConnected (self : nat) (connected : bool) : st (world E) unit :=
  n ← get_network self ; put_network self (with_connection (isConnecting_ n) connected n).
Definition SetConnecting (self : nat) (connecting : bool) : st (world E) unit :=
  n ← get_network self ; put_network self (with_connection connecting (isConnected_ n) n).

Definition IsNetworkConnecting (self : nat) : st (world E) bool :=
  n ← get_network self ; mret (isConnecting_ n).

Definition UpdateNetSupplierInfo (self : nat) (info : NetSupplierInfo.t) : st (world E) bool :=
  n ← get_network self ;
  NetSupplierOps.UpdateNetSupplierInfo (supplier_ n) info ;;
  (if negb (isPhyNetCreated_ n) then
     on_host (NetdControllerOps.NetworkCreatePhysical (netId_ n) 0) ;;
     put_network self (with_phy true n)
   else mret tt) ;;
  mret true.

(** The four updates compare the new link information with the stored one. *)
Definition UpdateInterfaces (n : t) (netLinkInfo : NetLinkInfo.t) : st (host E) unit :=
  let new := NetLinkInfo.ifaceName_ netLinkInfo in
  let old := NetLinkInfo.ifaceName_ (netLinkInfo_ n) in
  if String.eqb new old then mret tt
  else
    (if negb (String.eqb new "") then
       NetdControllerOps.NetworkAddInterface (netId_ n) new ;; mret tt else mret tt) ;;
    (if negb (String.eqb old "") then
       NetdControllerOps.NetworkRemoveInterface (netId_ n) old ;; mret tt else mret tt).

Definition route_in (r : Route.t) (l : list Route.t) : bool :=
  match find_first (λ x, Route.eqb x r) l with Some _ => true | None => false end.

Definition UpdateRoutes (n : t) (netLinkInfo : NetLinkInfo.t) : st (host E) unit :=
  for_each (λ route,
      if negb (route_in route (NetLinkInfo.routeList_ (netLinkInfo_ n))) then
        NetdControllerOps.NetworkAddRoute (netId_ n) (Route.iface_ route)
          (INetAddr.address_ (Route.destination_ route))
          (INetAddr.address_ (Route.gateway_ route)) ;; mret tt
      else mret tt)
    (NetLinkInfo.routeList_ netLinkInfo) ;;
  for_each (λ route,
      if negb (route_in route (NetLinkInfo.routeList_ netLinkInfo)) then
        NetdControllerOps.NetworkRemoveRoute (netId_ n) (Route.iface_ route)
          (INetAddr.address_ (Route.destination_ route))
          (INetAddr.address_ (Route.gateway_ route)) ;; mret tt
      else mret tt)
    (NetLinkInfo.routeList_ (netLinkInfo_ n)).

Definition UpdateDnses (n : t) (netLinkInfo : NetLinkInfo.t) : st (host E) unit :=
  let servers := INetAddr.address_ <$> NetLinkInfo.dnsList_ netLinkInfo in
  let doamains := INetAddr.hostName_ <$> NetLinkInfo.dnsList_ netLinkInfo in
  NetdControllerOps.SetResolverConfig (netId_ n) 0 1 servers doamains ;; mret tt.

Definition updateMtu (n : t) (netLinkInfo : NetLinkInfo.t) : st (host E) unit :=
  if NetLinkInfo.mtu_ netLinkInfo =? NetLinkInfo.mtu_ (netLinkInfo_ n) then mret tt
  else NetdControllerOps.InterfaceSetMtu (NetLinkInfo.ifaceName_ netLinkInfo)
         (NetLinkInfo.mtu_ netLinkInfo) ;; mret tt.

Definition UpdateNetLinkInfo (self : nat) (netLinkInfo : NetLinkInfo.t) : st (world E) bool :=
  n ← get_network self ;
  on_host (UpdateInterfaces n netLinkInfo) ;;
  on_host (UpdateRoutes n netLinkInfo) ;;
  on_host (UpdateDnses n netLinkInfo) ;;
  on_host (updateMtu n netLinkInfo) ;;
  put_network self (with_linkinfo netLinkInfo n) ;;
  mret true.

End Code.
End NetworkOps.
