(* ===== verification/ConnService.v ===== *)
(** * NetService and NetConnService

    [net_service.cpp]: one activatable service of a network, with its state
    machine, its broadcasts and its callbacks. [net_conn_service.cpp]: the
    system ability that owns the lists of suppliers, networks and services.
    The pending [reConnectTimer_] threads are requests of the environment. *)

From S2P Require Import Prelude Parcel Parcelables Host NetIds ConnState ConnNetwork.
Import NetSpecifier.

(** ** net_service.cpp *)

Module NetServiceOps.
Import NetService.
Section Code.
Context {E : Type} `{Platform E}.

Definition with_state (x : ServiceState) (s : t) : t :=
  mk (ident_ s) (networkType_ s) x (netCapability_ s) (network_ s) (netConnCallback_ s).
Definition with_callbacks (l : list INetConnCallback) (s : t) : t :=
  mk (ident_ s) (networkType_ s) (state_ s) (netCapability_ s) (network_ s) l.

(** The constructor. *)
Definition construct (ident : string) (networkType netCapability : Z) (network : nat)
    : st (world E) nat :=
  new_service (mk ident networkType SERVICE_STATE_IDLE netCapability network []).

Definition SetServiceState (self : nat) (x : ServiceState) : st (world E) unit :=
  s ← get_service self ; put_service self (with_state x s).

Definition SetIdent (self : nat) (ident : string) : st (world E) unit :=
  s ← get_service self ;
  put_service self (mk ident (networkType_ s) (state_ s) (netCapability_ s) (network_ s)
    (netConnCallback_ s)).
Definition SetNetworkType (self : nat) (networkType : Z) : st (world E) unit :=
  s ← get_service self ;
  put_service self (mk (ident_ s) networkType (state_ s) (netCapability_ s) (network_ s)
    (netConnCallback_ s)).
Definition SetNetCapability (self : nat) (netCapability : Z) : st (world E) unit :=
  s ← get_service self ;
  put_service self (mk (ident_ s) (networkType_ s) (state_ s) netCapability (network_ s)
    (netConnCallback_ s)).

Definition change_event (serviceState : ServiceState) (networkType : Z) : CommonEvent :=
  mkCommonEvent "usual.event.netmanager.NETMANAGER_CONNECTION_STATE_CHANGED"
    "Net Manager Connection State Changed" (state_code serviceState) true
    [("NetType", to_string (to_i 32 networkType))].

Definition change_info (serviceState : ServiceState) (networkType : Z) : NetConnCallbackInfo.t :=
  NetConnCallbackInfo.mk (state_code serviceState) (to_u 32 networkType).

Definition NotifyNetConnStateChanged (callbacks : list INetConnCallback)
    (info : NetConnCallbackInfo.t) : st (host E) unit :=
  for_each (λ callback,
    ext (EvNotify callback info) (RemoteNetConnStateChanged callback info) ;; mret tt) callbacks.

Definition UpdateServiceState (self : nat) (serviceState : ServiceState) : st (world E) unit :=
  s ← get_service self ;
  put_service self (with_state
    (match serviceState with
     | SERVICE_STATE_UNKNOWN => SERVICE_STATE_FAILURE
     | x => x
     end) s) ;;
  on_host (BroadcastManager.SendBroadcast (change_event serviceState (networkType_ s))) ;;
  on_host (NotifyNetConnStateChanged (netConnCallback_ s)
             (change_info serviceState (networkType_ s))).

Definition IsConnecting (self : nat) : st (world E) bool :=
  s ← get_service self ;
  match state_ s with
  | SERVICE_STATE_UNKNOWN | SERVICE_STATE_FAILURE | SERVICE_STATE_IDLE =>
    NetworkOps.IsNetworkConnecting (network_ s)
  | SERVICE_STATE_CONNECTING => mret true
  | _ => mret false
  end.

Definition IsConnected (self : nat) : st (world E) bool :=
  s ← get_service self ;
  match state_ s with
  | SERVICE_STATE_READY | SERVICE_STATE_CONNECTED => mret true
  | _ => mret false
  end.

Definition NetworkConnect (self : nat) : st (world E) Z :=
  UpdateServiceState self SERVICE_STATE_CONNECTING ;;
  s ← get_service self ;
  ok ← NetworkOps.NetworkConnect (network_ s) (netCapability_ s) ;
  mret (if ok : bool then 0 else -1).

Definition NetworkDisConnect (self : nat) : st (world E) Z :=
  s ← get_service self ;
  ok ← NetworkOps.NetworkDisconnect (network_ s) (netCapability_ s) ;
  mret (if ok : bool then 0 else -1).

Definition ServiceConnect (self : nat) : st (world E) Z :=
  connecting ← IsConnecting self ;
  if connecting : bool then mret ERR_SERVICE_CONNECTING
  else
    connected ← IsConnected self ;
    if connected : bool then mret ERR_SERVICE_CONNECTED
    else
      s ← get_service self ;
      if negb (networkType_ s =? NET_TYPE_CELLULAR) then mret ERR_INVALID_NETORK_TYPE
      else
        UpdateServiceState self SERVICE_STATE_IDLE ;;
        retCode ← NetworkConnect self ;
        if retCode <? 0 then
          UpdateServiceState self SERVICE_STATE_FAILURE ;;
          NetworkDisConnect self ;;
          UpdateServiceState self SERVICE_STATE_DISCONNECTED ;;
          UpdateServiceState self SERVICE_STATE_IDLE ;;
          mret ERR_SERVICE_REQUEST_CONNECT_FAIL
        else
          UpdateServiceState self SERVICE_STATE_READY ;;
          mret ERR_SERVICE_REQUEST_SUCCESS.

Definition ServiceDisConnect (self : nat) : st (world E) Z :=
  s ← get_service self ;
  if decide (state_ s = SERVICE_STATE_DISCONNECTING) then mret ERR_SERVICE_DISCONNECTING
  else if decide (state_ s = SERVICE_STATE_DISCONNECTED) then mret ERR_SERVICE_DISCONNECTED_SUCCESS
  else
    UpdateServiceState self SERVICE_STATE_DISCONNECTING ;;
    retCode ← NetworkDisConnect self ;
    if retCode <? 0 then
      UpdateServiceState self SERVICE_STATE_FAILURE ;;
      mret ERR_SERVICE_DISCONNECTED_FAIL
    else
      UpdateServiceState self SERVICE_STATE_DISCONNECTED ;;
      UpdateServiceState self SERVICE_STATE_IDLE ;;
      mret ERR_SERVICE_DISCONNECTED_SUCCESS.

Definition ServiceAutoConnect (self : nat) : st (world E) Z := ServiceConnect self.

(** [callback->AsObject().GetRefPtr() == ( *iter)->AsObject().GetRefPtr()] *)
Definition same_object (a b : INetConnCallback) : bool := Nat.eqb (cb_object a) (cb_object b).

(** The callback lists are updated by pure functions of the list. *)
Definition register_callback (callback : INetConnCallback) (l : list INetConnCallback)
    : list INetConnCallback :=
  match find_first (same_object callback) l with
  | Some _ => l
  | None => l ++ [callback]
  end.

Definition unregister_callback (callback : INetConnCallback) (l : list INetConnCallback)
    : Z * list INetConnCallback :=
  match find_first (same_object callback) l with
  | Some _ => (ERR_NONE, erase_first (same_object callback) l)
  | None => (ERR_NO_REGISTERED, l)
  end.

Definition RegisterNetConnCallback (self : nat) (callback : option INetConnCallback)
    : st (world E) unit :=
  match callback with
  | None => mret tt
  | Some callback =>
    s ← get_service self ;
    put_service self (with_callbacks (register_callback callback (netConnCallback_ s)) s)
  end.

Definition UnregisterNetConnCallback (self : nat) (callback : option INetConnCallback)
    : st (world E) Z :=
  match callback with
  | None => mret ERR_SERVICE_NULL_PTR
  | Some callback =>
    s ← get_service self ;
    let '(code, l) := unregister_callback callback (netConnCallback_ s) in
    put_service self (with_callbacks l s) ;; mret code
  end.

End Code.
End NetServiceOps.

(** ** net_conn_service.cpp *)

Module NetConnServiceOps.
Section Code.
Context {E : Type} `{Platform E}.

(** *** Reference counting

    A network is referenced by [networks_] and by the services that are
    themselves referenced by [netServices_] or [defaultNetService_]. *)
Definition live_services (c : NetConnService) : list nat :=
  netServices_ c ++ match defaultNetService_ c with Some s => [s] | None => [] end.

Definition network_referenced (w : world E) (l : nat) : bool :=
  bool_decide (l ∈ networks_ (w_conn w)) ||
  existsb (λ s, match w_services w !! s with
                | Some x => Nat.eqb (NetService.network_ x) l
                | None => false
                end) (live_services (w_conn w)).

(** The last local [sptr<Network>] goes away. *)
Definition release_network (l : nat) : st (world E) unit :=
  w ← gets (λ w, w) ;
  if network_referenced w l then mret tt
  else match w_networks w !! l with
       | Some _ => NetworkOps.destruct l
       | None => mret tt
       end.

(** [defaultNetService_ = service;] releases the service it held before. *)
Definition set_default (service : nat) : st (world E) unit :=
  old ← gets (λ w, defaultNetService_ (w_conn w)) ;
  modify_conn (conn_default (Some service)) ;;
  match old with
  | None => mret tt
  | Some o => s ← get_service o ; release_network (NetService.network_ s)
  end.

(** *** Lookup loops *)
Definition GetNetSupplierFromList (netType : Z) (ident : string) : st (world E) (option nat) :=
  gets (λ w, find_first (λ l, match w_suppliers w !! l with
    | Some s => (netType =? NetSupplier.netSupplierType_ s) &&
                String.eqb ident (NetSupplier.netSupplierIdent_ s)
    | None => false end) (netSupplier_ (w_conn w))).

(** The test of the loops on supplier ids. *)
Definition has_supplierId (w : world E) (supplierId : Z) (l : nat) : bool :=
  match w_suppliers w !! l with
  | Some s => supplierId =? NetSupplier.supplierId_ s
  | None => false
  end.

Definition network_has_supplierId (w : world E) (supplierId : Z) (l : nat) : bool :=
  match w_networks w !! l with
  | Some n => has_supplierId w supplierId (Network.supplier_ n)
  | None => false
  end.

Definition GetNetSupplierFromListById (supplierId : Z) : st (world E) (option nat) :=
  gets (λ w, find_first (has_supplierId w supplierId) (netSupplier_ (w_conn w))).

Definition GetNetworkFromListBySupplierId (supplierId : Z) : st (world E) (option nat) :=
  gets (λ w, find_first (network_has_supplierId w supplierId) (networks_ (w_conn w))).

Definition DeleteSupplierFromListById (supplierId : Z) : st (world E) unit :=
  modify (λ w, set_conn (conn_suppliers
    (erase_first (has_supplierId w supplierId) (netSupplier_ (w_conn w))) (w_conn w)) w).

Definition DeleteNetworkFromListBySupplierId (supplierId : Z) : st (world E) unit :=
  modify (λ w, set_conn (conn_networks
    (erase_first (network_has_supplierId w supplierId) (networks_ (w_conn w))) (w_conn w)) w).

(** [network->GetNetId() == netId && netCapability == ( *it)->GetNetCapability()] *)
Definition service_matches (w : world E) (netId netCapability : Z) (l : nat) : bool :=
  match w_services w !! l with
  | Some s =>
    match w_networks w !! NetService.network_ s with
    | Some n => (Network.netId_ n =? netId) && (netCapability =? NetService.netCapability_ s)
    | None => false
    end
  | None => false
  end.

Definition IsServiceInList (netId netCapability : Z) : st (world E) bool :=
  gets (λ w, match find_first (service_matches w netId netCapability) (netServices_ (w_conn w)) with
             | Some _ => true | None => false end).

Definition DeleteServiceFromListByCap (netId netCapability : Z) : st (world E) bool :=
  found ← IsServiceInList netId netCapability ;
  modify (λ w, set_conn (conn_services
    (erase_first (service_matches w netId netCapability) (netServices_ (w_conn w))) (w_conn w)) w) ;;
  mret found.

(** The services whose network differs from [network]; every pointer the loop
    follows must be valid. *)
Fixpoint services_not_on (network : Network.t) (l : list nat) : st (world E) (list nat) :=
  match l with
  | [] => mret []
  | it :: l' =>
    s ← get_service it ;
    currNetwork ← get_network (NetService.network_ s) ;
    same ← NetworkOps.eqb currNetwork network ;
    rest ← services_not_on network l' ;
    mret (if same : bool then rest else it :: rest)
  end.

Definition DeleteServiceFromListByNet (network : Network.t) : st (world E) unit :=
  l ← gets (λ w, netServices_ (w_conn w)) ;
  l' ← services_not_on network l ;
  modify_conn (conn_services l').

(** *** Life cycle *)
Definition Init : st (world E) bool :=
  c ← gets w_conn ;
  if negb registerLocalResult then modify_conn (conn_running false (running_ c)) ;; mret false
  else if negb (registerToService_ c) then
    ok ← on_host (ext EvPublishAbility PublishAbility) ;
    if negb ok then mret false
    else modify_conn (conn_running true (running_ c)) ;; mret true
  else mret true.

Definition OnStart : st (world E) unit :=
  c ← gets w_conn ;
  if running_ c then mret tt
  else
    ok ← Init ;
    if negb ok then mret tt
    else c ← gets w_conn ; modify_conn (conn_running (registerToService_ c) true).

Definition OnStop : st (world E) unit := modify_conn (conn_running false false).

Definition SystemReady : st (world E) Z := mret 0.

(** *** Suppliers *)

(** [make_unique<NetService>(...)] and [netServices_.push_back(service)]. *)
Definition add_service (ident : string) (type cap : Z) (network : nat) : st (world E) nat :=
  service ← NetServiceOps.construct ident type cap network ;
  modify (λ w, set_conn (conn_services (netServices_ (w_conn w) ++ [service]) (w_conn w)) w) ;;
  mret service.

Definition has_cap (netCapabilities cap : Z) : bool := negb (Z.land netCapabilities cap =? 0).

(** The end of the registration: connect the default service, and start a
    timer thread for another attempt when that fails. *)
Definition connect_default : st (world E) unit :=
  default ← gets (λ w, defaultNetService_ (w_conn w)) ;
  match default with
  | None => mret tt
  | Some d =>
    result ← NetServiceOps.ServiceConnect d ;
    if negb (result =? ERR_SERVICE_REQUEST_SUCCESS) then
      modify (λ w, set_conn (conn_timer (S (reConnectTimer_ (w_conn w))) (w_conn w)) w)
    else mret tt
  end.

Definition RegisterNetSupplier (netType : Z) (ident : string) (netCapabilities : Z)
    : st (world E) Z :=
  if (NET_TYPE_MAX <=? netType) || (netType <=? NET_TYPE_UNKNOWN) then mret ERR_INVALID_NETORK_TYPE
  else
    found ← GetNetSupplierFromList netType ident ;
    match found with
    | Some supplier => id ← NetSupplierOps.GetSupplierId supplier ; mret (to_i 32 id)
    | None =>
      supplier ← NetSupplierOps.construct netType ident ;
      network ← NetworkOps.construct supplier ;
      (if has_cap netCapabilities NET_CAPABILITIES_INTERNET then
         service ← add_service ident netType NET_CAPABILITIES_INTERNET network ;
         set_default service
       else mret tt) ;;
      (if has_cap netCapabilities NET_CAPABILITIES_MMS then
         add_service ident netType NET_CAPABILITIES_MMS network ;; mret tt
       else mret tt) ;;
      modify (λ w, set_conn (conn_suppliers (netSupplier_ (w_conn w) ++ [supplier]) (w_conn w)) w) ;;
      modify (λ w, set_conn (conn_networks (networks_ (w_conn w) ++ [network]) (w_conn w)) w) ;;
      connect_default ;;
      id ← NetSupplierOps.GetSupplierId supplier ;
      mret (to_i 32 id)
    end.

Definition ReConnectService : st (world E) Z :=
  default ← gets (λ w, defaultNetService_ (w_conn w)) ;
  match default with
  | None => mret ERR_SERVICE_NULL_PTR
  | Some d =>
    connected ← NetServiceOps.IsConnected d ;
    busy ← (if connected : bool then mret true else NetServiceOps.IsConnecting d) ;
    (if busy : bool then NetServiceOps.ServiceDisConnect d ;; mret tt else mret tt) ;;
    NetServiceOps.ServiceConnect d
  end.

(** The body of a timer thread; it has left the timer. *)
Definition ReConnectServiceTask : st (world E) unit :=
  modify (λ w, set_conn (conn_timer (pred (reConnectTimer_ (w_conn w))) (w_conn w)) w) ;;
  ReConnectService ;; mret tt.

Definition UnregisterNetSupplier (supplierId : Z) : st (world E) Z :=
  supplier ← GetNetSupplierFromListById supplierId ;
  match supplier with
  | None => mret ERR_NO_SUPPLIER
  | Some _ =>
    network ← GetNetworkFromListBySupplierId supplierId ;
    match network with
    | None => DeleteSupplierFromListById supplierId ;; mret ERR_NO_NETWORK
    | Some network =>
      n ← get_network network ;
      DeleteServiceFromListByNet n ;;
      DeleteNetworkFromListBySupplierId supplierId ;;
      DeleteSupplierFromListById supplierId ;;
      release_network network ;;
      mret ERR_NONE
    end
  end.

(** *** Callbacks *)
Definition RegisterNetConnCallback (callback : option INetConnCallback) : st (world E) Z :=
  match callback with
  | None => mret ERR_SERVICE_NULL_PTR
  | Some _ =>
    l ← gets (λ w, netServices_ (w_conn w)) ;
    match l with
    | [] => mret ERR_NO_ANY_NET_TYPE
    | _ => for_each (λ s, NetServiceOps.RegisterNetConnCallback s callback) l ;; mret ERR_NONE
    end
  end.

Definition UnregisterNetConnCallback (callback : option INetConnCallback) : st (world E) Z :=
  match callback with
  | None => mret ERR_SERVICE_NULL_PTR
  | Some _ =>
    l ← gets (λ w, netServices_ (w_conn w)) ;
    match l with
    | [] => mret ERR_NO_ANY_NET_TYPE
    | _ => for_each (λ s, NetServiceOps.UnregisterNetConnCallback s callback ;; mret tt) l ;;
           mret ERR_NONE
    end
  end.

(** The first service of the type whose capability the specifier includes. *)
Definition specifier_matches (w : world E) (spec : NetSpecifier.t) (l : nat) : bool :=
  match w_services w !! l with
  | Some s =>
    (NetService.networkType_ s =? NetSpecifier.netType_ spec) &&
    (Z.land (NetService.netCapability_ s) (NetSpecifier.netCapabilities_ spec)
       =? NetService.netCapability_ s)
  | None => false
  end.

Definition RegisterNetConnCallbackBySpecifier (netSpecifier : option NetSpecifier.t)
    (callback : option INetConnCallback) : st (world E) Z :=
  match netSpecifier, callback with
  | Some spec, Some _ =>
    w ← gets (λ w, w) ;
    match netServices_ (w_conn w) with
    | [] => mret ERR_NO_ANY_NET_TYPE
    | l => match find_first (specifier_matches w spec) l with
           | Some it => NetServiceOps.RegisterNetConnCallback it callback ;; mret ERR_NONE
           | None => mret ERR_NET_TYPE_NOT_FOUND
           end
    end
  | _, _ => mret ERR_SERVICE_NULL_PTR
  end.

Definition UnregisterNetConnCallbackBySpecifier (netSpecifier : option NetSpecifier.t)
    (callback : option INetConnCallback) : st (world E) Z :=
  match netSpecifier, callback with
  | Some spec, Some _ =>
    w ← gets (λ w, w) ;
    match netServices_ (w_conn w) with
    | [] => mret ERR_NO_ANY_NET_TYPE
    | l => match find_first (specifier_matches w spec) l with
           | Some it => NetServiceOps.UnregisterNetConnCallback it callback
           | None => mret ERR_NET_TYPE_NOT_FOUND
           end
    end
  | _, _ => mret ERR_SERVICE_NULL_PTR
  end.

(** *** Updates *)
Definition with_network (supplierId : Z) (k : nat → nat → st (world E) Z) : st (world E) Z :=
  supplier ← GetNetSupplierFromListById supplierId ;
  match supplier with
  | None => mret ERR_NO_SUPPLIER
  | Some supplier =>
    id ← NetSupplierOps.GetSupplierId supplier ;
    network ← GetNetworkFromListBySupplierId id ;
    match network with
    | None => mret ERR_NO_NETWORK
    | Some network => k supplier network
    end
  end.

Definition UpdateNetSupplierInfo (supplierId : Z) (netSupplierInfo : option NetSupplierInfo.t)
    : st (world E) Z :=
  match netSupplierInfo with
  | None => mret ERR_INVALID_PARAMS
  | Some info => with_network supplierId (λ _ network,
      NetworkOps.UpdateNetSupplierInfo network info ;; mret ERR_NONE)
  end.

(** Create or delete the service of one capability of a network. *)
Definition update_capability (ident : string) (type netCapabilities cap : Z) (network : nat)
    : st (world E) unit :=
  n ← get_network network ;
  present ← IsServiceInList (Network.netId_ n) cap ;
  if has_cap netCapabilities cap then
    if negb present then add_service ident type cap network ;; mret tt else mret tt
  else
    if present : bool then DeleteServiceFromListByCap (Network.netId_ n) cap ;; mret tt else mret tt.

Definition UpdateNetCapabilities (supplierId : Z) (netCapabilities : Z) : st (world E) Z :=
  with_network supplierId (λ supplier network,
    type ← NetSupplierOps.GetNetSupplierType supplier ;
    ident ← NetSupplierOps.GetNetSupplierIdent supplier ;
    update_capability ident type netCapabilities NET_CAPABILITIES_INTERNET network ;;
    update_capability ident type netCapabilities NET_CAPABILITIES_MMS network ;;
    mret ERR_NONE).

Definition UpdateNetLinkInfo (supplierId : Z) (netLinkInfo : option NetLinkInfo.t)
    : st (world E) Z :=
  match netLinkInfo with
  | None => mret ERR_INVALID_PARAMS
  | Some info => with_network supplierId (λ _ network,
      NetworkOps.UpdateNetLinkInfo network info ;; mret ERR_NONE)
  end.

End Code.
End NetConnServiceOps.
