(* ===== verification/ConnInv.v ===== *)
(** * The invariant of the connection manager

    [inv] is what every reachable process state satisfies: pointers are valid,
    the lists of suppliers and networks agree, services belong to registered
    networks, the default service's network is alive. [frame] and [quiet] say
    what an operation of the leaves ([ServiceConnect], ...) leaves alone. *)

From S2P Require Import Prelude Parcel Parcelables Host NetIds ConnState ConnNetwork ConnService.
Import NetSpecifier.

(** ** What operations leave alone *)

Definition same_supplier (a b : NetSupplier.t) : Prop :=
  NetSupplier.netController_ a = NetSupplier.netController_ b ∧
  NetSupplier.netSupplierType_ a = NetSupplier.netSupplierType_ b ∧
  NetSupplier.netSupplierIdent_ a = NetSupplier.netSupplierIdent_ b ∧
  NetSupplier.supplierId_ a = NetSupplier.supplierId_ b.

Definition same_network (a b : Network.t) : Prop :=
  Network.supplier_ a = Network.supplier_ b ∧ Network.netId_ a = Network.netId_ b.

Definition same_service (a b : NetService.t) : Prop :=
  NetService.ident_ a = NetService.ident_ b ∧
  NetService.networkType_ a = NetService.networkType_ b ∧
  NetService.netCapability_ a = NetService.netCapability_ b ∧
  NetService.network_ a = NetService.network_ b ∧
  (NoDup (NetService.netConnCallback_ a) → NoDup (NetService.netConnCallback_ b)).

#[export] Instance same_supplier_pre : PreOrder same_supplier.
Proof. split; [by intros ?|]. intros ??? (?&?&?&?) (?&?&?&?). repeat split; by etrans. Qed.
#[export] Instance same_network_pre : PreOrder same_network.
Proof. split; [by intros ?|]. intros ??? (?&?) (?&?). split; by etrans. Qed.
#[export] Instance same_service_pre : PreOrder same_service.
Proof.
  split; [by intros ?|]. intros ??? (?&?&?&?&?) (?&?&?&?&?). repeat split; try by etrans. auto.
Qed.

(** The code never asks a controller for a network. *)
Definition not_request (e : event) : Prop :=
  match e with EvRequestNet _ _ => False | _ => True end.

Section Frame.
Context {E : Type}.
Implicit Type w : world E.

Record frame (w w' : world E) : Prop := {
  fr_suppliers : ∀ l, option_Forall2 same_supplier (w_suppliers w !! l) (w_suppliers w' !! l);
  fr_networks : ∀ l, option_Forall2 same_network (w_networks w !! l) (w_networks w' !! l);
  fr_services : ∀ l, option_Forall2 same_service (w_services w !! l) (w_services w' !! l);
  fr_nsuppliers : w_nsuppliers w' = w_nsuppliers w;
  fr_nnetworks : w_nnetworks w' = w_nnetworks w;
  fr_nservices : w_nservices w' = w_nservices w;
  fr_next : g_nextNetSupplierId w' = g_nextNetSupplierId w;
  fr_netIds : w_netIds w' = w_netIds w;
  fr_ctl : w_netControllers w' = w_netControllers w;
  fr_conn : w_conn w' = w_conn w;
}.

(** Between the two states no call asks a controller for a network. *)
Definition quiet (w w' : world E) : Prop :=
  (netd_ok (h_netd (w_host w)) → netd_ok (h_netd (w_host w'))) ∧
  ∃ evs, h_log (w_host w') = h_log (w_host w) ++ evs ∧ Forall not_request evs.

#[export] Instance frame_pre : PreOrder frame.
Proof.
  split.
  - intros w. split; try done; intros l; by reflexivity.
  - intros a b c [] []. split; try by etrans.
    + intros l. by trans (w_suppliers b !! l).
    + intros l. by trans (w_networks b !! l).
    + intros l. by trans (w_services b !! l).
Qed.

#[export] Instance quiet_pre : PreOrder quiet.
Proof.
  split.
  - intros w. split; [done|]. exists []. by rewrite app_nil_r.
  - intros a b c [Hab (e1 & H1 & F1)] [Hbc (e2 & H2 & F2)]. split; [auto|].
    exists (e1 ++ e2). split; [by rewrite H2, H1, app_assoc|]. by apply Forall_app.
Qed.

Lemma frame_supplier w w' l s : frame w w' → w_suppliers w !! l = Some s →
  ∃ s', w_suppliers w' !! l = Some s' ∧ same_supplier s s'.
Proof. intros [Hs _ _] Hl. specialize (Hs l). rewrite Hl in Hs. inversion Hs. eauto. Qed.

Lemma frame_network w w' l s : frame w w' → w_networks w !! l = Some s →
  ∃ s', w_networks w' !! l = Some s' ∧ same_network s s'.
Proof. intros [_ Hs _] Hl. specialize (Hs l). rewrite Hl in Hs. inversion Hs. eauto. Qed.

Lemma frame_service w w' l s : frame w w' → w_services w !! l = Some s →
  ∃ s', w_services w' !! l = Some s' ∧ same_service s s'.
Proof. intros [_ _ Hs] Hl. specialize (Hs l). rewrite Hl in Hs. inversion Hs. eauto. Qed.

Lemma frame_supplier_inv w w' l s : frame w w' → w_suppliers w' !! l = Some s →
  ∃ s', w_suppliers w !! l = Some s' ∧ same_supplier s' s.
Proof. intros [Hs _ _] Hl. specialize (Hs l). rewrite Hl in Hs. inversion Hs. eauto. Qed.

Lemma frame_network_inv w w' l s : frame w w' → w_networks w' !! l = Some s →
  ∃ s', w_networks w !! l = Some s' ∧ same_network s' s.
Proof. intros [_ Hs _] Hl. specialize (Hs l). rewrite Hl in Hs. inversion Hs. eauto. Qed.

Lemma frame_service_inv w w' l s : frame w w' → w_services w' !! l = Some s →
  ∃ s', w_services w !! l = Some s' ∧ same_service s' s.
Proof. intros [_ _ Hs] Hl. specialize (Hs l). rewrite Hl in Hs. inversion Hs. eauto. Qed.

Lemma option_Forall2_insert {A} (R : A → A → Prop) `{!Reflexive R} (m : gmap nat A) l x y :
  m !! l = Some x → R x y → ∀ k, option_Forall2 R (m !! k) (<[l := y]> m !! k).
Proof.
  intros Hl HR k. destruct (decide (l = k)) as [<-|Hk].
  - rewrite lookup_insert_eq, Hl. by constructor.
  - rewrite lookup_insert_ne by done. reflexivity.
Qed.

Lemma frame_put_supplier w l x y : w_suppliers w !! l = Some x → same_supplier x y →
  frame w (set_suppliers (<[l := y]> (w_suppliers w)) w).
Proof.
  intros Hl Hs. split; try done; try (intros k; reflexivity).
  by eapply (option_Forall2_insert same_supplier).
Qed.

Lemma frame_put_network w l x y : w_networks w !! l = Some x → same_network x y →
  frame w (set_networks (<[l := y]> (w_networks w)) w).
Proof.
  intros Hl Hs. split; try done; try (intros k; reflexivity).
  by eapply (option_Forall2_insert same_network).
Qed.

Lemma frame_put_service w l x y : w_services w !! l = Some x → same_service x y →
  frame w (set_services (<[l := y]> (w_services w)) w).
Proof.
  intros Hl Hs. split; try done; try (intros k; reflexivity).
  by eapply (option_Forall2_insert same_service).
Qed.

Lemma frame_set_host w h : frame w (set_host h w).
Proof. split; try done; intros k; reflexivity. Qed.

Definition step (w w' : world E) : Prop := frame w w' ∧ quiet w w'.

#[export] Instance step_pre : PreOrder step.
Proof. split; [by intros ?|]. intros a b c [] []. split; by etrans. Qed.

End Frame.

#[export] Hint Resolve frame_set_host : netdb.

(** ** The invariant

    [ex] are networks under construction: allocated, referenced by a service,
    not in the lists of the service yet. *)

Section Inv.
Context {E : Type} `{Platform E}.
Implicit Type w : world E.

Record service_ok (nets : list nat) (w : world E) (s : NetService.t) : Prop := {
  so_network : NetService.network_ s ∈ nets;
  so_cap : NetService.netCapability_ s = NET_CAPABILITIES_INTERNET ∨
           NetService.netCapability_ s = NET_CAPABILITIES_MMS;
  so_supplier : ∃ p, w_suppliers w !! NetService.network_ s = Some p ∧
    NetService.ident_ s = NetSupplier.netSupplierIdent_ p ∧
    NetService.networkType_ s = NetSupplier.netSupplierType_ p;
}.

Record supplier_ok (w : world E) (l : nat) (s : NetSupplier.t) : Prop := {
  po_fresh : (l < w_nsuppliers w)%nat;
  po_id : NetSupplier.supplierId_ s = to_u 32 (1003 + Z.of_nat l);
  po_type : NET_TYPE_UNKNOWN < NetSupplier.netSupplierType_ s < NET_TYPE_MAX;
  po_ctl : NetSupplier.netController_ s =
    if NetSupplier.netSupplierType_ s =? NET_TYPE_CELLULAR then Some TelephonyController else None;
}.

(** While the manager has given out at most 64512 ids, they are 0, 1, 2, ... *)
Record ids_ok (w : world E) : Prop := {
  io_wf : NetIdManager.wf (w_netIds w);
  io_last : NetIdManager.lastNetId_ (w_netIds w) = Z.of_nat (w_nnetworks w) - 1;
  io_used : ∀ id, is_Some (NetIdManager.netIdInUse_ (w_netIds w) !! id) →
    id <= NetIdManager.lastNetId_ (w_netIds w);
  io_net : ∀ l n, w_networks w !! l = Some n → Network.netId_ n = Z.of_nat l;
}.

Record inv_x (ex : list nat) (w : world E) : Prop := {
  inv_netd : netd_ok (h_netd (w_host w));
  inv_count : w_nsuppliers w = w_nnetworks w;
  inv_next : g_nextNetSupplierId w = to_u 32 (1003 + Z.of_nat (w_nsuppliers w));
  inv_supplier : ∀ l s, w_suppliers w !! l = Some s → supplier_ok w l s;
  inv_network : ∀ l n, w_networks w !! l = Some n →
    Network.supplier_ n = l ∧ is_Some (w_suppliers w !! l);
  inv_service : ∀ l s, w_services w !! l = Some s →
    (l < w_nservices w)%nat ∧ NoDup (NetService.netConnCallback_ s);
  inv_nets : ∀ l, l ∈ networks_ (w_conn w) ++ ex → is_Some (w_networks w !! l);
  inv_lists : netSupplier_ (w_conn w) = networks_ (w_conn w);
  inv_nodup_networks : NoDup (networks_ (w_conn w) ++ ex);
  inv_keys : ∀ l1 l2 s1 s2,
    l1 ∈ networks_ (w_conn w) ++ ex → l2 ∈ networks_ (w_conn w) ++ ex →
    w_suppliers w !! l1 = Some s1 → w_suppliers w !! l2 = Some s2 →
    NetSupplier.netSupplierType_ s1 = NetSupplier.netSupplierType_ s2 →
    NetSupplier.netSupplierIdent_ s1 = NetSupplier.netSupplierIdent_ s2 → l1 = l2;
  inv_services : ∀ l, l ∈ netServices_ (w_conn w) →
    ∃ s, w_services w !! l = Some s ∧ service_ok (networks_ (w_conn w) ++ ex) w s;
  inv_nodup_services : NoDup (netServices_ (w_conn w));
  inv_caps : ∀ l1 l2 s1 s2, l1 ∈ netServices_ (w_conn w) → l2 ∈ netServices_ (w_conn w) →
    w_services w !! l1 = Some s1 → w_services w !! l2 = Some s2 →
    NetService.network_ s1 = NetService.network_ s2 →
    NetService.netCapability_ s1 = NetService.netCapability_ s2 → l1 = l2;
  inv_default : ∀ d, defaultNetService_ (w_conn w) = Some d →
    ∃ s, w_services w !! d = Some s ∧ is_Some (w_networks w !! NetService.network_ s);
  inv_ctl : ∀ t c, w_netControllers w !! t = Some c → t = NET_TYPE_CELLULAR;
  inv_ids : Z.of_nat (w_nnetworks w) <= 64512 → ids_ok w;
}.

Definition inv : world E → Prop := inv_x [].

Lemma service_ok_frame nets w w' s s' :
  frame w w' → same_service s s' → service_ok nets w s → service_ok nets w' s'.
Proof.
  intros Hf (Ei & Et & Ec & En & _) [Hn Hc (p & Hp & Hi & Ht)].
  destruct (frame_supplier _ _ _ _ Hf Hp) as (p' & Hp' & (_ & Et' & Ei' & _)).
  split; [congruence|destruct Hc; [left|right]; congruence|].
  exists p'. rewrite <- En. repeat split; congruence.
Qed.

Lemma inv_frame ex w w' :
  inv_x ex w → frame w w' → netd_ok (h_netd (w_host w')) → inv_x ex w'.
Proof.
  intros [] Hf Hn. pose proof Hf as [_ _ _ F1 F2 F3 F4 F5 F6 F7].
  split; rewrite ?F1, ?F2, ?F3, ?F4, ?F6, ?F7; try done.
  - intros l s' Hl. destruct (frame_supplier_inv _ _ _ _ Hf Hl) as (s & Hs & (Ec & Et & Ei & Eid)).
    destruct (inv_supplier0 _ _ Hs) as [P1 P2 P3 P4].
    split; rewrite ?F1, <- ?Et, <- ?Eid, <- ?Ec; done.
  - intros l n' Hl. destruct (frame_network_inv _ _ _ _ Hf Hl) as (n & Hs & [Es _]).
    destruct (inv_network0 _ _ Hs) as [P1 [p Hp]]. split; [congruence|].
    destruct (frame_supplier _ _ _ _ Hf Hp) as (? & ? & _); eauto.
  - intros l s' Hl. destruct (frame_service_inv _ _ _ _ Hf Hl) as (s & Hs & (_ & _ & _ & _ & Hnd)).
    destruct (inv_service0 _ _ Hs). split; [done|auto].
  - intros l Hl. destruct (inv_nets0 _ Hl) as [n Hs].
    destruct (frame_network _ _ _ _ Hf Hs) as (? & ? & _); eauto.
  - intros l1 l2 s1' s2' H1 H2 Hl1 Hl2.
    destruct (frame_supplier_inv _ _ _ _ Hf Hl1) as (s1 & Hs1 & (_ & Et1 & Ei1 & _)).
    destruct (frame_supplier_inv _ _ _ _ Hf Hl2) as (s2 & Hs2 & (_ & Et2 & Ei2 & _)).
    rewrite <- Et1, <- Et2, <- Ei1, <- Ei2. eauto.
  - intros l Hl. destruct (inv_services0 _ Hl) as (s & Hs & Hok).
    destruct (frame_service _ _ _ _ Hf Hs) as (s' & ? & ?). exists s'. split; [done|].
    by eapply service_ok_frame.
  - intros l1 l2 s1' s2' H1 H2 Hl1 Hl2.
    destruct (frame_service_inv _ _ _ _ Hf Hl1) as (s1 & Hs1 & (_ & _ & Et1 & Ei1 & _)).
    destruct (frame_service_inv _ _ _ _ Hf Hl2) as (s2 & Hs2 & (_ & _ & Et2 & Ei2 & _)).
    rewrite <- Et1, <- Et2, <- Ei1, <- Ei2. eauto.
  - intros d Hd. destruct (inv_default0 _ Hd) as (s & Hs & [n Hnet]).
    destruct (frame_service _ _ _ _ Hf Hs) as (s' & ? & (_ & _ & _ & En & _)).
    destruct (frame_network _ _ _ _ Hf Hnet) as (? & ? & _). exists s'. rewrite <- En. eauto.
  - intros Hb. destruct (inv_ids0 Hb) as [I1 I2 I3 I4]. split; rewrite ?F5, ?F2; try done.
    intros l n' Hl. destruct (frame_network_inv _ _ _ _ Hf Hl) as (n & Hs & [_ En]).
    rewrite <- En. eauto.
Qed.

Lemma inv_step ex w w' : inv_x ex w → step w w' → inv_x ex w'.
Proof. intros Hi [Hf [Hn _]]. eapply inv_frame; [done..|]. apply Hn, Hi. Qed.

(** Sequencing of operations that are steps. *)
Lemma wp_seq {A B} ex (m : st (world E) A) (k : A → st (world E) B) R1 R2 w :
  inv_x ex w → wp m (λ a w1, step w w1 ∧ R1 a w1) w →
  (∀ a w1, inv_x ex w1 → step w w1 → R1 a w1 → wp (k a) (λ b w2, step w1 w2 ∧ R2 b w2) w1) →
  wp (m ≫= k) (λ b w2, step w w2 ∧ R2 b w2) w.
Proof.
  intros Hi Hm Hk. apply wp_bind. eapply wp_mono; [exact Hm|]. intros a w1 [Hs HR]. cbv beta.
  eapply wp_mono; [apply Hk; [by eapply inv_step|done|done]|].
  intros b w2 [Hs2 ?]. split; [by etrans|done].
Qed.

Lemma step_log w h evs :
  h_log h = h_log (w_host w) ++ evs → netd_ok (h_netd h) → Forall not_request evs →
  step w (set_host h w).
Proof. intros Hl Hn Hf. split; [auto with netdb|]. split; [done|]. by exists evs. Qed.

Lemma step_put w w' : frame w w' → w_host w' = w_host w → step w w'.
Proof.
  intros Hf Hh. split; [done|]. split; rewrite Hh; [done|]. exists []. by rewrite app_nil_r.
Qed.

End Inv.

(** ** The leaves are steps *)

Section Leaves.
Context {E : Type} `{Platform E}.
Implicit Type w : world E.

(** A service whose network is in the heap. *)
Definition alive w (self : nat) : Prop :=
  ∃ s, w_services w !! self = Some s ∧ is_Some (w_networks w !! NetService.network_ s).

Lemma alive_step w w' self : alive w self → step w w' → alive w' self.
Proof.
  intros (s & Hs & n & Hn) [Hf _].
  destruct (frame_service _ _ _ _ Hf Hs) as (s' & Hs' & (_ & _ & _ & En & _)).
  destruct (frame_network _ _ _ _ Hf Hn) as (n' & Hn' & _).
  exists s'. rewrite <- En. eauto.
Qed.

Lemma network_step w w' l : is_Some (w_networks w !! l) → step w w' → is_Some (w_networks w' !! l).
Proof. intros [n Hn] [Hf _]. destruct (frame_network _ _ _ _ Hf Hn) as (? & ? & _); eauto. Qed.

Lemma supplier_step w w' l : is_Some (w_suppliers w !! l) → step w w' → is_Some (w_suppliers w' !! l).
Proof. intros [n Hn] [Hf _]. destruct (frame_supplier _ _ _ _ Hf Hn) as (? & ? & _); eauto. Qed.

Lemma alive_list ex w l : inv_x ex w → l ∈ netServices_ (w_conn w) → alive w l.
Proof.
  intros Hi Hl. destruct (inv_services _ _ Hi _ Hl) as (s & Hs & [Hn _ _]).
  exists s. split; [done|]. by apply (inv_nets _ _ Hi).
Qed.

Lemma alive_default ex w d : inv_x ex w → defaultNetService_ (w_conn w) = Some d → alive w d.
Proof. intros Hi Hd. apply (inv_default _ _ Hi _ Hd). Qed.

(** Outgoing calls. *)
Lemma step_on_host {A} ex (m : st (host E) A) evs w :
  inv_x ex w → emits m evs → Forall not_request evs →
  wp (on_host m) (λ _ w', step w w' ∧ True) w.
Proof.
  intros Hi Hm Hf. eapply wp_emits; [exact Hm|apply Hi|]. intros a h Hl Hn.
  split; [|done]. by eapply step_log.
Qed.

Definition state_events (s : NetService.t) (x : ServiceState) : list event :=
  EvBroadcast (NetServiceOps.change_event x (NetService.networkType_ s)) ::
  ((λ c, EvNotify c (NetServiceOps.change_info x (NetService.networkType_ s)))
     <$> NetService.netConnCallback_ s).

Lemma emits_Notify l info :
  emits (NetServiceOps.NotifyNetConnStateChanged (E:=E) l info) ((λ c, EvNotify c info) <$> l).
Proof.
  replace ((λ c, EvNotify c info) <$> l) with (concat ((λ c, [EvNotify c info]) <$> l)).
  - apply emits_for_each. intros c _. apply (emits_bind _ _ [EvNotify c info] []); auto with netdb.
  - induction l as [|c l IH]; [done|]. rewrite !fmap_cons. simpl. by f_equal.
Qed.

Lemma state_events_quiet s x : Forall not_request (state_events s x).
Proof. apply Forall_cons. split; [done|]. apply Forall_fmap, Forall_true. done. Qed.

(** [UpdateServiceState] stores the state and tells everybody. *)
Lemma wp_UpdateServiceState self x s w (Q : unit → world E → Prop) :
  w_services w !! self = Some s → netd_ok (h_netd (w_host w)) →
  (∀ h, h_log h = h_log (w_host w) ++ state_events s x → netd_ok (h_netd h) →
     Q tt (set_host h (set_services (<[self := NetServiceOps.with_state
       (match x with SERVICE_STATE_UNKNOWN => SERVICE_STATE_FAILURE | x => x end) s]>
         (w_services w)) w))) →
  wp (NetServiceOps.UpdateServiceState self x) Q w.
Proof.
  intros Hs Hn HQ. unfold NetServiceOps.UpdateServiceState.
  eapply wp_bind, wp_get_service; [exact Hs|]. apply wp_bind, wp_modify, wp_bind.
  eapply wp_emits; [by apply emits_SendBroadcast|done|]. intros _ h1 L1 N1.
  eapply wp_emits; [apply emits_Notify|done|]. intros [] h2 L2 N2.
  apply (HQ h2); [|done]. simpl in L2. rewrite L2, L1. by rewrite <- app_assoc.
Qed.

Lemma step_UpdateServiceState ex w self x :
  inv_x ex w → alive w self → wp (NetServiceOps.UpdateServiceState self x) (λ _ w', step w w' ∧ True) w.
Proof.
  intros Hi (s & Hs & _). eapply wp_UpdateServiceState; [exact Hs|apply Hi|].
  intros h L N. split; [|done]. set (y := NetServiceOps.with_state _ s).
  trans (set_services (<[self := y]> (w_services w)) w).
  - apply step_put; [by apply (frame_put_service w self s y Hs)|done].
  - eapply step_log; [exact L|done|apply state_events_quiet].
Qed.

Lemma step_SupplierDisconnection ex w l cap :
  inv_x ex w → is_Some (w_suppliers w !! l) →
  wp (NetSupplierOps.SupplierDisconnection l cap) (λ _ w', step w w' ∧ True) w.
Proof.
  intros Hi [s Hs]. unfold NetSupplierOps.SupplierDisconnection.
  eapply wp_bind, wp_get_supplier; [exact Hs|].
  destruct (NetSupplier.netController_ s) as [[]|]; [|apply wp_ret; split; [reflexivity|done]].
  unfold NetControllers.ReleaseNetwork.
  eapply (wp_seq ex _ _ (λ _ _, True)); [exact Hi| |].
  - eapply step_on_host; [exact Hi|apply emits_ext|]. by constructor.
  - intros r w1 Hi1 Hst _. wp_step; [|apply wp_ret; split; [reflexivity|done]].
    destruct (supplier_step _ _ _ (ex_intro _ s Hs) Hst) as [s1 Hs1].
    eapply wp_bind, wp_get_supplier; [exact Hs1|]. apply wp_bind, wp_modify, wp_ret.
    split; [|done]. apply step_put; [by eapply frame_put_supplier|done].
Qed.

Lemma network_supplier ex w l n :
  inv_x ex w → w_networks w !! l = Some n → is_Some (w_suppliers w !! Network.supplier_ n).
Proof. intros Hi Hn. by destruct (inv_network _ _ Hi _ _ Hn) as [-> ?]. Qed.

Lemma step_NetworkConnect ex w l cap :
  inv_x ex w → is_Some (w_networks w !! l) →
  wp (NetworkOps.NetworkConnect l cap) (λ _ w', step w w' ∧ True) w.
Proof.
  intros Hi [n Hn]. unfold NetworkOps.NetworkConnect.
  eapply wp_bind, wp_get_network; [exact Hn|].
  wp_step; [apply wp_ret; split; [reflexivity|done]|].
  eapply (wp_seq ex _ _ (λ _ _, True)); [exact Hi| |].
  - eapply step_SupplierDisconnection; [exact Hi|by eapply network_supplier].
  - intros r w1 Hi1 Hst _. wp_step; [apply wp_ret; split; [reflexivity|done]|].
    destruct (network_step _ _ _ (ex_intro _ n Hn) Hst) as [n1 Hn1].
    eapply wp_bind, wp_get_network; [exact Hn1|]. apply wp_bind, wp_modify, wp_ret.
    split; [|done]. apply step_put; [by eapply frame_put_network|done].
Qed.

Lemma step_NetworkDisconnect ex w l cap :
  inv_x ex w → is_Some (w_networks w !! l) →
  wp (NetworkOps.NetworkDisconnect l cap) (λ _ w', step w w' ∧ True) w.
Proof.
  intros Hi [n Hn]. unfold NetworkOps.NetworkDisconnect.
  eapply wp_bind, wp_get_network; [exact Hn|].
  wp_step; [apply wp_ret; split; [reflexivity|done]|].
  eapply step_SupplierDisconnection; [exact Hi|by eapply network_supplier].
Qed.

End Leaves.

(** ** Services and networks *)

Section Services.
Context {E : Type} `{Platform E}.
Implicit Type w : world E.

Lemma wp_IsConnecting self w :
  alive w self → wp (NetServiceOps.IsConnecting self) (λ _ w', w' = w) w.
Proof.
  intros (s & Hs & n & Hn). unfold NetServiceOps.IsConnecting.
  eapply wp_bind, wp_get_service; [exact Hs|].
  destruct (NetService.state_ s); try (by apply wp_ret);
    (eapply wp_bind, wp_get_network; [exact Hn|]; by apply wp_ret).
Qed.

Lemma wp_IsConnected self w :
  alive w self → wp (NetServiceOps.IsConnected self) (λ _ w', w' = w) w.
Proof.
  intros (s & Hs & _). unfold NetServiceOps.IsConnected.
  eapply wp_bind, wp_get_service; [exact Hs|]. destruct (NetService.state_ s); by apply wp_ret.
Qed.

Lemma step_svc_NetworkDisConnect ex w self :
  inv_x ex w → alive w self → wp (NetServiceOps.NetworkDisConnect self) (λ _ w', step w w' ∧ True) w.
Proof.
  intros Hi (s & Hs & Hn). unfold NetServiceOps.NetworkDisConnect.
  eapply wp_bind, wp_get_service; [exact Hs|].
  apply wp_bind. eapply wp_mono; [eapply step_NetworkDisconnect; [exact Hi|exact Hn]|].
  intros b w' [??]. by apply wp_ret.
Qed.

Lemma step_svc_NetworkConnect ex w self :
  inv_x ex w → alive w self → wp (NetServiceOps.NetworkConnect self) (λ _ w', step w w' ∧ True) w.
Proof.
  intros Hi Ha. unfold NetServiceOps.NetworkConnect.
  eapply (wp_seq ex _ _ (λ _ _, True)); [exact Hi|by eapply step_UpdateServiceState|].
  intros _ w1 Hi1 Hst _. destruct (alive_step _ _ _ Ha Hst) as (s & Hs & Hn).
  eapply wp_bind, wp_get_service; [exact Hs|].
  apply wp_bind. eapply wp_mono; [eapply step_NetworkConnect; [exact Hi1|exact Hn]|].
  intros b w' [??]. by apply wp_ret.
Qed.

End Services.

(** Run the next leaf of a service operation. *)
Ltac leaf ex tac :=
  eapply (wp_seq ex _ _ (λ _ _, True)); [eassumption|tac; eassumption|];
  let Hst := fresh "Hst" in
  intros ? ? ? Hst _;
  repeat match goal with
  | Ha : alive ?w ?d, Hs : step ?w ?w' |- _ =>
    lazymatch goal with
    | _ : alive w' d |- _ => fail
    | _ => pose proof (alive_step _ _ _ Ha Hs)
    end
  end.

Ltac stop := apply wp_ret; split; [reflexivity|done].

Section Services2.
Context {E : Type} `{Platform E}.
Implicit Type w : world E.

Lemma step_ServiceConnect ex w self :
  inv_x ex w → alive w self → wp (NetServiceOps.ServiceConnect self) (λ _ w', step w w' ∧ True) w.
Proof.
  intros Hi Ha. unfold NetServiceOps.ServiceConnect.
  apply wp_bind. eapply wp_mono; [by apply wp_IsConnecting|]. intros c1 ? ->.
  wp_step; [stop|]. apply wp_bind. eapply wp_mono; [by apply wp_IsConnected|]. intros c2 ? ->.
  wp_step; [stop|]. pose proof Ha as (s & Hs & _).
  eapply wp_bind, wp_get_service; [exact Hs|]. wp_step; [stop|].
  leaf ex ltac:(eapply step_UpdateServiceState). leaf ex ltac:(eapply step_svc_NetworkConnect).
  wp_step.
  - leaf ex ltac:(eapply step_UpdateServiceState). leaf ex ltac:(eapply step_svc_NetworkDisConnect).
    leaf ex ltac:(eapply step_UpdateServiceState). leaf ex ltac:(eapply step_UpdateServiceState). stop.
  - leaf ex ltac:(eapply step_UpdateServiceState). stop.
Qed.

Lemma step_ServiceDisConnect ex w self :
  inv_x ex w → alive w self →
  wp (NetServiceOps.ServiceDisConnect self) (λ _ w', step w w' ∧ True) w.
Proof.
  intros Hi Ha. unfold NetServiceOps.ServiceDisConnect. pose proof Ha as (s & Hs & _).
  eapply wp_bind, wp_get_service; [exact Hs|].
  case_decide; [stop|]. case_decide; [stop|].
  leaf ex ltac:(eapply step_UpdateServiceState). leaf ex ltac:(eapply step_svc_NetworkDisConnect).
  wp_step.
  - leaf ex ltac:(eapply step_UpdateServiceState). stop.
  - leaf ex ltac:(eapply step_UpdateServiceState). leaf ex ltac:(eapply step_UpdateServiceState). stop.
Qed.

(** The callback lists have one entry per object. *)
Lemma register_callback_NoDup c l : NoDup l → NoDup (NetServiceOps.register_callback c l).
Proof.
  intros Hl. unfold NetServiceOps.register_callback. destruct (find_first _ l) eqn:Ef; [done|].
  rewrite find_first_None in Ef. apply NoDup_app. split; [done|]. split; [|apply NoDup_singleton].
  intros x Hx ->%list_elem_of_singleton. specialize (Ef _ Hx).
  unfold NetServiceOps.same_object in Ef. by rewrite Nat.eqb_refl in Ef.
Qed.

Lemma unregister_callback_NoDup c l : NoDup l → NoDup (NetServiceOps.unregister_callback c l).2.
Proof.
  intros Hl. unfold NetServiceOps.unregister_callback.
  destruct (find_first _ l); simpl; auto with netdb.
Qed.

Lemma step_RegisterNetConnCallback w self cb :
  is_Some (w_services w !! self) →
  wp (NetServiceOps.RegisterNetConnCallback self cb) (λ _ w', step w w' ∧ True) w.
Proof.
  intros [s Hs]. destruct cb as [c|]; [|stop]. unfold NetServiceOps.RegisterNetConnCallback.
  eapply wp_bind, wp_get_service; [exact Hs|]. apply wp_modify. split; [|done].
  apply step_put; [|done]. eapply frame_put_service; [exact Hs|].
  repeat split. apply register_callback_NoDup.
Qed.

Lemma step_UnregisterNetConnCallback w self cb :
  is_Some (w_services w !! self) →
  wp (NetServiceOps.UnregisterNetConnCallback self cb) (λ _ w', step w w' ∧ True) w.
Proof.
  intros [s Hs]. destruct cb as [c|]; [|stop]. unfold NetServiceOps.UnregisterNetConnCallback.
  eapply wp_bind, wp_get_service; [exact Hs|].
  pose proof (unregister_callback_NoDup c (NetService.netConnCallback_ s)) as Hnd.
  destruct (NetServiceOps.unregister_callback c _) as [code l]. apply wp_bind, wp_modify, wp_ret.
  split; [|done]. apply step_put; [|done]. eapply frame_put_service; [exact Hs|]. by repeat split.
Qed.

(** A loop over the service list of steps. *)
Lemma step_for_each ex w (f : nat → st (world E) unit) l :
  inv_x ex w → (∀ s, s ∈ l → is_Some (w_services w !! s)) →
  (∀ s w, is_Some (w_services w !! s) → wp (f s) (λ _ w', step w w' ∧ True) w) →
  wp (for_each f l) (λ _ w', step w w' ∧ True) w.
Proof.
  intros Hi Hl Hf.
  apply (wp_for_each f l (λ l' w', step w w' ∧ ∀ s, s ∈ l' → is_Some (w_services w' !! s))).
  - split; [reflexivity|done].
  - intros s l' w1 [Hst Hv]. eapply wp_mono; [apply Hf, Hv; left|].
    intros [] w2 [Hst2 _]. split; [by etrans|]. intros x Hx.
    destruct (Hv x ltac:(by right)) as [sx Hsx]. destruct Hst2 as [Hfr _].
    destruct (frame_service _ _ _ _ Hfr Hsx) as (? & ? & _). eauto.
  - intros w1 [Hst _]. done.
Qed.

End Services2.

(** ** The calls of a link update *)

Section Link.
Context {E : Type} `{Platform E}.
Implicit Type w : world E.
Import NetLinkInfo.

Definition iface_events (netId : Z) (old new : string) : list event :=
  if String.eqb new old then []
  else (if String.eqb new "" then [] else [EvNetd (NdNetworkAddInterface netId new)]) ++
       (if String.eqb old "" then [] else [EvNetd (NdNetworkRemoveInterface netId old)]).

Definition add_route (netId : Z) (r : Route.t) : event :=
  EvNetd (NdNetworkAddRoute netId (Route.iface_ r)
    (INetAddr.address_ (Route.destination_ r)) (INetAddr.address_ (Route.gateway_ r))).
Definition remove_route (netId : Z) (r : Route.t) : event :=
  EvNetd (NdNetworkRemoveRoute netId (Route.iface_ r)
    (INetAddr.address_ (Route.destination_ r)) (INetAddr.address_ (Route.gateway_ r))).

Definition route_events (netId : Z) (old new : list Route.t) : list event :=
  concat ((λ r, if NetworkOps.route_in r old then [] else [add_route netId r]) <$> new) ++
  concat ((λ r, if NetworkOps.route_in r new then [] else [remove_route netId r]) <$> old).

Definition dns_events (netId : Z) (l : list INetAddr.t) : list event :=
  [EvNetd (NdSetResolverConfig (to_u 16 netId) 0 1
     (INetAddr.address_ <$> l) (INetAddr.hostName_ <$> l))].

Definition mtu_events (old new : NetLinkInfo.t) : list event :=
  if mtu_ new =? mtu_ old then [] else [EvNetd (NdInterfaceSetMtu (ifaceName_ new) (mtu_ new))].

Definition link_events (netId : Z) (old new : NetLinkInfo.t) : list event :=
  iface_events netId (ifaceName_ old) (ifaceName_ new) ++
  route_events netId (routeList_ old) (routeList_ new) ++
  dns_events netId (dnsList_ new) ++ mtu_events old new.

Lemma emits_ignore {A} (m : st (host E) A) l : emits m l → emits (m ≫= λ _, mret tt) l.
Proof. intros Hm. rewrite <- (app_nil_r l). apply emits_bind; auto with netdb. Qed.

Lemma emits_UpdateInterfaces n i :
  emits (NetworkOps.UpdateInterfaces n i)
    (iface_events (Network.netId_ n) (ifaceName_ (Network.netLinkInfo_ n)) (ifaceName_ i)).
Proof.
  unfold NetworkOps.UpdateInterfaces, iface_events.
  destruct (String.eqb (ifaceName_ i) _); [apply emits_ret|].
  apply emits_bind; [|intros _]; destruct (String.eqb _ ""); simpl;
    solve [apply emits_ret | apply emits_ignore, emits_call_netd].
Qed.

Lemma emits_UpdateRoutes n i :
  emits (NetworkOps.UpdateRoutes n i)
    (route_events (Network.netId_ n) (routeList_ (Network.netLinkInfo_ n)) (routeList_ i)).
Proof.
  unfold NetworkOps.UpdateRoutes, route_events.
  apply emits_bind; [|intros _]; apply emits_for_each; intros r _;
    destruct (NetworkOps.route_in r _); simpl;
    solve [apply emits_ret | apply emits_ignore, emits_call_netd].
Qed.

Lemma emits_UpdateDnses n i :
  emits (NetworkOps.UpdateDnses n i) (dns_events (Network.netId_ n) (dnsList_ i)).
Proof. apply emits_ignore, emits_call_dns. Qed.

Lemma emits_updateMtu n i :
  emits (NetworkOps.updateMtu n i) (mtu_events (Network.netLinkInfo_ n) i).
Proof.
  unfold NetworkOps.updateMtu, mtu_events.
  destruct (mtu_ i =? _); [apply emits_ret|apply emits_ignore, emits_call_netd].
Qed.

Lemma link_events_quiet netId old new : Forall not_request (link_events netId old new).
Proof.
  assert (Hc : ∀ (f : Route.t → list event) l,
    (∀ r, Forall not_request (f r)) → Forall not_request (concat (f <$> l))).
  { intros f l Hf. induction l as [|r l IH]; [constructor|].
    rewrite fmap_cons. simpl. apply Forall_app. auto. }
  unfold link_events, iface_events, route_events, dns_events, mtu_events.
  repeat first
    [ apply Forall_nil_2 | apply Forall_cons_2; [done|] | progress case_match
    | apply Forall_app_2 | apply Hc; intros ? ].
Qed.

(** The whole update: the calls in order, then the stored information. *)
Lemma wp_UpdateNetLinkInfo self n i w (Q : bool → world E → Prop) :
  w_networks w !! self = Some n → netd_ok (h_netd (w_host w)) →
  (∀ h, h_log h = h_log (w_host w) ++ link_events (Network.netId_ n) (Network.netLinkInfo_ n) i →
     netd_ok (h_netd h) →
     Q true (set_networks (<[self := NetworkOps.with_linkinfo i n]> (w_networks w))
               (set_host h w))) →
  wp (NetworkOps.UpdateNetLinkInfo self i) Q w.
Proof.
  intros Hn Hok HQ. unfold NetworkOps.UpdateNetLinkInfo.
  eapply wp_bind, wp_get_network; [exact Hn|]. apply wp_bind.
  eapply wp_emits; [apply emits_UpdateInterfaces|done|]. intros _ h1 L1 N1. apply wp_bind.
  eapply wp_emits; [apply emits_UpdateRoutes|done|]. intros _ h2 L2 N2. apply wp_bind.
  eapply wp_emits; [apply emits_UpdateDnses|done|]. intros _ h3 L3 N3. apply wp_bind.
  eapply wp_emits; [apply emits_updateMtu|done|]. intros _ h4 L4 N4.
  apply wp_bind, wp_modify, wp_ret. apply HQ; [|done]. simpl in L4, L3, L2.
  rewrite L4, L3, L2, L1. unfold link_events. by rewrite <- !app_assoc.
Qed.

Lemma step_UpdateNetLinkInfo ex w self i :
  inv_x ex w → is_Some (w_networks w !! self) →
  wp (NetworkOps.UpdateNetLinkInfo self i) (λ _ w', step w w' ∧ True) w.
Proof.
  intros Hi [n Hn]. eapply wp_UpdateNetLinkInfo; [exact Hn|apply Hi|].
  intros h L N. split; [|done]. trans (set_host h w).
  - eapply step_log; [exact L|done|apply link_events_quiet].
  - apply step_put; [|done]. apply (frame_put_network (set_host h w) self n _ Hn). by split.
Qed.

Lemma step_net_UpdateNetSupplierInfo ex w self i :
  inv_x ex w → is_Some (w_networks w !! self) →
  wp (NetworkOps.UpdateNetSupplierInfo self i) (λ _ w', step w w' ∧ True) w.
Proof.
  intros Hi Hs. pose proof Hs as [n Hn]. unfold NetworkOps.UpdateNetSupplierInfo.
  eapply wp_bind, wp_get_network; [exact Hn|].
  eapply (wp_seq ex _ _ (λ _ _, True)); [exact Hi| |].
  - unfold NetSupplierOps.UpdateNetSupplierInfo.
    destruct (network_supplier _ _ _ _ Hi Hn) as [s Hp].
    eapply wp_bind, wp_get_supplier; [exact Hp|]. apply wp_modify. split; [|done].
    apply step_put; [|done]. by eapply frame_put_supplier.
  - intros _ w1 Hi1 Hst1 _. destruct (network_step _ _ _ Hs Hst1) as [n1 Hn1].
    pose proof Hst1 as [Hf1 _]. destruct (frame_network _ _ _ _ Hf1 Hn) as (n1' & Hn1' & Hsame).
    rewrite Hn1 in Hn1'. injection Hn1' as <-.
    eapply (wp_seq ex _ _ (λ _ _, True)); [exact Hi1| |intros; stop].
    wp_step; [|stop].
    eapply (wp_seq ex _ _ (λ _ _, True)); [exact Hi1| |].
    + eapply step_on_host; [exact Hi1|apply emits_call_netd|]. by repeat constructor.
    + intros _ w2 Hi2 [Hf2 _] _. destruct (frame_network _ _ _ _ Hf2 Hn1) as (n2 & Hn2 & Hsame2).
      apply wp_modify. split; [|done]. apply step_put; [|done].
      eapply frame_put_network; [exact Hn2|]. destruct Hsame, Hsame2. split; simpl; congruence.
Qed.

End Link.
