(* ===== verification/ConnOps.v ===== *)
(** * Operations on the lists of the connection manager

    What registration, removal and the capability update do to the lists, the
    invariant they keep, and the safety of every operation of the service. *)

From S2P Require Import Prelude Parcel Parcelables Host NetIds ConnState ConnNetwork ConnService.
From S2P Require Import ConnInv.
Import NetSpecifier NetConnServiceOps.

(** Suppliers and services keep their identity; they are never freed. *)
Section Evolves.
Context {E : Type} `{Platform E}.
Implicit Type w : world E.

Record agree w w' : Prop := {
  ag_suppliers : ∀ l s, w_suppliers w !! l = Some s →
    ∃ s', w_suppliers w' !! l = Some s' ∧ same_supplier s s';
  ag_services : ∀ l s, w_services w !! l = Some s →
    ∃ s', w_services w' !! l = Some s' ∧ same_service s s';
}.

Definition evolves w w' : Prop := agree w w' ∧ quiet w w'.

#[export] Instance evolves_pre : PreOrder evolves.
Proof.
  split.
  - intros w. split; [|reflexivity]. split; intros l s Hs; exists s; by split.
  - intros a b c [[A1 A2] Q1] [[B1 B2] Q2]. split; [|by etrans].
    split; intros l s Hs.
    + destruct (A1 _ _ Hs) as (s' & Hs' & ?). destruct (B1 _ _ Hs') as (s'' & ? & ?).
      exists s''. split; [done|by etrans].
    + destruct (A2 _ _ Hs) as (s' & Hs' & ?). destruct (B2 _ _ Hs') as (s'' & ? & ?).
      exists s''. split; [done|by etrans].
Qed.

Lemma step_evolves w w' : step w w' → evolves w w'.
Proof.
  intros [Hf Hq]. split; [|done]. split; intros l s Hs.
  - by eapply frame_supplier.
  - by eapply frame_service.
Qed.

Lemma evolves_conn w c : evolves w (set_conn c w).
Proof. split; [|split; [done|exists []; by rewrite app_nil_r]]. split; intros l s Hs; exists s; by split. Qed.

(** ** Creating a supplier with its network *)

Lemma wp_MakeNetController w type (Q : option INetController → world E → Prop) :
  (∀ t c, w_netControllers w !! t = Some c → t = NET_TYPE_CELLULAR) →
  (∀ m, (∀ t c, m !! t = Some c → t = NET_TYPE_CELLULAR) →
     Q (if type =? NET_TYPE_CELLULAR then Some TelephonyController else None)
       (set_netControllers m w)) →
  wp (NetControllers.MakeNetController type) Q w.
Proof.
  intros Hc HQ. unfold NetControllers.MakeNetController, NetControllers.GetNetControllerFromMap.
  apply wp_bind, wp_gets. destruct (w_netControllers w !! type) as [[]|] eqn:Em.
  - apply wp_ret. specialize (HQ _ Hc). rewrite (Hc _ _ Em) in HQ. by destruct w.
  - destruct (Z.eqb_spec type NET_TYPE_CELLULAR).
    + apply wp_bind, wp_modify, wp_ret. apply HQ. intros t c.
      rewrite lookup_insert. case_decide; [done|]. apply Hc.
    + apply wp_ret. specialize (HQ _ Hc). by destruct w.
Qed.

Lemma fresh_supplier ex w : inv_x ex w → w_suppliers w !! w_nsuppliers w = None.
Proof.
  intros Hi. destruct (w_suppliers w !! w_nsuppliers w) eqn:Es; [|done].
  destruct (inv_supplier _ _ Hi _ _ Es) as [? _ _ _]. lia.
Qed.

Lemma fresh_service ex w : inv_x ex w → w_services w !! w_nservices w = None.
Proof.
  intros Hi. destruct (w_services w !! w_nservices w) eqn:Es; [|done].
  destruct (inv_service _ _ Hi _ _ Es) as [? _]. lia.
Qed.

Lemma fresh_network ex w : inv_x ex w → w_networks w !! w_nsuppliers w = None.
Proof.
  intros Hi. destruct (w_networks w !! w_nsuppliers w) eqn:Es; [|done].
  destruct (inv_network _ _ Hi _ _ Es) as [_ [s Hs]]. by rewrite (fresh_supplier ex w Hi) in Hs.
Qed.

Lemma ids_ok_reserve w :
  ids_ok w → Z.of_nat (w_nnetworks w) <= 64511 →
  let r := NetIdManager.ReserveNetId (w_netIds w) in
  r.1 = Z.of_nat (w_nnetworks w) ∧ NetIdManager.wf r.2 ∧ NetIdManager.lastNetId_ r.2 = r.1 ∧
  (∀ id, is_Some (NetIdManager.netIdInUse_ r.2 !! id) → id <= r.1).
Proof.
  intros [Hwf Hl Hu _] Hb.
  assert (Hf : NetIdManager.netIdInUse_ (w_netIds w) !! (NetIdManager.lastNetId_ (w_netIds w) + 1)
               = None).
  { destruct (_ !! (_ + 1)) eqn:Ex; [|done]. specialize (Hu _ ltac:(by eexists)). lia. }
  rewrite ReserveNetId_next; [|done| |done].
  2:{ unfold NetIdManager.MAX_NET_ID, NetIdManager.TUN_IF_RANGE. lia. }
  cbn [fst snd NetIdManager.lastNetId_ NetIdManager.netIdInUse_].
  split; [lia|]. split; [|split; [done|]].
  - apply reserved_wf with (s := w_netIds w) (id := NetIdManager.lastNetId_ (w_netIds w) + 1);
      [done| | |lia].
    + split; [done|]. split; [done|]. split; [done|]. by destruct Hwf as [-> _].
    + unfold NetIdManager.MAX_NET_ID, NetIdManager.TUN_IF_RANGE. lia.
  - intros id. rewrite lookup_insert. case_decide; [subst; lia|].
    intros Hs. specialize (Hu _ Hs). lia.
Qed.

Lemma wp_world_ReserveNetId w (Q : Z → world E → Prop) :
  Q (NetIdManager.ReserveNetId (w_netIds w)).1
    (set_netIds (NetIdManager.ReserveNetId (w_netIds w)).2 w) →
  wp NetworkOps.ReserveNetId Q w.
Proof.
  intros HQ. unfold NetworkOps.ReserveNetId. apply wp_bind, wp_gets.
  destruct (NetIdManager.ReserveNetId (w_netIds w)) as [id s']. by apply wp_bind, wp_modify, wp_ret.
Qed.

(** A valid network type of a supplier. *)
Definition valid_type (type : Z) : Prop := NET_TYPE_UNKNOWN < type < NET_TYPE_MAX.

Definition new_pair_spec w (type : Z) (ident : string) w1 : Prop :=
  let l := w_nsuppliers w in
  inv_x [l] w1 ∧ evolves w w1 ∧ w_conn w1 = w_conn w ∧ w_nsuppliers w1 = S l ∧
  w_nservices w1 = w_nservices w ∧ ∃ p, w_suppliers w1 !! l = Some p ∧ NetSupplier.netSupplierType_ p = type ∧
    NetSupplier.netSupplierIdent_ p = ident ∧
    NetSupplier.supplierId_ p = to_u 32 (1003 + Z.of_nat l).

(** The state after both constructors have run. *)
Definition with_pair (p : NetSupplier.t) (n : Network.t) h next ids ctl w : world E :=
  let l := w_nsuppliers w in
  mkWorld h (<[l := p]> (w_suppliers w)) (<[l := n]> (w_networks w)) (w_services w)
    (S l) (S l) (w_nservices w) next ids ctl (w_conn w).

Lemma with_pair_inv w p n h ctl :
  inv w → netd_ok (h_netd h) →
  supplier_ok (with_pair p n h 0 (w_netIds w) ctl w) (w_nsuppliers w) p →
  (∀ l s, l ∈ networks_ (w_conn w) → w_suppliers w !! l = Some s →
     NetSupplier.netSupplierType_ s = NetSupplier.netSupplierType_ p →
     NetSupplier.netSupplierIdent_ s ≠ NetSupplier.netSupplierIdent_ p) →
  (∀ t c, ctl !! t = Some c → t = NET_TYPE_CELLULAR) →
  Network.supplier_ n = w_nsuppliers w →
  Network.netId_ n = (NetIdManager.ReserveNetId (w_netIds w)).1 →
  inv_x [w_nsuppliers w] (with_pair p n h (to_u 32 (g_nextNetSupplierId w + 1))
    (NetIdManager.ReserveNetId (w_netIds w)).2 ctl w).
Proof.
  intros Hi Hok Hp Hkey Hctl Hns Hnid. pose proof (fresh_supplier _ _ Hi) as Hfs.
  pose proof (fresh_network _ _ Hi) as Hfn. pose proof (ids_ok_reserve w) as Hr. cbv zeta in Hr.
  revert Hr Hnid. generalize (NetIdManager.ReserveNetId (w_netIds w)). intros r Hr Hnid.
  destruct Hi. rewrite app_nil_r in *.
  assert (Hne : ∀ l, l ∈ networks_ (w_conn w) → l ≠ w_nsuppliers w).
  { intros l Hl ->. destruct (inv_nets _ Hl) as [? Hx]. by rewrite Hfn in Hx. }
  split; unfold with_pair; simpl; try done.
  - rewrite inv_next. unfold to_u. rewrite Zplus_mod_idemp_l. f_equal. lia.
  - intros l s. rewrite lookup_insert. case_decide; [intros [= <-]; subst; by destruct Hp|].
    intros Hl. destruct (inv_supplier _ _ Hl). split; simpl; try done. lia.
  - intros l s. rewrite !lookup_insert. case_decide; [|apply inv_network].
    intros [= <-]. split; [congruence|eauto].
  - intros l Hl. rewrite lookup_insert. case_decide; [eauto|]. apply inv_nets.
    by apply elem_of_app in Hl as [?|?%list_elem_of_singleton].
  - rewrite Permutation_app_comm. apply NoDup_cons. split; [|done]. intros Hx. by apply (Hne _ Hx).
  - intros l1 l2 s1 s2 [H1|H1%list_elem_of_singleton]%elem_of_app
      [H2|H2%list_elem_of_singleton]%elem_of_app; subst; rewrite ?lookup_insert_eq; [|..|done];
      rewrite ?lookup_insert_ne by (symmetry; by apply Hne).
    + by apply inv_keys.
    + intros Hs [= <-] Ht Hid. by destruct (Hkey _ _ H1 Hs Ht).
    + intros [= <-] Hs Ht Hid. by destruct (Hkey _ _ H2 Hs).
  - intros l Hl. destruct (inv_services _ Hl) as (s & Hs & [Hn Hc (q & Hq & ? & ?)]).
    exists s. split; [done|]. split; [apply elem_of_app; by left|done|]. exists q. split; [|done]. simpl.
    by rewrite lookup_insert_ne by (symmetry; by apply Hne).
  - intros d Hd. destruct (inv_default _ Hd) as (s & Hs & Hn). exists s. split; [done|].
    rewrite lookup_insert. case_decide; eauto.
  - intros Hb. destruct (inv_ids ltac:(lia)) as [? ? ? Hnet].
    destruct Hr as (R1 & R2 & R3 & R4); [by split|lia|]. split; simpl; try done.
    + rewrite R3, R1. lia.
    + intros id Hu. rewrite R3. by apply R4.
    + intros l m. rewrite lookup_insert. case_decide; [|apply Hnet]. intros [= <-]. subst.
      rewrite Hnid, R1. lia.
Qed.

Lemma wp_new_pair w type ident {B} (k : nat → nat → st (world E) B) Q :
  inv w → valid_type type →
  (∀ l s, l ∈ networks_ (w_conn w) → w_suppliers w !! l = Some s →
     NetSupplier.netSupplierType_ s = type → NetSupplier.netSupplierIdent_ s ≠ ident) →
  (∀ w1, new_pair_spec w type ident w1 →
     wp (k (w_nsuppliers w) (w_nsuppliers w)) Q w1) →
  wp (s ← NetSupplierOps.construct type ident ; n ← NetworkOps.construct s ; k s n) Q w.
Proof.
  intros Hi Ht Hkey HQ. apply wp_bind. unfold NetSupplierOps.construct.
  apply wp_bind, wp_MakeNetController; [apply Hi|]. intros ctl Hctl.
  apply wp_bind, wp_gets, wp_bind, wp_modify, wp_new_supplier, wp_bind. unfold NetworkOps.construct.
  apply wp_bind, wp_world_ReserveNetId, wp_bind.
  eapply wp_emits; [apply emits_call_dns|apply Hi|]. intros _ h L N. apply wp_new_network.
  cbn [w_nsuppliers w_nnetworks set_netControllers set_nextId set_host set_netIds w_netIds
       w_networks w_suppliers w_services w_nservices g_nextNetSupplierId w_netControllers w_conn
       w_host].
  rewrite <- (inv_count _ _ Hi). apply HQ. split; [|split; [split|]].
  - apply with_pair_inv; try done. simpl. split; simpl; try done; [lia|apply Hi].
  - split; intros l s Hs; exists s; simpl; (split; [|reflexivity]); [|done].
    rewrite lookup_insert_ne; [done|]. intros <-. by rewrite (fresh_supplier _ _ Hi) in Hs.
  - split; [done|]. eexists. split; [exact L|]. by repeat constructor.
  - split; [done|]. split; [done|]. split; [done|]. simpl. rewrite lookup_insert_eq. eexists. split; [done|].
    simpl. repeat split. apply Hi.
Qed.

End Evolves.

(** ** Services of a network *)

Section Services.
Context {E : Type} `{Platform E}.
Implicit Type w : world E.

Definition service_on w (l : nat) (cap : Z) (self : nat) : bool :=
  match w_services w !! self with
  | Some s => Nat.eqb (NetService.network_ s) l && (cap =? NetService.netCapability_ s)
  | None => false
  end.

Definition has_service w (l : nat) (cap : Z) : bool :=
  existsb (service_on w l cap) (netServices_ (w_conn w)).

Lemma service_on_true w l cap self :
  service_on w l cap self = true ↔ ∃ s, w_services w !! self = Some s ∧
    NetService.network_ s = l ∧ NetService.netCapability_ s = cap.
Proof.
  unfold service_on. destruct (w_services w !! self) as [s|].
  - rewrite andb_true_iff, Nat.eqb_eq, Z.eqb_eq. split.
    + intros [? ?]. eauto.
    + by intros (? & [= <-] & ? & ?).
  - split; [done|]. by intros (? & ? & _).
Qed.

Lemma has_service_true w l cap :
  has_service w l cap = true ↔ ∃ self, self ∈ netServices_ (w_conn w) ∧
    service_on w l cap self = true.
Proof.
  unfold has_service. rewrite existsb_exists. by setoid_rewrite list_elem_of_In.
Qed.

Lemma has_service_false w l cap :
  has_service w l cap = false ↔ ∀ self, self ∈ netServices_ (w_conn w) →
    service_on w l cap self = false.
Proof.
  rewrite <- not_true_iff_false, has_service_true. split.
  - intros Hn self Hl. apply not_true_iff_false. eauto.
  - intros Hn (self & Hl & Ht). by rewrite Hn in Ht.
Qed.

(** A service keeps its network and capability. *)
Lemma service_on_agree w w' l cap self :
  agree w w' → is_Some (w_services w !! self) → service_on w' l cap self = service_on w l cap self.
Proof.
  intros [_ Ha] [s Hs]. destruct (Ha _ _ Hs) as (s' & Hs' & (_ & _ & Ec & En & _)).
  unfold service_on. by rewrite Hs, Hs', Ec, En.
Qed.

Lemma existsb_agree w w' l cap L :
  agree w w' → (∀ s, s ∈ L → is_Some (w_services w !! s)) →
  existsb (service_on w' l cap) L = existsb (service_on w l cap) L.
Proof.
  intros Ha HL. induction L as [|s L IH]; [done|]. simpl.
  rewrite (service_on_agree w w') by (done || apply HL; left). f_equal.
  apply IH. intros x Hx. apply HL. by right.
Qed.

Lemma services_valid ex w s : inv_x ex w → s ∈ netServices_ (w_conn w) → is_Some (w_services w !! s).
Proof. intros Hi Hs. destruct (inv_services _ _ Hi _ Hs) as (x & ? & _). eauto. Qed.

(** An operation that keeps the service list keeps every capability. *)
Lemma has_service_same ex w w' l cap :
  inv_x ex w → agree w w' → netServices_ (w_conn w') = netServices_ (w_conn w) →
  has_service w' l cap = has_service w l cap.
Proof.
  intros Hi Ha Hl. unfold has_service. rewrite Hl. apply existsb_agree; [done|].
  intros s. by eapply services_valid.
Qed.

(** *** Adding one *)

Lemma add_service_inv ex w ident type cap n p :
  inv_x ex w → n ∈ networks_ (w_conn w) ++ ex →
  cap = NET_CAPABILITIES_INTERNET ∨ cap = NET_CAPABILITIES_MMS →
  w_suppliers w !! n = Some p → NetSupplier.netSupplierIdent_ p = ident →
  NetSupplier.netSupplierType_ p = type → has_service w n cap = false →
  let l := w_nservices w in
  inv_x ex (set_conn (conn_services (netServices_ (w_conn w) ++ [l]) (w_conn w))
    (mkWorld (w_host w) (w_suppliers w) (w_networks w)
      (<[l := NetService.mk ident type SERVICE_STATE_IDLE cap n []]> (w_services w))
      (w_nsuppliers w) (w_nnetworks w) (S l) (g_nextNetSupplierId w) (w_netIds w)
      (w_netControllers w) (w_conn w))).
Proof.
  intros Hi Hn Hcap Hp Hident Htype Hno l. pose proof (fresh_service _ _ Hi) as Hfs.
  pose proof (services_valid ex w) as Hval.
  assert (Hne : ∀ x, x ∈ netServices_ (w_conn w) → x ≠ l).
  { intros x Hx ->. destruct (Hval _ Hi Hx) as [? Hx']. unfold l in Hx'. by rewrite Hfs in Hx'. }
  assert (Hon : ∀ x s, x ∈ netServices_ (w_conn w) → w_services w !! x = Some s →
    NetService.network_ s = n → NetService.netCapability_ s ≠ cap).
  { intros x s Hx Hs E1 E2. rewrite has_service_false in Hno. specialize (Hno _ Hx).
    apply not_true_iff_false in Hno. apply Hno, service_on_true. eauto. }
  destruct Hi. split; simpl; try done.
  - intros k s Hs. destruct (inv_supplier _ _ Hs). by split.
  - intros k s. rewrite lookup_insert. case_decide; [intros [= <-]; simpl; split; [lia|constructor]|].
    intros Hs. destruct (inv_service _ _ Hs). split; [unfold l; lia|done].
  - intros k [Hk|Hk%list_elem_of_singleton]%elem_of_app.
    + rewrite lookup_insert_ne by (symmetry; by apply Hne).
      destruct (inv_services _ Hk) as (s & Hs & [? ? ?]). exists s. split; [done|]. by split.
    + subst k. rewrite lookup_insert_eq. eexists. split; [done|]. split; simpl; try done. eauto.
  - apply NoDup_app. split; [done|]. split; [|apply NoDup_singleton].
    intros x Hx ->%list_elem_of_singleton. by apply (Hne _ Hx).
  - intros l1 l2 s1 s2 [H1|H1%list_elem_of_singleton]%elem_of_app
      [H2|H2%list_elem_of_singleton]%elem_of_app; subst; rewrite ?lookup_insert_eq; [|..|done];
      rewrite ?lookup_insert_ne by (symmetry; by apply Hne).
    + by apply inv_caps.
    + intros Hs [= <-] ? ?. by destruct (Hon _ _ H1 Hs).
    + intros [= <-] Hs ? ?. by destruct (Hon _ _ H2 Hs).
  - intros d Hd. destruct (inv_default _ Hd) as (s & Hs & Hnn).
    rewrite lookup_insert_ne; [eauto|]. intros <-. unfold l in Hs. by rewrite Hfs in Hs.
  - intros Hb. destruct (inv_ids Hb). by split.
Qed.

Lemma wp_add_service ex w ident type cap n p (Q : nat → world E → Prop) :
  inv_x ex w → n ∈ networks_ (w_conn w) ++ ex →
  cap = NET_CAPABILITIES_INTERNET ∨ cap = NET_CAPABILITIES_MMS →
  w_suppliers w !! n = Some p → NetSupplier.netSupplierIdent_ p = ident →
  NetSupplier.netSupplierType_ p = type → has_service w n cap = false →
  (∀ w1, inv_x ex w1 → evolves w w1 → w_networks w1 = w_networks w →
     w_nsuppliers w1 = w_nsuppliers w →
     w_conn w1 = conn_services (netServices_ (w_conn w) ++ [w_nservices w]) (w_conn w) →
     w_services w1 !! w_nservices w = Some (NetService.mk ident type SERVICE_STATE_IDLE cap n []) →
     Q (w_nservices w) w1) →
  wp (add_service ident type cap n) Q w.
Proof.
  intros Hi Hn Hcap Hp Hid Ht Hno HQ. unfold add_service, NetServiceOps.construct.
  apply wp_bind, wp_new_service, wp_bind, wp_modify, wp_ret. apply HQ; try done.
  - by apply (add_service_inv ex w ident type cap n p).
  - split; [|split; [done|exists []; simpl; by rewrite app_nil_r]].
    split; intros l s Hs; exists s; simpl; (split; [|reflexivity]); [done|].
    rewrite lookup_insert_ne; [done|]. intros <-. by rewrite (fresh_service _ _ Hi) in Hs.
  - simpl. by rewrite lookup_insert_eq.
Qed.

(** The new list has the new capability and no other change. *)
Lemma has_service_add ex w w1 n cap l c x :
  inv_x ex w → agree w w1 →
  w_conn w1 = conn_services (netServices_ (w_conn w) ++ [w_nservices w]) (w_conn w) →
  w_services w1 !! w_nservices w = Some x → NetService.network_ x = n →
  NetService.netCapability_ x = cap →
  has_service w1 l c = has_service w l c || (Nat.eqb n l && (c =? cap)).
Proof.
  intros Hi Ha Hc Hx Hn Hcap. unfold has_service. rewrite Hc. simpl. rewrite existsb_app.
  f_equal; [apply existsb_agree; [done|]; intros s; by eapply services_valid|].
  simpl. unfold service_on. by rewrite Hx, Hn, Hcap, orb_false_r.
Qed.

End Services.

(** ** Destruction of networks, the default service, removal *)

Section Lists.
Context {E : Type} `{Platform E}.
Implicit Type w : world E.

Lemma network_referenced_false w l :
  network_referenced w l = false → (l ∉ networks_ (w_conn w)) ∧
  (∀ s x, s ∈ live_services (w_conn w) → w_services w !! s = Some x → NetService.network_ x ≠ l).
Proof.
  unfold network_referenced. rewrite orb_false_iff, bool_decide_eq_false.
  intros [Hl He]. split; [done|]. intros s x Hs Hx Hn.
  apply not_true_iff_false in He. apply He, existsb_exists. exists s.
  split; [by apply list_elem_of_In|]. rewrite Hx. by apply Nat.eqb_eq.
Qed.

Lemma default_live c d : defaultNetService_ c = Some d → d ∈ live_services c.
Proof. unfold live_services. intros ->. apply elem_of_app. right. left. Qed.

Lemma delete_network_inv ex w l :
  inv_x ex w → network_referenced w l = false → l ∉ ex →
  inv_x ex (set_networks (delete l (w_networks w)) w).
Proof.
  intros Hi Hr Hex. destruct (network_referenced_false _ _ Hr) as [Hnl Hns].
  destruct Hi. split; simpl; try done.
  - intros k s Hs. destruct (inv_supplier _ _ Hs). by split.
  - intros k n. rewrite lookup_delete. case_decide; [done|]. apply inv_network.
  - intros k Hk. rewrite lookup_delete_ne; [by apply inv_nets|]. intros <-.
    apply elem_of_app in Hk as [|]; done.
  - intros k Hk. destruct (inv_services _ Hk) as (s & Hs & [? ? ?]).
    exists s. split; [done|]. by split.
  - intros d Hd. destruct (inv_default _ Hd) as (s & Hs & Hn). exists s. split; [done|].
    rewrite lookup_delete_ne; [done|]. intros Heq. symmetry in Heq. revert Heq.
    apply (Hns d s); [by apply default_live|done].
  - intros Hb. destruct (inv_ids Hb). split; try done. simpl.
    intros k n. rewrite lookup_delete. case_decide; [done|]. apply io_net.
Qed.

(** The outcome of dropping the last local reference to network [l]. *)
Definition released w (l : nat) w1 : Prop :=
  (w1 = w ∧ (network_referenced w l = true ∨ w_networks w !! l = None)) ∨
  (network_referenced w l = false ∧ ∃ n, w_networks w !! l = Some n ∧
   w_networks w1 = delete l (w_networks w) ∧
   h_log (w_host w1) = (h_log (w_host w) ++
     [EvNetd (NdDestoryNetworkCache (to_u 16 (Network.netId_ n)))])%list).

Lemma wp_release ex w l (Q : unit → world E → Prop) :
  inv_x ex w → (network_referenced w l = false → l ∉ ex) →
  (∀ w1, inv_x ex w1 → evolves w w1 → w_conn w1 = w_conn w → w_services w1 = w_services w →
     w_nsuppliers w1 = w_nsuppliers w → released w l w1 → Q tt w1) →
  wp (release_network l) Q w.
Proof.
  intros Hi Hex HQ. unfold release_network. apply wp_bind, wp_gets.
  destruct (network_referenced w l) eqn:Er.
  { apply wp_ret. apply HQ; try done. left. by split; [|left]. }
  destruct (w_networks w !! l) as [n|] eqn:En.
  2:{ apply wp_ret. apply HQ; try done. left. by split; [|right]. }
  unfold NetworkOps.destruct. eapply wp_bind, wp_get_network; [exact En|]. apply wp_bind.
  eapply wp_emits; [apply emits_call_dns|apply Hi|]. intros _ h L N. apply wp_modify.
  assert (Hi' : inv_x ex (set_host h w)) by (eapply inv_frame; [exact Hi|auto with netdb|done]).
  apply HQ; try done.
  - apply (delete_network_inv ex (set_host h w) l Hi'); [done|auto].
  - split; [|split; [done|]].
    + split; intros k s Hs; exists s; by split.
    + eexists. split; [exact L|]. by repeat constructor.
  - right. split; [done|]. exists n. split; [done|]. by split.
Qed.

(** *** [defaultNetService_ = service] *)

Lemma inv_conn_default ex w d :
  inv_x ex w → alive w d → inv_x ex (set_conn (conn_default (Some d) (w_conn w)) w).
Proof.
  intros [] Ha. split; simpl; try done.
  - intros l s Hs. destruct (inv_supplier _ _ Hs). by split.
  - intros l Hl. destruct (inv_services _ Hl) as (s & Hs & [? ? ?]).
    exists s. split; [done|]. by split.
  - by intros ? [= <-].
  - intros Hb. destruct (inv_ids Hb). by split.
Qed.

(** Releasing the old default cannot destroy what the new one uses. *)
Lemma wp_set_default ex w d x (Q : unit → world E → Prop) :
  inv_x ex w → w_services w !! d = Some x → is_Some (w_networks w !! NetService.network_ x) →
  (∀ l, l ∈ ex → l = NetService.network_ x) →
  (∀ w1, inv_x ex w1 → evolves w w1 → w_conn w1 = conn_default (Some d) (w_conn w) →
     w_services w1 = w_services w → w_nsuppliers w1 = w_nsuppliers w → Q tt w1) →
  wp (set_default d) Q w.
Proof.
  intros Hi Hx Hn Hex HQ. unfold set_default. apply wp_bind, wp_gets, wp_bind, wp_modify.
  set (w0 := set_conn (conn_default (Some d) (w_conn w)) w).
  assert (Hi0 : inv_x ex w0) by (apply inv_conn_default; [done|by exists x]).
  destruct (defaultNetService_ (w_conn w)) as [o|] eqn:Eo.
  2:{ apply wp_ret. apply HQ; try done. apply evolves_conn. }
  destruct (inv_default _ _ Hi _ Eo) as (s & Hs & _).
  eapply wp_bind, wp_get_service; [exact Hs|].
  eapply wp_release; [exact Hi0| |].
  - intros Hr Hl. apply network_referenced_false in Hr as [_ Hr].
    apply (Hr d x); [by apply default_live|done|]. symmetry. by apply Hex.
  - intros w1 Hi1 He Hc Hs1 Hp _. apply HQ; try done. etrans; [apply evolves_conn|done].
Qed.

(** *** Pushing the new pair *)

Lemma push_pair_inv l w :
  inv_x [l] w → inv (set_conn (conn_networks (networks_ (w_conn w) ++ [l])
    (conn_suppliers (netSupplier_ (w_conn w) ++ [l]) (w_conn w))) w).
Proof.
  intros []. split; simpl; rewrite ?app_nil_r; try done.
  - intros k s Hs. destruct (inv_supplier _ _ Hs). by split.
  - by f_equal.
  - intros k Hk. destruct (inv_services _ Hk) as (s & Hs & [? ? ?]).
    exists s. split; [done|]. by split.
  - intros Hb. destruct (inv_ids Hb). by split.
Qed.

(** *** Removal of services and of a pair *)

Lemma sublist_services_inv ex w L :
  inv_x ex w → L `sublist_of` netServices_ (w_conn w) →
  inv_x ex (set_conn (conn_services L (w_conn w)) w).
Proof.
  intros [] HL. assert (Hin : ∀ x, x ∈ L → x ∈ netServices_ (w_conn w))
    by (intros x Hx; eapply elem_of_sublist; eauto).
  split; simpl; try done.
  - intros k s Hs. destruct (inv_supplier _ _ Hs). by split.
  - intros k Hk. destruct (inv_services _ (Hin _ Hk)) as (s & Hs & [? ? ?]).
    exists s. split; [done|]. by split.
  - by eapply sublist_NoDup.
  - intros l1 l2 s1 s2 H1 H2. apply inv_caps; auto.
  - intros Hb. destruct (inv_ids Hb). by split.
Qed.

(** No service of the list is on network [l]. *)
Definition no_service_on w (l : nat) : Prop :=
  ∀ s x, s ∈ netServices_ (w_conn w) → w_services w !! s = Some x → NetService.network_ x ≠ l.

Definition without (l : nat) (L : list nat) : list nat := filter (λ k, k ≠ l) L.

Lemma remove_pair_inv w l :
  inv w → no_service_on w l →
  inv (set_conn (conn_suppliers (without l (netSupplier_ (w_conn w)))
        (conn_networks (without l (networks_ (w_conn w))) (w_conn w))) w).
Proof.
  intros [] Hno. rewrite app_nil_r in *.
  assert (Hin : ∀ k, k ∈ without l (networks_ (w_conn w)) → k ∈ networks_ (w_conn w)).
  { intros k Hk. by apply list_elem_of_filter in Hk as [_ ?]. }
  split; simpl; rewrite ?app_nil_r; try done; auto.
  - intros k s Hs. destruct (inv_supplier _ _ Hs). by split.
  - by rewrite inv_lists.
  - by apply NoDup_filter.
  - intros l1 l2 s1 s2 H1 H2. apply inv_keys; auto.
  - intros k Hk. destruct (inv_services _ Hk) as (s & Hs & [Hn ? ?]). exists s. split; [done|].
    split; [|done|done]. apply list_elem_of_filter. split; [|done]. by apply (Hno k s).
  - intros Hb. destruct (inv_ids Hb). by split.
Qed.

(** Erasing the element that the search finds. *)
Lemma erase_found {A} `{EqDecision A} (p : A → bool) L x :
  find_first p L = Some x → NoDup L → erase_first p L = filter (λ k, k ≠ x) L.
Proof.
  induction L as [|y L IH]; simpl; [done|]. intros Hf Hnd.
  apply NoDup_cons in Hnd as [Hy Hnd]. rewrite filter_cons. destruct (p y) eqn:Ey.
  - injection Hf as ->. rewrite decide_False by tauto. clear -Hy. induction L as [|z L IH]; [done|].
    apply not_elem_of_cons in Hy as [? ?]. rewrite filter_cons, decide_True by done. f_equal. auto.
  - rewrite decide_True; [f_equal; auto|]. intros ->.
    apply find_first_Some in Hf as [? ?]. congruence.
Qed.

End Lists.
