(* ===== verification/ConnSpec.v ===== *)
(** * The registry of suppliers: specification and refinement

    [registry] is what a client can know of the connection manager: the
    suppliers in the order of registration, each with its id, its type and
    identifier, and the capabilities that have a service. [spec] says how a
    request changes it; the operations of [NetConnService] implement [spec]. *)

From S2P Require Import Prelude Parcel Parcelables Host NetIds ConnState ConnNetwork ConnService.
From S2P Require Import ConnInv ConnOps.
Import NetSpecifier NetConnServiceOps.

(** ** The requests the process serves *)

Inductive request :=
  | ReqOnStart
  | ReqOnStop
  | ReqSystemReady
  | ReqRegisterNetSupplier (netType : Z) (ident : string) (netCapabilities : Z)
  | ReqUnregisterNetSupplier (supplierId : Z)
  | ReqRegisterNetConnCallback (callback : option INetConnCallback)
  | ReqRegisterBySpecifier (spec : option NetSpecifier.t) (callback : option INetConnCallback)
  | ReqUnregisterNetConnCallback (callback : option INetConnCallback)
  | ReqUnregisterBySpecifier (spec : option NetSpecifier.t) (callback : option INetConnCallback)
  | ReqUpdateNetCapabilities (supplierId netCapabilities : Z)
  | ReqUpdateNetSupplierInfo (supplierId : Z) (info : option NetSupplierInfo.t)
  | ReqUpdateNetLinkInfo (supplierId : Z) (info : option NetLinkInfo.t)
  | ReqTimer.

Section Requests.
Context {E : Type} `{Platform E}.
Implicit Type w : world E.

Definition handle (r : request) : st (world E) Z :=
  match r with
  | ReqOnStart => OnStart ;; mret 0
  | ReqOnStop => OnStop ;; mret 0
  | ReqSystemReady => SystemReady
  | ReqRegisterNetSupplier netType ident caps => RegisterNetSupplier netType ident caps
  | ReqUnregisterNetSupplier id => UnregisterNetSupplier id
  | ReqRegisterNetConnCallback cb => RegisterNetConnCallback cb
  | ReqRegisterBySpecifier spec cb => RegisterNetConnCallbackBySpecifier spec cb
  | ReqUnregisterNetConnCallback cb => UnregisterNetConnCallback cb
  | ReqUnregisterBySpecifier spec cb => UnregisterNetConnCallbackBySpecifier spec cb
  | ReqUpdateNetCapabilities id caps => UpdateNetCapabilities id caps
  | ReqUpdateNetSupplierInfo id info => UpdateNetSupplierInfo id info
  | ReqUpdateNetLinkInfo id info => UpdateNetLinkInfo id info
  | ReqTimer => ReConnectServiceTask ;; mret 0
  end.

(** A timer thread runs only when one has been started. *)
Definition enabled (r : request) w : Prop :=
  match r with ReqTimer => (0 < reConnectTimer_ (w_conn w))%nat | _ => True end.

(** The process states that sequences of requests lead to. *)
Inductive reachable (e : E) : world E → Prop :=
  | reach_init : reachable e (world_init e)
  | reach_step w r ret w' :
      reachable e w → enabled r w → handle r w = Some (ret, w') → reachable e w'.

(** ** The abstract state *)

Record entry := mkEntry {
  e_id : Z;
  e_type : Z;
  e_ident : string;
  e_internet : bool;
  e_mms : bool;
}.

Definition entry_of w (l : nat) : option entry :=
  s ← w_suppliers w !! l ;
  Some (mkEntry (NetSupplier.supplierId_ s) (NetSupplier.netSupplierType_ s)
    (NetSupplier.netSupplierIdent_ s) (has_service w l NET_CAPABILITIES_INTERNET)
    (has_service w l NET_CAPABILITIES_MMS)).

Definition registry w : list entry := omap (entry_of w) (netSupplier_ (w_conn w)).

(** The number of registrations so far, and the registry. *)
Definition abstract w : nat * list entry := (w_nsuppliers w, registry w).

Definition has_key (type : Z) (ident : string) (e : entry) : bool :=
  (type =? e_type e) && String.eqb ident (e_ident e).

Definition has_id (id : Z) (e : entry) : bool := id =? e_id e.

Definition set_caps (caps : Z) (e : entry) : entry :=
  mkEntry (e_id e) (e_type e) (e_ident e) (has_cap caps NET_CAPABILITIES_INTERNET)
    (has_cap caps NET_CAPABILITIES_MMS).

(** A capability of the entry that the specifier includes. *)
Definition entry_matches (sp : NetSpecifier.t) (e : entry) : bool :=
  let includes cap := Z.land cap (NetSpecifier.netCapabilities_ sp) =? cap in
  (e_type e =? NetSpecifier.netType_ sp) &&
  ((e_internet e && includes NET_CAPABILITIES_INTERNET) ||
   (e_mms e && includes NET_CAPABILITIES_MMS)).

Definition no_services (reg : list entry) : bool :=
  negb (existsb (λ e, e_internet e || e_mms e) reg).

(** [spec r a]: the reply, when the registry determines it, and the new
    abstract state. *)
Definition spec (r : request) (a : nat * list entry) : option Z * (nat * list entry) :=
  let '(n, reg) := a in
  let found id := match find_first (has_id id) reg with Some _ => true | None => false end in
  match r with
  | ReqRegisterNetSupplier type ident caps =>
    if (NET_TYPE_MAX <=? type) || (type <=? NET_TYPE_UNKNOWN)
    then (Some ERR_INVALID_NETORK_TYPE, a)
    else match find_first (has_key type ident) reg with
         | Some e => (Some (e_id e), a)
         | None =>
           let id := 1003 + Z.of_nat n in
           (Some id, (S n, reg ++ [set_caps caps (mkEntry id type ident false false)]))
         end
  | ReqUnregisterNetSupplier id =>
    if found id then (Some ERR_NONE, (n, filter (λ e, has_id id e = false) reg))
    else (Some ERR_NO_SUPPLIER, a)
  | ReqUpdateNetCapabilities id caps =>
    if found id
    then (Some ERR_NONE, (n, (λ e, if has_id id e then set_caps caps e else e) <$> reg))
    else (Some ERR_NO_SUPPLIER, a)
  | ReqUpdateNetSupplierInfo id (Some _) | ReqUpdateNetLinkInfo id (Some _) =>
    (Some (if found id then ERR_NONE else ERR_NO_SUPPLIER), a)
  | ReqUpdateNetSupplierInfo id None | ReqUpdateNetLinkInfo id None => (Some ERR_INVALID_PARAMS, a)
  | ReqRegisterNetConnCallback None | ReqUnregisterNetConnCallback None
  | ReqRegisterBySpecifier None _ | ReqUnregisterBySpecifier None _
  | ReqRegisterBySpecifier _ None | ReqUnregisterBySpecifier _ None =>
    (Some ERR_SERVICE_NULL_PTR, a)
  | ReqRegisterNetConnCallback (Some _) | ReqUnregisterNetConnCallback (Some _) =>
    (Some (if no_services reg then ERR_NO_ANY_NET_TYPE else ERR_NONE), a)
  | ReqRegisterBySpecifier (Some sp) (Some _) =>
    (Some (if no_services reg then ERR_NO_ANY_NET_TYPE
           else if existsb (entry_matches sp) reg then ERR_NONE else ERR_NET_TYPE_NOT_FOUND), a)
  | ReqOnStart | ReqOnStop | ReqSystemReady | ReqTimer => (Some 0, a)
  | ReqUnregisterBySpecifier (Some _) (Some _) => (None, a)
  end.

End Requests.

(** ** Lemmas on the abstraction *)

Lemma find_first_omap {A B} (f : A → option B) (p : A → bool) (q : B → bool) (L : list A) :
  (∀ l, l ∈ L → ∃ e, f l = Some e ∧ q e = p l) →
  find_first q (omap f L) = find_first p L ≫= f.
Proof.
  induction L as [|l L IH]; intros HL; [done|].
  destruct (HL l ltac:(left)) as (e & He & Hq). cbn. rewrite He. simpl. rewrite Hq.
  destruct (p l); [by rewrite <- He|]. apply IH. intros k Hk. apply HL. by right.
Qed.

Lemma omap_ext_in {A B} (f g : A → option B) (L : list A) :
  (∀ l, l ∈ L → f l = g l) → omap f L = omap g L.
Proof.
  induction L as [|l L IH]; intros HL; [done|]. cbn. rewrite (HL l ltac:(left)).
  rewrite IH; [done|]. intros k Hk. apply HL. by right.
Qed.

Lemma omap_fmap_in {A B} (f g : A → option B) (h : B → B) (L : list A) :
  (∀ l, l ∈ L → f l = h <$> g l) → omap f L = h <$> omap g L.
Proof.
  induction L as [|l L IH]; intros HL; [done|]. cbn. rewrite (HL l ltac:(left)).
  rewrite IH; [by destruct (g l)|]. intros k Hk. apply HL. by right.
Qed.

Lemma omap_filter_in {A B} (f : A → option B) (p : A → Prop) (q : B → Prop)
    `{∀ x, Decision (p x)} `{∀ x, Decision (q x)} (L : list A) :
  (∀ l, l ∈ L → ∃ e, f l = Some e ∧ (p l ↔ q e)) →
  omap f (filter p L) = filter q (omap f L).
Proof.
  induction L as [|l L IH]; intros HL; [done|].
  destruct (HL l ltac:(left)) as (e & He & Hpq). rewrite filter_cons. cbn. rewrite He.
  rewrite filter_cons. assert (IH' := IH (λ k Hk, HL k ltac:(by right))).
  destruct (decide (p l)), (decide (q e)); try tauto; cbn; rewrite ?He, IH'; done.
Qed.

Lemma existsb_omap {A B} (f : A → option B) (q : B → bool) (L : list A) :
  (∀ l, l ∈ L → is_Some (f l)) →
  existsb q (omap f L) = true ↔ ∃ l e, l ∈ L ∧ f l = Some e ∧ q e = true.
Proof.
  intros HL. rewrite existsb_exists. setoid_rewrite <- list_elem_of_In.
  setoid_rewrite list_elem_of_omap. split.
  - intros (e & (l & ? & ?) & ?). eauto.
  - intros (l & e & ? & ? & ?). eauto.
Qed.

Section Abstraction.
Context {E : Type} `{Platform E}.
Implicit Type w : world E.

(** The bound under which ids do not repeat. *)
Definition few w : Prop := Z.of_nat (w_nnetworks w) <= 64512.

Lemma suppliers_valid w l :
  inv w → l ∈ netSupplier_ (w_conn w) → ∃ s, w_suppliers w !! l = Some s ∧ supplier_ok w l s.
Proof.
  intros Hi Hl. rewrite (inv_lists _ _ Hi) in Hl.
  destruct (inv_nets _ _ Hi l) as [n Hn]; [apply elem_of_app; by left|].
  destruct (inv_network _ _ Hi _ _ Hn) as [_ [s Hs]]. exists s. split; [done|].
  by apply (inv_supplier _ _ Hi).
Qed.

Lemma entry_valid w l :
  inv w → l ∈ netSupplier_ (w_conn w) → ∃ s e, w_suppliers w !! l = Some s ∧ entry_of w l = Some e ∧
    e_id e = NetSupplier.supplierId_ s ∧ e_type e = NetSupplier.netSupplierType_ s ∧
    e_ident e = NetSupplier.netSupplierIdent_ s ∧
    e_internet e = has_service w l NET_CAPABILITIES_INTERNET ∧
    e_mms e = has_service w l NET_CAPABILITIES_MMS.
Proof.
  intros Hi Hl. destruct (suppliers_valid w l Hi Hl) as (s & Hs & _).
  exists s. unfold entry_of. rewrite Hs. eexists. split; [done|]. split; [done|]. done.
Qed.

Lemma entry_same w w' l :
  agree w w' → is_Some (w_suppliers w !! l) →
  (∀ c, has_service w' l c = has_service w l c) → entry_of w' l = entry_of w l.
Proof.
  intros [Ha _] [s Hs] Hc. destruct (Ha _ _ Hs) as (s' & Hs' & (_ & Et & Ei & Eid)).
  unfold entry_of. rewrite Hs, Hs'. simpl. by rewrite Et, Ei, Eid, !Hc.
Qed.

(** Operations that keep both lists keep the registry. *)
Lemma registry_same w w' :
  inv w → evolves w w' → netSupplier_ (w_conn w') = netSupplier_ (w_conn w) →
  netServices_ (w_conn w') = netServices_ (w_conn w) → registry w' = registry w.
Proof.
  intros Hi [Ha _] Hp Hs. unfold registry. rewrite Hp. apply omap_ext_in. intros l Hl.
  apply entry_same; [done| |].
  - destruct (suppliers_valid w l Hi Hl) as (s & ? & _). eauto.
  - intros c. by eapply has_service_same.
Qed.

Lemma supplier_id_small w l s :
  few w → inv w → w_suppliers w !! l = Some s → NetSupplier.supplierId_ s = 1003 + Z.of_nat l.
Proof.
  intros Hb Hi Hs. destruct (inv_supplier _ _ Hi _ _ Hs) as [Hl -> _ _].
  rewrite (inv_count _ _ Hi) in Hl. unfold few in Hb. apply to_u_small. unfold in_u. lia.
Qed.

(** Searching the lists and searching the registry. *)
Lemma has_supplierId_entry w l id :
  inv w → l ∈ netSupplier_ (w_conn w) →
  ∃ e, entry_of w l = Some e ∧ has_id id e = has_supplierId w id l.
Proof.
  intros Hi Hl. destruct (entry_valid w l Hi Hl) as (s & e & Hs & He & Eid & _).
  exists e. split; [done|]. unfold has_id, has_supplierId. by rewrite Hs, Eid.
Qed.

Lemma find_by_id w id :
  inv w → find_first (has_id id) (registry w) =
    find_first (has_supplierId w id) (netSupplier_ (w_conn w)) ≫= entry_of w.
Proof. intros Hi. apply find_first_omap. intros l Hl. by apply has_supplierId_entry. Qed.

Definition key_test w (type : Z) (ident : string) (l : nat) : bool :=
  match w_suppliers w !! l with
  | Some s => (type =? NetSupplier.netSupplierType_ s) &&
              String.eqb ident (NetSupplier.netSupplierIdent_ s)
  | None => false
  end.

Lemma find_by_key w type ident :
  inv w → find_first (has_key type ident) (registry w) =
    find_first (key_test w type ident) (netSupplier_ (w_conn w)) ≫= entry_of w.
Proof.
  intros Hi. apply find_first_omap. intros l Hl.
  destruct (entry_valid w l Hi Hl) as (s & e & Hs & He & _ & Et & Ei & _).
  exists e. split; [done|]. unfold has_key, key_test. by rewrite Hs, Et, Ei.
Qed.

(** The network search finds the network of the supplier. *)
Lemma find_network_by_id w id :
  inv w → find_first (network_has_supplierId w id) (networks_ (w_conn w)) =
          find_first (has_supplierId w id) (netSupplier_ (w_conn w)).
Proof.
  intros Hi. rewrite (inv_lists _ _ Hi). apply find_first_ext. intros l Hl.
  destruct (inv_nets _ _ Hi l) as [n Hn]; [apply elem_of_app; by left|].
  unfold network_has_supplierId. rewrite Hn. by destruct (inv_network _ _ Hi _ _ Hn) as [-> _].
Qed.

Lemma found_supplier w id l :
  inv w → find_first (has_supplierId w id) (netSupplier_ (w_conn w)) = Some l →
  l ∈ netSupplier_ (w_conn w) ∧ ∃ s n, w_suppliers w !! l = Some s ∧ w_networks w !! l = Some n ∧
    Network.supplier_ n = l ∧ NetSupplier.supplierId_ s = id.
Proof.
  intros Hi Hf. apply find_first_Some in Hf as [Hl Ht]. split; [done|].
  destruct (suppliers_valid w l Hi Hl) as (s & Hs & _). rewrite (inv_lists _ _ Hi) in Hl.
  destruct (inv_nets _ _ Hi l) as [n Hn]; [apply elem_of_app; by left|].
  destruct (inv_network _ _ Hi _ _ Hn) as [Hsn _]. exists s, n. split; [done|]. split; [done|].
  split; [done|]. unfold has_supplierId in Ht. rewrite Hs in Ht. lia.
Qed.

(** With few registrations an id identifies its location. *)
Lemma id_identifies w l k s :
  few w → inv w → w_suppliers w !! l = Some s → k ∈ netSupplier_ (w_conn w) →
  has_supplierId w (NetSupplier.supplierId_ s) k = true ↔ k = l.
Proof.
  intros Hb Hi Hs Hk. destruct (suppliers_valid w k Hi Hk) as (sk & Hsk & _).
  unfold has_supplierId. rewrite Hsk, Z.eqb_eq.
  rewrite (supplier_id_small _ _ _ Hb Hi Hs), (supplier_id_small _ _ _ Hb Hi Hsk). lia.
Qed.

End Abstraction.
