(* ===== verification/ConnRegister.v ===== *)
(** * Registration of a supplier

    [NetConnService::RegisterNetSupplier] for a new supplier: both constructors,
    the services of the capabilities, the default service, the lists, and the
    connection of the default service. *)

From S2P Require Import Prelude Parcel Parcelables Host NetIds ConnState ConnNetwork ConnService.
From S2P Require Import ConnInv ConnOps ConnSpec.
Import NetSpecifier NetConnServiceOps.

Section Register.
Context {E : Type} `{Platform E}.
Implicit Type w : world E.

(** The invariant does not read the flags and the timer. *)
Definition same_lists (c c' : NetConnService) : Prop :=
  defaultNetService_ c' = defaultNetService_ c ∧ netServices_ c' = netServices_ c ∧
  networks_ c' = networks_ c ∧ netSupplier_ c' = netSupplier_ c.

Lemma same_lists_inv ex w c : inv_x ex w → same_lists (w_conn w) c → inv_x ex (set_conn c w).
Proof.
  intros [] (D1 & D2 & D3 & D4). split; simpl; rewrite ?D1, ?D2, ?D3, ?D4; try done.
  - intros l s Hs. destruct (inv_supplier _ _ Hs). by split.
  - intros l Hl. destruct (inv_services _ Hl) as (s & Hs & [? ? ?]).
    exists s. split; [done|]. by split.
  - intros Hb. destruct (inv_ids Hb). by split.
Qed.

(** *** One optional service of the network under construction *)
Record stage (n : nat) (cap : Z) (b : bool) w w1 : Prop := {
  sg_inv : inv_x [n] w1;
  sg_evolves : evolves w w1;
  sg_networks : networks_ (w_conn w1) = networks_ (w_conn w);
  sg_suppliers : netSupplier_ (w_conn w1) = netSupplier_ (w_conn w);
  sg_count : w_nsuppliers w1 = w_nsuppliers w;
  sg_default : defaultNetService_ (w_conn w1) =
    if b && (cap =? NET_CAPABILITIES_INTERNET) then Some (w_nservices w)
    else defaultNetService_ (w_conn w);
  sg_has : ∀ l c, has_service w1 l c = has_service w l c || (Nat.eqb n l && (c =? cap) && b);
}.

Lemma stage_none n cap w : inv_x [n] w → stage n cap false w w.
Proof. intros Hi. split; try done. intros l c. by rewrite andb_false_r, orb_false_r. Qed.

Lemma wp_stage n w ident type cap p (Q : nat → world E → Prop) :
  inv_x [n] w → cap = NET_CAPABILITIES_INTERNET ∨ cap = NET_CAPABILITIES_MMS →
  w_suppliers w !! n = Some p → NetSupplier.netSupplierIdent_ p = ident →
  NetSupplier.netSupplierType_ p = type → has_service w n cap = false →
  (∀ w1, inv_x [n] w1 → evolves w w1 → w_networks w1 = w_networks w →
     w_conn w1 = conn_services (netServices_ (w_conn w) ++ [w_nservices w]) (w_conn w) →
     w_nsuppliers w1 = w_nsuppliers w →
     (∃ x, w_services w1 !! w_nservices w = Some x ∧ NetService.network_ x = n) →
     (∀ l c, has_service w1 l c = has_service w l c || (Nat.eqb n l && (c =? cap) && true)) →
     Q (w_nservices w) w1) →
  wp (add_service ident type cap n) Q w.
Proof.
  intros Hi Hcap Hp Hid Ht Hno HQ.
  eapply (wp_add_service [n]); [done|apply elem_of_app; right; left|done..|].
  intros w1 Hi1 He Hnet Hcnt Hc Hx. apply HQ; try done.
  - eexists. by split.
  - intros l c. rewrite andb_true_r. eapply has_service_add; [exact Hi|apply He|done|exact Hx|done..].
Qed.

Lemma wp_stage_internet n w ident type b p (Q : unit → world E → Prop) :
  inv_x [n] w → w_suppliers w !! n = Some p → NetSupplier.netSupplierIdent_ p = ident →
  NetSupplier.netSupplierType_ p = type → has_service w n NET_CAPABILITIES_INTERNET = false →
  (∀ w1, stage n NET_CAPABILITIES_INTERNET b w w1 → Q tt w1) →
  wp (if b : bool then service ← add_service ident type NET_CAPABILITIES_INTERNET n ;
                       set_default service
      else mret tt) Q w.
Proof.
  intros Hi Hp Hid Ht Hno HQ. destruct b; [|apply wp_ret, HQ, stage_none, Hi].
  apply wp_bind. eapply wp_stage; [done|by left|done..|].
  intros w1 Hi1 He1 Hnet Hc1 Hcnt1 (x & Hx & Hxn) Hhas.
  destruct (inv_nets _ _ Hi n) as [m Hm]; [apply elem_of_app; right; left|].
  eapply (wp_set_default [n]); [done|exact Hx| | |].
  - rewrite Hxn, Hnet. eauto.
  - intros l ->%list_elem_of_singleton. done.
  - intros w2 Hi2 He2 Hc2 Hs2 Hcnt2. apply HQ.
    split; [done|by etrans| | | | |]; rewrite ?Hc2, ?Hcnt2, ?Hc1, ?Hcnt1; try done.
    intros l c. rewrite <- Hhas. unfold has_service, service_on. by rewrite Hc2, Hs2.
Qed.

Lemma wp_stage_mms n w ident type b p (Q : unit → world E → Prop) :
  inv_x [n] w → w_suppliers w !! n = Some p → NetSupplier.netSupplierIdent_ p = ident →
  NetSupplier.netSupplierType_ p = type → has_service w n NET_CAPABILITIES_MMS = false →
  (∀ w1, stage n NET_CAPABILITIES_MMS b w w1 → Q tt w1) →
  wp (if b : bool then add_service ident type NET_CAPABILITIES_MMS n ;; mret tt else mret tt) Q w.
Proof.
  intros Hi Hp Hid Ht Hno HQ. destruct b; [|apply wp_ret, HQ, stage_none, Hi].
  apply wp_bind. eapply wp_stage; [done|by right|done..|].
  intros w1 Hi1 He1 Hnet Hc1 Hcnt1 _ Hhas. apply wp_ret, HQ.
  split; [done|done| | | | |]; rewrite ?Hc1, ?Hcnt1; try done.
Qed.

(** *** The connection of the default service *)
Lemma wp_connect_default w (Q : unit → world E → Prop) :
  inv w →
  (∀ w1, inv w1 → evolves w w1 → same_lists (w_conn w) (w_conn w1) →
     w_nsuppliers w1 = w_nsuppliers w → Q tt w1) →
  wp connect_default Q w.
Proof.
  intros Hi HQ. unfold connect_default. apply wp_bind, wp_gets.
  destruct (defaultNetService_ (w_conn w)) as [d|] eqn:Ed; [|apply wp_ret, HQ; done].
  apply wp_bind. eapply wp_mono; [eapply step_ServiceConnect; [exact Hi|by eapply alive_default]|].
  intros r w1 [Hst _]. pose proof (inv_step _ _ _ Hi Hst) as Hi1.
  pose proof (step_evolves _ _ Hst) as He. destruct Hst as [Hf _].
  assert (Hsame : same_lists (w_conn w) (w_conn w1)) by (unfold same_lists; by rewrite (fr_conn _ _ Hf)).
  destruct (negb _).
  - apply wp_modify, HQ; try done.
    + by apply same_lists_inv.
    + etrans; [done|apply evolves_conn].
    + apply (fr_nsuppliers _ _ Hf).
  - apply wp_ret, HQ; try done. apply (fr_nsuppliers _ _ Hf).
Qed.

(** *** The whole registration *)
Record registered w (type : Z) (ident : string) (caps : Z) w' : Prop := {
  rg_inv : inv w';
  rg_evolves : evolves w w';
  rg_count : w_nsuppliers w' = S (w_nsuppliers w);
  rg_suppliers : netSupplier_ (w_conn w') = netSupplier_ (w_conn w) ++ [w_nsuppliers w];
  rg_default : defaultNetService_ (w_conn w') =
    if has_cap caps NET_CAPABILITIES_INTERNET then Some (w_nservices w)
    else defaultNetService_ (w_conn w);
  rg_supplier : ∃ p, w_suppliers w' !! w_nsuppliers w = Some p ∧
    NetSupplier.netSupplierType_ p = type ∧ NetSupplier.netSupplierIdent_ p = ident ∧
    NetSupplier.supplierId_ p = to_u 32 (1003 + Z.of_nat (w_nsuppliers w));
  rg_has : ∀ l c, has_service w' l c = has_service w l c ||
    (Nat.eqb (w_nsuppliers w) l &&
     ((c =? NET_CAPABILITIES_INTERNET) && has_cap caps NET_CAPABILITIES_INTERNET ||
      (c =? NET_CAPABILITIES_MMS) && has_cap caps NET_CAPABILITIES_MMS));
}.

Lemma has_service_fresh ex w n c :
  inv_x ex w → n ∉ networks_ (w_conn w) ++ ex → has_service w n c = false.
Proof.
  intros Hi Hn. apply has_service_false. intros s Hs. apply not_true_iff_false.
  intros (x & Hx & Hxn & _)%service_on_true.
  destruct (inv_services _ _ Hi _ Hs) as (x' & Hx' & [Hin _ _]). naive_solver.
Qed.

Lemma wp_register_new w type ident caps (Q : Z → world E → Prop) :
  inv w → valid_type type →
  find_first (key_test w type ident) (netSupplier_ (w_conn w)) = None →
  (∀ w', registered w type ident caps w' →
     Q (to_i 32 (to_u 32 (1003 + Z.of_nat (w_nsuppliers w)))) w') →
  wp (RegisterNetSupplier type ident caps) Q w.
Proof.
  intros Hi Ht Hkey HQ. unfold RegisterNetSupplier, GetNetSupplierFromList.
  replace ((NET_TYPE_MAX <=? type) || (type <=? NET_TYPE_UNKNOWN)) with false
    by (unfold valid_type in Ht; lia).
  apply wp_bind, wp_gets. fold (key_test w type ident). rewrite Hkey.
  set (n := w_nsuppliers w).
  assert (Hn : n ∉ networks_ (w_conn w)).
  { intros Hn. destruct (inv_nets _ _ Hi n) as [x Hx]; [apply elem_of_app; by left|].
    unfold n in Hx. by rewrite (fresh_network _ _ Hi) in Hx. }
  apply wp_new_pair; [done|done| |].
  { intros l s Hl Hs Et Ei. rewrite <- (inv_lists _ _ Hi) in Hl. rewrite find_first_None in Hkey.
    specialize (Hkey l Hl). unfold key_test in Hkey. rewrite Hs, Et, Ei in Hkey.
    by rewrite Z.eqb_refl, String.eqb_refl in Hkey. }
  fold n. intros w1 (Hi1 & He1 & Hc1 & Hcnt1 & Hsv1 & p & Hp & Ept & Epi & Epid). fold n in Hi1, Hp.
  assert (Hfresh : ∀ c, has_service w n c = false)
    by (intros c; eapply has_service_fresh; [exact Hi|by rewrite app_nil_r]).
  assert (Hhas1 : ∀ l c, has_service w1 l c = has_service w l c).
  { intros l c. eapply has_service_same; [exact Hi|apply He1|by rewrite Hc1]. }
  apply wp_bind. eapply (wp_stage_internet n); [done|exact Hp|done|done|by rewrite Hhas1|].
  intros w2 [Hi2 He2 Hn2 Hs2 Hcnt2 Hd2 Hhas2].
  destruct (ag_suppliers _ _ (proj1 He2) _ _ Hp) as (p2 & Hp2 & (_ & Et2 & Ei2 & Eid2)).
  apply wp_bind. eapply (wp_stage_mms n); [done|exact Hp2|by rewrite <- Ei2|by rewrite <- Et2| |].
  { rewrite Hhas2, Hhas1, Hfresh. by rewrite andb_comm, andb_assoc, andb_false_r. }
  intros w3 [Hi3 He3 Hn3 Hs3 Hcnt3 Hd3 Hhas3].
  destruct (ag_suppliers _ _ (proj1 He3) _ _ Hp2) as (p3 & Hp3 & (_ & Et3 & Ei3 & Eid3)).
  apply wp_bind, wp_modify, wp_bind, wp_modify, wp_bind.
  pose proof (push_pair_inv n w3 Hi3) as Hi4. set (w4 := set_conn _ w3) in Hi4.
  change (wp connect_default (λ _, wp (id ← NetSupplierOps.GetSupplierId n ; mret (to_i 32 id)) Q) w4).
  apply wp_connect_default; [done|]. intros w5 Hi5 He5 Hl5 Hcnt5.
  destruct (ag_suppliers _ _ (proj1 He5) _ _ Hp3) as (p5 & Hp5 & (_ & Et5 & Ei5 & Eid5)).
  unfold NetSupplierOps.GetSupplierId. apply wp_bind. eapply wp_bind, wp_get_supplier; [exact Hp5|].
  do 2 apply wp_ret.
  rewrite <- Eid5, <- Eid3, <- Eid2, Epid.
  apply HQ. destruct Hl5 as (L1 & L2 & L3 & L4). split; [done| | | | | |].
  - etrans; [exact He1|]. etrans; [exact He2|]. etrans; [exact He3|]. etrans; [|exact He5].
    apply evolves_conn.
  - etrans; [exact Hcnt5|]. simpl. by rewrite Hcnt3, Hcnt2.
  - rewrite L4. simpl. by rewrite Hs3, Hs2, Hc1.
  - rewrite L1. cbn [w4 w_conn set_conn conn_networks conn_suppliers defaultNetService_].
    rewrite Hd3, Hd2, Hc1, Hsv1.
    change (NET_CAPABILITIES_MMS =? NET_CAPABILITIES_INTERNET) with false.
    change (NET_CAPABILITIES_INTERNET =? NET_CAPABILITIES_INTERNET) with true.
    by rewrite andb_false_r, andb_true_r.
  - exists p5. by rewrite <- Et5, <- Et3, <- Et2, <- Ei5, <- Ei3, <- Ei2, <- Eid5, <- Eid3, <- Eid2.
  - intros l c. erewrite has_service_same; [|exact Hi4|apply He5|exact L2].
    change (has_service w4 l c) with (has_service w3 l c). rewrite Hhas3, Hhas2, Hhas1.
    fold n. destruct (has_service w l c), (Nat.eqb n l), (c =? NET_CAPABILITIES_INTERNET),
      (c =? NET_CAPABILITIES_MMS); simpl; rewrite ?orb_false_r, ?orb_true_r; done.
Qed.

End Register.
