(* ===== verification/ConnUpdate.v ===== *)
(** * Removal of a supplier and update of its capabilities *)

From S2P Require Import Prelude Parcel Parcelables Host NetIds ConnState ConnNetwork ConnService.
From S2P Require Import ConnInv ConnOps ConnSpec ConnRegister.
Import NetSpecifier NetConnServiceOps.

Section Unregister.
Context {E : Type} `{Platform E}.
Implicit Type w : world E.

(** [Network::operator==] compares by identity: of two registered networks the
    suppliers differ in type or identifier. *)
Lemma wp_network_eqb w la lb a b :
  inv w → la ∈ networks_ (w_conn w) → lb ∈ networks_ (w_conn w) →
  w_networks w !! la = Some a → w_networks w !! lb = Some b →
  wp (NetworkOps.eqb a b) (λ r w', w' = w ∧ r = Nat.eqb la lb) w.
Proof.
  intros Hi Ha Hb Hla Hlb.
  destruct (inv_network _ _ Hi _ _ Hla) as [Ea [sa Hsa]].
  destruct (inv_network _ _ Hi _ _ Hlb) as [Eb [sb Hsb]].
  unfold NetworkOps.eqb. rewrite Ea, Eb. eapply wp_bind, wp_get_supplier; [exact Hsa|].
  eapply wp_bind, wp_get_supplier; [exact Hsb|]. apply wp_ret. split; [done|].
  destruct (Nat.eqb_spec la lb) as [<-|Hne].
  - assert (sa = sb) as <- by congruence. assert (a = b) as <- by congruence.
    unfold NetSupplierOps.eqb. by rewrite !Z.eqb_refl, String.eqb_refl.
  - apply not_true_iff_false. rewrite andb_true_iff. unfold NetSupplierOps.eqb.
    intros [[[_ Et%Z.eqb_eq]%andb_true_iff Ei%String.eqb_eq]%andb_true_iff _]. apply Hne.
    eapply (inv_keys _ _ Hi); rewrite ?app_nil_r; eauto.
Qed.

Definition on_network w (l s : nat) : bool :=
  match w_services w !! s with
  | Some x => Nat.eqb (NetService.network_ x) l
  | None => false
  end.

Lemma wp_services_not_on w l n L :
  inv w → l ∈ networks_ (w_conn w) → w_networks w !! l = Some n →
  (∀ s, s ∈ L → s ∈ netServices_ (w_conn w)) →
  wp (services_not_on n L) (λ r w', w' = w ∧ r = filter (λ s, on_network w l s = false) L) w.
Proof.
  intros Hi Hl Hn HL. induction L as [|s L IH]; [by apply wp_ret|].
  destruct (inv_services _ _ Hi s) as (x & Hx & [Hxn _ _]); [apply HL; left|].
  rewrite app_nil_r in Hxn. destruct (inv_nets _ _ Hi (NetService.network_ x)) as [m Hm].
  { by rewrite app_nil_r. }
  simpl. eapply wp_bind, wp_get_service; [exact Hx|].
  eapply wp_bind, wp_get_network; [exact Hm|]. apply wp_bind.
  eapply wp_mono; [eapply (wp_network_eqb w (NetService.network_ x) l); done|].
  intros b ? [-> ->]. apply wp_bind. eapply wp_mono; [apply IH; intros k Hk; apply HL; by right|].
  intros r ? [-> ->]. apply wp_ret. split; [done|].
  assert (Ho : on_network w l s = Nat.eqb (NetService.network_ x) l)
    by (unfold on_network; by rewrite Hx).
  rewrite filter_cons. destruct (Nat.eqb (NetService.network_ x) l).
  - by rewrite decide_False by congruence.
  - by rewrite decide_True by done.
Qed.

Record unregistered w (l : nat) w' : Prop := {
  ur_inv : inv w';
  ur_evolves : evolves w w';
  ur_count : w_nsuppliers w' = w_nsuppliers w;
  ur_suppliers : netSupplier_ (w_conn w') = without l (netSupplier_ (w_conn w));
  ur_services : netServices_ (w_conn w') =
    filter (λ s, on_network w l s = false) (netServices_ (w_conn w));
  ur_default : defaultNetService_ (w_conn w') = defaultNetService_ (w_conn w);
  ur_released : ∃ w1, w_host w1 = w_host w ∧ w_networks w1 = w_networks w ∧
    w_services w1 = w_services w ∧ w_conn w1 = w_conn w' ∧ released w1 l w';
}.

Lemma wp_unregister w id l (Q : Z → world E → Prop) :
  inv w → find_first (has_supplierId w id) (netSupplier_ (w_conn w)) = Some l →
  (∀ w', unregistered w l w' → Q ERR_NONE w') →
  wp (UnregisterNetSupplier id) Q w.
Proof.
  intros Hi Hf HQ. destruct (found_supplier w id l Hi Hf) as (Hl & s & n & Hs & Hn & Hns & _).
  rewrite (inv_lists _ _ Hi) in Hl.
  unfold UnregisterNetSupplier, GetNetSupplierFromListById, GetNetworkFromListBySupplierId.
  apply wp_bind, wp_gets. rewrite Hf. apply wp_bind, wp_gets.
  rewrite (find_network_by_id w id Hi), Hf. eapply wp_bind, wp_get_network; [exact Hn|].
  unfold DeleteServiceFromListByNet. apply wp_bind, wp_bind, wp_gets, wp_bind.
  eapply wp_mono; [by apply (wp_services_not_on w l n)|]. intros L ? [-> ->]. apply wp_modify.
  set (w1 := set_conn _ w).
  assert (Hi1 : inv w1) by (apply sublist_services_inv; [done|apply sublist_filter]).
  unfold DeleteNetworkFromListBySupplierId, DeleteSupplierFromListById.
  apply wp_bind, wp_modify, wp_bind, wp_modify, wp_bind.
  change (network_has_supplierId w1 id) with (network_has_supplierId w id).
  set (w2 := set_conn _ (set_conn _ w1)).
  assert (Hw2 : w2 = set_conn (conn_suppliers (without l (netSupplier_ (w_conn w1)))
                  (conn_networks (without l (networks_ (w_conn w1))) (w_conn w1))) w1).
  { pose proof (inv_nodup_networks _ _ Hi) as Hnd. rewrite app_nil_r in Hnd.
    change w2 with (set_conn (w_conn w2) w1). f_equal. simpl. unfold without.
    rewrite (erase_found (network_has_supplierId w id) (networks_ (w_conn w)) l);
      [|by rewrite find_network_by_id|done].
    f_equal. apply (erase_found (has_supplierId w id)); [done|]. by rewrite (inv_lists _ _ Hi). }
  assert (Hi2 : inv w2).
  { rewrite Hw2. apply remove_pair_inv; [done|]. intros k x Hk Hx Hxl.
    apply list_elem_of_filter in Hk as [Hk _]. unfold on_network in Hk. simpl in Hx.
    by rewrite Hx, Hxl, Nat.eqb_refl in Hk. }
  eapply wp_release; [exact Hi2|by intros _ ?%not_elem_of_nil|]. intros w3 Hi3 He3 Hc3 Hs3 Hcnt3 Hr3.
  apply wp_ret, HQ. split; [done| |done| | | |].
  - etrans; [|exact He3]. exact (evolves_conn w (w_conn w2)).
  - by rewrite Hc3, Hw2.
  - by rewrite Hc3, Hw2.
  - by rewrite Hc3, Hw2.
  - exists w2. repeat split; try done.
Qed.

(** The capabilities that are left. *)
Lemma unregistered_has w l w' k c :
  inv w → unregistered w l w' → k ≠ l → has_service w' k c = has_service w k c.
Proof.
  intros Hi Hu Hk. unfold has_service. rewrite (ur_services _ _ _ Hu).
  rewrite (existsb_agree w w'); [|apply (ur_evolves _ _ _ Hu)|].
  2:{ intros s [_ Hs]%list_elem_of_filter. by eapply services_valid. }
  generalize (netServices_ (w_conn w)). intros L. induction L as [|s L IH]; [done|].
  rewrite filter_cons. case_decide as Hon; simpl; [by rewrite IH|]. rewrite IH.
  unfold on_network in Hon. unfold service_on at 2. destruct (w_services w !! s) as [x|]; [|done].
  destruct (Nat.eqb_spec (NetService.network_ x) l) as [->|]; [|done].
  by replace (Nat.eqb l k) with false by (symmetry; apply Nat.eqb_neq; congruence).
Qed.

End Unregister.

(** ** [UpdateNetCapabilities] *)

Section Capabilities.
Context {E : Type} `{Platform E}.
Implicit Type w : world E.

Lemma wp_with_network_none w id k (Q : Z → world E → Prop) :
  find_first (has_supplierId w id) (netSupplier_ (w_conn w)) = None →
  Q ERR_NO_SUPPLIER w → wp (with_network id k) Q w.
Proof.
  intros Hf HQ. unfold with_network, GetNetSupplierFromListById.
  apply wp_bind, wp_gets. rewrite Hf. by apply wp_ret.
Qed.

Lemma wp_with_network w id l k (Q : Z → world E → Prop) :
  inv w → find_first (has_supplierId w id) (netSupplier_ (w_conn w)) = Some l →
  wp (k l l) Q w → wp (with_network id k) Q w.
Proof.
  intros Hi Hf HQ. destruct (found_supplier w id l Hi Hf) as (_ & s & _ & Hs & _ & _ & Hid).
  unfold with_network, GetNetSupplierFromListById, GetNetworkFromListBySupplierId.
  apply wp_bind, wp_gets. rewrite Hf. unfold NetSupplierOps.GetSupplierId.
  apply wp_bind. eapply wp_bind, wp_get_supplier; [exact Hs|]. apply wp_ret.
  apply wp_bind, wp_gets. by rewrite Hid, (find_network_by_id w id Hi), Hf.
Qed.

Lemma service_matches_on w n m cap s :
  inv w → few w → w_networks w !! n = Some m → s ∈ netServices_ (w_conn w) →
  service_matches w (Network.netId_ m) cap s = service_on w n cap s.
Proof.
  intros Hi Hb Hm Hs. destruct (inv_services _ _ Hi _ Hs) as (x & Hx & [Hxn _ _]).
  destruct (inv_nets _ _ Hi _ Hxn) as [m' Hm'].
  unfold service_matches, service_on. rewrite Hx, Hm'. f_equal.
  destruct (inv_ids _ _ Hi Hb) as [_ _ _ Hid]. rewrite (Hid _ _ Hm), (Hid _ _ Hm').
  destruct (Nat.eqb_spec (NetService.network_ x) n) as [->|]; [by apply Z.eqb_eq|].
  apply Z.eqb_neq. lia.
Qed.

(** A service on the network is one that the test by net id accepts. *)
Lemma service_on_matches w n m cap s :
  w_networks w !! n = Some m → service_on w n cap s = true →
  service_matches w (Network.netId_ m) cap s = true.
Proof.
  intros Hm (x & Hx & Hn & Hc)%service_on_true. unfold service_matches.
  by rewrite Hx, Hn, Hm, Hc, !Z.eqb_refl.
Qed.

Record cap_updated (n : nat) (caps cap : Z) w w' : Prop := {
  cu_inv : inv w';
  cu_evolves : evolves w w';
  cu_networks : w_networks w' = w_networks w;
  cu_count : w_nsuppliers w' = w_nsuppliers w;
  cu_suppliers : netSupplier_ (w_conn w') = netSupplier_ (w_conn w);
  cu_default : defaultNetService_ (w_conn w') = defaultNetService_ (w_conn w);
  cu_has : few w → ∀ l c, has_service w' l c =
    if Nat.eqb n l && (c =? cap) then has_cap caps cap else has_service w l c;
}.

Lemma present_none w n m cap :
  w_networks w !! n = Some m →
  find_first (service_matches w (Network.netId_ m) cap) (netServices_ (w_conn w)) = None →
  has_service w n cap = false.
Proof.
  intros Hm Hf. rewrite find_first_None in Hf. apply has_service_false.
  intros s Hs. apply not_true_iff_false. intros Hon. specialize (Hf s Hs).
  by rewrite (service_on_matches w n m cap s Hm Hon) in Hf.
Qed.

Lemma present_some w n m cap s :
  inv w → few w → w_networks w !! n = Some m →
  find_first (service_matches w (Network.netId_ m) cap) (netServices_ (w_conn w)) = Some s →
  s ∈ netServices_ (w_conn w) ∧ service_on w n cap s = true.
Proof.
  intros Hi Hb Hm Hf. apply find_first_Some in Hf as [Hs Ht].
  split; [done|]. by rewrite <- (service_matches_on w n m cap s).
Qed.

(** Erasing the service of one capability. *)
Lemma has_service_erase w n m cap s l c :
  inv w → few w → w_networks w !! n = Some m →
  find_first (service_matches w (Network.netId_ m) cap) (netServices_ (w_conn w)) = Some s →
  existsb (service_on w l c)
    (erase_first (service_matches w (Network.netId_ m) cap) (netServices_ (w_conn w))) =
  if Nat.eqb n l && (c =? cap) then false else has_service w l c.
Proof.
  intros Hi Hb Hm Hf. destruct (present_some w n m cap s Hi Hb Hm Hf) as [Hs Hon].
  rewrite (erase_found _ _ s Hf) by apply (inv_nodup_services _ _ Hi).
  apply service_on_true in Hon as (x & Hx & Hxn & Hxc). unfold has_service.
  destruct (Nat.eqb n l && (c =? cap)) eqn:Et.
  - apply andb_true_iff in Et as [->%Nat.eqb_eq ->%Z.eqb_eq].
    apply not_true_iff_false. rewrite existsb_exists.
    intros (y & [Hne Hy]%list_elem_of_In%list_elem_of_filter & (z & Hz & Hzn & Hzc)%service_on_true).
    apply Hne. eapply (inv_caps _ _ Hi); eauto; congruence.
  - apply eq_true_iff_eq. rewrite !existsb_exists. split.
    + intros (y & [_ Hy%list_elem_of_In]%list_elem_of_In%list_elem_of_filter & Hyo). eauto.
    + intros (y & Hy & Hyo). exists y. split; [|done].
      apply list_elem_of_In, list_elem_of_filter. split; [|by apply list_elem_of_In].
      intros ->. apply service_on_true in Hyo as (z & Hz & Hzn & Hzc).
      apply not_true_iff_false in Et. apply Et, andb_true_iff. rewrite Nat.eqb_eq, Z.eqb_eq.
      split; congruence.
Qed.

Lemma wp_update_capability w ident type caps cap n p (Q : unit → world E → Prop) :
  inv w → n ∈ networks_ (w_conn w) →
  cap = NET_CAPABILITIES_INTERNET ∨ cap = NET_CAPABILITIES_MMS →
  w_suppliers w !! n = Some p → NetSupplier.netSupplierIdent_ p = ident →
  NetSupplier.netSupplierType_ p = type →
  (∀ w', cap_updated n caps cap w w' → Q tt w') →
  wp (update_capability ident type caps cap n) Q w.
Proof.
  intros Hi Hn Hcap Hp Hid Ht HQ. unfold update_capability, IsServiceInList.
  destruct (inv_nets _ _ Hi n) as [m Hm]; [by rewrite app_nil_r|].
  eapply wp_bind, wp_get_network; [exact Hm|]. apply wp_bind, wp_gets.
  destruct (find_first _ _) as [s|] eqn:Ef; destruct (has_cap caps cap) eqn:Ec; simpl.
  - apply wp_ret, HQ. split; try done. intros Hb l c. rewrite Ec.
    destruct (present_some w n m cap s Hi Hb Hm Ef) as [Hs Hon].
    destruct (Nat.eqb n l && (c =? cap)) eqn:Et; [|done].
    apply andb_true_iff in Et as [->%Nat.eqb_eq ->%Z.eqb_eq]. apply has_service_true. eauto.
  - unfold DeleteServiceFromListByCap, IsServiceInList.
    apply wp_bind, wp_bind, wp_gets, wp_bind, wp_modify, wp_ret, wp_ret, HQ.
    split; try done; [apply sublist_services_inv; [done|apply erase_first_sublist]
                     |apply evolves_conn|].
    intros Hb l c. rewrite Ec. by apply (has_service_erase w n m cap s l c).
  - pose proof (present_none w n m cap Hm Ef) as Hno. apply wp_bind.
    eapply (wp_add_service []); [done|by rewrite app_nil_r|done|exact Hp|done|done|done|].
    intros w1 Hi1 He1 Hnet Hcnt Hc1 Hx. apply wp_ret, HQ.
    split; rewrite ?Hc1; try done. intros _ l c. rewrite Ec.
    rewrite (has_service_add [] w w1 n cap l c _ Hi (proj1 He1) Hc1 Hx); [|done|done].
    destruct (Nat.eqb n l && (c =? cap)); by rewrite ?orb_true_r, ?orb_false_r.
  - pose proof (present_none w n m cap Hm Ef) as Hno. apply wp_ret, HQ.
    split; try done. intros _ l c. rewrite Ec.
    destruct (Nat.eqb n l && (c =? cap)) eqn:Et; [|done].
    by apply andb_true_iff in Et as [->%Nat.eqb_eq ->%Z.eqb_eq].
Qed.

Record caps_updated (n : nat) (caps : Z) w w' : Prop := {
  us_inv : inv w';
  us_evolves : evolves w w';
  us_networks : w_networks w' = w_networks w;
  us_count : w_nsuppliers w' = w_nsuppliers w;
  us_suppliers : netSupplier_ (w_conn w') = netSupplier_ (w_conn w);
  us_default : defaultNetService_ (w_conn w') = defaultNetService_ (w_conn w);
  us_has : few w → ∀ l c, has_service w' l c =
    if Nat.eqb n l && ((c =? NET_CAPABILITIES_INTERNET) || (c =? NET_CAPABILITIES_MMS))
    then has_cap caps c else has_service w l c;
}.

Lemma wp_update_capabilities w id caps l (Q : Z → world E → Prop) :
  inv w → find_first (has_supplierId w id) (netSupplier_ (w_conn w)) = Some l →
  (∀ w', caps_updated l caps w w' → Q ERR_NONE w') →
  wp (UpdateNetCapabilities id caps) Q w.
Proof.
  intros Hi Hf HQ. unfold UpdateNetCapabilities. eapply wp_with_network; [done|exact Hf|].
  destruct (found_supplier w id l Hi Hf) as (Hl & p & _ & Hp & _ & _ & _).
  rewrite (inv_lists _ _ Hi) in Hl.
  unfold NetSupplierOps.GetNetSupplierType, NetSupplierOps.GetNetSupplierIdent.
  apply wp_bind. eapply wp_bind, wp_get_supplier; [exact Hp|]. apply wp_ret.
  apply wp_bind. eapply wp_bind, wp_get_supplier; [exact Hp|]. apply wp_ret.
  apply wp_bind. eapply wp_update_capability; [done|done|by left|exact Hp|done|done|].
  intros w1 [Hi1 He1 Hn1 Hc1 Hs1 Hd1 Hh1].
  destruct (ag_suppliers _ _ (proj1 He1) _ _ Hp) as (p1 & Hp1 & (_ & Et & Ei & _)).
  apply wp_bind. eapply wp_update_capability;
    [done| |by right|exact Hp1|by rewrite Ei|by rewrite Et|].
  { by rewrite <- (inv_lists _ _ Hi1), Hs1, (inv_lists _ _ Hi). }
  intros w2 [Hi2 He2 Hn2 Hc2 Hs2 Hd2 Hh2]. apply wp_ret, HQ.
  split; [done|by etrans|congruence|congruence|congruence|congruence|].
  intros Hb k c.
  assert (Hb1 : few w1) by (unfold few; by rewrite <- (inv_count _ _ Hi1), Hc1, (inv_count _ _ Hi)).
  rewrite (Hh2 Hb1), (Hh1 Hb).
  destruct (Nat.eqb l k); [|done]. cbn [andb].
  destruct (Z.eqb_spec c NET_CAPABILITIES_MMS) as [->|]; [by rewrite orb_true_r|].
  by destruct (Z.eqb_spec c NET_CAPABILITIES_INTERNET) as [->|].
Qed.

End Capabilities.
