(* ===== verification/ConnCorrect.v ===== *)
(** * Safety and refinement of the connection manager

    [handle] is a request of a client or of a timer thread. Every request keeps
    the invariant, returns, and changes the registry as [spec] says:
    [handle_ok]. *)

From S2P Require Import Prelude Parcel Parcelables Host NetIds ConnState ConnNetwork ConnService.
From S2P Require Import ConnInv ConnOps ConnSpec ConnRegister ConnUpdate.
Import NetSpecifier NetConnServiceOps.

Section Correct.
Context {E : Type} `{Platform E}.
Implicit Type w : world E.

(** What one request does to the registry, as long as ids are not exhausted. *)
Definition refines (r : request) w (ret : Z) w' : Prop :=
  abstract w' = (spec r (abstract w)).2 ∧
  ∀ z, (spec r (abstract w)).1 = Some z → ret = z.

Definition request_ok (r : request) w (ret : Z) w' : Prop :=
  inv w' ∧ evolves w w' ∧ (few w' → refines r w ret w').

(** *** Requests that keep the registry *)
Record keeps w w' : Prop := {
  kp_inv : inv w';
  kp_evolves : evolves w w';
  kp_count : w_nsuppliers w' = w_nsuppliers w;
  kp_suppliers : netSupplier_ (w_conn w') = netSupplier_ (w_conn w);
  kp_services : netServices_ (w_conn w') = netServices_ (w_conn w);
}.

Lemma keeps_refl w : inv w → keeps w w.
Proof. by split. Qed.

Lemma keeps_abstract w w' : inv w → keeps w w' → abstract w' = abstract w.
Proof. intros Hi []. unfold abstract. by rewrite kp_count0, (registry_same w w'). Qed.

Lemma keeps_few w w' : inv w → keeps w w' → few w' → few w.
Proof.
  intros Hi []. unfold few. by rewrite <- (inv_count _ _ kp_inv0), kp_count0, (inv_count _ _ Hi).
Qed.

Lemma keeps_ok r w ret w' :
  inv w → keeps w w' → (spec r (abstract w)).2 = abstract w →
  (few w → ∀ z, (spec r (abstract w)).1 = Some z → ret = z) → request_ok r w ret w'.
Proof.
  intros Hi Hk Hs Hr. pose proof Hk as []. split; [done|]. split; [done|]. intros Hb.
  split; [by rewrite (keeps_abstract w w'), Hs|]. by apply Hr, (keeps_few w w').
Qed.

Lemma step_keeps w w' : inv w → step w w' → keeps w w'.
Proof.
  intros Hi Hst. split; [by eapply inv_step|by apply step_evolves|..]; destruct Hst as [Hf _].
  - apply (fr_nsuppliers _ _ Hf).
  - by rewrite (fr_conn _ _ Hf).
  - by rewrite (fr_conn _ _ Hf).
Qed.

Lemma keeps_conn w c : inv w → same_lists (w_conn w) c → keeps w (set_conn c w).
Proof.
  intros Hi Hl. pose proof Hl as (D1 & D2 & D3 & D4).
  split; [by apply same_lists_inv|apply evolves_conn|done|done|done].
Qed.

Lemma keeps_trans w1 w2 w3 : keeps w1 w2 → keeps w2 w3 → keeps w1 w3.
Proof. intros [] []. split; [done|by etrans|congruence..]. Qed.

Lemma spec_keeps r a :
  match r with
  | ReqRegisterNetSupplier _ _ _ | ReqUnregisterNetSupplier _ | ReqUpdateNetCapabilities _ _ => True
  | _ => (spec r a).2 = a
  end.
Proof. destruct a as [n reg], r; simpl; repeat case_match; done. Qed.

(** *** Life cycle and timer *)
Lemma keeps_OnStart w : inv w → wp OnStart (λ _ w', keeps w w') w.
Proof.
  intros Hi. unfold OnStart. apply wp_bind, wp_gets. wp_step; [by apply wp_ret, keeps_refl|].
  unfold Init. apply wp_bind, wp_bind, wp_gets. wp_step.
  - apply wp_bind, wp_modify, wp_ret. by apply wp_ret, keeps_conn.
  - wp_step.
    + apply wp_bind. eapply wp_mono; [eapply step_on_host; [exact Hi|apply emits_ext|by constructor]|].
      intros b w1 [Hst _]. pose proof (step_keeps _ _ Hi Hst) as Hk.
      wp_step; [by apply wp_ret, wp_ret|].
      apply wp_bind, wp_modify, wp_ret. apply wp_bind, wp_gets, wp_modify.
      eapply keeps_trans; [exact Hk|]. eapply keeps_trans; apply keeps_conn; try done; [|].
      all: try apply keeps_conn; try done; by destruct Hk.
    + apply wp_ret, wp_bind, wp_gets, wp_modify. by apply keeps_conn.
Qed.

Lemma keeps_ReConnectService w : inv w → wp ReConnectService (λ _ w', keeps w w') w.
Proof.
  intros Hi. unfold ReConnectService. apply wp_bind, wp_gets.
  destruct (defaultNetService_ (w_conn w)) as [d|] eqn:Ed; [|by apply wp_ret, keeps_refl].
  pose proof (alive_default _ _ _ Hi Ed) as Ha.
  apply wp_bind. eapply wp_mono; [by apply wp_IsConnected|]. intros c ? ->.
  apply wp_bind. eapply (wp_mono _ (λ _ w', w' = w)).
  { destruct c; [by apply wp_ret|by apply wp_IsConnecting]. }
  intros busy ? ->. apply wp_bind. eapply (wp_mono _ (λ _ w', step w w')).
  { destruct busy; [|by apply wp_ret]. apply wp_bind.
    eapply wp_mono; [eapply step_ServiceDisConnect; [exact Hi|done]|]. intros ? ? [? _]. by apply wp_ret. }
  intros [] w1 Hst. eapply wp_mono.
  { eapply step_ServiceConnect; [by eapply inv_step|by eapply alive_step]. }
  intros r w2 [Hst2 _]. apply step_keeps; [done|by etrans].
Qed.

Lemma keeps_timer w : inv w → wp ReConnectServiceTask (λ _ w', keeps w w') w.
Proof.
  intros Hi. unfold ReConnectServiceTask. apply wp_bind, wp_modify, wp_bind.
  set (w0 := set_conn _ w). assert (Hk : keeps w w0) by by apply keeps_conn.
  eapply wp_mono; [apply keeps_ReConnectService, Hk|]. intros r w' Hk'.
  apply wp_ret. by eapply keeps_trans.
Qed.

(** *** Callbacks *)
Lemma no_services_nil w :
  inv w → no_services (registry w) = match netServices_ (w_conn w) with [] => true | _ => false end.
Proof.
  intros Hi. unfold no_services.
  assert (Hex : existsb (λ e, e_internet e || e_mms e) (registry w) = true ↔
                netServices_ (w_conn w) ≠ []).
  { unfold registry. rewrite existsb_omap.
    2:{ intros l Hl. destruct (entry_valid w l Hi Hl) as (? & e & _ & ? & _). eauto. }
    split.
    - intros (l & e & Hl & He & Ht) Hnil.
      destruct (entry_valid w l Hi Hl) as (? & e' & _ & He' & _ & _ & _ & Hint & Hmms).
      assert (e' = e) as -> by congruence. rewrite Hint, Hmms in Ht.
      unfold has_service in Ht. by rewrite Hnil in Ht.
    - destruct (netServices_ (w_conn w)) as [|s L] eqn:EL; [done|]. intros _.
      assert (Hs : s ∈ netServices_ (w_conn w)) by (rewrite EL; left).
      destruct (inv_services _ _ Hi _ Hs) as (x & Hx & [Hn Hc _]). rewrite app_nil_r in Hn.
      rewrite <- (inv_lists _ _ Hi) in Hn.
      destruct (entry_valid w _ Hi Hn) as (? & e & _ & He & _ & _ & _ & Hint & Hmms).
      exists (NetService.network_ x), e. split; [done|]. split; [done|].
      rewrite Hint, Hmms. apply orb_true_iff.
      destruct Hc; [left|right]; apply has_service_true; exists s; (split; [done|]);
        apply service_on_true; eauto. }
  destruct (netServices_ (w_conn w)), (existsb _ _); try done; exfalso;
    [by apply Hex|]; by assert (Hf : false = true) by by apply Hex.
Qed.

Lemma specifier_matches_entry w sp :
  inv w → existsb (entry_matches sp) (registry w) =
    match find_first (specifier_matches w sp) (netServices_ (w_conn w)) with
    | Some _ => true | None => false end.
Proof.
  intros Hi. apply eq_true_iff_eq. unfold registry. rewrite existsb_omap.
  2:{ intros l Hl. destruct (entry_valid w l Hi Hl) as (? & e & _ & ? & _). eauto. }
  assert (Hon : ∀ cap s, s ∈ netServices_ (w_conn w) →
    (∃ x, w_services w !! s = Some x ∧ NetService.netCapability_ x = cap) →
    specifier_matches w sp s = true ↔ ∃ x p, w_services w !! s = Some x ∧
      w_suppliers w !! NetService.network_ x = Some p ∧
      NetSupplier.netSupplierType_ p = NetSpecifier.netType_ sp ∧
      Z.land cap (NetSpecifier.netCapabilities_ sp) = cap).
  { intros cap s Hs (x & Hx & <-). destruct (inv_services _ _ Hi _ Hs) as (x' & Hx' & [_ _ Hp]).
    assert (x' = x) as -> by congruence. destruct Hp as (p & Hp & _ & Et).
    unfold specifier_matches. rewrite Hx, Et, andb_true_iff, !Z.eqb_eq. split.
    - intros [? ?]. eauto 6.
    - intros (x2 & p2 & Hx2 & Hp2 & ? & ?). assert (x2 = x) as -> by congruence.
      split; congruence. }
  split.
  - intros (l & e & Hl & He & Ht).
    destruct (entry_valid w l Hi Hl) as (p & e' & Hp & He' & _ & Et & _ & Hint & Hmms).
    assert (e' = e) as -> by congruence. unfold entry_matches in Ht.
    rewrite Hint, Hmms, Et, andb_true_iff, orb_true_iff, !andb_true_iff, !Z.eqb_eq in Ht.
    assert (Hs : ∃ s cap, s ∈ netServices_ (w_conn w) ∧ service_on w l cap s = true ∧
      Z.land cap (NetSpecifier.netCapabilities_ sp) = cap).
    { destruct Ht as [_ [[Hh Hc]|[Hh Hc]]]; apply has_service_true in Hh as (s & ? & ?); eauto. }
    destruct Hs as (s & cap & Hs & (x & Hx & Hxn & Hxc)%service_on_true & Hland).
    assert (Hm : specifier_matches w sp s = true).
    { apply (Hon cap s Hs); [eauto|]. exists x, p. rewrite Hxn. by destruct Ht. }
    destruct (find_first_exists _ _ _ Hs Hm) as [y ->]. done.
  - destruct (find_first _ _) as [s|] eqn:Ef; [|done]. intros _.
    apply find_first_Some in Ef as [Hs Ht].
    destruct (inv_services _ _ Hi _ Hs) as (x & Hx & [Hn Hc _]). rewrite app_nil_r in Hn.
    apply (Hon (NetService.netCapability_ x) s Hs) in Ht; [|eauto]. destruct Ht as (x' & p & Hx' & Hp & Et & Hland).
    assert (x' = x) as -> by congruence. rewrite <- (inv_lists _ _ Hi) in Hn.
    destruct (entry_valid w _ Hi Hn) as (p' & e & Hp' & He & _ & Et' & _ & Hint & Hmms).
    exists (NetService.network_ x), e. split; [done|]. split; [done|]. unfold entry_matches.
    rewrite Hint, Hmms, Et'. assert (p' = p) as -> by congruence.
    rewrite Et, Z.eqb_refl. cbn [andb].
    assert (Hh : has_service w (NetService.network_ x) (NetService.netCapability_ x) = true)
      by (apply has_service_true; exists s; split; [done|]; apply service_on_true; eauto).
    destruct Hc as [Hc|Hc]; rewrite Hc in Hh, Hland; rewrite Hh, Hland, Z.eqb_refl;
      by rewrite ?orb_true_r.
Qed.

Lemma keeps_callback w cb :
  inv w → wp (RegisterNetConnCallback (Some cb)) (λ ret w', keeps w w' ∧
    ret = if no_services (registry w) then ERR_NO_ANY_NET_TYPE else ERR_NONE) w.
Proof.
  intros Hi. rewrite no_services_nil by done. unfold RegisterNetConnCallback.
  apply wp_bind, wp_gets. destruct (netServices_ (w_conn w)) as [|s L] eqn:EL.
  { apply wp_ret. split; [by apply keeps_refl|done]. }
  apply wp_bind. eapply wp_mono.
  - eapply (step_for_each []); [exact Hi| |].
    + intros k Hk. eapply services_valid; [exact Hi|by rewrite EL].
    + intros k w1 Hk. by apply step_RegisterNetConnCallback.
  - intros [] w1 [Hst _]. apply wp_ret. split; [by apply step_keeps|done].
Qed.

Lemma keeps_unregister_callback w cb :
  inv w → wp (UnregisterNetConnCallback (Some cb)) (λ ret w', keeps w w' ∧
    ret = if no_services (registry w) then ERR_NO_ANY_NET_TYPE else ERR_NONE) w.
Proof.
  intros Hi. rewrite no_services_nil by done. unfold UnregisterNetConnCallback.
  apply wp_bind, wp_gets. destruct (netServices_ (w_conn w)) as [|s L] eqn:EL.
  { apply wp_ret. split; [by apply keeps_refl|done]. }
  apply wp_bind. eapply wp_mono.
  - eapply (step_for_each []); [exact Hi| |].
    + intros k Hk. eapply services_valid; [exact Hi|by rewrite EL].
    + intros k w1 Hk. apply wp_bind. eapply wp_mono; [by apply step_UnregisterNetConnCallback|].
      intros ? ? [? _]. by apply wp_ret.
  - intros [] w1 [Hst _]. apply wp_ret. split; [by apply step_keeps|done].
Qed.

Lemma keeps_specifier w sp cb :
  inv w → wp (RegisterNetConnCallbackBySpecifier (Some sp) (Some cb)) (λ ret w', keeps w w' ∧
    ret = if no_services (registry w) then ERR_NO_ANY_NET_TYPE
          else if existsb (entry_matches sp) (registry w) then ERR_NONE
          else ERR_NET_TYPE_NOT_FOUND) w.
Proof.
  intros Hi. rewrite no_services_nil, specifier_matches_entry by done.
  unfold RegisterNetConnCallbackBySpecifier. apply wp_bind, wp_gets.
  destruct (netServices_ (w_conn w)) as [|s L] eqn:EL.
  { apply wp_ret. split; [by apply keeps_refl|done]. }
  destruct (find_first _ _) as [k|] eqn:Ef.
  - apply find_first_Some in Ef as [Hk _]. rewrite <- EL in Hk. apply wp_bind.
    eapply wp_mono; [apply step_RegisterNetConnCallback; by eapply services_valid|].
    intros [] w1 [Hst _]. apply wp_ret. split; [by apply step_keeps|done].
  - apply wp_ret. split; [by apply keeps_refl|done].
Qed.

Lemma keeps_unregister_specifier w sp cb :
  inv w → wp (UnregisterNetConnCallbackBySpecifier (Some sp) (Some cb)) (λ _ w', keeps w w') w.
Proof.
  intros Hi. unfold UnregisterNetConnCallbackBySpecifier. apply wp_bind, wp_gets.
  destruct (netServices_ (w_conn w)) as [|s L] eqn:EL; [by apply wp_ret, keeps_refl|].
  destruct (find_first _ _) as [k|] eqn:Ef; [|by apply wp_ret, keeps_refl].
  apply find_first_Some in Ef as [Hk _]. rewrite <- EL in Hk.
  eapply wp_mono; [apply step_UnregisterNetConnCallback; by eapply services_valid|].
  intros z w1 [Hst _]. by apply step_keeps.
Qed.

(** *** Updates that only change objects *)
Lemma keeps_with_network w id (k : nat → nat → st (world E) Z) :
  inv w → (∀ l, is_Some (w_networks w !! l) →
    wp (k l l) (λ ret w', step w w' ∧ ret = ERR_NONE) w) →
  wp (with_network id k) (λ ret w', keeps w w' ∧
    ret = match find_first (has_id id) (registry w) with Some _ => ERR_NONE | None => ERR_NO_SUPPLIER end) w.
Proof.
  intros Hi Hk. rewrite find_by_id by done.
  destruct (find_first (has_supplierId w id) _) as [l|] eqn:Ef.
  - destruct (found_supplier w id l Hi Ef) as (Hl & s & n & _ & Hn & _).
    destruct (entry_valid w l Hi Hl) as (? & e & _ & He & _). simpl. rewrite He.
    eapply wp_with_network; [done|exact Ef|]. eapply wp_mono; [apply Hk; eauto|].
    intros r w' [Hst ->]. split; [by apply step_keeps|done].
  - apply wp_with_network_none; [done|]. split; [by apply keeps_refl|done].
Qed.

Lemma keeps_supplier_info w id inf :
  inv w → wp (UpdateNetSupplierInfo id (Some inf)) (λ ret w', keeps w w' ∧
    ret = match find_first (has_id id) (registry w) with Some _ => ERR_NONE | None => ERR_NO_SUPPLIER end) w.
Proof.
  intros Hi. apply keeps_with_network; [done|]. intros l Hl. apply wp_bind.
  eapply wp_mono; [by eapply step_net_UpdateNetSupplierInfo|]. intros b w' [Hst _]. by apply wp_ret.
Qed.

Lemma keeps_link_info w id inf :
  inv w → wp (UpdateNetLinkInfo id (Some inf)) (λ ret w', keeps w w' ∧
    ret = match find_first (has_id id) (registry w) with Some _ => ERR_NONE | None => ERR_NO_SUPPLIER end) w.
Proof.
  intros Hi. apply keeps_with_network; [done|]. intros l Hl. apply wp_bind.
  eapply wp_mono; [by eapply step_UpdateNetLinkInfo|]. intros b w' [Hst _]. by apply wp_ret.
Qed.

(** *** The three requests that change the registry *)
Lemma id_small n : Z.of_nat n <= 64512 → to_i 32 (to_u 32 (1003 + Z.of_nat n)) = 1003 + Z.of_nat n.
Proof. intros Hn. rewrite to_u_small by (unfold in_u; lia). apply to_i_small; unfold in_i; lia. Qed.

Lemma few_grow w w' : inv w → inv w' → w_nsuppliers w' = w_nsuppliers w → few w' → few w.
Proof. intros Hi Hi' Hc. unfold few. by rewrite <- (inv_count _ _ Hi'), Hc, (inv_count _ _ Hi). Qed.

Lemma register_ok w type ident caps :
  inv w → wp (RegisterNetSupplier type ident caps)
    (request_ok (ReqRegisterNetSupplier type ident caps) w) w.
Proof.
  intros Hi. destruct ((NET_TYPE_MAX <=? type) || (type <=? NET_TYPE_UNKNOWN)) eqn:Ev.
  { unfold RegisterNetSupplier. rewrite Ev. apply wp_ret, keeps_ok; [done|by apply keeps_refl|..];
      simpl; rewrite Ev; [done|]. by intros _ z [= <-]. }
  destruct (find_first (key_test w type ident) (netSupplier_ (w_conn w))) as [l|] eqn:Ef.
  - unfold RegisterNetSupplier, GetNetSupplierFromList. rewrite Ev.
    apply wp_bind, wp_gets. fold (key_test w type ident). rewrite Ef.
    pose proof (find_first_Some _ _ _ Ef) as [Hl _].
    destruct (entry_valid w l Hi Hl) as (p & e & Hp & He & Eid & _).
    apply wp_bind. unfold NetSupplierOps.GetSupplierId. eapply wp_bind, wp_get_supplier; [exact Hp|].
    do 2 apply wp_ret. pose proof (find_by_key w type ident Hi) as Hk.
    rewrite Ef in Hk. simpl in Hk. rewrite He in Hk.
    apply keeps_ok; [done|by apply keeps_refl|..]; simpl; rewrite Ev, Hk; [done|].
    intros Hb z [= <-]. rewrite Eid, (supplier_id_small _ _ _ Hb Hi Hp).
    rewrite <- (id_small l) at 2; [|].
    + f_equal. rewrite to_u_small; [done|]. destruct (inv_supplier _ _ Hi _ _ Hp) as [Hlt _ _ _].
      rewrite (inv_count _ _ Hi) in Hlt. unfold few in Hb. unfold in_u. lia.
    + destruct (inv_supplier _ _ Hi _ _ Hp) as [Hlt _ _ _].
      rewrite (inv_count _ _ Hi) in Hlt. unfold few in Hb. lia.
  - eapply wp_register_new; [done|unfold valid_type; lia|done|].
    intros w' [Hi' He Hc Hs Hd (p & Hp & Et & Ei & Eid) Hh].
    split; [done|]. split; [done|]. intros Hb.
    assert (Hbn : Z.of_nat (S (w_nsuppliers w)) <= 64512)
      by (unfold few in Hb; rewrite <- (inv_count _ _ Hi'), Hc in Hb; lia).
    assert (Hk : find_first (has_key type ident) (registry w) = None)
      by (rewrite find_by_key, Ef by done; done).
    unfold refines. simpl. rewrite Ev, Hk. split; [|intros z [= <-]; apply id_small; lia].
    unfold abstract. rewrite Hc. simpl. f_equal. unfold registry. rewrite Hs, omap_app. f_equal.
    + apply omap_ext_in. intros l Hl. apply entry_same; [apply He| |].
      * destruct (suppliers_valid w l Hi Hl) as (q & ? & _). eauto.
      * intros c. rewrite Hh. destruct (Nat.eqb_spec (w_nsuppliers w) l) as [<-|].
        -- destruct (suppliers_valid w _ Hi Hl) as (q & Hq & _).
           by rewrite (fresh_supplier _ _ Hi) in Hq.
        -- simpl. by rewrite orb_false_r.
    + cbn. unfold entry_of. rewrite Hp. cbn. unfold set_caps. cbn. do 2 f_equal.
      * rewrite Eid. apply to_u_small. unfold in_u. lia.
      * done.
      * done.
      * rewrite Hh, Nat.eqb_refl, (has_service_fresh [] w); [|done|].
        -- cbn. by rewrite orb_false_r.
        -- rewrite app_nil_r. intros Hl. rewrite <- (inv_lists _ _ Hi) in Hl.
           destruct (suppliers_valid w _ Hi Hl) as (q & Hq & _).
           by rewrite (fresh_supplier _ _ Hi) in Hq.
      * rewrite Hh, Nat.eqb_refl, (has_service_fresh [] w); [|done|].
        -- done.
        -- rewrite app_nil_r. intros Hl. rewrite <- (inv_lists _ _ Hi) in Hl.
           destruct (suppliers_valid w _ Hi Hl) as (q & Hq & _).
           by rewrite (fresh_supplier _ _ Hi) in Hq.
Qed.

Lemma spec_found w id :
  inv w → match find_first (has_id id) (registry w) with Some _ => true | None => false end =
          match find_first (has_supplierId w id) (netSupplier_ (w_conn w)) with
          | Some _ => true | None => false end.
Proof.
  intros Hi. rewrite find_by_id by done. destruct (find_first (has_supplierId w id) _) eqn:Ef; [|done].
  pose proof (find_first_Some _ _ _ Ef) as [Hl _].
  destruct (entry_valid w _ Hi Hl) as (? & e & _ & He & _). simpl. by rewrite He.
Qed.

Lemma unregister_ok w id :
  inv w → wp (UnregisterNetSupplier id) (request_ok (ReqUnregisterNetSupplier id) w) w.
Proof.
  intros Hi. pose proof (spec_found w id Hi) as Hfound.
  destruct (find_first (has_supplierId w id) (netSupplier_ (w_conn w))) as [l|] eqn:Ef.
  - eapply wp_unregister; [done|exact Ef|]. intros w' Hu.
    split; [apply Hu|]. split; [apply Hu|]. intros Hb.
    apply (few_grow w) in Hb; [|done|apply Hu|apply Hu].
    unfold refines. simpl. rewrite Hfound. split; [|by intros z [= <-]].
    unfold abstract. rewrite (ur_count _ _ _ Hu). cbn. f_equal. unfold registry.
    rewrite (ur_suppliers _ _ _ Hu). destruct (found_supplier w id l Hi Ef) as (_ & s & _ & Hs & _ & _ & <-).
    rewrite (omap_ext_in _ (entry_of w)).
    + apply omap_filter_in. intros k Hk.
      destruct (has_supplierId_entry w k (NetSupplier.supplierId_ s) Hi Hk) as (e & He & Ht).
      exists e. split; [done|]. rewrite Ht, <- (id_identifies w l k s Hb Hi Hs Hk).
      by rewrite not_true_iff_false.
    + intros k [Hkl Hk]%list_elem_of_filter. apply entry_same.
      * apply (ur_evolves _ _ _ Hu).
      * destruct (suppliers_valid w k Hi Hk) as (q & ? & _). eauto.
      * intros c. by eapply unregistered_has.
  - unfold UnregisterNetSupplier, GetNetSupplierFromListById. apply wp_bind, wp_gets. rewrite Ef.
    apply wp_ret, keeps_ok; [done|by apply keeps_refl|..]; simpl; rewrite Hfound; [done|].
    by intros _ z [= <-].
Qed.

Lemma capabilities_ok w id caps :
  inv w → wp (UpdateNetCapabilities id caps) (request_ok (ReqUpdateNetCapabilities id caps) w) w.
Proof.
  intros Hi. pose proof (spec_found w id Hi) as Hfound.
  destruct (find_first (has_supplierId w id) (netSupplier_ (w_conn w))) as [l|] eqn:Ef.
  - eapply wp_update_capabilities; [done|exact Ef|]. intros w' Hu.
    split; [apply Hu|]. split; [apply Hu|]. intros Hb.
    apply (few_grow w) in Hb; [|done|apply Hu|apply Hu].
    unfold refines. simpl. rewrite Hfound. split; [|by intros z [= <-]].
    unfold abstract. rewrite (us_count _ _ _ _ Hu). cbn. f_equal. unfold registry.
    rewrite (us_suppliers _ _ _ _ Hu).
    destruct (found_supplier w id l Hi Ef) as (_ & s & _ & Hs & _ & _ & <-).
    apply omap_fmap_in. intros k Hk.
    destruct (has_supplierId_entry w k (NetSupplier.supplierId_ s) Hi Hk) as (e & He & Ht).
    pose proof (id_identifies w l k s Hb Hi Hs Hk) as Hid. rewrite <- Ht in Hid. rewrite He. simpl.
    pose proof (us_has _ _ _ _ Hu Hb k) as Hh.
    destruct (Nat.eqb_spec l k) as [<-|Hlk].
    + rewrite (proj2 Hid eq_refl). unfold entry_of in He |- *.
      destruct (ag_suppliers _ _ (proj1 (us_evolves _ _ _ _ Hu)) _ _ Hs) as (s' & -> & (_ & Et & Ei & Eid)).
      rewrite Hs in He. simpl in He. injection He as <-. simpl. unfold set_caps. simpl.
      rewrite <- Et, <- Ei, <- Eid, !Hh. done.
    + destruct (has_id _ e); [by destruct Hlk; symmetry; apply Hid|].
      rewrite <- He. apply entry_same; [apply Hu| |].
      * destruct (suppliers_valid w k Hi Hk) as (q & ? & _). eauto.
      * intros c. by rewrite Hh.
  - apply wp_with_network_none; [done|]. apply keeps_ok; [done|by apply keeps_refl|..];
      simpl; rewrite Hfound; [done|]. by intros _ z [= <-].
Qed.

(** *** Every request *)
Lemma handle_ok r w : inv w → wp (handle r) (request_ok r w) w.
Proof.
  intros Hi. pose proof (spec_keeps r (abstract w)) as Hsp.
  assert (Hkeep : ∀ ret w', keeps w w' → (spec r (abstract w)).2 = abstract w →
    (∀ z, (spec r (abstract w)).1 = Some z → ret = z) → request_ok r w ret w')
    by (intros ret w' Hk Hs2 Hr; by apply keeps_ok).
  destruct r as [| | |t i c|id|cb|sp cb|cb|sp cb|id c|id inf|id inf|]; simpl handle.
  - apply wp_bind. eapply wp_mono; [by apply keeps_OnStart|]. intros [] w' Hk.
    apply wp_ret, Hkeep; [done..|]. by intros z [= <-].
  - apply wp_bind, wp_modify, wp_ret, Hkeep; [by apply keeps_conn|done|]. by intros z [= <-].
  - apply wp_ret, Hkeep; [by apply keeps_refl|done|]. by intros z [= <-].
  - by apply register_ok.
  - by apply unregister_ok.
  - destruct cb as [cb|]; [eapply wp_mono; [by apply keeps_callback|]; intros r w' [Hk ->]|
      apply wp_ret]; (apply Hkeep; [by try apply keeps_refl|done|]); by intros z [= <-].
  - destruct sp as [sp|], cb as [cb|];
      [eapply wp_mono; [by apply keeps_specifier|]; intros r w' [Hk ->]|apply wp_ret..];
      (apply Hkeep; [by try apply keeps_refl|done|]); by intros z [= <-].
  - destruct cb as [cb|]; [eapply wp_mono; [by apply keeps_unregister_callback|]; intros r w' [Hk ->]|
      apply wp_ret]; (apply Hkeep; [by try apply keeps_refl|done|]); by intros z [= <-].
  - destruct sp as [sp|], cb as [cb|];
      [eapply wp_mono; [by apply keeps_unregister_specifier|]; intros r w' Hk|apply wp_ret..];
      (apply Hkeep; [by try apply keeps_refl|done|]); by intros z [= <-].
  - by apply capabilities_ok.
  - destruct inf as [inf|]; [|apply wp_ret, Hkeep; [by apply keeps_refl|done|]; by intros z [= <-]].
    eapply wp_mono; [by apply keeps_supplier_info|]. intros r w' [Hk ->].
    apply Hkeep; [done|done|]. simpl. intros z [= <-]. by destruct (find_first _ _).
  - destruct inf as [inf|]; [|apply wp_ret, Hkeep; [by apply keeps_refl|done|]; by intros z [= <-]].
    eapply wp_mono; [by apply keeps_link_info|]. intros r w' [Hk ->].
    apply Hkeep; [done|done|]. simpl. intros z [= <-]. by destruct (find_first _ _).
  - apply wp_bind. eapply wp_mono; [by apply keeps_timer|]. intros [] w' Hk.
    apply wp_ret, Hkeep; [done|done|]. by intros z [= <-].
Qed.

End Correct.
