(* ===== verification/ConnProps.v ===== *)
(** * Properties of the connection manager

    Stated for every process state that a sequence of requests leads to, for
    any platform: no undefined behaviour, consistency of the lists, refinement
    of the registry, identity of suppliers, and the calls that never happen. *)

From S2P Require Import Prelude Parcel Parcelables Host NetIds ConnState ConnNetwork ConnService.
From S2P Require Import ConnInv ConnOps ConnSpec ConnRegister ConnUpdate ConnCorrect.
Import NetSpecifier NetConnServiceOps.

Section Reachable.
Context {E : Type} `{Platform E}.
Implicit Type w : world E.

Lemma inv_init (e : E) : inv (world_init e).
Proof.
  split; simpl; try done;
    try (intros * Hx; by rewrite lookup_empty in Hx);
    try (intros * Hx; by apply not_elem_of_nil in Hx); try apply NoDup_nil_2.
  intros _. split; simpl; try done.
  - apply wf_init.
  - intros id Hx. rewrite lookup_empty in Hx. by destruct Hx.
Qed.

Lemma reachable_ok (e : E) w : reachable e w → inv w ∧ evolves (world_init e) w.
Proof.
  induction 1 as [|w r ret w' Hr [Hi He] Hen Hh]; [split; [apply inv_init|done]|].
  destruct (wp_run _ _ _ _ _ (handle_ok r w Hi) Hh) as (Hi' & He' & _).
  split; [done|by etrans].
Qed.

(** Suppliers and networks correspond one to one; every service of the list is
    a service of a registered network, and agrees with its supplier. *)
Record consistent w : Prop := {
  cs_pairs : Forall2 (λ s n, ∃ p m, w_suppliers w !! s = Some p ∧ w_networks w !! n = Some m ∧
    Network.supplier_ m = s) (netSupplier_ (w_conn w)) (networks_ (w_conn w));
  cs_distinct : NoDup (netSupplier_ (w_conn w)) ∧ NoDup (networks_ (w_conn w)) ∧
    NoDup (netServices_ (w_conn w));
  cs_services : Forall (λ s, ∃ x m p, w_services w !! s = Some x ∧
    NetService.network_ x ∈ networks_ (w_conn w) ∧
    w_networks w !! NetService.network_ x = Some m ∧
    w_suppliers w !! Network.supplier_ m = Some p ∧
    NetService.ident_ x = NetSupplier.netSupplierIdent_ p ∧
    NetService.networkType_ x = NetSupplier.netSupplierType_ p ∧
    NetService.netCapability_ x ∈ [NET_CAPABILITIES_INTERNET; NET_CAPABILITIES_MMS] ∧
    NoDup (NetService.netConnCallback_ x)) (netServices_ (w_conn w));
  cs_one_per_capability : ∀ s1 s2 x1 x2,
    s1 ∈ netServices_ (w_conn w) → s2 ∈ netServices_ (w_conn w) →
    w_services w !! s1 = Some x1 → w_services w !! s2 = Some x2 →
    NetService.network_ x1 = NetService.network_ x2 →
    NetService.netCapability_ x1 = NetService.netCapability_ x2 → s1 = s2;
  cs_default : ∀ d, defaultNetService_ (w_conn w) = Some d → ∃ x m, w_services w !! d = Some x ∧
    w_networks w !! NetService.network_ x = Some m;
}.

Lemma inv_consistent w : inv w → consistent w.
Proof.
  intros Hi. assert (Hm : ∀ l, l ∈ networks_ (w_conn w) → ∃ m p, w_networks w !! l = Some m ∧
    Network.supplier_ m = l ∧ w_suppliers w !! l = Some p).
  { intros l Hl. destruct (inv_nets _ _ Hi l) as [m Hm]; [by rewrite app_nil_r|].
    destruct (inv_network _ _ Hi _ _ Hm) as [? [p ?]]. eauto. }
  pose proof (inv_nodup_networks _ _ Hi) as Hnd. rewrite app_nil_r in Hnd. split.
  - rewrite (inv_lists _ _ Hi). apply Forall2_same_length_lookup_2; [done|].
    intros i s n Hs Hn. assert (s = n) as -> by congruence.
    destruct (Hm n) as (m & p & ? & ? & ?); [by eapply list_elem_of_lookup_2|]. eauto.
  - rewrite (inv_lists _ _ Hi). split; [done|]. split; [done|]. apply (inv_nodup_services _ _ Hi).
  - apply Forall_forall. intros s Hs.
    destruct (inv_services _ _ Hi _ Hs) as (x & Hx & [Hn Hc (p & Hp & ? & ?)]).
    rewrite app_nil_r in Hn. destruct (Hm _ Hn) as (m & p' & Hmm & Hms & _).
    exists x, m, p. rewrite Hms. repeat split; try done.
    + rewrite list_elem_of_In. simpl. destruct Hc; auto.
    + by destruct (inv_service _ _ Hi _ _ Hx).
  - apply (inv_caps _ _ Hi).
  - intros d Hd. destruct (inv_default _ _ Hi _ Hd) as (x & Hx & [m Hmm]). eauto.
Qed.

Lemma NoDup_fmap_omap {A B C} (g : A → option B) (f : B → C) (L : list A) :
  NoDup L → (∀ x y a b, x ∈ L → y ∈ L → g x = Some a → g y = Some b → f a = f b → x = y) →
  NoDup (f <$> omap g L).
Proof.
  induction L as [|x L IH]; intros Hnd Hinj; [constructor|].
  apply NoDup_cons in Hnd as [Hx Hnd].
  assert (IH' : NoDup (f <$> omap g L)).
  { apply IH; [done|]. intros y z a b Hy Hz. apply Hinj; by right. }
  cbn. destruct (g x) as [a|] eqn:Ea; [|done]. rewrite fmap_cons. apply NoDup_cons.
  split; [|done]. intros (b & Hab & (y & Hy & Hgy)%list_elem_of_omap)%list_elem_of_fmap.
  apply Hx. rewrite (Hinj x y a b); [done|left|by right|done..].
Qed.

End Reachable.

Import SamplePlatform.

(** A short history: a cellular supplier is registered. *)
Definition cellular_request : request := ReqRegisterNetSupplier NET_TYPE_CELLULAR "sim1" 3.

Definition after (rs : list request) : world unit :=
  foldl (λ w r, match handle r w with Some (_, w') => w' | None => w end) (world_init tt) rs.

Lemma after_reachable rs r :
  reachable tt (after rs) → enabled r (after rs) → reachable tt (after (rs ++ [r])).
Proof.
  intros Hr He. unfold after. rewrite foldl_app. simpl. fold (after rs).
  destruct (handle r (after rs)) as [[ret w']|] eqn:Eh; [|done].
  by apply (reach_step tt (after rs) r ret w').
Qed.

(** C2. Safety of the connection manager when requests, and the threads of its
    reconnection timer, run one at a time. Nothing in the code makes them: no
    request takes a lock, and two at once on the lists of the service are a data
    race, of which this says nothing ([capability_race] shows one that even
    whole statements make). One at a time, from every reachable state and for
    every platform, every request the process can serve returns a code; no
    pointer the code follows is null or dangling. *)
Theorem conn_no_undefined_behaviour {E} `{Platform E} (e : E) w r :
  reachable e w → enabled r w → ∃ ret w', handle r w = Some (ret, w').
Proof.
  intros [Hi _]%reachable_ok _. destruct (handle_ok r w Hi) as (ret & w' & Hh & _). eauto.
Qed.

Lemma conn_no_undefined_behaviour_witness :
  ∃ ret w', handle (ReqUpdateNetCapabilities 1003 2) (after [cellular_request]) = Some (ret, w').
Proof.
  apply (conn_no_undefined_behaviour tt); [|done].
  apply (after_reachable [] cellular_request); [constructor|done].
Defined.

(** C3. Consistency between requests that run one at a time (the code takes no
    lock to make them, see [capability_race]): after any number of them suppliers
    and networks correspond one to one and in the same order, every service of
    the list belongs to a registered network and carries its supplier's type and
    identifier, no network has two services of one capability, no callback is
    registered twice with a service, and the default service's network is
    alive even after its supplier is gone. *)
Theorem conn_consistent {E} `{Platform E} (e : E) w : reachable e w → consistent w.
Proof. intros [Hi _]%reachable_ok. by apply inv_consistent. Qed.

Lemma conn_consistent_witness : consistent (after [cellular_request]).
Proof.
  apply (conn_consistent tt). apply (after_reachable [] cellular_request); [constructor|done].
Defined.

(** What happens when they do not run one at a time: two clients add the same
    capability to a supplier, both threads find that the network has no service
    for it, and both add one. The network has two, and the state is none of a
    service whose requests follow one another. *)
Lemma capability_race :
  let w := after [ReqRegisterNetSupplier NET_TYPE_CELLULAR "sim1" 0] in
  ∃ n s1 w1 s2 w2, w_networks w !! 0%nat = Some n ∧
    IsServiceInList (Network.netId_ n) NET_CAPABILITIES_INTERNET w = Some (false, w) ∧
    add_service "sim1" NET_TYPE_CELLULAR NET_CAPABILITIES_INTERNET 0 w = Some (s1, w1) ∧
    add_service "sim1" NET_TYPE_CELLULAR NET_CAPABILITIES_INTERNET 0 w1 = Some (s2, w2) ∧
    ¬ consistent w2.
Proof.
  do 5 eexists. do 4 (split; [vm_compute; reflexivity|]). intros [_ _ _ Hone _].
  assert (0%nat = 1%nat); [|done]. eapply Hone.
  - apply list_elem_of_here.
  - apply list_elem_of_further, list_elem_of_here.
  - reflexivity.
  - reflexivity.
  - reflexivity.
  - reflexivity.
Qed.

(** C1. Refinement, for requests that run one at a time: in every reachable
    state, as long as at most 64512 suppliers have been registered, every request changes the registry exactly
    as [spec] says and replies what [spec] determines: registration is
    idempotent and appends an entry with a fresh id otherwise, removal deletes
    the entry of that id and no other, a capability update makes the services
    of that supplier those of the bits, and all other requests leave it. *)
Theorem registry_refinement {E} `{Platform E} (e : E) w r ret w' :
  reachable e w → handle r w = Some (ret, w') → Z.of_nat (w_nnetworks w') <= 64512 →
  abstract w' = (spec r (abstract w)).2 ∧ ∀ z, (spec r (abstract w)).1 = Some z → ret = z.
Proof.
  intros [Hi _]%reachable_ok Hh Hb. destruct (wp_run _ _ _ _ _ (handle_ok r w Hi) Hh) as (_ & _ & Hr).
  by apply Hr.
Qed.

Lemma registry_refinement_witness :
  ∃ ret w', handle cellular_request (world_init tt) = Some (ret, w') ∧ ret = 1003 ∧
    abstract w' = (1%nat, [mkEntry 1003 NET_TYPE_CELLULAR "sim1" true true]).
Proof.
  destruct (handle cellular_request (world_init tt)) as [[ret w']|] eqn:Eh; [|vm_compute in Eh; done].
  exists ret, w'. split; [done|].
  destruct (registry_refinement tt (world_init tt) cellular_request ret w') as [Ha Hr].
  - constructor.
  - exact Eh.
  - vm_compute in Eh. injection Eh as <- <-. done.
  - split; [by apply Hr|]. rewrite Ha. vm_compute. done.
Defined.

(** Identity: in every reachable state, as long as at most 64512 suppliers
    have been registered, the ids of the registered suppliers are distinct and
    above [MINIMUM_SUPPLIER_ID] = 1000, and no two of them have the same type
    and identifier. *)
Theorem supplier_identity {E} `{Platform E} (e : E) w :
  reachable e w → Z.of_nat (w_nnetworks w) <= 64512 →
  NoDup (e_id <$> registry w) ∧ Forall (λ x, 1000 < e_id x < 66000) (registry w) ∧
  NoDup ((λ x, (e_type x, e_ident x)) <$> registry w).
Proof.
  intros [Hi _]%reachable_ok Hb. pose proof (inv_nodup_networks _ _ Hi) as Hnd.
  rewrite app_nil_r, <- (inv_lists _ _ Hi) in Hnd.
  assert (Hent : ∀ l x, l ∈ netSupplier_ (w_conn w) → entry_of w l = Some x →
    (l < w_nsuppliers w)%nat ∧ e_id x = 1003 + Z.of_nat l ∧ ∃ p, w_suppliers w !! l = Some p ∧
    e_type x = NetSupplier.netSupplierType_ p ∧ e_ident x = NetSupplier.netSupplierIdent_ p).
  { intros l x Hl Hx. destruct (entry_valid w l Hi Hl) as (p & x' & Hp & Hx' & Eid & Et & Ei & _).
    assert (x' = x) as -> by congruence. split; [apply (inv_supplier _ _ Hi _ _ Hp)|].
    rewrite Eid. split; [by apply (supplier_id_small w l p)|]. eauto. }
  pose proof (inv_count _ _ Hi) as Hcnt. split; [|split].
  - apply NoDup_fmap_omap; [done|]. intros l k x y Hl Hk Hx Hy Hxy.
    apply Hent in Hx as (_ & Hx & _); [|done]. apply Hent in Hy as (_ & Hy & _); [|done]. lia.
  - apply Forall_forall. intros x (l & Hl & Hx)%list_elem_of_omap.
    apply Hent in Hx as (? & -> & _); [|done]. lia.
  - apply NoDup_fmap_omap; [done|]. intros l k x y Hl Hk Hx Hy [= Et Ei].
    apply Hent in Hx as (_ & _ & p & Hp & Hx1 & Hx2); [|done].
    apply Hent in Hy as (_ & _ & q & Hq & Hy1 & Hy2); [|done].
    rewrite (inv_lists _ _ Hi) in Hl, Hk.
    eapply (inv_keys _ _ Hi); rewrite ?app_nil_r; eauto; congruence.
Qed.

Lemma supplier_identity_witness :
  let w := after [cellular_request; ReqRegisterNetSupplier NET_TYPE_ETHERNET "eth0" 1] in
  NoDup (e_id <$> registry w) ∧ Forall (λ x, 1000 < e_id x < 66000) (registry w) ∧
  NoDup ((λ x, (e_type x, e_ident x)) <$> registry w).
Proof.
  apply (supplier_identity tt); [|by vm_compute].
  apply (after_reachable [cellular_request]); [|done].
  apply (after_reachable [] cellular_request); [constructor|done].
Defined.

(** C32. The manager never activates a network: in every reachable state, for
    every platform, no request for a network has been sent to a controller
    ([Network::NetworkConnect] sends a release instead). *)
Theorem never_requests_network {E} `{Platform E} (e : E) w ident cap :
  reachable e w → EvRequestNet ident cap ∉ h_log (w_host w).
Proof.
  intros [_ [_ [_ (evs & Hl & Hf)]]]%reachable_ok. simpl in Hl. rewrite Hl. intros Hin.
  rewrite Forall_forall in Hf. by apply (Hf _ Hin).
Qed.

Lemma never_requests_network_witness :
  EvReleaseNet "sim1" 1 ∈ h_log (w_host (after [cellular_request])) ∧
  EvRequestNet "sim1" 1 ∉ h_log (w_host (after [cellular_request])).
Proof.
  split; [vm_compute; repeat (left + right)|].
  apply (never_requests_network tt).
  apply (after_reachable [] cellular_request); [constructor|done].
Defined.
