(* ===== verification/ConnCalls.v ===== *)
(** * The state machine of a service

    The exact sequence of broadcasts, callbacks and controller calls of
    [NetService::ServiceConnect] on each of its branches. *)

From S2P Require Import Prelude Parcel Parcelables Host NetIds ConnState ConnNetwork ConnService.
From S2P Require Import ConnInv ConnOps ConnSpec ConnRegister ConnUpdate ConnCorrect ConnProps.
Import NetSpecifier NetConnServiceOps.

Section Connect.
Context {E : Type} `{Platform E}.
Implicit Type w : world E.

(** The call on the controller of a supplier, if it has one. *)
Definition release_call (p : NetSupplier.t) (cap : Z) : list event :=
  match NetSupplier.netController_ p with
  | Some _ => [EvReleaseNet (NetSupplier.netSupplierIdent_ p) (to_u 32 cap)]
  | None => []
  end.

(** What a supplier call leaves: only the supplier's flag and the host. *)
Record supplier_called (l : nat) (cap : Z) w (ok : bool) w' : Prop := {
  sc_log : ∀ p, w_suppliers w !! l = Some p →
    h_log (w_host w') = h_log (w_host w) ++ release_call p cap;
  sc_netd : netd_ok (h_netd (w_host w'));
  sc_none : ∀ p, w_suppliers w !! l = Some p → NetSupplier.netController_ p = None → ok = false;
  sc_supplier : ∀ p, w_suppliers w !! l = Some p → ∃ p', w_suppliers w' !! l = Some p' ∧
    same_supplier p p';
  sc_networks : w_networks w' = w_networks w;
  sc_services : w_services w' = w_services w;
}.

Lemma wp_SupplierDisconnection l cap p w :
  w_suppliers w !! l = Some p → netd_ok (h_netd (w_host w)) →
  wp (NetSupplierOps.SupplierDisconnection l cap) (supplier_called l cap w) w.
Proof.
  intros Hp Hn. unfold NetSupplierOps.SupplierDisconnection.
  eapply wp_bind, wp_get_supplier; [exact Hp|].
  destruct (NetSupplier.netController_ p) as [[]|] eqn:Ec.
  - apply wp_bind. unfold NetControllers.ReleaseNetwork.
    eapply wp_emits; [apply emits_ext|done|]. intros code h L N.
    assert (Hrc : release_call p cap = [EvReleaseNet (NetSupplier.netSupplierIdent_ p) (to_u 32 cap)])
      by (unfold release_call; by rewrite Ec).
    wp_step.
    + eapply wp_bind, wp_get_supplier; [exact Hp|]. apply wp_bind, wp_modify, wp_ret.
      split; simpl; try done; intros q Hq; (assert (q = p) as -> by congruence).
      * by rewrite Hrc.
      * by rewrite Ec.
      * rewrite lookup_insert_eq. by eexists.
    + apply wp_ret. split; simpl; try done; intros q Hq; (assert (q = p) as -> by congruence).
      * by rewrite Hrc.
      * by eexists.
  - apply wp_ret. split; try done; intros q Hq; (assert (q = p) as -> by congruence).
    + unfold release_call. by rewrite Ec, app_nil_r.
    + by eexists.
Qed.

Definition connecting (s : NetService.t) (m : Network.t) : bool :=
  match NetService.state_ s with
  | SERVICE_STATE_UNKNOWN | SERVICE_STATE_FAILURE | SERVICE_STATE_IDLE => Network.isConnecting_ m
  | SERVICE_STATE_CONNECTING => true
  | _ => false
  end.

Definition connected (s : NetService.t) : bool :=
  match NetService.state_ s with
  | SERVICE_STATE_READY | SERVICE_STATE_CONNECTED => true
  | _ => false
  end.

(** The calls between the state changes of a connection attempt. *)
Definition activation_calls (m : Network.t) (p : NetSupplier.t) (cap : Z) : list event :=
  if Network.isConnected_ m then [] else release_call p cap.

Definition deactivation_calls (m : Network.t) (p : NetSupplier.t) (cap : Z) : list event :=
  if Network.isConnecting_ m || Network.isConnected_ m then release_call p cap else [].

Definition connect_events (s : NetService.t) (m : Network.t) (p : NetSupplier.t) (ok : bool)
    : list event :=
  let cap := NetService.netCapability_ s in
  state_events s SERVICE_STATE_IDLE ++ state_events s SERVICE_STATE_CONNECTING ++
  activation_calls m p cap ++
  if ok then state_events s SERVICE_STATE_READY
  else state_events s SERVICE_STATE_FAILURE ++ deactivation_calls m p cap ++
       state_events s SERVICE_STATE_DISCONNECTED ++ state_events s SERVICE_STATE_IDLE.

(** A connection attempt that got past the guards. *)
Record attempted (self : nat) (s : NetService.t) (m : Network.t) (p : NetSupplier.t) w
    (ret : Z) w' : Prop := {
  at_result : ∃ ok, ret = (if ok : bool then ERR_SERVICE_REQUEST_SUCCESS
                           else ERR_SERVICE_REQUEST_CONNECT_FAIL) ∧
    h_log (w_host w') = h_log (w_host w) ++ connect_events s m p ok ∧
    w_services w' !! self = Some (NetServiceOps.with_state
      (if ok then SERVICE_STATE_READY else SERVICE_STATE_IDLE) s) ∧
    w_networks w' !! NetService.network_ s =
      Some (if ok && negb (Network.isConnected_ m) then NetworkOps.with_connection true true m
            else m) ∧
    (Network.isConnected_ m = true → ok = true) ∧
    (Network.isConnected_ m = false → NetSupplier.netController_ p = None → ok = false);
}.

Lemma wp_net_NetworkConnect l cap m p w (Q : bool → world E → Prop) :
  w_networks w !! l = Some m → w_suppliers w !! Network.supplier_ m = Some p →
  netd_ok (h_netd (w_host w)) →
  (∀ ok w', h_log (w_host w') = h_log (w_host w) ++ activation_calls m p cap →
     netd_ok (h_netd (w_host w')) →
     (∃ p', w_suppliers w' !! Network.supplier_ m = Some p' ∧ same_supplier p p') →
     w_services w' = w_services w →
     w_networks w' !! l = Some (if ok && negb (Network.isConnected_ m)
                                then NetworkOps.with_connection true true m else m) →
     (Network.isConnected_ m = true → ok = true) →
     (Network.isConnected_ m = false → NetSupplier.netController_ p = None → ok = false) →
     Q ok w') →
  wp (NetworkOps.NetworkConnect l cap) Q w.
Proof.
  intros Hm Hp Hn HQ. unfold NetworkOps.NetworkConnect.
  eapply wp_bind, wp_get_network; [exact Hm|]. unfold activation_calls in HQ.
  destruct (Network.isConnected_ m) eqn:Ec.
  { apply wp_ret. apply HQ; try done; [by rewrite app_nil_r|by eexists]. }
  apply wp_bind. eapply wp_mono; [by apply (wp_SupplierDisconnection _ cap p)|].
  intros ok w1 [Hlog Hnd Hnone Hsup Hnet Hsvc]. destruct ok; simpl.
  - eapply wp_bind, wp_get_network; [by rewrite Hnet|]. apply wp_bind, wp_modify, wp_ret.
    apply HQ; simpl; auto; [by rewrite lookup_insert_eq|by intros _ ?; apply (Hnone p)].
  - apply wp_ret. apply HQ; simpl; auto; by rewrite Hnet.
Qed.

Lemma wp_net_NetworkDisconnect l cap m p w (Q : bool → world E → Prop) :
  w_networks w !! l = Some m → w_suppliers w !! Network.supplier_ m = Some p →
  netd_ok (h_netd (w_host w)) →
  (∀ ok w', h_log (w_host w') = h_log (w_host w) ++ deactivation_calls m p cap →
     netd_ok (h_netd (w_host w')) → w_services w' = w_services w → w_networks w' = w_networks w →
     (Network.isConnecting_ m || Network.isConnected_ m = false → ok = false) →
     Q ok w') →
  wp (NetworkOps.NetworkDisconnect l cap) Q w.
Proof.
  intros Hm Hp Hn HQ. unfold NetworkOps.NetworkDisconnect.
  eapply wp_bind, wp_get_network; [exact Hm|]. unfold deactivation_calls in HQ.
  rewrite <- negb_orb. destruct (_ || _) eqn:Ec; simpl.
  - eapply wp_mono; [by apply (wp_SupplierDisconnection _ cap p)|].
    intros ok w1 [Hlog Hnd Hnone Hsup Hnet Hsvc]. apply HQ; auto. done.
  - apply wp_ret. apply HQ; try done. by rewrite app_nil_r.
Qed.

Lemma run_IsConnecting self s m w :
  w_services w !! self = Some s → w_networks w !! NetService.network_ s = Some m →
  wp (NetServiceOps.IsConnecting self) (λ b w', b = connecting s m ∧ w' = w) w.
Proof.
  intros Hs Hm. unfold NetServiceOps.IsConnecting, connecting.
  eapply wp_bind, wp_get_service; [exact Hs|].
  destruct (NetService.state_ s); try (by apply wp_ret);
    (eapply wp_bind, wp_get_network; [exact Hm|]; by apply wp_ret).
Qed.

Lemma run_IsConnected self s w :
  w_services w !! self = Some s →
  wp (NetServiceOps.IsConnected self) (λ b w', b = connected s ∧ w' = w) w.
Proof.
  intros Hs. unfold NetServiceOps.IsConnected, connected.
  eapply wp_bind, wp_get_service; [exact Hs|]. destruct (NetService.state_ s); by apply wp_ret.
Qed.

(** A state change keeps the other objects. *)
Record told (self : nat) (s : NetService.t) (evs : list event) w w' : Prop := {
  td_service : w_services w' !! self = Some s;
  td_log : h_log (w_host w') = h_log (w_host w) ++ evs;
  td_netd : netd_ok (h_netd (w_host w'));
  td_networks : w_networks w' = w_networks w;
  td_suppliers : w_suppliers w' = w_suppliers w;
}.

Lemma tell self x s w (Q : unit → world E → Prop) :
  w_services w !! self = Some s → netd_ok (h_netd (w_host w)) → x ≠ SERVICE_STATE_UNKNOWN →
  (∀ w', told self (NetServiceOps.with_state x s) (state_events s x) w w' → Q tt w') →
  wp (NetServiceOps.UpdateServiceState self x) Q w.
Proof.
  intros Hs Hn Hx HQ. eapply wp_UpdateServiceState; [exact Hs|done|]. intros h L N. apply HQ.
  split; simpl; try done. rewrite lookup_insert_eq. by destruct x.
Qed.

(** The failure half of a connection attempt. *)
Lemma run_connect_failure self s s0 m p w :
  w_services w !! self = Some s0 → (∃ x, s0 = NetServiceOps.with_state x s) →
  w_networks w !! NetService.network_ s = Some m →
  w_suppliers w !! Network.supplier_ m = Some p → netd_ok (h_netd (w_host w)) →
  wp (NetServiceOps.UpdateServiceState self SERVICE_STATE_FAILURE ;;
      NetServiceOps.NetworkDisConnect self ;;
      NetServiceOps.UpdateServiceState self SERVICE_STATE_DISCONNECTED ;;
      NetServiceOps.UpdateServiceState self SERVICE_STATE_IDLE ;;
      mret ERR_SERVICE_REQUEST_CONNECT_FAIL)
    (λ ret w', ret = ERR_SERVICE_REQUEST_CONNECT_FAIL ∧
       told self (NetServiceOps.with_state SERVICE_STATE_IDLE s)
         (state_events s SERVICE_STATE_FAILURE ++
          deactivation_calls m p (NetService.netCapability_ s) ++
          state_events s SERVICE_STATE_DISCONNECTED ++ state_events s SERVICE_STATE_IDLE)
         w (set_suppliers (w_suppliers w) w')) w.
Proof.
  intros Hs [x ->] Hm Hp Hn.
  apply wp_bind. eapply tell; [exact Hs|done|done|]. intros w1 [S1 L1 N1 M1 P1].
  apply wp_bind. unfold NetServiceOps.NetworkDisConnect.
  eapply wp_bind, wp_get_service; [exact S1|]. apply wp_bind.
  eapply (wp_net_NetworkDisconnect _ _ m p); [by rewrite M1|by rewrite P1|done|].
  intros ok w2 L2 N2 S2 M2 _. apply wp_ret, wp_bind.
  eapply tell; [by rewrite S2|done|done|]. intros w3 [S3 L3 N3 M3 P3].
  apply wp_bind. eapply tell; [exact S3|done|done|]. intros w4 [S4 L4 N4 M4 P4].
  apply wp_ret. split; [done|]. split; simpl; try done.
  - rewrite L4, L3, L2, L1. by rewrite <- !app_assoc.
  - by rewrite M4, M3, M2.
Qed.

Definition connect_outcome (self : nat) (s : NetService.t) (m : Network.t) (p : NetSupplier.t)
    w (ret : Z) w' : Prop :=
  if connecting s m then ret = ERR_SERVICE_CONNECTING ∧ w' = w
  else if connected s then ret = ERR_SERVICE_CONNECTED ∧ w' = w
  else if negb (NetService.networkType_ s =? NET_TYPE_CELLULAR) then
    ret = ERR_INVALID_NETORK_TYPE ∧ w' = w
  else attempted self s m p w ret w'.

Lemma run_ServiceConnect self s m p w :
  netd_ok (h_netd (w_host w)) → w_services w !! self = Some s →
  w_networks w !! NetService.network_ s = Some m →
  w_suppliers w !! Network.supplier_ m = Some p →
  wp (NetServiceOps.ServiceConnect self) (connect_outcome self s m p w) w.
Proof.
  intros Hn Hs Hm Hp. unfold NetServiceOps.ServiceConnect, connect_outcome.
  apply wp_bind. eapply wp_mono; [by apply (run_IsConnecting self s m)|]. intros ? ? [-> ->].
  destruct (connecting s m); [by apply wp_ret|].
  apply wp_bind. eapply wp_mono; [by apply (run_IsConnected self s)|]. intros ? ? [-> ->].
  destruct (connected s); [by apply wp_ret|].
  eapply wp_bind, wp_get_service; [exact Hs|]. destruct (negb _); [by apply wp_ret|].
  apply wp_bind. eapply tell; [exact Hs|done|done|]. intros w1 [S1 L1 N1 M1 P1].
  apply wp_bind. unfold NetServiceOps.NetworkConnect. apply wp_bind.
  eapply tell; [exact S1|done|done|]. intros w2 [S2 L2 N2 M2 P2].
  eapply wp_bind, wp_get_service; [exact S2|]. apply wp_bind.
  eapply (wp_net_NetworkConnect _ _ m p); [by rewrite M2, M1|by rewrite P2, P1|done|].
  intros ok w3 L3 N3 (p' & Hp' & Hsame) S3 M3 Hok1 Hok2. apply wp_ret. destruct ok; simpl.
  - apply wp_bind. eapply tell; [by rewrite S3|done|done|]. intros w4 [S4 L4 N4 M4 P4].
    apply wp_ret. split. exists true. split; [done|]. repeat split; try done.
    + rewrite L4, L3, L2, L1. unfold connect_events. by rewrite <- !app_assoc.
    + simpl in M3. by rewrite M4, M3.
  - assert (Hrc : release_call p' (NetService.netCapability_ s) =
                  release_call p (NetService.netCapability_ s)).
    { destruct Hsame as (Ec & _ & Ei & _). unfold release_call. by rewrite Ec, Ei. }
    eapply wp_mono; [eapply (run_connect_failure self s _ m p'); [by rewrite S3|by eexists|done|done|done]|].
    intros r w4 [-> [S4 L4 N4 M4 P4]]. split. exists false. split; [done|]. repeat split; try done.
    + simpl in L4. rewrite L4, L3, L2, L1. unfold connect_events, deactivation_calls. rewrite Hrc.
      by rewrite <- !app_assoc.
    + simpl in M4, M3. by rewrite M4, M3.
Qed.

End Connect.

Import SamplePlatform.

(** The sample process with one cellular supplier, its default service at rest. *)
Definition at_rest : world unit :=
  let w := after [cellular_request] in
  set_services (<[0%nat := NetService.mk "sim1" 1 SERVICE_STATE_IDLE 1 0 [mkCallback 7]]> (w_services w))
    (set_networks (<[0%nat := Network.mk NetLinkInfo.default INetAddr.default INetAddr.default
       Route.default false false false 0 0]> (w_networks w)) w).

(** C4. The service state machine. [NetService::ServiceConnect] refuses while
    the service is connecting, when it is connected, and for a type other than
    cellular, and then changes nothing. Otherwise it goes through IDLE and
    CONNECTING, calls the controller (a release, unless the network is already
    connected), and ends in READY, or goes through FAILURE and DISCONNECTED
    back to IDLE with a second release when the network was in use; every state
    change is broadcast and then sent to every callback, in order, and nothing
    else is sent. *)
Theorem service_connect {E} `{Platform E} self s m p (w : world E) :
  netd_ok (h_netd (w_host w)) → w_services w !! self = Some s →
  w_networks w !! NetService.network_ s = Some m →
  w_suppliers w !! Network.supplier_ m = Some p →
  ∃ ret w', NetServiceOps.ServiceConnect self w = Some (ret, w') ∧
    connect_outcome self s m p w ret w'.
Proof. intros Hn Hs Hm Hp. exact (run_ServiceConnect self s m p w Hn Hs Hm Hp). Qed.

Lemma service_connect_witness :
  ∃ s m p ret w', NetServiceOps.ServiceConnect 0 at_rest = Some (ret, w') ∧
    connect_outcome 0 s m p at_rest ret w' ∧ ret = ERR_SERVICE_REQUEST_SUCCESS.
Proof.
  eexists _, _, _.
  edestruct (service_connect 0 (NetService.mk "sim1" 1 SERVICE_STATE_IDLE 1 0 [mkCallback 7])
    (Network.mk NetLinkInfo.default INetAddr.default INetAddr.default
       Route.default false false false 0 0)
    (NetSupplier.mk (Some TelephonyController) 1 "sim1" 1003 0 0 false false false) at_rest)
    as (ret & w' & Hr & Ho).
  - intros c Hc. vm_compute in Hc. by injection Hc as <-.
  - reflexivity.
  - reflexivity.
  - vm_compute. reflexivity.
  - exists ret, w'. split; [exact Hr|]. split; [exact Ho|].
    vm_compute in Hr. by injection Hr as <- _.
Defined.
