(* ===== verification/ConnMore.v ===== *)
(** * Reconnection, callbacks and removal: properties

    Continues [ConnCalls]: what the timer thread does to a connected service,
    the callback lists of all services, registering a supplier twice, and the
    destruction of a network. *)

From S2P Require Import Prelude Parcel Parcelables Host NetIds ConnState ConnNetwork ConnService.
From S2P Require Import ConnInv ConnOps ConnSpec ConnRegister ConnUpdate ConnCorrect ConnProps ConnCalls.
Import NetSpecifier NetConnServiceOps.

(** ** Disconnection and reconnection *)

Section Reconnect.
Context {E : Type} `{Platform E}.
Implicit Type w : world E.

(** A disconnection of a service in use ends at rest or in FAILURE, and leaves
    the flags of the network. *)
Lemma run_ServiceDisConnect self s m p w :
  netd_ok (h_netd (w_host w)) → w_services w !! self = Some s →
  w_networks w !! NetService.network_ s = Some m →
  w_suppliers w !! Network.supplier_ m = Some p →
  NetService.state_ s ≠ SERVICE_STATE_DISCONNECTING →
  NetService.state_ s ≠ SERVICE_STATE_DISCONNECTED →
  wp (NetServiceOps.ServiceDisConnect self) (λ ret w', ∃ ok : bool,
    ret = (if ok then ERR_SERVICE_DISCONNECTED_SUCCESS else ERR_SERVICE_DISCONNECTED_FAIL) ∧
    told self (NetServiceOps.with_state
        (if ok then SERVICE_STATE_IDLE else SERVICE_STATE_FAILURE) s)
      (state_events s SERVICE_STATE_DISCONNECTING ++
       deactivation_calls m p (NetService.netCapability_ s) ++
       if ok then state_events s SERVICE_STATE_DISCONNECTED ++ state_events s SERVICE_STATE_IDLE
       else state_events s SERVICE_STATE_FAILURE) w (set_suppliers (w_suppliers w) w')) w.
Proof.
  intros Hn Hs Hm Hp Hd1 Hd2. unfold NetServiceOps.ServiceDisConnect.
  eapply wp_bind, wp_get_service; [exact Hs|]. do 2 (case_decide; [done|]).
  apply wp_bind. eapply tell; [exact Hs|done|done|]. intros w1 [S1 L1 N1 M1 P1].
  apply wp_bind. unfold NetServiceOps.NetworkDisConnect.
  eapply wp_bind, wp_get_service; [exact S1|]. apply wp_bind.
  eapply (wp_net_NetworkDisconnect _ _ m p); [by rewrite M1|by rewrite P1|done|].
  intros ok w2 L2 N2 S2 M2 _. apply wp_ret. destruct ok; simpl; apply wp_bind.
  - eapply tell; [by rewrite S2|done|done|]. intros w3 [S3 L3 N3 M3 P3].
    apply wp_bind. eapply tell; [exact S3|done|done|]. intros w4 [S4 L4 N4 M4 P4].
    apply wp_ret. exists true. split; [done|]. split; simpl; try done.
    + rewrite L4, L3, L2, L1. by rewrite <- !app_assoc.
    + by rewrite M4, M3, M2.
  - eapply tell; [by rewrite S2|done|done|]. intros w3 [S3 L3 N3 M3 P3].
    apply wp_ret. exists false. split; [done|]. split; simpl; try done.
    + rewrite L3, L2, L1. by rewrite <- !app_assoc.
    + by rewrite M3, M2.
Qed.

(** An attempt on a service at rest whose network still has its flag. *)
Lemma stuck_ServiceConnect self s m w :
  w_services w !! self = Some s → w_networks w !! NetService.network_ s = Some m →
  connecting s m = true → NetServiceOps.ServiceConnect self w = Some (ERR_SERVICE_CONNECTING, w).
Proof.
  intros Hs Hm Hc. destruct (run_IsConnecting self s m w Hs Hm) as (b & w' & Hr & -> & ->).
  unfold NetServiceOps.ServiceConnect, mbind, st_bind. by rewrite Hr, Hc.
Qed.

End Reconnect.

(** The reconnection task. When the default service is connected (READY or
    CONNECTED) and its network has the flags of the connection, the task of
    the timer disconnects it and cannot connect it again: [ReConnectService]
    returns ERR_SERVICE_CONNECTING, the service is left at rest or in FAILURE,
    and so is every later attempt: [NetworkDisconnect] never resets the flags. *)
Theorem reconnect_tears_down {E} `{Platform E} d s m p (w : world E) :
  netd_ok (h_netd (w_host w)) → defaultNetService_ (w_conn w) = Some d →
  w_services w !! d = Some s → w_networks w !! NetService.network_ s = Some m →
  w_suppliers w !! Network.supplier_ m = Some p →
  connected s = true → Network.isConnecting_ m = true →
  ∃ w' x, ReConnectService w = Some (ERR_SERVICE_CONNECTING, w') ∧
    w_services w' !! d = Some (NetServiceOps.with_state x s) ∧
    (x = SERVICE_STATE_IDLE ∨ x = SERVICE_STATE_FAILURE) ∧
    NetServiceOps.ServiceConnect d w' = Some (ERR_SERVICE_CONNECTING, w').
Proof.
  intros Hn Hd Hs Hm Hp Hc Hf.
  destruct (run_IsConnected d s w Hs) as (b & w0 & Hb & -> & ->).
  destruct (run_ServiceDisConnect d s m p w Hn Hs Hm Hp) as (ret & w1 & Hr & ok & -> & Ht);
    [intros Hst; unfold connected in Hc; by rewrite Hst in Hc..|].
  destruct Ht as [S1 _ _ M1 _]. simpl in S1, M1.
  set (x := if ok then SERVICE_STATE_IDLE else SERVICE_STATE_FAILURE) in S1.
  assert (Hx : x = SERVICE_STATE_IDLE ∨ x = SERVICE_STATE_FAILURE) by (destruct ok; auto).
  assert (Hstuck : NetServiceOps.ServiceConnect d w1 = Some (ERR_SERVICE_CONNECTING, w1)).
  { eapply stuck_ServiceConnect; [exact S1|by rewrite M1|]. by destruct Hx as [-> | ->]. }
  exists w1, x. split; [|done].
  unfold ReConnectService, mbind, st_bind, gets. cbv beta iota. rewrite Hd. cbv beta iota.
  rewrite Hb, Hc. cbv beta iota. unfold mret, st_ret. rewrite Hr. cbv beta iota. exact Hstuck.
Qed.

Import SamplePlatform.

(** A second supplier is registered while the first one is connected. *)
Definition second_supplier : list request :=
  [cellular_request; ReqRegisterNetSupplier NET_TYPE_CELLULAR "sim2" 2].

Lemma reconnect_tears_down_witness :
  let w := after second_supplier in
  reConnectTimer_ (w_conn w) = 1%nat ∧ ∃ w' x s,
    ReConnectService w = Some (ERR_SERVICE_CONNECTING, w') ∧
    w_services w' !! 0%nat = Some (NetServiceOps.with_state x s) ∧
    (x = SERVICE_STATE_IDLE ∨ x = SERVICE_STATE_FAILURE) ∧
    NetServiceOps.ServiceConnect 0 w' = Some (ERR_SERVICE_CONNECTING, w').
Proof.
  split; [vm_compute; reflexivity|].
  edestruct (reconnect_tears_down 0
    (NetService.mk "sim1" 1 SERVICE_STATE_READY 1 0 [])
    (Network.mk NetLinkInfo.default INetAddr.default INetAddr.default
       Route.default false true true 0 0)
    (NetSupplier.mk (Some TelephonyController) 1 "sim1" 1003 0 0 false false false)
    (after second_supplier)) as (w' & x & H1 & H2).
  - intros c Hc. vm_compute in Hc. by injection Hc as <-.
  - vm_compute. reflexivity.
  - vm_compute. reflexivity.
  - vm_compute. reflexivity.
  - vm_compute. reflexivity.
  - reflexivity.
  - reflexivity.
  - exists w', x. eexists. split; [exact H1|exact H2].
Defined.

(** ** Callbacks *)

Section Callbacks.
Context {E : Type} `{Platform E}.
Implicit Type w : world E.

Definition callbacks_of w (s : nat) : list INetConnCallback :=
  match w_services w !! s with Some x => NetService.netConnCallback_ x | None => [] end.

(** Change the callback list of every service in [L]. *)
Definition map_callbacks (g : list INetConnCallback → list INetConnCallback) (L : list nat) w
    : world E :=
  set_services (map_imap (λ l x, Some (if decide (l ∈ L)
    then NetServiceOps.with_callbacks (g (NetService.netConnCallback_ x)) x else x)) (w_services w)) w.

Lemma map_callbacks_nil g w : map_callbacks g [] w = w.
Proof.
  unfold map_callbacks. assert (Hm : map_imap (λ l x, Some (if decide (l ∈ ([] : list nat))
    then NetServiceOps.with_callbacks (g (NetService.netConnCallback_ x)) x else x)) (w_services w)
    = w_services w).
  { apply map_eq. intros l. rewrite map_lookup_imap.
    destruct (w_services w !! l) as [x|]; [|done]. cbn -[decide].
    by rewrite decide_False by apply not_elem_of_nil. }
  rewrite Hm. by destruct w.
Qed.

Lemma map_callbacks_cons g s L x w :
  s ∉ L → w_services w !! s = Some x →
  map_callbacks g L (set_services (<[s := NetServiceOps.with_callbacks
    (g (NetService.netConnCallback_ x)) x]> (w_services w)) w) = map_callbacks g (s :: L) w.
Proof.
  intros Hs Hx. unfold map_callbacks. simpl.
  assert (Hm : ∀ m1 m2 : gmap nat NetService.t, m1 = m2 →
    set_services m1 (set_services (<[s := NetServiceOps.with_callbacks
      (g (NetService.netConnCallback_ x)) x]> (w_services w)) w) = set_services m2 w)
    by by intros ? ? ->.
  apply Hm, map_eq. intros l. rewrite !map_lookup_imap, lookup_insert.
  destruct (decide (s = l)) as [<-|Hl].
  - rewrite Hx. cbn -[decide]. rewrite decide_False by done. by rewrite decide_True by left.
  - destruct (w_services w !! l) as [y|]; [|done]. cbn -[decide].
    destruct (decide (l ∈ L)); [by rewrite decide_True by by right|].
    rewrite decide_False; [done|]. rewrite elem_of_cons. by intros [->|].
Qed.

(** The loops of the service over the whole list. *)
Lemma run_callback_loop (f : nat → st (world E) unit) g L w :
  NoDup L → (∀ s, s ∈ L → is_Some (w_services w !! s)) →
  (∀ s x w, w_services w !! s = Some x → f s w = Some (tt, set_services
     (<[s := NetServiceOps.with_callbacks (g (NetService.netConnCallback_ x)) x]> (w_services w)) w)) →
  for_each f L w = Some (tt, map_callbacks g L w).
Proof.
  intros Hnd HL Hf. revert w HL. induction L as [|s L IH]; intros w HL.
  { by rewrite map_callbacks_nil. }
  apply NoDup_cons in Hnd as [Hs Hnd]. destruct (HL s ltac:(left)) as [x Hx].
  simpl. unfold mbind, st_bind. rewrite (Hf s x w Hx), IH; [|done|].
  - by rewrite map_callbacks_cons.
  - intros k Hk. simpl. rewrite lookup_insert. case_decide; [eauto|]. apply HL. by right.
Qed.

Lemma run_register_all cb w :
  inv w → netServices_ (w_conn w) ≠ [] →
  RegisterNetConnCallback (Some cb) w = Some (ERR_NONE,
    map_callbacks (NetServiceOps.register_callback cb) (netServices_ (w_conn w)) w).
Proof.
  intros Hi Hne. unfold RegisterNetConnCallback, mbind at 1, st_bind at 1, gets.
  destruct (netServices_ (w_conn w)) as [|s L] eqn:EL; [done|]. rewrite <- EL.
  unfold mbind, st_bind. erewrite (run_callback_loop _ (NetServiceOps.register_callback cb)); [done| | |].
  - apply (inv_nodup_services _ _ Hi).
  - intros k. by eapply services_valid.
  - intros k x w1 Hx. unfold NetServiceOps.RegisterNetConnCallback, get_service, mbind, st_bind, gets.
    by rewrite Hx.
Qed.

Lemma run_unregister_all cb w :
  inv w → netServices_ (w_conn w) ≠ [] →
  UnregisterNetConnCallback (Some cb) w = Some (ERR_NONE,
    map_callbacks (λ l, (NetServiceOps.unregister_callback cb l).2) (netServices_ (w_conn w)) w).
Proof.
  intros Hi Hne. unfold UnregisterNetConnCallback, mbind at 1, st_bind at 1, gets.
  destruct (netServices_ (w_conn w)) as [|s L] eqn:EL; [done|]. rewrite <- EL.
  unfold mbind at 1, st_bind at 1.
  erewrite (run_callback_loop _ (λ l, (NetServiceOps.unregister_callback cb l).2)); [done| | |].
  - apply (inv_nodup_services _ _ Hi).
  - intros k. by eapply services_valid.
  - intros k x w1 Hx. unfold NetServiceOps.UnregisterNetConnCallback, get_service, mbind, st_bind, gets.
    rewrite Hx. simpl. by destruct (NetServiceOps.unregister_callback cb _).
Qed.

(** The list functions. *)
Lemma same_object_eq a b : NetServiceOps.same_object a b = true ↔ a = b.
Proof.
  unfold NetServiceOps.same_object. rewrite Nat.eqb_eq. destruct a, b. simpl.
  split; [by intros ->|by intros [=]].
Qed.

Lemma register_fresh cb l :
  cb ∉ l → NetServiceOps.register_callback cb l = l ++ [cb].
Proof.
  intros Hc. unfold NetServiceOps.register_callback.
  destruct (find_first _ l) as [x|] eqn:Ef; [|done].
  apply find_first_Some in Ef as [Hx ->%same_object_eq]. done.
Qed.

Lemma unregister_registered cb l :
  cb ∉ l → NetServiceOps.unregister_callback cb (l ++ [cb]) = (ERR_NONE, l).
Proof.
  intros Hc. unfold NetServiceOps.unregister_callback.
  destruct (find_first_exists (NetServiceOps.same_object cb) (l ++ [cb]) cb) as [x ->];
    [apply elem_of_app; right; left|by apply same_object_eq|].
  f_equal. induction l as [|y l IH]; simpl.
  - by rewrite (proj2 (same_object_eq cb cb) eq_refl).
  - apply not_elem_of_cons in Hc as [Hy Hc]. rewrite IH by done.
    destruct (NetServiceOps.same_object cb y) eqn:Ey; [|done].
    by apply same_object_eq in Ey.
Qed.

Lemma map_callbacks_of g L w s :
  s ∈ L → is_Some (w_services w !! s) → callbacks_of (map_callbacks g L w) s = g (callbacks_of w s).
Proof.
  intros Hs [x Hx]. unfold callbacks_of, map_callbacks. simpl. rewrite map_lookup_imap, Hx. cbn -[decide].
  by rewrite decide_True by done.
Qed.

(** Undoing a change of the lists. *)
Lemma map_callbacks_undo f g L w :
  (∀ s, s ∈ L → f (g (callbacks_of w s)) = callbacks_of w s) →
  map_callbacks f L (map_callbacks g L w) = w.
Proof.
  intros HL. unfold map_callbacks at 1. simpl.
  assert (Hm : ∀ m1, m1 = w_services w → set_services m1 (map_callbacks g L w) = w)
    by (intros m1 ->; by destruct w).
  apply Hm, map_eq. intros l. rewrite !map_lookup_imap.
  specialize (HL l). unfold callbacks_of in HL.
  destruct (w_services w !! l) as [x|] eqn:Ex; [|done]. simpl.
  destruct (decide (l ∈ L)) as [Hl|Hl]; [|done]. specialize (HL Hl). simpl. rewrite HL. by destruct x.
Qed.

End Callbacks.

(** Callback round trip: registering a callback that no listed service has
    succeeds and appends it to the list of every listed service, and
    unregistering it succeeds and restores the process state exactly. *)
Theorem callback_roundtrip {E} `{Platform E} (e : E) w cb :
  reachable e w → netServices_ (w_conn w) ≠ [] →
  (∀ s, s ∈ netServices_ (w_conn w) → cb ∉ callbacks_of w s) →
  ∃ w', RegisterNetConnCallback (Some cb) w = Some (ERR_NONE, w') ∧
    (∀ s, s ∈ netServices_ (w_conn w) → callbacks_of w' s = callbacks_of w s ++ [cb]) ∧
    UnregisterNetConnCallback (Some cb) w' = Some (ERR_NONE, w).
Proof.
  intros [Hi _]%reachable_ok Hne Hfresh. rewrite (run_register_all cb w Hi Hne).
  eexists. split; [done|].
  destruct (wp_run _ _ _ _ _ (keeps_callback w cb Hi) (run_register_all cb w Hi Hne)) as [Hk _].
  split.
  - intros s Hs. rewrite map_callbacks_of by (done || by eapply services_valid).
    by rewrite register_fresh by by apply Hfresh.
  - rewrite run_unregister_all; [|apply Hk|done]. do 2 f_equal. simpl.
    apply map_callbacks_undo. intros s Hs. pose proof (Hfresh s Hs).
    by rewrite register_fresh, unregister_registered by done.
Qed.

Lemma callback_roundtrip_witness :
  ∃ w', RegisterNetConnCallback (Some (mkCallback 7)) (after [cellular_request]) = Some (ERR_NONE, w') ∧
    (∀ s, s ∈ netServices_ (w_conn (after [cellular_request])) →
       callbacks_of w' s = callbacks_of (after [cellular_request]) s ++ [mkCallback 7]) ∧
    UnregisterNetConnCallback (Some (mkCallback 7)) w' = Some (ERR_NONE, after [cellular_request]).
Proof.
  apply (callback_roundtrip tt).
  - apply (after_reachable [] cellular_request); [constructor|done].
  - vm_compute. done.
  - intros s Hs. change (netServices_ _) with [0%nat; 1%nat] in Hs.
    rewrite list_elem_of_In in Hs. destruct Hs as [<-|[<-|[]]]; vm_compute; intros Hc;
      by apply not_elem_of_nil in Hc.
Defined.

(** ** Registration twice, and removal *)

Section Twice.
Context {E : Type} `{Platform E}.
Implicit Type w : world E.

Lemma register_found w type ident caps l p :
  valid_type type → find_first (key_test w type ident) (netSupplier_ (w_conn w)) = Some l →
  w_suppliers w !! l = Some p →
  RegisterNetSupplier type ident caps w = Some (to_i 32 (NetSupplier.supplierId_ p), w).
Proof.
  intros Ht Hf Hp. unfold RegisterNetSupplier, GetNetSupplierFromList, mbind at 1, st_bind at 1, gets.
  replace ((NET_TYPE_MAX <=? type) || (type <=? NET_TYPE_UNKNOWN)) with false
    by (unfold valid_type in Ht; lia).
  fold (key_test w type ident). rewrite Hf.
  unfold NetSupplierOps.GetSupplierId, get_supplier, mbind, st_bind, gets. by rewrite Hp.
Qed.

Lemma registered_found w type ident caps w' :
  inv w → find_first (key_test w type ident) (netSupplier_ (w_conn w)) = None →
  registered w type ident caps w' →
  find_first (key_test w' type ident) (netSupplier_ (w_conn w')) = Some (w_nsuppliers w).
Proof.
  intros Hi Hnone [Hi' He Hc Hs Hd (p & Hp & Et & Ei & Eid) Hh].
  assert (Hself : key_test w' type ident (w_nsuppliers w) = true)
    by (unfold key_test; by rewrite Hp, Et, Ei, Z.eqb_refl, String.eqb_refl).
  rewrite Hs. apply find_first_unique; [apply elem_of_app; right; left|done|].
  intros k [Hk|Hk%list_elem_of_singleton]%elem_of_app Htest; [|done]. exfalso.
  destruct (suppliers_valid w k Hi Hk) as (q & Hq & _).
  destruct (ag_suppliers _ _ (proj1 He) _ _ Hq) as (q' & Hq' & (_ & Et' & Ei' & _)).
  rewrite find_first_None in Hnone. specialize (Hnone k Hk). unfold key_test in Hnone, Htest.
  rewrite Hq in Hnone. rewrite Hq', <- Et', <- Ei' in Htest. congruence.
Qed.

Lemma unregistered_network w l w' n :
  inv w → unregistered w l w' → w_networks w !! l = Some n →
  if match defaultNetService_ (w_conn w) with Some d => on_network w l d | None => false end
  then w_networks w' = w_networks w ∧ w_host w' = w_host w
  else w_networks w' = delete l (w_networks w) ∧ h_log (w_host w') = h_log (w_host w) ++
         [EvNetd (NdDestoryNetworkCache (to_u 16 (Network.netId_ n)))].
Proof.
  intros Hi [Hi' He Hc Hsup Hsvc Hd (w1 & Hh1 & Hn1 & Hs1 & Hc1 & Hr)] Hn.
  assert (Href : network_referenced w1 l =
    match defaultNetService_ (w_conn w) with Some d => on_network w l d | None => false end).
  { assert (Hnets : l ∉ networks_ (w_conn w1)).
    { rewrite Hc1, <- (inv_lists _ _ Hi'), Hsup. intros [? _]%list_elem_of_filter. done. }
    unfold network_referenced. rewrite bool_decide_eq_false_2 by done. simpl.
    unfold live_services. rewrite existsb_app, Hc1, Hsvc, Hd, Hs1. fold (on_network w l).
    replace (existsb _ (filter _ _)) with false; [|symmetry; apply not_true_iff_false].
    - destruct (defaultNetService_ (w_conn w)); simpl; [|done]. by rewrite orb_false_r.
    - rewrite existsb_exists. intros (x & [Hx _]%list_elem_of_In%list_elem_of_filter & Hon).
      unfold on_network in Hx, Hon. by rewrite Hx in Hon. }
  destruct Hr as [(-> & [Hr|Hr])|(Hr & m & Hm & Hnets & Hlog)].
  - rewrite <- Href, Hr. by rewrite Hn1, Hh1.
  - rewrite Hn1 in Hr. congruence.
  - rewrite <- Href, Hr. rewrite Hn1 in *. rewrite Hh1 in Hlog.
    assert (m = n) as -> by congruence. done.
Qed.

End Twice.

(** Registration is idempotent: when a registration of a valid type has
    returned a code, the same type and identifier return the same code again,
    whatever the capabilities, and leave the whole process as it is: no event,
    no object, no timer. *)
Theorem register_idempotent {E} `{Platform E} (e : E) w type ident caps caps' ret w' :
  reachable e w → valid_type type → RegisterNetSupplier type ident caps w = Some (ret, w') →
  RegisterNetSupplier type ident caps' w' = Some (ret, w').
Proof.
  intros [Hi _]%reachable_ok Ht Hr.
  destruct (find_first (key_test w type ident) (netSupplier_ (w_conn w))) as [l|] eqn:Ef.
  - pose proof (find_first_Some _ _ _ Ef) as [Hl _].
    destruct (suppliers_valid w l Hi Hl) as (p & Hp & _).
    rewrite (register_found w type ident caps l p) in Hr by done. injection Hr as <- <-.
    by apply (register_found w type ident caps' l p).
  - destruct (wp_run _ (λ ret w', ret = to_i 32 (to_u 32 (1003 + Z.of_nat (w_nsuppliers w))) ∧
      registered w type ident caps w') _ _ _
      (wp_register_new w type ident caps _ Hi Ht Ef (λ w' Hw, conj eq_refl Hw)) Hr) as [-> Hreg].
    destruct (rg_supplier _ _ _ _ _ Hreg) as (p & Hp & _ & _ & <-).
    apply (register_found w' type ident caps' (w_nsuppliers w) p); [done| |done].
    by eapply registered_found.
Qed.

Lemma register_idempotent_witness :
  ∃ w', RegisterNetSupplier NET_TYPE_CELLULAR "sim1" 3 (world_init tt) = Some (1003, w') ∧
    RegisterNetSupplier NET_TYPE_CELLULAR "sim1" 0 w' = Some (1003, w').
Proof.
  exists (after [cellular_request]). split; [vm_compute; reflexivity|].
  apply (register_idempotent tt (world_init tt) NET_TYPE_CELLULAR "sim1" 3 0).
  - constructor.
  - unfold valid_type, NET_TYPE_UNKNOWN, NET_TYPE_CELLULAR, NET_TYPE_MAX. lia.
  - vm_compute. reflexivity.
Defined.

(** C8. Removal: unregistering a registered id succeeds, takes the supplier,
    its network and exactly the services on that network out of the lists, and
    destroys the network (with one call that drops its resolver cache) unless
    the default service is one of its services: then the default keeps
    pointing to the removed service and its network stays alive. *)
Theorem unregister_removes {E} `{Platform E} (e : E) w id l n :
  reachable e w → find_first (has_supplierId w id) (netSupplier_ (w_conn w)) = Some l →
  w_networks w !! l = Some n →
  ∃ w', UnregisterNetSupplier id w = Some (ERR_NONE, w') ∧
    netSupplier_ (w_conn w') = filter (λ k, k ≠ l) (netSupplier_ (w_conn w)) ∧
    networks_ (w_conn w') = filter (λ k, k ≠ l) (networks_ (w_conn w)) ∧
    netServices_ (w_conn w') = filter (λ s, on_network w l s = false) (netServices_ (w_conn w)) ∧
    defaultNetService_ (w_conn w') = defaultNetService_ (w_conn w) ∧
    if match defaultNetService_ (w_conn w) with Some d => on_network w l d | None => false end
    then w_networks w' = w_networks w ∧ w_host w' = w_host w
    else w_networks w' = delete l (w_networks w) ∧ h_log (w_host w') = h_log (w_host w) ++
           [EvNetd (NdDestoryNetworkCache (to_u 16 (Network.netId_ n)))].
Proof.
  intros [Hi _]%reachable_ok Hf Hn.
  destruct (wp_unregister w id l (λ ret w', ret = ERR_NONE ∧ unregistered w l w') Hi Hf
    (λ w' Hw, conj eq_refl Hw)) as (ret & w' & Hr & -> & Hu).
  exists w'. split; [done|]. pose proof Hu as [Hi' _ _ Hs Hsv Hd _].
  split; [done|]. split; [by rewrite <- (inv_lists _ _ Hi'), Hs, (inv_lists _ _ Hi)|].
  split; [done|]. split; [done|]. by eapply unregistered_network.
Qed.

Lemma unregister_removes_witness :
  let w := after [cellular_request] in
  ∃ w', UnregisterNetSupplier 1003 w = Some (ERR_NONE, w') ∧ netServices_ (w_conn w') = [] ∧
    defaultNetService_ (w_conn w') = Some 0%nat ∧ is_Some (w_networks w' !! 0%nat).
Proof.
  edestruct (unregister_removes tt (after [cellular_request]) 1003 0%nat)
    as (w' & H1 & _ & _ & H4 & H5 & H6).
  - apply (after_reachable [] cellular_request); [constructor|done].
  - vm_compute. reflexivity.
  - vm_compute. reflexivity.
  - exists w'. split; [exact H1|]. split; [rewrite H4; vm_compute; reflexivity|].
    split; [rewrite H5; vm_compute; reflexivity|].
    vm_compute in H1. injection H1 as <-. vm_compute. by eexists.
Defined.
