(* ===== verification/ConnLink.v ===== *)
(** * Link information and the calls of netd

    [Network::UpdateNetLinkInfo] sends differences only: here are the calls of
    netd that an update of the link information makes, in their order. What netd
    does with them is not part of this program, and the program does not look at
    its answers. *)

From S2P Require Import Prelude Parcel Parcelables Host NetIds ConnState ConnNetwork ConnService.
From S2P Require Import ConnInv ConnOps ConnSpec ConnRegister ConnUpdate ConnCorrect ConnProps.
Import NetSpecifier NetConnServiceOps.

(** ** The differences *)

Lemma route_in_spec r l : NetworkOps.route_in r l = true ↔ r ∈ l.
Proof.
  unfold NetworkOps.route_in. destruct (find_first _ l) as [x|] eqn:Ef.
  - apply find_first_Some in Ef as [Hx ->%Route_eqb_eq]. done.
  - rewrite find_first_None in Ef. split; [done|]. intros Hr. specialize (Ef _ Hr).
    by rewrite (proj2 (Route_eqb_eq r r) eq_refl) in Ef.
Qed.

(** The routes of [l] that are not among [others]. *)
Definition routes_beyond (others l : list Route.t) : list Route.t := filter (λ r, r ∉ others) l.

Lemma concat_unless {A} (f : Route.t → A) others l :
  concat ((λ r, if NetworkOps.route_in r others then [] else [f r]) <$> l) = f <$> routes_beyond others l.
Proof.
  unfold routes_beyond. induction l as [|r l IH]; [done|]. rewrite fmap_cons. cbn [concat]. rewrite IH, filter_cons.
  pose proof (route_in_spec r others) as Hr. destruct (NetworkOps.route_in r others); case_decide as Hd; try done; naive_solver.
Qed.

Lemma route_events_beyond netId old new :
  route_events netId old new =
  (add_route netId <$> routes_beyond old new) ++ (remove_route netId <$> routes_beyond new old).
Proof. unfold route_events. by rewrite !concat_unless. Qed.

(** The calls of an update from [old] to [new]: the new interface, unless its
    name is empty, before the old one goes; the routes that are new, and those
    that are gone; the servers; and the MTU. *)
Definition link_calls (netId : Z) (old new : NetLinkInfo.t) : list event :=
  let name := NetLinkInfo.ifaceName_ in let routes := NetLinkInfo.routeList_ in
  (if decide (name new = name old) then []
   else (if decide (name new = ""%string) then [] else [EvNetd (NdNetworkAddInterface netId (name new))]) ++
        (if decide (name old = ""%string) then [] else [EvNetd (NdNetworkRemoveInterface netId (name old))])) ++
  (add_route netId <$> routes_beyond (routes old) (routes new)) ++
  (remove_route netId <$> routes_beyond (routes new) (routes old)) ++
  [EvNetd (NdSetResolverConfig (to_u 16 netId) 0 1 (INetAddr.address_ <$> NetLinkInfo.dnsList_ new)
     (INetAddr.hostName_ <$> NetLinkInfo.dnsList_ new))] ++
  (if decide (NetLinkInfo.mtu_ new = NetLinkInfo.mtu_ old) then []
   else [EvNetd (NdInterfaceSetMtu (name new) (NetLinkInfo.mtu_ new))]).

Lemma link_events_calls netId old new : link_events netId old new = link_calls netId old new.
Proof.
  unfold link_events, link_calls. rewrite route_events_beyond, <- app_assoc. unfold iface_events, mtu_events, dns_events. cbv zeta.
  f_equal.
  - destruct (String.eqb_spec (NetLinkInfo.ifaceName_ new) (NetLinkInfo.ifaceName_ old)); case_decide; try done.
    f_equal; [destruct (String.eqb_spec (NetLinkInfo.ifaceName_ new) "")|destruct (String.eqb_spec (NetLinkInfo.ifaceName_ old) "")];
      case_decide; done.
  - do 3 f_equal. destruct (Z.eqb_spec (NetLinkInfo.mtu_ new) (NetLinkInfo.mtu_ old)); case_decide; done.
Qed.

Section Link.
Context {E : Type} `{Platform E}.
Implicit Type w : world E.

Lemma run_UpdateNetLinkInfo w id i l n :
  inv w → find_first (has_supplierId w id) (netSupplier_ (w_conn w)) = Some l →
  w_networks w !! l = Some n →
  wp (UpdateNetLinkInfo id (Some i)) (λ ret w', ret = ERR_NONE ∧
    h_log (w_host w') = h_log (w_host w) ++ link_calls (Network.netId_ n) (Network.netLinkInfo_ n) i ∧
    w_networks w' = <[l := NetworkOps.with_linkinfo i n]> (w_networks w) ∧
    w_suppliers w' = w_suppliers w ∧ w_services w' = w_services w ∧ w_conn w' = w_conn w) w.
Proof.
  intros Hi Hf Hn. eapply wp_with_network; [done|exact Hf|]. apply wp_bind.
  eapply wp_UpdateNetLinkInfo; [exact Hn|apply Hi|]. intros h L N. apply wp_ret. simpl. by rewrite <- link_events_calls.
Qed.

End Link.

(** C6. A link update, of a service that has served its requests one at a time,
    on every branch. Without information it is refused, and so it is for an id
    that no supplier has; then nothing changes. For a registered supplier it is
    accepted, whatever netd answers: the calls of netd are, in order, the new
    interface and the removal of the old one, where the name changed and is not
    empty; the routes that the network did not have; the removal of those that
    it has no more; the servers; and the MTU where it changed. The information
    is stored in the network of the supplier, and no other object changes. *)
Theorem link_update_calls {E} `{Platform E} (e : E) w id info :
  reachable e w →
  match info, find_first (has_supplierId w id) (netSupplier_ (w_conn w)) with
  | None, _ => UpdateNetLinkInfo id info w = Some (ERR_INVALID_PARAMS, w)
  | Some i, None => UpdateNetLinkInfo id info w = Some (ERR_NO_SUPPLIER, w)
  | Some i, Some l => ∃ n w', w_networks w !! l = Some n ∧ UpdateNetLinkInfo id info w = Some (ERR_NONE, w') ∧
    h_log (w_host w') = h_log (w_host w) ++ link_calls (Network.netId_ n) (Network.netLinkInfo_ n) i ∧
    w_networks w' = <[l := NetworkOps.with_linkinfo i n]> (w_networks w) ∧
    w_suppliers w' = w_suppliers w ∧ w_services w' = w_services w ∧ w_conn w' = w_conn w
  end.
Proof.
  intros [Hi _]%reachable_ok. destruct info as [i|]; [|done].
  destruct (find_first (has_supplierId w id) (netSupplier_ (w_conn w))) as [l|] eqn:Hf.
  - destruct (found_supplier w id l Hi Hf) as (_ & s & n & _ & Hn & _). exists n.
    destruct (run_UpdateNetLinkInfo w id i l n Hi Hf Hn) as (ret & w' & Hr & -> & Hpost). by exists w'.
  - destruct (wp_with_network_none w id (λ _ network, NetworkOps.UpdateNetLinkInfo network i ;; mret ERR_NONE)
      (λ z w', z = ERR_NO_SUPPLIER ∧ w' = w) Hf) as (z & w' & Hr & -> & ->); [done|exact Hr].
Qed.

Import SamplePlatform.

(** Addresses, routes and link information to run on. *)
Definition addr (a : string) : INetAddr.t := INetAddr.mk 0 0 0 a "" "".
Definition route (iface dest gw : string) : Route.t := Route.mk iface (addr dest) (addr gw).
Definition link (iface : string) (rs : list Route.t) : NetLinkInfo.t :=
  NetLinkInfo.mk iface "" [addr "10.0.0.2"] [addr "8.8.8.8"] rs 1500.

Definition link1 : NetLinkInfo.t :=
  link "rmnet0" [route "rmnet0" "0.0.0.0" "10.0.0.1"; route "rmnet0" "10.0.0.0" ""].
Definition link2 : NetLinkInfo.t :=
  link "rmnet1" [route "rmnet0" "10.0.0.0" ""; route "rmnet1" "0.0.0.0" "10.1.0.1"].

Definition with_link1 : list request := [cellular_request; ReqUpdateNetLinkInfo 1003 (Some link1)].

Lemma with_link1_reachable : reachable tt (after with_link1).
Proof.
  apply (after_reachable [cellular_request]); [|done].
  apply (after_reachable [] cellular_request); [constructor|done].
Qed.

Lemma link_update_calls_witness :
  ∃ w', UpdateNetLinkInfo 1003 (Some link2) (after with_link1) = Some (ERR_NONE, w') ∧
    h_log (w_host w') = h_log (w_host (after with_link1)) ++
      [ EvNetd (NdNetworkAddInterface 0 "rmnet1"); EvNetd (NdNetworkRemoveInterface 0 "rmnet0");
        EvNetd (NdNetworkAddRoute 0 "rmnet1" "0.0.0.0" "10.1.0.1");
        EvNetd (NdNetworkRemoveRoute 0 "rmnet0" "0.0.0.0" "10.0.0.1");
        EvNetd (NdSetResolverConfig 0 0 1 ["8.8.8.8"%string] [""%string]) ].
Proof.
  pose proof (link_update_calls tt (after with_link1) 1003 (Some link2) with_link1_reachable) as Hc.
  replace (find_first (has_supplierId (after with_link1) 1003) (netSupplier_ (w_conn (after with_link1)))) with (Some 0%nat) in Hc
    by (vm_compute; reflexivity).
  destruct Hc as (n & w' & Hn & H1 & H2 & _). exists w'. split; [exact H1|]. rewrite H2.
  assert (Hn' : (w_networks (after with_link1) !! 0%nat) =
    Some (Network.mk link1 INetAddr.default INetAddr.default Route.default false true true 0 0)) by (vm_compute; reflexivity).
  rewrite Hn' in Hn. injection Hn as <-. vm_compute. reflexivity.
Defined.

(** An update can lose a route: of two routes that differ in nothing that a call
    says (here, the netmask of the destination) the new one is added before the
    old one is removed, and the removal is of the route that was just added. *)
Lemma link_update_loses_route {E} `{Platform E} (e : E) w id l n r r' i :
  reachable e w → find_first (has_supplierId w id) (netSupplier_ (w_conn w)) = Some l →
  w_networks w !! l = Some n → NetLinkInfo.routeList_ (Network.netLinkInfo_ n) = [r] → NetLinkInfo.routeList_ i = [r'] →
  r ≠ r' → (Route.iface_ r, INetAddr.address_ (Route.destination_ r), INetAddr.address_ (Route.gateway_ r)) =
    (Route.iface_ r', INetAddr.address_ (Route.destination_ r'), INetAddr.address_ (Route.gateway_ r')) →
  ∃ w' before after iface destination gateway, UpdateNetLinkInfo id (Some i) w = Some (ERR_NONE, w') ∧
    h_log (w_host w') = h_log (w_host w) ++ before ++
      [EvNetd (NdNetworkAddRoute (Network.netId_ n) iface destination gateway);
       EvNetd (NdNetworkRemoveRoute (Network.netId_ n) iface destination gateway)] ++ after ∧
    Forall (λ ev, ∀ a b c, ev ≠ EvNetd (NdNetworkAddRoute (Network.netId_ n) a b c)) after.
Proof.
  intros [Hi _]%reachable_ok Hf Hn Hold Hnew Hne [= Ei Ed Eg].
  destruct (run_UpdateNetLinkInfo w id i l n Hi Hf Hn) as (ret & w' & Hr & -> & Hl & _).
  exists w'. do 2 eexists. exists (Route.iface_ r'), (INetAddr.address_ (Route.destination_ r')), (INetAddr.address_ (Route.gateway_ r')).
  split; [done|]. rewrite Hl. unfold link_calls. cbv zeta. rewrite Hold, Hnew.
  assert (Hb : ∀ x y : Route.t, x ≠ y → routes_beyond [x] [y] = [y]).
  { intros x y Hxy. unfold routes_beyond. rewrite filter_cons_True; [done|]. by intros ->%list_elem_of_singleton. }
  rewrite !Hb by congruence. cbn [fmap list_fmap app]. unfold add_route at 1, remove_route at 1. rewrite Ei, Ed, Eg.
  split; [reflexivity|]. constructor; [done|]. case_decide; by repeat constructor.
Qed.

Definition route_a : Route.t := Route.mk "rmnet0" (INetAddr.mk 0 0 0 "10.0.0.0" "255.0.0.0" "") (addr "").
Definition route_b : Route.t := Route.mk "rmnet0" (INetAddr.mk 0 0 0 "10.0.0.0" "255.255.0.0" "") (addr "").

Lemma link_update_loses_route_witness :
  let w := after [cellular_request; ReqUpdateNetLinkInfo 1003 (Some (link "rmnet0" [route_a]))] in
  ∃ w' before after iface destination gateway, UpdateNetLinkInfo 1003 (Some (link "rmnet0" [route_b])) w = Some (ERR_NONE, w') ∧
    h_log (w_host w') = h_log (w_host w) ++ before ++
      [EvNetd (NdNetworkAddRoute 0 iface destination gateway); EvNetd (NdNetworkRemoveRoute 0 iface destination gateway)] ++ after ∧
    Forall (λ ev, ∀ a b c, ev ≠ EvNetd (NdNetworkAddRoute 0 a b c)) after.
Proof.
  apply (link_update_loses_route tt _ 1003 0%nat
    (Network.mk (link "rmnet0" [route_a]) INetAddr.default INetAddr.default Route.default
       false true true 0 0) route_a route_b).
  - apply (after_reachable [cellular_request]); [|done].
    apply (after_reachable [] cellular_request); [constructor|done].
  - vm_compute. reflexivity.
  - vm_compute. reflexivity.
  - reflexivity.
  - reflexivity.
  - discriminate.
  - reflexivity.
Defined.
