(* ===== verification/ConnIpc.v ===== *)
(** * The IPC layer of the connection manager

    [net_conn_service_stub.cpp] and [net_conn_service_proxy.cpp]. The stub is
    the dispatch and the ten handlers over the service of [ConnService]; the
    proxy is the client side of every method. A client that calls through the
    proxy gets what a call of the service gives, with the codes converted. *)

From S2P Require Import Prelude Parcel Parcelables Ipc Sends Host NetIds ConnState.
From S2P Require Import ConnNetwork ConnService ConnInv ConnOps ConnSpec ConnRegister ConnUpdate ConnCorrect.
From S2P Require Import ConnProps.
Import NetConnServiceOps.

(** [enum] of [i_net_conn_service.h] *)
Definition CMD_NM_SYSTEM_READY : Z := 2.
Definition CMD_NM_REGISTER_NET_CONN_CALLBACK : Z := 3.
Definition CMD_NM_REGISTER_NET_CONN_CALLBACK_BY_SPECIFIER : Z := 4.
Definition CMD_NM_UNREGISTER_NET_CONN_CALLBACK : Z := 5.
Definition CMD_NM_UNREGISTER_NET_CONN_CALLBACK_BY_SPECIFIER : Z := 6.
Definition CMD_NM_REG_NET_SUPPLIER : Z := 7.
Definition CMD_NM_UNREG_NETWORK : Z := 8.
Definition CMD_NM_SET_NET_SUPPLIER_INFO : Z := 9.
Definition CMD_NM_SET_NET_CAPABILTITES : Z := 10.
Definition CMD_NM_SET_NET_LINK_INFO : Z := 11.

(** [enum NetConnResultCode] of [net_conn_constants.h] *)
Definition NET_CONN_SUCCESS : Z := 0.
Definition NET_CONN_ERR_GET_REMOTE_OBJECT_FAILED : Z := -1.
Definition NET_CONN_ERR_INPUT_NULL_PTR : Z := -2.
Definition NET_CONN_ERR_INVALID_SUPPLIER_ID : Z := -3.
Definition NET_CONN_ERR_INVALID_PARAMETER : Z := -4.
Definition NET_CONN_ERR_NET_TYPE_NOT_FOUND : Z := -5.
Definition NET_CONN_ERR_NO_ANY_NET_TYPE : Z := -6.
Definition NET_CONN_ERR_NO_REGISTERED : Z := -7.
Definition NET_CONN_ERR_INTERNAL_ERROR : Z := -1000.

(** [iface_cast<INetConnCallback>(remote)] *)
Class CallbackCast := { iface_cast : nat → option INetConnCallback }.

Definition descriptor : string := "OHOS.NetManagerStandard.INetConnService".

Module NetConnServiceStub.
Section Code.
Context {E : Type} `{Platform E} {P : Type} `{ParcelOps P} `{IpcPlatform P} `{CallbackCast}.

Definition ConvertCode (internalCode : Z) : Z :=
  if internalCode =? ERR_NONE then NET_CONN_SUCCESS
  else if internalCode =? ERR_SERVICE_NULL_PTR then NET_CONN_ERR_INPUT_NULL_PTR
  else if internalCode =? ERR_NET_TYPE_NOT_FOUND then NET_CONN_ERR_NET_TYPE_NOT_FOUND
  else if internalCode =? ERR_NO_ANY_NET_TYPE then NET_CONN_ERR_NO_ANY_NET_TYPE
  else if internalCode =? ERR_NO_REGISTERED then NET_CONN_ERR_NO_REGISTERED
  else NET_CONN_ERR_INTERNAL_ERROR.

Definition OnSystemReady : handler P (world E) :=
  calling SystemReady (λ _, finish 0).

Definition OnRegisterNetSupplier : handler P (world E) :=
  reading ReadUint32 ERR_FLATTEN_OBJECT (λ netType,
  reading ReadString ERR_FLATTEN_OBJECT (λ ident,
  reading ReadUint64 ERR_FLATTEN_OBJECT (λ netCapabilities,
  calling (RegisterNetSupplier netType ident netCapabilities) (λ ret,
  let ret := if (ret =? ERR_NO_NETWORK) || (ret =? ERR_NO_SUPPLIER)
             then NET_CONN_ERR_INVALID_SUPPLIER_ID else ret in
  answer ret ERR_FLATTEN_OBJECT)))).

Definition OnUnregisterNetSupplier : handler P (world E) :=
  reading ReadUint32 ERR_FLATTEN_OBJECT (λ supplierId,
  calling (UnregisterNetSupplier supplierId) (λ ret, answer ret ERR_FLATTEN_OBJECT)).

(** The common tail of the four callback handlers: [fail] is the result when
    no remote object can be read. *)
Definition with_callback (fail : Z) (m : option INetConnCallback → st (world E) Z)
    : handler P (world E) :=
  reading_any ReadRemoteObject (λ remote,
  match remote with
  | None => answer_code fail
  | Some object =>
    match iface_cast object with
    | None => answer_code NET_CONN_ERR_INPUT_NULL_PTR
    | Some callback => calling (m (Some callback)) (λ ret, answer_code (ConvertCode ret))
    end
  end).

Definition OnRegisterNetConnCallback : handler P (world E) :=
  with_callback NET_CONN_ERR_GET_REMOTE_OBJECT_FAILED RegisterNetConnCallback.

Definition OnRegisterNetConnCallbackBySpecifier : handler P (world E) :=
  reading_any NetSpecifier.Unmarshalling (λ netSpecifier,
  with_callback ERR_FLATTEN_OBJECT (RegisterNetConnCallbackBySpecifier netSpecifier)).

Definition OnUnregisterNetConnCallback : handler P (world E) :=
  with_callback ERR_FLATTEN_OBJECT UnregisterNetConnCallback.

Definition OnUnregisterNetConnCallbackBySpecifier : handler P (world E) :=
  reading_any NetSpecifier.Unmarshalling (λ netSpecifier,
  with_callback ERR_FLATTEN_OBJECT (UnregisterNetConnCallbackBySpecifier netSpecifier)).

Definition OnUpdateNetSupplierInfo : handler P (world E) :=
  reading ReadUint32 ERR_FLATTEN_OBJECT (λ supplierId,
  reading_any NetSupplierInfo.Unmarshalling (λ netSupplierInfo,
  calling (UpdateNetSupplierInfo supplierId netSupplierInfo) (λ ret,
  answer ret ERR_FLATTEN_OBJECT))).

Definition OnUpdateNetCapabilities : handler P (world E) :=
  reading ReadUint32 ERR_FLATTEN_OBJECT (λ supplierId,
  reading ReadUint64 ERR_FLATTEN_OBJECT (λ netCapabilities,
  calling (UpdateNetCapabilities supplierId netCapabilities) (λ ret,
  answer ret ERR_FLATTEN_OBJECT))).

Definition OnUpdateNetLinkInfo : handler P (world E) :=
  reading ReadUint32 ERR_FLATTEN_OBJECT (λ supplierId,
  reading_any NetLinkInfo.Unmarshalling (λ netLinkInfo,
  calling (UpdateNetLinkInfo supplierId netLinkInfo) (λ ret,
  answer ret ERR_FLATTEN_OBJECT))).

Definition memberFuncMap_ (code : Z) : option (handler P (world E)) :=
  if code =? CMD_NM_SYSTEM_READY then Some OnSystemReady
  else if code =? CMD_NM_REGISTER_NET_CONN_CALLBACK then Some OnRegisterNetConnCallback
  else if code =? CMD_NM_REGISTER_NET_CONN_CALLBACK_BY_SPECIFIER then
    Some OnRegisterNetConnCallbackBySpecifier
  else if code =? CMD_NM_UNREGISTER_NET_CONN_CALLBACK then Some OnUnregisterNetConnCallback
  else if code =? CMD_NM_UNREGISTER_NET_CONN_CALLBACK_BY_SPECIFIER then
    Some OnUnregisterNetConnCallbackBySpecifier
  else if code =? CMD_NM_REG_NET_SUPPLIER then Some OnRegisterNetSupplier
  else if code =? CMD_NM_UNREG_NETWORK then Some OnUnregisterNetSupplier
  else if code =? CMD_NM_SET_NET_SUPPLIER_INFO then Some OnUpdateNetSupplierInfo
  else if code =? CMD_NM_SET_NET_CAPABILTITES then Some OnUpdateNetCapabilities
  else if code =? CMD_NM_SET_NET_LINK_INFO then Some OnUpdateNetLinkInfo
  else None.

Definition OnRemoteRequest (code : Z) : handler P (world E) :=
  on_remote_request descriptor memberFuncMap_ code.

End Code.
End NetConnServiceStub.

Module NetConnServiceProxy.
Section Code.
Context {S : Type} {P : Type} `{ParcelOps P} `{IpcPlatform P}.
Implicit Type r : remote P S.

Definition WriteInterfaceToken : pm P unit := Ipc.WriteInterfaceToken descriptor.

Definition SystemReady r : st S Z :=
  writing WriteInterfaceToken ERR_FLATTEN_OBJECT
    (sending r ERR_NULL_OBJECT CMD_NM_SYSTEM_READY (λ error _, mret error)) parcel_new.

Definition RegisterNetSupplier r (netType : Z) (ident : string) (netCapabilities : Z) : st S Z :=
  writing WriteInterfaceToken NET_CONN_ERR_INVALID_SUPPLIER_ID
  (writing (WriteUint32 netType) NET_CONN_ERR_INVALID_SUPPLIER_ID
  (writing (WriteString ident) NET_CONN_ERR_INVALID_SUPPLIER_ID
  (writing (WriteUint64 netCapabilities) NET_CONN_ERR_INVALID_SUPPLIER_ID
  (sending r NET_CONN_ERR_INVALID_SUPPLIER_ID CMD_NM_REG_NET_SUPPLIER (λ error reply,
     if negb (error =? 0) then mret NET_CONN_ERR_INVALID_SUPPLIER_ID
     else mret (read_int32 reply)))))) parcel_new.

Definition UnregisterNetSupplier r (supplierId : Z) : st S Z :=
  writing WriteInterfaceToken ERR_FLATTEN_OBJECT
  (writing (WriteUint32 supplierId) ERR_FLATTEN_OBJECT
  (sending r ERR_NULL_OBJECT CMD_NM_UNREG_NETWORK error_or_reply)) parcel_new.

Definition RegisterNetConnCallback r (callback : option INetConnCallback) : st S Z :=
  match callback with
  | None => mret NET_CONN_ERR_INPUT_NULL_PTR
  | Some callback =>
    writing WriteInterfaceToken NET_CONN_ERR_INVALID_PARAMETER
    (writing_any (WriteRemoteObject (cb_object callback))
    (sending r NET_CONN_ERR_GET_REMOTE_OBJECT_FAILED CMD_NM_REGISTER_NET_CONN_CALLBACK
       error_or_reply)) parcel_new
  end.

Definition RegisterNetConnCallbackBySpecifier r (netSpecifier : option NetSpecifier.t)
    (callback : option INetConnCallback) : st S Z :=
  match netSpecifier, callback with
  | Some netSpecifier, Some callback =>
    writing WriteInterfaceToken NET_CONN_ERR_INVALID_PARAMETER
    (writing_any (NetSpecifier.Marshalling netSpecifier)
    (writing_any (WriteRemoteObject (cb_object callback))
    (sending r NET_CONN_ERR_GET_REMOTE_OBJECT_FAILED
       CMD_NM_REGISTER_NET_CONN_CALLBACK_BY_SPECIFIER error_or_reply))) parcel_new
  | _, _ => mret NET_CONN_ERR_INPUT_NULL_PTR
  end.

Definition UnregisterNetConnCallback r (callback : option INetConnCallback) : st S Z :=
  match callback with
  | None => mret NET_CONN_ERR_INPUT_NULL_PTR
  | Some callback =>
    writing WriteInterfaceToken NET_CONN_ERR_INVALID_PARAMETER
    (writing_any (WriteRemoteObject (cb_object callback))
    (sending r NET_CONN_ERR_GET_REMOTE_OBJECT_FAILED CMD_NM_UNREGISTER_NET_CONN_CALLBACK
       error_or_reply)) parcel_new
  end.

Definition UnregisterNetConnCallbackBySpecifier r (netSpecifier : option NetSpecifier.t)
    (callback : option INetConnCallback) : st S Z :=
  match netSpecifier, callback with
  | Some netSpecifier, Some callback =>
    writing WriteInterfaceToken NET_CONN_ERR_INVALID_PARAMETER
    (writing_any (NetSpecifier.Marshalling netSpecifier)
    (writing_any (WriteRemoteObject (cb_object callback))
    (sending r NET_CONN_ERR_GET_REMOTE_OBJECT_FAILED
       CMD_NM_UNREGISTER_NET_CONN_CALLBACK_BY_SPECIFIER error_or_reply))) parcel_new
  | _, _ => mret NET_CONN_ERR_INPUT_NULL_PTR
  end.

(** A null [sptr] argument of the next three is dereferenced. *)
Definition UpdateNetSupplierInfo r (supplierId : Z) (netSupplierInfo : option NetSupplierInfo.t)
    : st S Z :=
  writing WriteInterfaceToken ERR_FLATTEN_OBJECT
  (writing (WriteUint32 supplierId) ERR_FLATTEN_OBJECT (λ data,
  match netSupplierInfo with
  | None => ub
  | Some info =>
    writing (NetSupplierInfo.Marshalling info) ERR_FLATTEN_OBJECT
    (sending r ERR_NULL_OBJECT CMD_NM_SET_NET_SUPPLIER_INFO error_or_reply) data
  end)) parcel_new.

Definition UpdateNetCapabilities r (supplierId netCapabilities : Z) : st S Z :=
  writing WriteInterfaceToken IPC_PROXY_ERR
  (writing (WriteUint32 supplierId) ERR_FLATTEN_OBJECT
  (writing (WriteUint64 netCapabilities) ERR_FLATTEN_OBJECT
  (sending r ERR_NULL_OBJECT CMD_NM_SET_NET_CAPABILTITES error_or_reply))) parcel_new.

Definition UpdateNetLinkInfo r (supplierId : Z) (netLinkInfo : option NetLinkInfo.t) : st S Z :=
  writing WriteInterfaceToken IPC_PROXY_ERR
  (writing (WriteUint32 supplierId) IPC_PROXY_ERR (λ data,
  match netLinkInfo with
  | None => ub
  | Some info =>
    writing (NetLinkInfo.Marshalling info) IPC_PROXY_ERR
    (sending r ERR_NULL_OBJECT CMD_NM_SET_NET_LINK_INFO error_or_reply) data
  end)) parcel_new.

End Code.
End NetConnServiceProxy.

(** ** The callback interface

    [net_conn_callback_proxy.cpp] is the service side, [net_conn_callback_stub.cpp]
    the client side; [NetConnStateChanged] is the client's own method. *)

Definition NET_CONN_STATE_CHANGED : Z := 0.

Definition callback_descriptor : string := "OHOS.NetManagerStandard.INetConnCallback".

Module NetConnCallbackStub.
Section Code.
Context {S : Type} {P : Type} `{ParcelOps P} `{IpcPlatform P}.
Context (NetConnStateChanged : option NetConnCallbackInfo.t → st S Z).

(** A failed write of the reply returns the result of the method. *)
Definition OnNetConnStateChanged : handler P S :=
  reading_any NetConnCallbackInfo.Unmarshalling (λ info,
  calling (NetConnStateChanged info) (λ result, answer result result)).

Definition memberFuncMap_ (code : Z) : option (handler P S) :=
  if code =? NET_CONN_STATE_CHANGED then Some OnNetConnStateChanged else None.

Definition OnRemoteRequest (code : Z) : handler P S :=
  on_remote_request callback_descriptor memberFuncMap_ code.

End Code.
End NetConnCallbackStub.

Module NetConnCallbackProxy.
Section Code.
Context {S : Type} {P : Type} `{ParcelOps P} `{IpcPlatform P}.

Definition WriteInterfaceToken : pm P unit := Ipc.WriteInterfaceToken callback_descriptor.

Definition NetConnStateChanged (r : remote P S) (info : option NetConnCallbackInfo.t) : st S Z :=
  writing WriteInterfaceToken ERR_FLATTEN_OBJECT (λ data,
  match info with
  | None => ub
  | Some info =>
    writing (NetConnCallbackInfo.Marshalling info) ERR_FLATTEN_OBJECT
    (sending r ERR_NULL_OBJECT NET_CONN_STATE_CHANGED (λ ret _, mret ret)) data
  end) parcel_new.

End Code.
End NetConnCallbackProxy.

(** ** Properties of the IPC layer of the connection manager

    [message q] is the content of the parcel of a request. The proxy sends it,
    the stub reads it: a call through both is the call of the service; a
    message that was cut short, or is meant for another interface, does
    nothing to the service. *)

Section Messages.
Context {P : Type} `{ParcelLaws P}.

(** What follows the descriptor in the message of a request. *)
Definition body (q : request) : list pitem :=
  match q with
  | ReqRegisterNetSupplier t i c => [PItem KUint32 t; PItem KString i; PItem KUint64 c]
  | ReqUnregisterNetSupplier id => [PItem KUint32 id]
  | ReqRegisterNetConnCallback (Some cb) | ReqUnregisterNetConnCallback (Some cb) =>
    [PItem KRemoteObject (cb_object cb)]
  | ReqRegisterBySpecifier (Some sp) (Some cb) | ReqUnregisterBySpecifier (Some sp) (Some cb) =>
    NetSpecifier.wire sp ++ [PItem KRemoteObject (cb_object cb)]
  | ReqUpdateNetCapabilities id c => [PItem KUint32 id; PItem KUint64 c]
  | ReqUpdateNetSupplierInfo id (Some i) => PItem KUint32 id :: NetSupplierInfo.wire i
  | ReqUpdateNetLinkInfo id (Some i) => PItem KUint32 id :: NetLinkInfo.wire i
  | _ => []
  end.

Definition message (q : request) : list pitem := PItem KInterfaceToken descriptor :: body q.

Definition command (q : request) : Z :=
  match q with
  | ReqRegisterNetSupplier _ _ _ => CMD_NM_REG_NET_SUPPLIER
  | ReqUnregisterNetSupplier _ => CMD_NM_UNREG_NETWORK
  | ReqRegisterNetConnCallback _ => CMD_NM_REGISTER_NET_CONN_CALLBACK
  | ReqUnregisterNetConnCallback _ => CMD_NM_UNREGISTER_NET_CONN_CALLBACK
  | ReqRegisterBySpecifier _ _ => CMD_NM_REGISTER_NET_CONN_CALLBACK_BY_SPECIFIER
  | ReqUnregisterBySpecifier _ _ => CMD_NM_UNREGISTER_NET_CONN_CALLBACK_BY_SPECIFIER
  | ReqUpdateNetCapabilities _ _ => CMD_NM_SET_NET_CAPABILTITES
  | ReqUpdateNetSupplierInfo _ _ => CMD_NM_SET_NET_SUPPLIER_INFO
  | ReqUpdateNetLinkInfo _ _ => CMD_NM_SET_NET_LINK_INFO
  | _ => CMD_NM_SYSTEM_READY
  end.

(** The requests a client can make; the proxy dereferences the two last
    pointers, and counts in the message are 32 bits wide. *)
Definition sendable (q : request) : Prop :=
  match q with
  | ReqOnStart | ReqOnStop | ReqTimer => False
  | ReqUpdateNetSupplierInfo _ None | ReqUpdateNetLinkInfo _ None => False
  | ReqUpdateNetLinkInfo _ (Some i) => NetLinkInfo.fits i
  | _ => True
  end.

(** The code the client gets for the code of the service. *)
Definition client_code (q : request) (ret : Z) : Z :=
  match q with
  | ReqRegisterNetConnCallback _ | ReqUnregisterNetConnCallback _
  | ReqRegisterBySpecifier _ _ | ReqUnregisterBySpecifier _ _ => NetConnServiceStub.ConvertCode ret
  | ReqRegisterNetSupplier _ _ _ =>
    if (ret =? ERR_NO_NETWORK) || (ret =? ERR_NO_SUPPLIER) then NET_CONN_ERR_INVALID_SUPPLIER_ID else ret
  | ReqSystemReady => 0
  | _ => ret
  end.

(** The method of the proxy for a request. *)
Definition proxy_call {S} `{IpcPlatform P} (r : remote P S) (q : request) : st S Z :=
  match q with
  | ReqRegisterNetSupplier t i c => NetConnServiceProxy.RegisterNetSupplier r t i c
  | ReqUnregisterNetSupplier id => NetConnServiceProxy.UnregisterNetSupplier r id
  | ReqRegisterNetConnCallback cb => NetConnServiceProxy.RegisterNetConnCallback r cb
  | ReqUnregisterNetConnCallback cb => NetConnServiceProxy.UnregisterNetConnCallback r cb
  | ReqRegisterBySpecifier sp cb => NetConnServiceProxy.RegisterNetConnCallbackBySpecifier r sp cb
  | ReqUnregisterBySpecifier sp cb => NetConnServiceProxy.UnregisterNetConnCallbackBySpecifier r sp cb
  | ReqUpdateNetCapabilities id c => NetConnServiceProxy.UpdateNetCapabilities r id c
  | ReqUpdateNetSupplierInfo id i => NetConnServiceProxy.UpdateNetSupplierInfo r id i
  | ReqUpdateNetLinkInfo id i => NetConnServiceProxy.UpdateNetLinkInfo r id i
  | _ => NetConnServiceProxy.SystemReady r
  end.

End Messages.

Section Stub.
Context {E : Type} `{Platform E} {P : Type} `{ParcelLaws P} `{!RoomyParcel P} `{IpcPlatform P}
  `{CallbackCast}.
Implicit Type w : world E.

Definition stub : remote P (world E) := Some NetConnServiceStub.OnRemoteRequest.

(** A service answers with its code in the reply, and returns success or,
    for the callback handlers, the code again. *)
Definition answers (q : request) (ret : Z) w' (x : Z * P) w1 : Prop :=
  w1 = w' ∧ match q with
            | ReqSystemReady => x.1 = 0
            | ReqRegisterNetConnCallback _ | ReqUnregisterNetConnCallback _
            | ReqRegisterBySpecifier _ _ | ReqUnregisterBySpecifier _ _ =>
              x.1 = client_code q ret ∧ unread x.2 [PItem KInt32 (client_code q ret)]
            | _ => x.1 = 0 ∧ unread x.2 [PItem KInt32 (client_code q ret)]
            end.

(** No null pointer travels. *)
Definition has_message (q : request) : Prop :=
  match q with
  | ReqRegisterNetConnCallback None | ReqUnregisterNetConnCallback None => False
  | ReqRegisterBySpecifier (Some _) (Some _) | ReqUnregisterBySpecifier (Some _) (Some _) => True
  | ReqRegisterBySpecifier _ _ | ReqUnregisterBySpecifier _ _ => False
  | _ => sendable q
  end.

Lemma stub_callback fail m cb p r q w ret w' (Q : Z * P → world E → Prop) :
  (∀ c, iface_cast (cb_object c) = Some c) → unread p (PItem KRemoteObject (cb_object cb) :: q) →
  unread r [] → m (Some cb) w = Some (ret, w') →
  (∀ r', unread r' [PItem KInt32 (NetConnServiceStub.ConvertCode ret)] →
     Q (NetConnServiceStub.ConvertCode ret, r') w') →
  wp (NetConnServiceStub.with_callback fail m p r) Q w.
Proof.
  intros Hcast Hp Hr Hm HQ. unfold NetConnServiceStub.with_callback.
  eapply reading_any_reads; [exact (reads_Read KRemoteObject _)|exact Hp|]. intros p' _.
  rewrite Hcast.
  eapply calling_runs; [exact Hm|]. by apply answer_code_wp.
Qed.

(** The stub serves the message of a request by the request. *)
Lemma stub_serves q w ret w' p r :
  (∀ c, iface_cast (cb_object c) = Some c) → has_message q → handle q w = Some (ret, w') →
  unread p (message q) → unread r [] →
  wp (NetConnServiceStub.OnRemoteRequest (command q) p r) (answers q ret w') w.
Proof.
  intros Hcast Hq Hh Hp Hr. unfold message in Hp. unfold NetConnServiceStub.OnRemoteRequest.
  destruct q as [| | |t i c|id|[cb|]|[sp|] [cb|]|[cb|]|[sp|] [cb|]|id c|id [inf|]|id [inf|]|];
    try done; cbn [handle body command] in Hh, Hp |- *;
    (eapply on_remote_request_ok; [reflexivity|exact Hp|]; intros p1 Hp1);
    unfold NetConnServiceStub.OnRegisterNetSupplier, NetConnServiceStub.OnUnregisterNetSupplier,
      NetConnServiceStub.OnUpdateNetCapabilities, NetConnServiceStub.OnUpdateNetSupplierInfo,
      NetConnServiceStub.OnUpdateNetLinkInfo.
  - eapply calling_runs; [exact Hh|]. by apply wp_ret.
  - do 3 read_next. eapply calling_runs; [exact Hh|]. by apply answer_wp.
  - read_next. eapply calling_runs; [exact Hh|]. by apply answer_wp.
  - eapply stub_callback; [done|eassumption|done|exact Hh|]. by repeat split.
  - eapply reading_any_reads; [apply reads_NetSpecifier|exact Hp1|]. intros p2 Hp2.
    eapply stub_callback; [done|eassumption|done|exact Hh|]. by repeat split.
  - eapply stub_callback; [done|eassumption|done|exact Hh|]. by repeat split.
  - eapply reading_any_reads; [apply reads_NetSpecifier|exact Hp1|]. intros p2 Hp2.
    eapply stub_callback; [done|eassumption|done|exact Hh|]. by repeat split.
  - do 2 read_next. eapply calling_runs; [exact Hh|]. by apply answer_wp.
  - read_next. eapply (reading_any_reads _ inf _ _ _ _ []); [apply reads_NetSupplierInfo| |].
    { by rewrite app_nil_r. }
    intros p2 _. eapply calling_runs; [exact Hh|]. by apply answer_wp.
  - read_next. eapply (reading_any_reads _ inf _ _ _ _ []); [exact (reads_NetLinkInfo inf Hq)| |].
    { by rewrite app_nil_r. }
    intros p2 _. eapply calling_runs; [exact Hh|]. by apply answer_wp.
Qed.

(** The proxy sends the message and returns what the stub answered. *)
Lemma proxy_sends q w ret w' :
  has_message q →
  (∀ p r, unread p (message q) → unread r [] →
     wp (NetConnServiceStub.OnRemoteRequest (command q) p r) (answers q ret w') w) →
  wp (proxy_call stub q) (λ z w1, z = client_code q ret ∧ w1 = w') w.
Proof.
  intros Hq Hstub. unfold stub. assert (Hnew : unread (parcel_new : P) []) by apply unread_new.
  destruct q as [| | |t i c|id|[cb|]|[sp|] [cb|]|[cb|]|[sp|] [cb|]|id c|id [inf|]|id [inf|]|];
    try done; simpl;
    (eapply writing_sends; [apply sends_Write|exact Hnew|]; intros p1 Hp1);
    repeat first
      [ eapply writing_sends; [solve [eauto with netdb]|eassumption|]; intros ? ?
      | eapply writing_any_sends; [solve [eauto with netdb]|eassumption|]; intros ? ? ];
    apply sending_some;
    (eapply wp_mono; [apply Hstub; [|exact Hnew]; unfold message; simpl in *;
                      rewrite <- ?app_assoc in *; simpl in *; eassumption|]);
    intros [code r'] w1 [-> Hx]; simpl in Hx |- *; first [destruct Hx as [-> Hx]|idtac].
  all: try solve [eapply error_or_reply_ok; [exact Hx|done] | eapply error_or_reply_code; [exact Hx|done]].
  subst. by apply wp_ret.
Qed.

(** A message that was cut short. *)
Lemma truncated_NetSpecifier x : truncated (P:=P) NetSpecifier.Unmarshalling (NetSpecifier.wire x).
Proof.
  destruct x. unfold NetSpecifier.Unmarshalling, NetSpecifier.wire.
  repeat apply truncated_bind_cons. apply truncated_nil.
Qed.

Lemma truncated_NetSupplierInfo x :
  truncated (P:=P) NetSupplierInfo.Unmarshalling (NetSupplierInfo.wire x).
Proof.
  destruct x. unfold NetSupplierInfo.Unmarshalling, NetSupplierInfo.wire.
  repeat apply truncated_bind_cons. apply truncated_nil.
Qed.

Definition unchanged w (x : Z * P) w' : Prop := w' = w.

Lemma unchanged_answer ret fail p r w : wp (answer (P:=P) ret fail p r) (unchanged w) w.
Proof. unfold answer. destruct (pwrite KInt32 ret r). by apply wp_ret. Qed.

Lemma callback_cut fail m p r w :
  unread p [] → wp (NetConnServiceStub.with_callback fail m p r) (unchanged w) w.
Proof.
  intros Hp. unfold NetConnServiceStub.with_callback, reading_any.
  destruct (unread_empty KRemoteObject p Hp) as (p' & Hr & _). unfold ReadRemoteObject, Read.
  rewrite Hr. by apply wp_ret.
Qed.

Lemma specifier_cut fail m sp cb p r w l :
  l `prefix_of` NetSpecifier.wire sp ++ [PItem KRemoteObject cb] →
  l ≠ NetSpecifier.wire sp ++ [PItem KRemoteObject cb] → unread p l →
  wp (reading_any NetSpecifier.Unmarshalling
        (λ s, NetConnServiceStub.with_callback fail (m s)) p r) (unchanged w) w.
Proof.
  intros Hl Hne Hp. unfold reading_any at 1.
  destruct (prefix_app_cases _ (NetSpecifier.wire sp) _ Hl Hne) as [[Hl1 Hn1]|(l' & -> & Hl' & Hn')].
  - destruct (truncated_NetSpecifier sp l p Hl1 Hn1 Hp) as (p' & -> & Hp'). by apply callback_cut.
  - destruct (reads_NetSpecifier sp p l' Hp) as (p' & -> & Hp'). apply callback_cut.
    destruct l' as [|x l']; [done|]. exfalso. apply Hn'.
    assert (l' = []) as -> by (apply prefix_cons_inv_2 in Hl'; by apply prefix_nil_inv in Hl').
    apply prefix_cons_inv_1 in Hl'. by subst.
Qed.

(** The parameter a handler reads first is missing. *)
Lemma reading_empty k fail (f : kty k → handler P (world E)) p r w :
  unread p [] → wp (reading (Read k) fail f p r) (unchanged w) w.
Proof.
  intros Hp. unfold reading, Read. destruct (unread_empty k p Hp) as (p' & -> & _). by apply wp_ret.
Qed.

(** The parameter is there, or the message ends before it. *)
Lemma reading_cut k v fail (f : kty k → handler P (world E)) p r w l l' :
  l `prefix_of` PItem k v :: l' → l ≠ PItem k v :: l' → unread p l →
  (∀ p' m, m `prefix_of` l' → m ≠ l' → unread p' m → wp (f v p' r) (unchanged w) w) →
  wp (reading (Read k) fail f p r) (unchanged w) w.
Proof.
  intros Hl Hne Hp Hf. destruct l as [|x l]; [by apply reading_empty|].
  pose proof (prefix_cons_inv_1 _ _ _ _ Hl) as ->. apply prefix_cons_inv_2 in Hl.
  eapply reading_item; [exact Hp|]. intros p' Hp'. apply (Hf p' l); [done| |done]. by intros ->.
Qed.

Lemma no_proper_prefix {A} (l : list A) : l `prefix_of` [] → l ≠ [] → False.
Proof. intros ->%prefix_nil_inv. done. Qed.

(** The stub with a cut message: every handler stops before the service. *)
Lemma stub_cut q w p r l :
  has_message q → l `prefix_of` message q → l ≠ message q → unread p l →
  wp (NetConnServiceStub.OnRemoteRequest (command q) p r) (unchanged w) w.
Proof.
  intros Hq Hl Hne Hp. unfold NetConnServiceStub.OnRemoteRequest, message in *.
  destruct l as [|x l].
  { unfold on_remote_request, read_token.
    destruct (unread_empty KInterfaceToken p Hp) as (p' & -> & _). by apply wp_ret. }
  pose proof (prefix_cons_inv_1 _ _ _ _ Hl) as ->. apply prefix_cons_inv_2 in Hl.
  assert (Hne' : l ≠ body q) by by intros ->.
  destruct q as [| | |t i c|id|[cb|]|[sp|] [cb|]|[cb|]|[sp|] [cb|]|id c|id [inf|]|id [inf|]|];
    try done; cbn [body command] in Hl, Hne' |- *;
    (eapply on_remote_request_ok; [reflexivity|exact Hp|]; intros p1 Hp1).
  - by destruct (no_proper_prefix l).
  - eapply (reading_cut KUint32); [done..|]. intros p2 l2 ???.
    eapply (reading_cut KString); [done..|]. intros p3 l3 ???.
    eapply (reading_cut KUint64); [done..|]. intros p4 l4 ???. by destruct (no_proper_prefix l4).
  - eapply (reading_cut KUint32); [done..|]. intros p2 l2 ???. by destruct (no_proper_prefix l2).
  - apply callback_cut. destruct l as [|y l]; [done|].
    pose proof (prefix_cons_inv_1 _ _ _ _ Hl) as ->. apply prefix_cons_inv_2, prefix_nil_inv in Hl.
    by subst.
  - by eapply specifier_cut.
  - apply callback_cut. destruct l as [|y l]; [done|].
    pose proof (prefix_cons_inv_1 _ _ _ _ Hl) as ->. apply prefix_cons_inv_2, prefix_nil_inv in Hl.
    by subst.
  - by eapply specifier_cut.
  - eapply (reading_cut KUint32); [done..|]. intros p2 l2 ???.
    eapply (reading_cut KUint64); [done..|]. intros p3 l3 ???. by destruct (no_proper_prefix l3).
  - eapply (reading_cut KUint32); [done..|]. intros p2 l2 Hl2 Hn2 Hp2. unfold reading_any.
    destruct (truncated_NetSupplierInfo inf l2 p2 Hl2 Hn2 Hp2) as (p3 & -> & _).
    eapply calling_runs; [done|]. apply unchanged_answer.
  - eapply (reading_cut KUint32); [done..|]. intros p2 l2 Hl2 Hn2 Hp2. unfold reading_any.
    destruct (truncated_NetLinkInfo inf Hq l2 p2 Hl2 Hn2 Hp2) as (p3 & -> & _).
    eapply calling_runs; [done|]. apply unchanged_answer.
Qed.

End Stub.

(** *** The properties *)

Import SamplePlatform Unbounded.

#[local] Instance every_object : CallbackCast := {| iface_cast o := Some (mkCallback o) |}.

Lemma every_object_casts c : iface_cast (cb_object c) = Some c.
Proof. by destruct c. Qed.

(** Transparency: a request that a client makes through the proxy of the
    connection manager, with parcels that do not fail, has exactly the effect
    of the call of the service, and returns its code, converted as the stub
    does; a null callback or specifier is refused with the same code on both
    paths. *)
Theorem conn_ipc_transparent {E} `{Platform E} {P} `{ParcelLaws P} `{!RoomyParcel P}
    `{IpcPlatform P} `{CallbackCast} q (w : world E) ret w' :
  (∀ c, iface_cast (cb_object c) = Some c) → sendable q → handle q w = Some (ret, w') →
  proxy_call stub q w = Some (client_code q ret, w').
Proof.
  intros Hcast Hq Hh.
  assert (Hwp : wp (proxy_call (P:=P) stub q) (λ z w1, z = client_code q ret ∧ w1 = w') w).
  { assert (Hm : has_message q → wp (proxy_call (P:=P) stub q)
        (λ z w1, z = client_code q ret ∧ w1 = w') w).
    { intros Hm. apply proxy_sends; [done|]. intros p r Hp Hr. by apply stub_serves. }
    destruct q as [| | |t i c|id|[cb|]|[sp|] [cb|]|[cb|]|[sp|] [cb|]|id c|id [inf|]|id [inf|]|];
      try (by apply Hm); try done; (injection Hh as <- <-; by apply wp_ret). }
  destruct Hwp as (z & w1 & -> & -> & ->). done.
Qed.

Lemma conn_ipc_transparent_witness :
  ∃ w', handle cellular_request (world_init tt) = Some (1003, w') ∧
    proxy_call (P:=buffer) stub cellular_request (world_init tt) = Some (1003, w').
Proof.
  exists (after [cellular_request]). split; [vm_compute; reflexivity|].
  apply (conn_ipc_transparent (P:=buffer) cellular_request (world_init tt) 1003).
  - exact every_object_casts.
  - done.
  - vm_compute. reflexivity.
Defined.

(** C31. Messages without effect. Cut messages: when the parcel that reaches
    the stub holds a proper prefix of the message of any request, from the empty
    one on, the stub returns and the service has not changed. Other interfaces:
    a message whose descriptor is not that of the connection manager is refused
    with [ERR_FLATTEN_OBJECT] whatever its code; with the right descriptor and a
    code that has no handler the IPC library's default answers; neither changes
    the service. *)
Theorem conn_ipc_no_effect {E} `{Platform E} {P} `{ParcelLaws P} `{IpcPlatform P} `{!RoomyParcel P}
    `{CallbackCast} (w : world E) (p r : P) :
  (∀ q l, has_message q → l `prefix_of` message q → l ≠ message q → unread p l →
     ∃ code reply, NetConnServiceStub.OnRemoteRequest (command q) p r w = Some ((code, reply), w)) ∧
  (∀ d l code, unread p (PItem KInterfaceToken d :: l) → d ≠ descriptor →
     NetConnServiceStub.OnRemoteRequest code p r w = Some ((ERR_FLATTEN_OBJECT, r), w)) ∧
  (∀ l code, unread p (PItem KInterfaceToken descriptor :: l) → code < 2 ∨ 11 < code →
     ∃ p', NetConnServiceStub.OnRemoteRequest code p r w = Some (IPCObjectStub_OnRemoteRequest code p' r, w)).
Proof.
  split; [|split].
  - intros q l Hq Hl Hne Hp. destruct (stub_cut q w p r l Hq Hl Hne Hp) as ([code reply] & w' & Hr & ->).
    eauto.
  - intros d l code Hp Hd. unfold NetConnServiceStub.OnRemoteRequest, on_remote_request, read_token.
    destruct (unread_read _ _ _ _ Hp) as (p' & -> & _).
    destruct (String.eqb_spec descriptor d) as [Heq|]; [by destruct Hd|done].
  - intros l code Hp Hcode. unfold NetConnServiceStub.OnRemoteRequest, on_remote_request, read_token.
    destruct (unread_read _ _ _ _ Hp) as (p' & -> & _). rewrite String.eqb_refl. cbn [negb]. exists p'.
    unfold NetConnServiceStub.memberFuncMap_.
    repeat match goal with |- context [code =? ?c] =>
      replace (code =? c) with false by (symmetry; apply Z.eqb_neq; unfold c; lia) end.
    done.
Qed.

Lemma conn_ipc_no_effect_witness :
  (∃ code reply, NetConnServiceStub.OnRemoteRequest (P:=buffer) CMD_NM_REG_NET_SUPPLIER
     (mkBuffer (take 3 (message cellular_request))) (mkBuffer []) (world_init tt)
     = Some ((code, reply), world_init tt)) ∧
  NetConnServiceStub.OnRemoteRequest (P:=buffer) CMD_NM_UNREG_NETWORK
    (mkBuffer [PItem KInterfaceToken "OHOS.Other"%string]) (mkBuffer []) (world_init tt)
    = Some ((ERR_FLATTEN_OBJECT, mkBuffer []), world_init tt).
Proof.
  split.
  - apply (proj1 (conn_ipc_no_effect (P:=buffer) (world_init tt)
      (mkBuffer (take 3 (message cellular_request))) (mkBuffer [])) cellular_request (take 3 (message cellular_request))).
    + done.
    + apply prefix_take.
    + vm_compute. discriminate.
    + reflexivity.
  - apply (proj1 (proj2 (conn_ipc_no_effect (P:=buffer) (world_init tt)
      (mkBuffer [PItem KInterfaceToken "OHOS.Other"%string]) (mkBuffer []))) "OHOS.Other"%string []).
    + reflexivity.
    + discriminate.
Defined.

(** Notifications arrive: a state change that the service sends through
    the callback proxy runs the client's method exactly once, with the same
    information, and the service gets success whatever the client returns. *)
Theorem callback_delivered {S} {P} `{ParcelLaws P} `{!RoomyParcel P} `{IpcPlatform P}
    (NetConnStateChanged : option NetConnCallbackInfo.t → st S Z) info (s : S) ret s' :
  NetConnStateChanged (Some info) s = Some (ret, s') →
  NetConnCallbackProxy.NetConnStateChanged
    (Some (NetConnCallbackStub.OnRemoteRequest (P:=P) NetConnStateChanged)) (Some info) s
  = Some (0, s').
Proof.
  intros Hm. assert (Hnew : unread (parcel_new : P) []) by apply unread_new.
  assert (Hsend : sends (P:=P) (NetConnCallbackInfo.Marshalling info) (NetConnCallbackInfo.wire info))
    by (destruct info; repeat apply sends_bind_cons; apply sends_Write).
  enough (Hwp : wp (NetConnCallbackProxy.NetConnStateChanged
    (Some (NetConnCallbackStub.OnRemoteRequest (P:=P) NetConnStateChanged)) (Some info))
    (λ z s1, z = 0 ∧ s1 = s') s) by (destruct Hwp as (z & s1 & -> & -> & ->); done).
  unfold NetConnCallbackProxy.NetConnStateChanged.
  eapply writing_sends; [apply sends_Write|exact Hnew|]. intros p1 Hp1.
  eapply writing_sends; [exact Hsend|exact Hp1|]. intros p2 Hp2. apply sending_some.
  eapply on_remote_request_ok; [reflexivity|exact Hp2|]. intros p3 Hp3.
  eapply (reading_any_reads _ info _ _ _ _ []).
  - exact (unmarshal_reads info I).
  - rewrite app_nil_r. exact Hp3.
  - intros p4 _. eapply calling_runs; [exact Hm|]. apply answer_wp; [done|].
    intros r' _. by apply wp_ret.
Qed.

Lemma callback_delivered_witness :
  NetConnCallbackProxy.NetConnStateChanged
    (Some (NetConnCallbackStub.OnRemoteRequest (P:=buffer) (S:=list (option NetConnCallbackInfo.t))
       (λ i s, Some (-9, s ++ [i])))) (Some (NetConnCallbackInfo.mk 3 1)) []
  = Some (0, [Some (NetConnCallbackInfo.mk 3 1)]).
Proof. apply (callback_delivered (P:=buffer) _ _ _ (-9)). reflexivity. Defined.
