(* ===== verification/CppStrings.v ===== *)
(** * Strings of the C++ library

    [std::stol] and the view of a string as a C string, with the facts that
    [std::to_string] needs: what it prints is read back, it is injective on
    the unsigned integers and it only holds printable characters. *)

From Stdlib Require Import Ascii.
From S2P Require Import Prelude.

Definition digit_value (c : ascii) : option Z :=
  let n := Z.of_N (N_of_ascii c) in
  if (48 <=? n) && (n <=? 57) then Some (n - 48) else None.

(** The digits at the start of [s], added to the value [acc]. *)
Fixpoint read_digits (acc : Z) (s : string) : Z :=
  match s with
  | String c s' =>
    match digit_value c with Some d => read_digits (10 * acc + d) s' | None => acc end
  | EmptyString => acc
  end.

Definition starts_with_digit (s : string) : bool :=
  match s with
  | String c _ => match digit_value c with Some _ => true | None => false end
  | EmptyString => false
  end.

Definition is_space (c : ascii) : bool :=
  let n := Z.of_N (N_of_ascii c) in (n =? 32) || ((9 <=? n) && (n <=? 13)).

Fixpoint skip_spaces (s : string) : string :=
  match s with
  | String c s' => if is_space c then skip_spaces s' else s
  | EmptyString => s
  end.

(** [std::stol]: [None] is [std::invalid_argument] (no digits) or
    [std::out_of_range] (not a 64-bit [long]). *)
Definition stol (s : string) : option Z :=
  let s := skip_spaces s in
  let '(sign, s) :=
    match s with
    | String "-" s' => (-1, s')
    | String "+" s' => (1, s')
    | _ => (1, s)
    end in
  if starts_with_digit s then
    let v := sign * read_digits 0 s in
    if (- 2 ^ 63 <=? v) && (v <? 2 ^ 63) then Some v else None
  else None.

(** [s.c_str()] printed or copied: the characters before the first NUL. *)
Fixpoint c_str (s : string) : string :=
  match s with
  | String c s' => if (N_of_ascii c =? 0)%N then EmptyString else String c (c_str s')
  | EmptyString => EmptyString
  end.

(** Printable ASCII text. *)
Fixpoint ascii_text (s : string) : bool :=
  match s with
  | String c s' => ((32 <=? N_of_ascii c) && (N_of_ascii c <? 127))%N && ascii_text s'
  | EmptyString => true
  end.

(** ** What [to_string] prints *)

Lemma digit_value_pretty (d : N) :
  (d < 10)%N → digit_value (pretty_N_char d) = Some (Z.of_N d).
Proof.
  intros Hd. assert (H : ∀ n : nat, (n < 10)%nat →
    digit_value (pretty_N_char (N.of_nat n)) = Some (Z.of_N (N.of_nat n))).
  { intros n Hn. do 10 (destruct n as [|n]; [reflexivity|]). lia. }
  specialize (H (N.to_nat d)). rewrite N2Nat.id in H. apply H. lia.
Qed.

Lemma pretty_N_char_text (d : N) s :
  (d < 10)%N → ascii_text (String (pretty_N_char d) s) = ascii_text s.
Proof.
  intros Hd. assert (H : ∀ n : nat, (n < 10)%nat →
    ascii_text (String (pretty_N_char (N.of_nat n)) s) = ascii_text s).
  { intros n Hn. do 10 (destruct n as [|n]; [reflexivity|]). lia. }
  specialize (H (N.to_nat d)). rewrite N2Nat.id in H. apply H. lia.
Qed.

Lemma read_digits_go (x : N) s : read_digits 0 (pretty_N_go x s) = read_digits (Z.of_N x) s.
Proof.
  revert s. induction (N.lt_wf_0 x) as [x _ IH]; intros s.
  destruct (decide (0 < x)%N) as [Hx|Hx].
  - rewrite pretty_N_go_step by done. rewrite IH by (apply N.div_lt; lia). simpl.
    rewrite digit_value_pretty by (apply N.mod_lt; lia). f_equal.
    rewrite N2Z.inj_div, N2Z.inj_mod. pose proof (Z.div_mod (Z.of_N x) 10). lia.
  - assert (x = 0%N) as -> by lia. by rewrite pretty_N_go_0.
Qed.

Lemma pretty_N_go_text (x : N) s : ascii_text (pretty_N_go x s) = ascii_text s.
Proof.
  revert s. induction (N.lt_wf_0 x) as [x _ IH]; intros s.
  destruct (decide (0 < x)%N) as [Hx|Hx].
  - rewrite pretty_N_go_step by done. rewrite IH by (apply N.div_lt; lia).
    apply pretty_N_char_text, N.mod_lt. lia.
  - assert (x = 0%N) as -> by lia. by rewrite pretty_N_go_0.
Qed.

(** The printed number starts with a digit, and so neither with a space nor
    with a sign. *)
Lemma pretty_N_go_head (x : N) s :
  starts_with_digit s || (0 <? x)%N = true → starts_with_digit (pretty_N_go x s) = true.
Proof.
  revert s. induction (N.lt_wf_0 x) as [x _ IH]; intros s Hs.
  destruct (N.ltb_spec 0 x) as [Hx|Hx].
  - rewrite pretty_N_go_step by done. apply IH; [apply N.div_lt; lia|]. simpl.
    by rewrite digit_value_pretty by (apply N.mod_lt; lia).
  - assert (x = 0%N) as -> by lia. rewrite pretty_N_go_0. by destruct (starts_with_digit s).
Qed.

Lemma to_string_N x : 0 <= x → to_string x = pretty (Z.to_N x).
Proof. intros Hx. unfold to_string. by destruct x; [|reflexivity|]. Qed.

Lemma to_string_head x : 0 <= x → starts_with_digit (to_string x) = true.
Proof.
  intros Hx. rewrite to_string_N by done. unfold pretty, pretty_N.
  case_decide; [done|]. apply pretty_N_go_head. simpl. apply N.ltb_lt. lia.
Qed.

Lemma to_string_read x : 0 <= x → read_digits 0 (to_string x) = x.
Proof.
  intros Hx. rewrite to_string_N by done. unfold pretty, pretty_N.
  case_decide as Hz; [simpl; lia|]. rewrite read_digits_go. simpl. lia.
Qed.

Lemma to_string_text x : 0 <= x → ascii_text (to_string x) = true.
Proof.
  intros Hx. rewrite to_string_N by done. unfold pretty, pretty_N.
  case_decide; [done|]. by rewrite pretty_N_go_text.
Qed.

Lemma digit_no_sign c s :
  starts_with_digit (String c s) = true → is_space c = false ∧ c ≠ "-"%char ∧ c ≠ "+"%char.
Proof.
  simpl. unfold digit_value. destruct (_ && _) eqn:E; [|done]. intros _.
  apply andb_prop in E as [H1 H2]. apply Z.leb_le in H1, H2. split.
  - unfold is_space. destruct (Z.eqb_spec (Z.of_N (N_of_ascii c)) 32); [lia|]. simpl.
    destruct (Z.leb_spec (Z.of_N (N_of_ascii c)) 13); [lia|]. by rewrite andb_false_r.
  - split; intros ->; vm_compute in H1; by destruct H1.
Qed.

Lemma stol_digits s :
  starts_with_digit s = true → 0 <= read_digits 0 s < 2 ^ 63 → stol s = Some (read_digits 0 s).
Proof.
  intros Hd Hv. unfold stol. destruct s as [|c s]; [done|].
  destruct (digit_no_sign c s Hd) as (Hsp & Hm & Hp). simpl skip_spaces. rewrite Hsp.
  replace (match String c s with String "-" s' => (-1, s') | String "+" s' => (1, s')
    | _ => (1, String c s) end) with (1, String c s)
    by (destruct c as [[] [] [] [] [] [] [] []]; try done; by destruct Hm || by destruct Hp).
  rewrite Hd, Z.mul_1_l. destruct (Z.leb_spec (- 2 ^ 63) (read_digits 0 (String c s))); [|lia].
  by destruct (Z.ltb_spec (read_digits 0 (String c s)) (2 ^ 63)); [|lia].
Qed.

Lemma stol_to_string x : 0 <= x < 2 ^ 63 → stol (to_string x) = Some x.
Proof.
  intros Hx. rewrite stol_digits; [by rewrite to_string_read by lia|apply to_string_head; lia|].
  rewrite to_string_read; lia.
Qed.

Lemma to_string_inj x y : 0 <= x → 0 <= y → to_string x = to_string y → x = y.
Proof. intros Hx Hy E. apply (f_equal (read_digits 0)) in E. by rewrite !to_string_read in E. Qed.

Lemma to_string_eqb x y : 0 <= x → 0 <= y → String.eqb (to_string x) (to_string y) = (x =? y).
Proof.
  intros Hx Hy. destruct (Z.eqb_spec x y) as [->|Hne]; [apply String.eqb_refl|].
  apply String.eqb_neq. intros E. by apply Hne, to_string_inj.
Qed.
