(* ===== verification/Files.v ===== *)
(** * The JSON library and the file system

    The policy service keeps its rules in a JSON document on disk. [JsonCpp]
    is the part of the jsoncpp library it uses, [FileSystem] the calls on the
    file system; neither is in the repository. Each comes with the documented
    behaviour the service relies on, and with an instance to run examples on. *)

From Stdlib Require Import Ascii.
From S2P Require Import Prelude CppStrings.

(** ** jsoncpp

    An operation is [None] where the library throws [Json::LogicError]. *)
Class JsonCpp (J : Type) := {
  json_null : J;
  json_string : string → J;
  json_get : string → J → option J;          (* root[key] *)
  json_set : string → J → J → option J;      (* root[key] = value, on root *)
  json_append : J → J → option J;            (* root.append(value), on root *)
  json_size : J → Z;
  json_at : Z → J → option J;                (* root[i] *)
  json_asString : J → option string;
  json_parse : string → bool * J * string;   (* result, root and errs *)
  json_write : J → string;
}.

(** The types of [Json::ValueType] that matter here. *)
Inductive jview (J : Type) :=
  | JNull
  | JString (s : string)
  | JArray (l : list J)
  | JObject (m : gmap string J)
  | JOther.
Arguments JNull {J}.
Arguments JString {J}.
Arguments JArray {J}.
Arguments JObject {J}.
Arguments JOther {J}.

Definition fields {J} (v : jview J) : option (gmap string J) :=
  match v with JNull => Some ∅ | JObject m => Some m | _ => None end.

Definition elements {J} (v : jview J) : option (list J) :=
  match v with JNull => Some [] | JArray l => Some l | _ => None end.

(** Null acts as an empty object and as an empty array. [json_clean] are the
    values the writer does not alter: those whose strings are plain text. *)
Class JsonLaws (J : Type) `{JsonCpp J} := {
  json_view : J → jview J;
  json_clean : J → Prop;
  view_null : json_view json_null = JNull;
  view_string s : json_view (json_string s) = JString s;
  get_fields k v m : fields (json_view v) = Some m → json_get k v = Some (default json_null (m !! k));
  set_fields k x v m : fields (json_view v) = Some m →
    ∃ v', json_set k x v = Some v' ∧ json_view v' = JObject (<[k:=x]> m) ∧
      (json_clean v → json_clean x → json_clean v');
  append_elements x v l : elements (json_view v) = Some l →
    ∃ v', json_append x v = Some v' ∧ json_view v' = JArray (l ++ [x]) ∧
      (json_clean v → json_clean x → json_clean v');
  size_elements v l : elements (json_view v) = Some l → json_size v = Z.of_nat (length l);
  at_elements v l (i : nat) x : json_view v = JArray l → l !! i = Some x →
    json_at (Z.of_nat i) v = Some x;
  asString_string v s : json_view v = JString s → json_asString v = Some s;
  clean_null : json_clean json_null;
  clean_field v m k x : json_clean v → json_view v = JObject m → m !! k = Some x → json_clean x;
  clean_string s : ascii_text s = true → json_clean (json_string s);
  parse_write v : json_clean v → json_parse (json_write v) = (true, v, EmptyString);
  write_text v : json_clean v → c_str (json_write v) = json_write v ∧ json_write v ≠ EmptyString;
}.

(** ** Files *)
Class FileSystem (F : Type) := {
  fs_stat : string → F → bool * F;            (* stat(name, &buffer) == 0 *)
  fs_create : string → F → bool * F;          (* open(name, O_CREAT | O_WRONLY, mode) >= 0 *)
  fs_read : string → F → option string * F;   (* fstream::in: None when it is not open *)
  fs_truncate : string → F → bool * F;        (* fstream::out: is_open() *)
  fs_write : string → string → F → unit * F;  (* what is inserted in the open stream *)
}.

(** A disk that is not full: a file that could be opened for output holds what
    was written to it, and can be read back. *)
Class HealthyDisk (F : Type) `{FileSystem F} := {
  fs_holds : string → string → F → Prop;
  holds_stat n c f : fs_holds n c f → (fs_stat n f).1 = true ∧ fs_holds n c (fs_stat n f).2;
  holds_read n c f : fs_holds n c f → (fs_read n f).1 = Some c ∧ fs_holds n c (fs_read n f).2;
  holds_write n c f : (fs_truncate n f).1 = true →
    fs_holds n c (fs_write n c (fs_truncate n f).2).2;
}.

(** ** A JSON library to run examples on

    Values are trees: a leaf is a string, and a node is null (0), an array (1)
    or an object (2) with its keys and values in turn. The text of a value is
    its code in binary. *)

Module SampleJson.

Definition J : Type := gen_tree string.

Fixpoint pairs (l : list J) : list (string * J) :=
  match l with
  | GenLeaf k :: x :: l' => (k, x) :: pairs l'
  | _ => []
  end.

Fixpoint unpairs (l : list (string * J)) : list J :=
  match l with
  | (k, x) :: l' => GenLeaf k :: x :: unpairs l'
  | [] => []
  end.

Definition view (v : J) : jview J :=
  match v with
  | GenLeaf s => JString s
  | GenNode 0%nat _ => JNull
  | GenNode 1%nat l => JArray l
  | GenNode 2%nat l => JObject (list_to_map (pairs l))
  | _ => JOther
  end.

Definition object (m : gmap string J) : J := GenNode 2 (unpairs (map_to_list m)).

Fixpoint to_bits (p : positive) : string :=
  match p with
  | xH => String "1" EmptyString
  | xO p' => String "0" (to_bits p')
  | xI p' => String "1" (to_bits p')
  end.

Fixpoint of_bits (s : string) : option positive :=
  match s with
  | EmptyString => None
  | String c EmptyString => if Ascii.eqb c "1" then Some xH else None
  | String c s' =>
    match of_bits s' with
    | Some p => Some (if Ascii.eqb c "1" then xI p else xO p)
    | None => None
    end
  end.

#[export] Instance json_ops : JsonCpp J := {
  json_null := GenNode 0 [];
  json_string s := GenLeaf s;
  json_get k v := m ← fields (view v) ; Some (default (GenNode 0 []) (m !! k));
  json_set k x v := m ← fields (view v) ; Some (object (<[k:=x]> m));
  json_append x v := l ← elements (view v) ; Some (GenNode 1 (l ++ [x]));
  json_size v := match view v with
                 | JArray l => Z.of_nat (length l)
                 | JObject m => Z.of_nat (size m)
                 | _ => 0
                 end;
  json_at i v := l ← elements (view v) ; Some (default (GenNode 0 []) (l !! Z.to_nat i));
  json_asString v := match view v with
                     | JNull => Some EmptyString
                     | JString s => Some s
                     | _ => None
                     end;
  json_parse s := match of_bits s ≫= decode with
                  | Some v => (true, v, EmptyString)
                  | None => (false, GenNode 0 [], "syntax error"%string)
                  end;
  json_write v := to_bits (encode v);
}.

Lemma pairs_unpairs l : pairs (unpairs l) = l.
Proof. induction l as [|[k x] l IH]; [done|]. simpl. by rewrite IH. Qed.

Lemma view_object m : view (object m) = JObject m.
Proof. simpl. by rewrite pairs_unpairs, list_to_map_to_list. Qed.

Lemma to_bits_cons p : ∃ c s, to_bits p = String c s.
Proof. destruct p; simpl; eauto. Qed.

Lemma of_to_bits p : of_bits (to_bits p) = Some p.
Proof.
  induction p as [p IH|p IH|]; [| |done]; simpl; destruct (to_bits_cons p) as (c & s & Hc);
    rewrite Hc in *; by rewrite IH.
Qed.

Lemma c_str_to_bits p : c_str (to_bits p) = to_bits p.
Proof. induction p as [p IH|p IH|]; [| |done]; simpl; by rewrite IH. Qed.

#[export] Instance json_laws : JsonLaws J.
Proof.
  refine {| json_view := view; json_clean := λ _, True |}; try done.
  - intros k v m Hm. simpl. by rewrite Hm.
  - intros k x v m Hm. exists (object (<[k:=x]> m)). simpl. rewrite Hm.
    split; [done|]. split; [|done]. exact (view_object _).
  - intros x v l Hl. exists (GenNode 1 (l ++ [x])). simpl. by rewrite Hl.
  - intros v l. simpl. destruct (view v) as [| | | |]; simpl; try done.
    + by intros [= <-].
    + by intros [= <-].
  - intros v l i x Hv Hx. unfold json_at, json_ops. rewrite Hv. cbn [elements mbind option_bind].
    rewrite Nat2Z.id. exact (f_equal (λ o, Some (default (GenNode 0 []) o)) Hx).
  - intros v s Hv. simpl. by rewrite Hv.
  - intros v _. simpl. rewrite of_to_bits. simpl. by rewrite decode_encode.
  - intros v _. simpl. rewrite c_str_to_bits. split; [done|].
    by destruct (to_bits_cons (encode v)) as (c & s & ->).
Defined.

End SampleJson.

(** ** A disk to run examples on

    A map from names to contents; the flag says that every file can be opened
    for output. *)

Module SampleDisk.

Record disk := mkDisk { files : gmap string string; writable : bool }.

#[export] Instance disk_ops : FileSystem disk := {
  fs_stat n f := (bool_decide (is_Some (files f !! n)), f);
  fs_create n f := if writable f then (true, mkDisk (<[n:=EmptyString]> (files f)) true) else (false, f);
  fs_read n f := (files f !! n, f);
  fs_truncate n f := if writable f then (true, mkDisk (<[n:=EmptyString]> (files f)) true) else (false, f);
  fs_write n c f := (tt, mkDisk (<[n:=c]> (files f)) (writable f));
}.

#[export] Instance disk_laws : HealthyDisk disk.
Proof.
  refine {| fs_holds := λ n c f, files f !! n = Some c |}.
  - intros n c f Hf. simpl. split; [|done]. apply bool_decide_eq_true. by rewrite Hf.
  - done.
  - intros n c f. simpl. intros _. by rewrite lookup_insert_eq.
Defined.

End SampleDisk.
