(* ===== verification/Policy.v ===== *)
(** * The policy service

    [services/netpolicymanager]: [NetPolicyFile] keeps the policy of each uid
    in memory and in a JSON file, [NetPolicyTraffic] checks and applies a
    change, [NetPolicyService] is the system ability. The three objects are
    created together and never freed; [traffic_file] is the pointer that
    [NetPolicyTraffic] holds to the one [NetPolicyFile]. The service lock
    makes each request one step; a thrown exception is undefined behaviour. *)

From S2P Require Import Prelude Parcel Parcelables CppStrings Files Host.

(** [enum class NetPolicyResultCode] *)
Definition ERR_NONE : Z := 0.
Definition ERR_INTERNAL_ERROR : Z := -1.
Definition ERR_INVALID_UID : Z := -10001.
Definition ERR_INVALID_POLICY : Z := -10002.

(** [enum class NetUidPolicy], an [int] *)
Definition NET_POLICY_NONE : Z := 0.
Definition NET_POLICY_ALLOW_METERED_BACKGROUND : Z := Z.shiftl 1 0.
Definition NET_POLICY_TEMPORARY_ALLOW_METERED : Z := Z.shiftl 1 1.
Definition NET_POLICY_REJECT_METERED_BACKGROUND : Z := Z.shiftl 1 2.
Definition NET_POLICY_ALLOW_ALL : Z := Z.shiftl 1 5.
Definition NET_POLICY_REJECT_ALL : Z := Z.shiftl 1 6.

(** [net_policy_define.h] *)
Definition POLICY_FILE_NAME : string := "/data/system/net_policy.json".
Definition CONFIG_HOS_VERSION : string := "hosVersion".
Definition CONFIG_UID_POLICY : string := "uidPolicy".
Definition CONFIG_UID : string := "uid".
Definition CONFIG_POLICY : string := "policy".
Definition HOS_VERSION : string := "1.0".
Definition NET_POLICY_ALLOW_MASK : Z := 35. (* 0b00100011 *)

Record UidPolicy := mkUidPolicy { uid : string; policy : string }.

Record NetPolicy := mkNetPolicy { uidPolicys : list UidPolicy; hosVersion : string }.

(** [enum class NetUidPolicyOpType] *)
Inductive NetUidPolicyOpType :=
  | NET_POLICY_UID_OP_TYPE_ADD
  | NET_POLICY_UID_OP_TYPE_DELETE
  | NET_POLICY_UID_OP_TYPE_UPDATE.

(** The process: the disk, the outgoing calls, and the three objects. *)
Record pworld (F E : Type) := mkPworld {
  p_disk : F;
  p_host : host E;
  netPolicy_ : NetPolicy;
  traffic_file : bool;         (* NetPolicyTraffic::netPolicyFile_ is not null *)
  registerToService_ : bool;
  running_ : bool;             (* state_ == STATE_RUNNING *)
}.
Arguments mkPworld {F E}.
Arguments p_disk {F E}.
Arguments p_host {F E}.
Arguments netPolicy_ {F E}.
Arguments traffic_file {F E}.
Arguments registerToService_ {F E}.
Arguments running_ {F E}.

Definition set_disk {F E} (d : F) (w : pworld F E) : pworld F E :=
  mkPworld d (p_host w) (netPolicy_ w) (traffic_file w) (registerToService_ w) (running_ w).
Definition set_phost {F E} (h : host E) (w : pworld F E) : pworld F E :=
  mkPworld (p_disk w) h (netPolicy_ w) (traffic_file w) (registerToService_ w) (running_ w).
Definition set_policy {F E} (p : NetPolicy) (w : pworld F E) : pworld F E :=
  mkPworld (p_disk w) (p_host w) p (traffic_file w) (registerToService_ w) (running_ w).
Definition set_state {F E} (reg run : bool) (w : pworld F E) : pworld F E :=
  mkPworld (p_disk w) (p_host w) (netPolicy_ w) (traffic_file w) reg run.

(** A call on the file system. *)
Definition on_disk {F E A} (f : F → A * F) : st (pworld F E) A := λ w,
  let '(a, d) := f (p_disk w) in Some (a, set_disk d w).

Definition on_phost {F E A} (m : st (host E) A) : st (pworld F E) A := λ w,
  match m (p_host w) with
  | Some (a, h) => Some (a, set_phost h w)
  | None => None
  end.

(** The value of an expression that may throw. *)
Definition throwing {S A} (o : option A) : st S A := deref o.

(** [uint32_t size = v.size(); for (i = 0; i < size; i++)] over a vector. *)
Definition sized {A} (l : list A) : list A := take (Z.to_nat (to_u 32 (Z.of_nat (length l)))) l.

(** ** net_policy_file.cpp *)

Module NetPolicyFile.
Section Code.
Context {F E J : Type} `{FileSystem F} `{JsonCpp J}.

Definition FileExists (fileName : string) : st (pworld F E) bool := on_disk (fs_stat fileName).

Definition CreateFile (fileName : string) : st (pworld F E) bool :=
  if String.eqb fileName "" then mret false
  else
    exists_ ← FileExists fileName ;
    if exists_ : bool then mret false else on_disk (fs_create fileName).

(** The entries of the array, from index [i]. *)
Fixpoint Json2Obj_entries (n : nat) (i : Z) (arrayUidPolicy : J) : option (list UidPolicy) :=
  match n with
  | O => Some []
  | S n' =>
    entry ← json_at i arrayUidPolicy ;
    uid ← json_get CONFIG_UID entry ≫= json_asString ;
    policy ← json_get CONFIG_POLICY entry ≫= json_asString ;
    rest ← Json2Obj_entries n' (i + 1) arrayUidPolicy ;
    Some (mkUidPolicy uid policy :: rest)
  end.

(** The result and the new value of the reference argument. *)
Definition Json2Obj (content : string) (netPolicy : NetPolicy) : option (bool * NetPolicy) :=
  if String.eqb content "" then Some (false, netPolicy)
  else
    let '(isSuccess, root, errs) := json_parse content in
    if isSuccess && (Z.of_nat (String.length errs) =? 0) then
      version ← json_get CONFIG_HOS_VERSION root ≫= json_asString ;
      let version := if String.eqb version "" then HOS_VERSION else version in
      arrayUidPolicy ← json_get CONFIG_UID_POLICY root ;
      entries ← Json2Obj_entries (Z.to_nat (to_u 32 (json_size arrayUidPolicy))) 0 arrayUidPolicy ;
      Some (true, mkNetPolicy (uidPolicys netPolicy ++ entries) version)
    else Some (true, netPolicy).

(** [false] is [None]; on [true] the content. *)
Definition ReadFile (fileName : string) : st (pworld F E) (option string) :=
  if String.eqb fileName "" then mret None
  else
    exists_ ← FileExists fileName ;
    if negb exists_ then mret None else on_disk (fs_read fileName).

(** The document that is written, from the value of [root] so far. *)
Fixpoint WriteFile_entries (l : list UidPolicy) (root : J) : option J :=
  match l with
  | [] => Some root
  | x :: l' =>
    uidPolicy ← json_set CONFIG_UID (json_string (uid x)) json_null ;
    uidPolicy ← json_set CONFIG_POLICY (json_string (policy x)) uidPolicy ;
    if String.eqb (policy x) (to_string (to_u 32 NET_POLICY_TEMPORARY_ALLOW_METERED))
    then WriteFile_entries l' root
    else
      array ← json_get CONFIG_UID_POLICY root ;
      array ← json_append uidPolicy array ;
      root ← json_set CONFIG_UID_POLICY array root ;
      WriteFile_entries l' root
  end.

Definition WriteFile_root (p : NetPolicy) : option J :=
  root ← json_set CONFIG_HOS_VERSION (json_string (hosVersion p)) json_null ;
  WriteFile_entries (sized (uidPolicys p)) root.

Definition WriteFile (fileName : string) : st (pworld F E) bool :=
  if String.eqb fileName "" then mret false
  else
    is_open ← on_disk (fs_truncate fileName) ;
    if negb is_open then mret false
    else
      p ← gets netPolicy_ ;
      root ← throwing (WriteFile_root p) ;
      on_disk (fs_write fileName (c_str (json_write root))) ;;
      mret true.

(** The element with that uid gets the policy: the first one only. *)
Fixpoint update_first (u p : string) (l : list UidPolicy) : list UidPolicy :=
  match l with
  | [] => []
  | x :: l' =>
    if String.eqb (uid x) u then mkUidPolicy (uid x) p :: l' else x :: update_first u p l'
  end.

Definition apply_op (op : NetUidPolicyOpType) (u p : Z) (l : list UidPolicy) : list UidPolicy :=
  match op with
  | NET_POLICY_UID_OP_TYPE_UPDATE => update_first (to_string u) (to_string (to_u 32 p)) l
  | NET_POLICY_UID_OP_TYPE_DELETE => erase_first (λ x, String.eqb (uid x) (to_string u)) l
  | NET_POLICY_UID_OP_TYPE_ADD => l ++ [mkUidPolicy (to_string u) (to_string (to_u 32 p))]
  end.

(** The overload that changes the policy of a uid. *)
Definition WriteFileOp (op : NetUidPolicyOpType) (u p : Z) : st (pworld F E) bool :=
  modify (λ w, set_policy (mkNetPolicy (apply_op op u p (uidPolicys (netPolicy_ w)))
                             (hosVersion (netPolicy_ w))) w) ;;
  ok ← WriteFile POLICY_FILE_NAME ;
  if negb ok then mret false else mret true.

(** [stol] may throw on every element up to the one that is found. *)
Fixpoint exist_loop (u : Z) (l : list UidPolicy) : option bool :=
  match l with
  | [] => Some false
  | x :: l' => v ← stol (uid x) ; if to_u 32 v =? u then Some true else exist_loop u l'
  end.

Definition IsUidPolicyExist (u : Z) : st (pworld F E) bool :=
  p ← gets netPolicy_ ; throwing (exist_loop u (sized (uidPolicys p))).

Definition GetUidPolicy (u : Z) : st (pworld F E) Z :=
  p ← gets netPolicy_ ;
  match find_first (λ x, String.eqb (uid x) (to_string u)) (uidPolicys p) with
  | Some x => v ← throwing (stol (policy x)) ; mret (to_i 32 v)
  | None => mret NET_POLICY_NONE
  end.

Fixpoint uids_loop (p : Z) (l : list UidPolicy) : option (list Z) :=
  match l with
  | [] => Some []
  | x :: l' =>
    if String.eqb (policy x) (to_string (to_u 32 p)) then
      v ← stol (uid x) ; rest ← uids_loop p l' ; Some (to_u 32 v :: rest)
    else uids_loop p l'
  end.

(** The vector argument starts out empty; the result is always true. *)
Definition GetUids (p : Z) : st (pworld F E) (bool * list Z) :=
  np ← gets netPolicy_ ;
  uids ← throwing (uids_loop p (uidPolicys np)) ; mret (true, uids).

Definition InitPolicy : st (pworld F E) bool :=
  content ← ReadFile POLICY_FILE_NAME ;
  created ← match content with Some _ => mret true | None => CreateFile POLICY_FILE_NAME end ;
  if negb created then mret false
  else
    let content := default EmptyString content in
    if negb (String.eqb content "") then
      p ← gets netPolicy_ ;
      r ← throwing (Json2Obj content p) ;
      modify (set_policy r.2) ;;
      if negb r.1 then mret false else mret true
    else mret true.

End Code.
End NetPolicyFile.

(** ** net_policy_traffic.cpp *)

Module NetPolicyTraffic.
Section Code.
Context {F E J : Type} `{FileSystem F} `{JsonCpp J}.

Definition IsPolicyValid (policy : Z) : bool :=
  (policy =? NET_POLICY_NONE) || (policy =? NET_POLICY_ALLOW_METERED_BACKGROUND)
  || (policy =? NET_POLICY_TEMPORARY_ALLOW_METERED)
  || (policy =? NET_POLICY_REJECT_METERED_BACKGROUND)
  || (policy =? NET_POLICY_ALLOW_ALL) || (policy =? NET_POLICY_REJECT_ALL).

(** The body of the three methods. *)
Definition change (op : NetUidPolicyOpType) (u p : Z) : st (pworld F E) Z :=
  file ← gets traffic_file ;
  if negb file then mret ERR_INTERNAL_ERROR
  else if negb (IsPolicyValid p) then mret ERR_INVALID_POLICY
  else
    ok ← NetPolicyFile.WriteFileOp op u p ;
    if negb ok then mret ERR_INTERNAL_ERROR else mret ERR_NONE.

Definition AddUidPolicy (u p : Z) : st (pworld F E) Z := change NET_POLICY_UID_OP_TYPE_ADD u p.

Definition SetUidPolicy (u p : Z) : st (pworld F E) Z := change NET_POLICY_UID_OP_TYPE_UPDATE u p.

Definition DeleteUidPolicy (u p : Z) : st (pworld F E) Z :=
  change NET_POLICY_UID_OP_TYPE_DELETE u p.

End Code.
End NetPolicyTraffic.

(** ** net_policy_service.cpp *)

Module NetPolicyService.
Section Code.
Context {F E J : Type} `{FileSystem F} `{JsonCpp J} `{Platform E}.

(** The object after the constructor of a new process. *)
Definition construct (d : F) (h : host E) : pworld F E :=
  mkPworld d h (mkNetPolicy [] EmptyString) true false false.

Definition Init : st (pworld F E) bool :=
  w ← gets id ;
  if negb registerLocalResult then
    modify (set_state false (running_ w)) ;; mret false
  else
    published ← (if registerToService_ w then mret true
                 else on_phost (ext EvPublishAbility PublishAbility)) ;
    if negb published then mret false
    else
      modify (λ w, set_state true (running_ w) w) ;;
      ok ← NetPolicyFile.InitPolicy ;
      if negb ok then mret false else mret true.

Definition OnStart : st (pworld F E) unit :=
  w ← gets id ;
  if running_ w then mret tt
  else
    ok ← Init ;
    if negb ok then mret tt
    else modify (λ w, set_state (registerToService_ w) true w).

Definition OnStop : st (pworld F E) unit := modify (set_state false false).

Definition SetUidPolicy (u p : Z) : st (pworld F E) Z :=
  if p =? NET_POLICY_NONE then NetPolicyTraffic.DeleteUidPolicy u p
  else
    exist ← NetPolicyFile.IsUidPolicyExist u ;
    if negb exist then NetPolicyTraffic.AddUidPolicy u p
    else NetPolicyTraffic.SetUidPolicy u p.

Definition GetUidPolicy (u : Z) : st (pworld F E) Z := NetPolicyFile.GetUidPolicy u.

Definition GetUids (p : Z) : st (pworld F E) (list Z) :=
  r ← NetPolicyFile.GetUids p ; mret r.2.

(** The two overloads have the same body: they ignore their last argument. *)
Definition net_access (u : Z) : st (pworld F E) bool :=
  uidPolicy ← NetPolicyFile.GetUidPolicy u ;
  if uidPolicy =? NET_POLICY_NONE then mret true
  else if negb (Z.land (to_u 32 uidPolicy) NET_POLICY_ALLOW_MASK =? 0) then mret true
  else mret false.

Definition IsUidNetAccess (u : Z) (metered : bool) : st (pworld F E) bool := net_access u.

Definition IsUidNetAccessIface (u : Z) (ifaceName : string) : st (pworld F E) bool := net_access u.

End Code.
End NetPolicyService.
