(* ===== verification/PolicySpec.v ===== *)
(** * The policy service as a map

    What the service promises is a finite map from uids to policies; [repr]
    relates it to the vector of pairs of strings in memory, [document] to the
    JSON document on disk. The lemmas say what each operation of
    [NetPolicyFile] does to the two. *)

From S2P Require Import Prelude Parcel Parcelables CppStrings Files Host Policy.

Definition valid (p : Z) : Prop := NetPolicyTraffic.IsPolicyValid p = true.

(** The entry of a uid with a policy. *)
Definition entry (x : Z * Z) : UidPolicy := mkUidPolicy (to_string x.1) (to_string x.2).

Definition entry_ok (x : Z * Z) : Prop := in_u 32 x.1 ∧ valid x.2 ∧ x.2 ≠ NET_POLICY_NONE.

(** [l] holds each uid of [m] once, with its policy. *)
Definition represents (m : gmap Z Z) (l : list UidPolicy) : Prop :=
  ∃ kvs : list (Z * Z),
    l = entry <$> kvs ∧ NoDup kvs.*1 ∧ list_to_map kvs = m ∧ Forall entry_ok kvs.

Definition repr {F E} (m : gmap Z Z) (w : pworld F E) : Prop :=
  traffic_file w = true ∧ represents m (uidPolicys (netPolicy_ w)) ∧
  ascii_text (hosVersion (netPolicy_ w)) = true.

Lemma valid_cases p :
  valid p → p = 0 ∨ p = 1 ∨ p = 2 ∨ p = 4 ∨ p = 32 ∨ p = 64.
Proof.
  unfold valid, NetPolicyTraffic.IsPolicyValid. rewrite !orb_true_iff, !Z.eqb_eq.
  intros [[[[[->| ->]| ->]| ->]| ->]| ->]; auto 10.
Qed.

Lemma valid_range p : valid p → 0 <= p < 128.
Proof. intros Hp. destruct (valid_cases p Hp) as [->|[->|[->|[->|[->| ->]]]]]; lia. Qed.

Lemma to_u32_valid p : valid p → to_u 32 p = p.
Proof. intros Hp%valid_range. apply to_u_small. unfold in_u. lia. Qed.

(** ** Entries in memory *)

Lemma uid_eqb u x : in_u 32 u → entry_ok x → String.eqb (uid (entry x)) (to_string u) = (x.1 =? u).
Proof. intros [Hu _] [[Hx _] _]. by apply to_string_eqb. Qed.

Lemma stol_uid x : entry_ok x → stol (uid (entry x)) = Some x.1.
Proof. intros [[??] _]. apply stol_to_string. lia. Qed.

Lemma stol_policy x : entry_ok x → stol (policy (entry x)) = Some x.2.
Proof. intros (_ & Hp%valid_range & _). apply stol_to_string. lia. Qed.

Lemma exist_loop_spec u kvs :
  in_u 32 u → Forall entry_ok kvs →
  NetPolicyFile.exist_loop u (entry <$> kvs) = Some (bool_decide (u ∈ kvs.*1)).
Proof.
  intros Hu. induction 1 as [|x kvs Hx _ IH]; [done|]. rewrite fmap_cons. simpl.
  change (to_string x.1) with (uid (entry x)). rewrite stol_uid by done. simpl.
  rewrite to_u_small by apply Hx. destruct (Z.eqb_spec x.1 u) as [->|Hne].
  - by rewrite bool_decide_eq_true_2 by left.
  - rewrite IH. f_equal. apply bool_decide_ext. cbn [fmap list_fmap]. rewrite elem_of_cons.
    split; [by right|]. by intros [->|?].
Qed.

Lemma find_entry u kvs :
  in_u 32 u → Forall entry_ok kvs →
  match find_first (λ x, String.eqb (uid x) (to_string u)) (entry <$> kvs) with
  | Some x => stol (policy x)
  | None => Some 0
  end = Some (default 0 ((list_to_map kvs : gmap Z Z) !! u)).
Proof.
  intros Hu. induction 1 as [|x kvs Hx _ IH]; [done|]. rewrite fmap_cons.
  cbn [find_first]. rewrite uid_eqb by done. destruct x as [k p]. cbn [fst list_to_map foldr].
  destruct (Z.eqb_spec k u) as [->|Hne]; simpl.
  - rewrite lookup_insert_eq. by apply (stol_policy (u, p)).
  - rewrite lookup_insert_ne by done. exact IH.
Qed.

Lemma uids_loop_spec p kvs :
  Forall entry_ok kvs →
  NetPolicyFile.uids_loop p (entry <$> kvs) = Some (filter (λ x, x.2 = to_u 32 p) kvs).*1.
Proof.
  induction 1 as [|x kvs Hx _ IH]; [done|]. rewrite fmap_cons. simpl.
  rewrite to_string_eqb; [|apply valid_range, Hx|apply to_u_range; lia]. rewrite filter_cons.
  destruct (Z.eqb_spec x.2 (to_u 32 p)); [|rewrite decide_False by done; exact IH].
  rewrite decide_True by done. change (to_string x.1) with (uid (entry x)).
  rewrite stol_uid by done. simpl. rewrite IH. simpl. by rewrite to_u_small by apply Hx.
Qed.

(** The two in-place changes, on pairs of numbers. *)
Fixpoint update_pair (u p : Z) (l : list (Z * Z)) : list (Z * Z) :=
  match l with
  | [] => []
  | x :: l' => if x.1 =? u then (x.1, p) :: l' else x :: update_pair u p l'
  end.

Lemma update_entries u p kvs :
  in_u 32 u → Forall entry_ok kvs →
  NetPolicyFile.update_first (to_string u) (to_string p) (entry <$> kvs) = entry <$> update_pair u p kvs.
Proof.
  intros Hu. induction 1 as [|x kvs Hx _ IH]; [done|]. rewrite fmap_cons. simpl.
  change (to_string x.1) with (uid (entry x)). rewrite uid_eqb by done.
  destruct (x.1 =? u); [done|]. rewrite fmap_cons. by rewrite IH.
Qed.

Lemma update_pair_keys u p kvs : (update_pair u p kvs).*1 = kvs.*1.
Proof.
  induction kvs as [|x kvs IH]; [done|]. cbn [update_pair].
  destruct (x.1 =? u); [done|]. cbn [fmap list_fmap]. by f_equal.
Qed.

Lemma update_pair_map u p kvs :
  u ∈ kvs.*1 → (list_to_map (update_pair u p kvs) : gmap Z Z) = <[u:=p]> (list_to_map kvs).
Proof.
  induction kvs as [|[k q] kvs IH]; simpl; [by intros ?%elem_of_nil|].
  destruct (Z.eqb_spec k u) as [->|Hne]; simpl; [by rewrite insert_insert_eq|].
  intros [->|Hu]%elem_of_cons; [done|]. rewrite IH by done. by rewrite insert_insert_ne by done.
Qed.

Lemma update_pair_ok u p kvs :
  entry_ok (u, p) → Forall entry_ok kvs → Forall entry_ok (update_pair u p kvs).
Proof.
  intros Hp. induction 1 as [|x kvs Hx Hk IH]; simpl; [done|].
  destruct (Z.eqb_spec x.1 u) as [->|]; by constructor.
Qed.

Lemma erase_entries u kvs :
  in_u 32 u → Forall entry_ok kvs →
  erase_first (λ x, String.eqb (uid x) (to_string u)) (entry <$> kvs)
  = entry <$> erase_first (λ x, x.1 =? u) kvs.
Proof.
  intros Hu. induction 1 as [|x kvs Hx _ IH]; [done|]. rewrite fmap_cons. cbn [erase_first].
  rewrite uid_eqb by done. destruct (x.1 =? u); [done|]. rewrite fmap_cons. by rewrite IH.
Qed.

Lemma erase_pair_map u kvs :
  NoDup kvs.*1 →
  (list_to_map (erase_first (λ x, x.1 =? u) kvs) : gmap Z Z) = delete u (list_to_map kvs).
Proof.
  induction kvs as [|[k q] kvs IH]; simpl; [by rewrite delete_empty|].
  intros [Hk Hd]%NoDup_cons. destruct (Z.eqb_spec k u) as [->|Hne]; simpl.
  - rewrite delete_insert_id; [done|]. by apply not_elem_of_list_to_map.
  - rewrite IH by done. by rewrite delete_insert_ne.
Qed.

(** The three operations implement the map. *)
Lemma represents_set m l u p :
  represents m l → in_u 32 u → valid p → p ≠ NET_POLICY_NONE →
  NetPolicyFile.exist_loop u l = Some (bool_decide (is_Some (m !! u))) ∧
  represents (<[u:=p]> m)
    (NetPolicyFile.apply_op (if bool_decide (is_Some (m !! u)) then NET_POLICY_UID_OP_TYPE_UPDATE
                             else NET_POLICY_UID_OP_TYPE_ADD) u p l).
Proof.
  intros (kvs & -> & Hd & <- & Hok) Hu Hp Hn.
  assert (Hb : bool_decide (u ∈ kvs.*1) = bool_decide (is_Some ((list_to_map kvs : gmap Z Z) !! u))).
  { apply bool_decide_ext. rewrite <- not_eq_None_Some. rewrite <- not_elem_of_list_to_map.
    split; [intros Hin Hno; by apply Hno|]. intros Hnn. destruct (decide (u ∈ kvs.*1)); [done|].
    by destruct Hnn. }
  rewrite exist_loop_spec by done. rewrite Hb. split; [done|]. rewrite <- Hb. clear Hb.
  case_bool_decide as Hin; simpl; rewrite to_u32_valid by done.
  - exists (update_pair u p kvs). rewrite update_entries by done. split; [done|].
    rewrite update_pair_keys. split; [done|]. split; [by apply update_pair_map|].
    by apply update_pair_ok.
  - exists (kvs ++ [(u, p)]). rewrite !fmap_app. split; [done|]. split.
    { apply NoDup_app. split; [done|]. split; [|apply NoDup_singleton].
      intros x Hx ->%list_elem_of_singleton. done. }
    split; [by apply list_to_map_snoc|]. apply Forall_app. split; [done|]. by constructor.
Qed.

Lemma represents_delete m l u p :
  represents m l → in_u 32 u →
  represents (delete u m) (NetPolicyFile.apply_op NET_POLICY_UID_OP_TYPE_DELETE u p l).
Proof.
  intros (kvs & -> & Hd & <- & Hok) Hu. simpl. exists (erase_first (λ x, x.1 =? u) kvs).
  rewrite erase_entries by done. split; [done|].
  assert (Hs : erase_first (λ x, x.1 =? u) kvs `sublist_of` kvs) by apply erase_first_sublist.
  split; [|split; [by apply erase_pair_map|]].
  - eapply sublist_NoDup; [exact Hd|]. by apply fmap_sublist.
  - apply Forall_forall. intros x Hx. rewrite Forall_forall in Hok. apply Hok.
    by eapply elem_of_sublist.
Qed.

Lemma represents_length m l : represents m l → length l = size m.
Proof.
  intros (kvs & -> & Hd & <- & _). rewrite length_fmap.
  rewrite map_size_list_to_map by done. done.
Qed.

(** ** The document on disk *)

Section Document.
Context {J : Type} `{JsonLaws J}.

Definition entry_value (x : UidPolicy) (v : J) : Prop :=
  ∃ m a b, json_view v = JObject m ∧ m !! CONFIG_UID = Some a ∧ m !! CONFIG_POLICY = Some b ∧
    json_view a = JString (uid x) ∧ json_view b = JString (policy x).

(** [root] is the document with that version and those entries, in order. *)
Definition document (root : J) (version : string) (l : list UidPolicy) : Prop :=
  json_clean root ∧ ∃ m v arr,
    json_view root = JObject m ∧ m !! CONFIG_HOS_VERSION = Some v ∧ json_view v = JString version ∧
    elements (json_view (default json_null (m !! CONFIG_UID_POLICY))) = Some arr ∧
    Forall2 entry_value l arr.

(** The entries that are written: all but the temporary ones. *)
Definition kept (x : UidPolicy) : bool :=
  negb (String.eqb (policy x) (to_string (to_u 32 NET_POLICY_TEMPORARY_ALLOW_METERED))).

Definition plain (x : UidPolicy) : Prop := ascii_text (uid x) = true ∧ ascii_text (policy x) = true.

Lemma entry_built x :
  plain x → ∃ v v', json_set CONFIG_UID (json_string (uid x)) json_null = Some v ∧
    json_set CONFIG_POLICY (json_string (policy x)) v = Some v' ∧ entry_value x v' ∧ json_clean v'.
Proof.
  intros [Hu Hp].
  destruct (set_fields CONFIG_UID (json_string (uid x)) json_null ∅) as (v & E & V & C).
  { by rewrite view_null. }
  destruct (set_fields CONFIG_POLICY (json_string (policy x)) v _ ltac:(by rewrite V)) as (v' & E' & V' & C').
  exists v, v'. split; [done|]. split; [done|]. split.
  - eexists _, (json_string (uid x)), (json_string (policy x)). split; [exact V'|].
    rewrite lookup_insert_ne by done. rewrite !lookup_insert_eq. by rewrite !view_string.
  - apply C'; [|by apply clean_string]. apply C; [apply clean_null|by apply clean_string].
Qed.

Lemma document_append root version l x v :
  document root version l → entry_value x v → json_clean v →
  ∃ array array' root', json_get CONFIG_UID_POLICY root = Some array ∧
    json_append v array = Some array' ∧ json_set CONFIG_UID_POLICY array' root = Some root' ∧
    document root' version (l ++ [x]).
Proof.
  intros (Hc & m & w & arr & Hr & Hw & Hv & Ha & Hl) Hx Hcv.
  pose proof (get_fields CONFIG_UID_POLICY root m ltac:(by rewrite Hr)) as Hg.
  destruct (append_elements v _ arr Ha) as (a' & Ea & Va & Ca).
  destruct (set_fields CONFIG_UID_POLICY a' root m ltac:(by rewrite Hr)) as (r' & Er & Vr & Cr).
  eexists _, a', r'. split; [exact Hg|]. split; [done|]. split; [done|]. split.
  - apply Cr; [done|]. apply Ca; [|done].
    destruct (m !! CONFIG_UID_POLICY) as [a|] eqn:Em; [|apply clean_null].
    exact (clean_field root m CONFIG_UID_POLICY a Hc Hr Em).
  - eexists _, w, (arr ++ [v]). split; [exact Vr|]. rewrite lookup_insert_ne by done.
    split; [done|]. split; [done|]. rewrite lookup_insert_eq. simpl. rewrite Va.
    split; [done|]. apply Forall2_app; [done|]. by constructor.
Qed.

Lemma WriteFile_entries_document l root version done_ :
  document root version done_ → Forall plain l →
  ∃ root', NetPolicyFile.WriteFile_entries l root = Some root' ∧
    document root' version (done_ ++ List.filter kept l).
Proof.
  revert root done_. induction l as [|x l IH]; intros root done_ Hd; [|intros [Hx Hl]%Forall_cons].
  - exists root. by rewrite app_nil_r.
  - destruct (entry_built x Hx) as (v & v' & E & E' & Hv & Hcv). cbn [NetPolicyFile.WriteFile_entries].
    rewrite E. cbn [mbind option_bind]. rewrite E'. cbn [mbind option_bind List.filter]. unfold kept at 1.
    destruct (String.eqb (policy x) _); cbn [negb]; [by apply IH|].
    destruct (document_append root version done_ x v' Hd Hv Hcv) as (a & a' & r' & G1 & G2 & G3 & Hd').
    rewrite G1. cbn [mbind option_bind]. rewrite G2. cbn [mbind option_bind]. rewrite G3.
    cbn [mbind option_bind]. destruct (IH r' _ Hd') as (r & Hr & Hdr); [done|].
    exists r. split; [done|]. by rewrite <- app_assoc in Hdr.
Qed.

Lemma sized_all {A} (l : list A) : Z.of_nat (length l) < 2 ^ 32 → sized l = l.
Proof. intros Hl. unfold sized. rewrite to_u_small by (split; lia). by rewrite Nat2Z.id, firstn_all. Qed.

Lemma WriteFile_document p :
  ascii_text (hosVersion p) = true → Forall plain (uidPolicys p) →
  Z.of_nat (length (uidPolicys p)) < 2 ^ 32 →
  ∃ root : J, NetPolicyFile.WriteFile_root p = Some root ∧
    document root (hosVersion p) (List.filter kept (uidPolicys p)).
Proof.
  intros Hv Hp Hlen. unfold NetPolicyFile.WriteFile_root. rewrite sized_all by done.
  destruct (set_fields CONFIG_HOS_VERSION (json_string (hosVersion p)) json_null ∅) as (v & E & V & C).
  { by rewrite view_null. }
  rewrite E. cbn [mbind option_bind].
  apply (WriteFile_entries_document (uidPolicys p) v (hosVersion p) []); [|done]. split.
  - apply C; [apply clean_null|by apply clean_string].
  - eexists _, (json_string (hosVersion p)), []. split; [exact V|]. rewrite lookup_insert_eq.
    split; [done|]. split; [apply view_string|]. rewrite lookup_insert_ne by done.
    rewrite lookup_empty. simpl. by rewrite view_null.
Qed.

Lemma read_entry x v :
  entry_value x v → json_get CONFIG_UID v ≫= json_asString = Some (uid x) ∧
    json_get CONFIG_POLICY v ≫= json_asString = Some (policy x).
Proof.
  intros (m & a & b & Hv & Ha & Hb & Va & Vb).
  rewrite !(get_fields _ v m) by (by rewrite Hv). rewrite Ha, Hb. simpl.
  split; by apply asString_string.
Qed.

Lemma Json2Obj_entries_spec v arr n l :
  json_view v = JArray arr → Forall2 entry_value l (drop n arr) →
  NetPolicyFile.Json2Obj_entries (length l) (Z.of_nat n) v = Some l.
Proof.
  intros Hv. revert n. induction l as [|x l IH]; intros n Hl; [done|].
  destruct (drop n arr) as [|a rest] eqn:Ed; [inversion Hl|]. apply Forall2_cons in Hl as [Hx Hl].
  assert (Ha : arr !! n = Some a).
  { rewrite <- (Nat.add_0_r n), <- lookup_drop, Ed. done. }
  cbn [length NetPolicyFile.Json2Obj_entries]. rewrite (at_elements v arr n a) by done.
  cbn [mbind option_bind]. destruct (read_entry x a Hx) as [-> ->]. cbn [mbind option_bind].
  replace (Z.of_nat n + 1) with (Z.of_nat (S n)) by lia. rewrite IH; [by destruct x|].
  assert (drop (S n) arr = rest) as ->; [|done].
  replace (S n) with (n + 1)%nat by lia. by rewrite <- drop_drop, Ed.
Qed.

(** Reading back a document adds its entries to those in memory. *)
Lemma Json2Obj_document root version l p :
  document root version l → Z.of_nat (length l) < 2 ^ 32 →
  NetPolicyFile.Json2Obj (json_write root) p
  = Some (true, mkNetPolicy (uidPolicys p ++ l) (if String.eqb version "" then HOS_VERSION else version)).
Proof.
  intros (Hc & m & w & arr & Hr & Hw & Hv & Ha & Hl) Hlen. unfold NetPolicyFile.Json2Obj.
  destruct (write_text root Hc) as [_ Hne]. destruct (String.eqb_spec (json_write root) ""); [done|].
  rewrite parse_write by done. cbn [andb].
  rewrite !(get_fields _ root m) by (by rewrite Hr). rewrite Hw. cbn [default mbind option_bind from_option].
  cbn. rewrite (asString_string w version Hv). cbn.
  pose proof (Forall2_length _ _ _ Hl) as Hlen2.
  rewrite (size_elements _ arr Ha). rewrite <- Hlen2. rewrite to_u_small by (split; lia).
  rewrite Nat2Z.id.
  assert (He : NetPolicyFile.Json2Obj_entries (length l) 0 (default json_null (m !! CONFIG_UID_POLICY)) = Some l).
  { destruct (json_view (default json_null (m !! CONFIG_UID_POLICY))) as [| |a| |] eqn:Ev; try done.
    - injection Ha as <-. by apply Forall2_nil_inv_r in Hl as ->.
    - injection Ha as ->. by apply (Json2Obj_entries_spec _ arr 0). }
  rewrite He. done.
Qed.

End Document.
