(* ===== verification/PolicyCorrect.v ===== *)
(** * The operations of the policy service are those of the map

    The requests of a client, the abstract service they are compared with, and
    the effect of every operation of [Policy] and of starting the process. *)

From S2P Require Import Prelude Parcel Parcelables CppStrings Files Host Policy PolicySpec.

(** The requests of a client. *)
Inductive policy_request :=
  | PSetUidPolicy (u p : Z)
  | PGetUidPolicy (u : Z)
  | PGetUids (p : Z)
  | PIsUidNetAccess (u : Z) (metered : bool)
  | PIsUidNetAccessIface (u : Z) (ifaceName : string).

Inductive policy_reply :=
  | RCode (c : Z)
  | RPolicy (p : Z)
  | RUids (l : list Z)
  | RAccess (b : bool).

(** The arguments have their types: [uint32_t] uids, [int] policies. *)
Definition well_typed (q : policy_request) : Prop :=
  match q with
  | PSetUidPolicy u p => in_u 32 u ∧ in_i 32 p
  | PGetUidPolicy u | PIsUidNetAccess u _ | PIsUidNetAccessIface u _ => in_u 32 u
  | PGetUids p => in_i 32 p
  end.

(** ** The abstract service *)

(** Access is refused to the uids with one of the two rejecting policies. *)
Definition access_allowed (o : option Z) : bool :=
  match o with
  | Some p => negb ((p =? NET_POLICY_REJECT_METERED_BACKGROUND) || (p =? NET_POLICY_REJECT_ALL))
  | None => true
  end.

Definition policy_spec (q : policy_request) (m : gmap Z Z) : gmap Z Z :=
  match q with
  | PSetUidPolicy u p =>
    if NetPolicyTraffic.IsPolicyValid p then
      if p =? NET_POLICY_NONE then delete u m else <[u:=p]> m
    else m
  | _ => m
  end.

(** The reply that the map determines; a valid change reports whether the file
    could be written. *)
Definition policy_answer (q : policy_request) (m : gmap Z Z) (r : policy_reply) : Prop :=
  match q, r with
  | PSetUidPolicy u p, RCode c =>
    if NetPolicyTraffic.IsPolicyValid p then c = ERR_NONE ∨ c = ERR_INTERNAL_ERROR
    else c = ERR_INVALID_POLICY
  | PGetUidPolicy u, RPolicy p => p = default NET_POLICY_NONE (m !! u)
  | PGetUids p, RUids l => NoDup l ∧ ∀ u, u ∈ l ↔ m !! u = Some p
  | PIsUidNetAccess u _, RAccess b | PIsUidNetAccessIface u _, RAccess b =>
    b = access_allowed (m !! u)
  | _, _ => False
  end.

(** The replies along a sequence of requests. *)
Fixpoint conforms (qs : list policy_request) (m : gmap Z Z) (rs : list policy_reply) : Prop :=
  match qs, rs with
  | [], [] => True
  | q :: qs', r :: rs' => policy_answer q m r ∧ conforms qs' (policy_spec q m) rs'
  | _, _ => False
  end.

(** ** The service of the code *)

Section Code.
Context {F E J : Type} `{FileSystem F} `{JsonCpp J} `{Platform E}.
Implicit Type w : pworld F E.

Definition policy_handle (q : policy_request) : st (pworld F E) policy_reply :=
  match q with
  | PSetUidPolicy u p => c ← NetPolicyService.SetUidPolicy (J:=J) u p ; mret (RCode c)
  | PGetUidPolicy u => p ← NetPolicyService.GetUidPolicy u ; mret (RPolicy p)
  | PGetUids p => l ← NetPolicyService.GetUids p ; mret (RUids l)
  | PIsUidNetAccess u b => a ← NetPolicyService.IsUidNetAccess u b ; mret (RAccess a)
  | PIsUidNetAccessIface u i => a ← NetPolicyService.IsUidNetAccessIface u i ; mret (RAccess a)
  end.

Fixpoint policy_run (qs : list policy_request) : st (pworld F E) (list policy_reply) :=
  match qs with
  | [] => mret []
  | q :: qs' => r ← policy_handle q ; rs ← policy_run qs' ; mret (r :: rs)
  end.

(** ** What each operation does *)

Context `{!JsonLaws J}.

(** The file holds a document of these entries. *)
Definition on_file `{!HealthyDisk F} (version : string) (l : list UidPolicy) (d : F) : Prop :=
  ∃ root : J, fs_holds POLICY_FILE_NAME (json_write root) d ∧ document root version l.

Lemma plain_entries kvs : Forall entry_ok kvs → Forall plain (entry <$> kvs).
Proof.
  intros Hok. apply Forall_fmap. eapply Forall_impl; [exact Hok|].
  intros x ([Hx _] & Hp%valid_range & _). split; apply to_string_text; lia.
Qed.

Lemma represents_plain m l : represents m l → Forall plain l.
Proof.
  intros (kvs & -> & _ & _ & Hok). by apply plain_entries.
Qed.

(** [WriteFile] never throws on such entries, and only fails when the file
    cannot be opened; it changes nothing but the disk. *)
Definition writable_policy (p : NetPolicy) : Prop :=
  ascii_text (hosVersion p) = true ∧ Forall plain (uidPolicys p) ∧
  Z.of_nat (length (uidPolicys p)) < 2 ^ 32.

(** The disk after a successful write. *)
Definition written (root : J) (d : F) : F :=
  (fs_write POLICY_FILE_NAME (json_write root) (fs_truncate POLICY_FILE_NAME d).2).2.

Definition opens (d : F) : bool := (fs_truncate POLICY_FILE_NAME d).1.

Lemma wp_WriteFile w :
  writable_policy (netPolicy_ w) →
  wp (NetPolicyFile.WriteFile (J:=J) POLICY_FILE_NAME) (λ ok w', ∃ (root : J) d,
    ok = opens (p_disk w) ∧ w' = set_disk d w ∧ (ok = true → d = written root (p_disk w)) ∧
    document root (hosVersion (netPolicy_ w)) (List.filter kept (uidPolicys (netPolicy_ w)))) w.
Proof.
  intros (Hv & Hr & Hm).
  destruct (WriteFile_document (J:=J) (netPolicy_ w) Hv Hr Hm) as (root & Hw & Hd).
  destruct (write_text root (proj1 Hd)) as [Hc _]. unfold opens, written.
  unfold NetPolicyFile.WriteFile. simpl. apply wp_bind. unfold wp at 1, on_disk.
  destruct (fs_truncate POLICY_FILE_NAME (p_disk w)) as [ok d] eqn:Et.
  exists ok, (set_disk d w). split; [done|]. destruct ok; simpl.
  - apply wp_bind, wp_gets. simpl. apply wp_bind. eapply wp_deref; [exact Hw|]. apply wp_bind.
    unfold wp at 1, on_disk. simpl. rewrite Hc.
    destruct (fs_write POLICY_FILE_NAME (json_write root) d) as [u d'] eqn:Ew.
    exists u, (set_disk d' (set_disk d w)). split; [done|]. apply wp_ret. exists root, d'. by rewrite Ew.
  - apply wp_ret. by exists root, d.
Qed.

(** A change of the vector in memory, then of the file. *)
Definition changed_policy (op : NetUidPolicyOpType) (u p : Z) (np : NetPolicy) : NetPolicy :=
  mkNetPolicy (NetPolicyFile.apply_op op u p (uidPolicys np)) (hosVersion np).

Definition changed (np : NetPolicy) w (c : Z) (w' : pworld F E) : Prop := ∃ (root : J) d,
  c = (if opens (p_disk w) then ERR_NONE else ERR_INTERNAL_ERROR) ∧
  w' = set_disk d (set_policy np w) ∧ (c = ERR_NONE → d = written root (p_disk w)) ∧
  document root (hosVersion np) (List.filter kept (uidPolicys np)).

Lemma wp_change op u p w :
  traffic_file w = true → valid p → writable_policy (changed_policy op u p (netPolicy_ w)) →
  wp (NetPolicyTraffic.change (J:=J) op u p) (changed (changed_policy op u p (netPolicy_ w)) w) w.
Proof.
  intros Ht Hp Hw. unfold NetPolicyTraffic.change. apply wp_bind, wp_gets.
  rewrite Ht. unfold valid in Hp. rewrite Hp. cbn [negb]. apply wp_bind.
  unfold NetPolicyFile.WriteFileOp. apply wp_bind, wp_modify, wp_bind.
  eapply wp_mono; [by apply wp_WriteFile|]. cbn [p_disk set_policy netPolicy_].
  intros ok w' (root & d & -> & -> & Hok & Hd). destruct (opens (p_disk w)) eqn:Eo;
    apply wp_ret; cbn [negb]; apply wp_ret; exists root, d; rewrite Eo;
    (split; [done|]; split; [done|]; split; [|exact Hd]); [by intros _; apply Hok|done].
Qed.

Lemma repr_writable m np :
  represents m (uidPolicys np) → ascii_text (hosVersion np) = true → Z.of_nat (size m) < 2 ^ 32 →
  writable_policy np.
Proof.
  intros Hr Hv Hm. split; [done|]. split; [by apply (represents_plain m)|].
  by rewrite (represents_length m).
Qed.

Lemma size_spec q m : (size (policy_spec q m) <= S (size m))%nat.
Proof.
  destruct q as [u p| | | |]; simpl; try lia.
  destruct (NetPolicyTraffic.IsPolicyValid p); [|lia]. destruct (p =? NET_POLICY_NONE).
  - rewrite map_size_delete. destruct (m !! u); simpl; lia.
  - rewrite map_size_insert. destruct (m !! u); simpl; lia.
Qed.

(** [SetUidPolicy] of the service, for every valid policy. *)
Lemma wp_SetUidPolicy m u p w :
  repr m w → in_u 32 u → valid p → Z.of_nat (size m) < 2 ^ 32 - 1 →
  wp (NetPolicyService.SetUidPolicy (J:=J) u p) (λ c w', ∃ np,
    represents (policy_spec (PSetUidPolicy u p) m) (uidPolicys np) ∧
    hosVersion np = hosVersion (netPolicy_ w) ∧ changed np w c w') w.
Proof.
  intros (Ht & Hr & Hv) Hu Hp Hm. unfold NetPolicyService.SetUidPolicy.
  pose proof (size_spec (PSetUidPolicy u p) m) as Hs.
  assert (Hch : ∀ op, represents (policy_spec (PSetUidPolicy u p) m)
      (NetPolicyFile.apply_op op u p (uidPolicys (netPolicy_ w))) →
    wp (NetPolicyTraffic.change (J:=J) op u p) (λ c w', ∃ np,
      represents (policy_spec (PSetUidPolicy u p) m) (uidPolicys np) ∧
      hosVersion np = hosVersion (netPolicy_ w) ∧ changed np w c w') w).
  { intros op Hop. eapply wp_mono; [apply wp_change; [done..|]|].
    - apply (repr_writable (policy_spec (PSetUidPolicy u p) m)); [exact Hop|done|lia].
    - intros c w' Hc. eexists. by split; [|split; [|exact Hc]]. }
  revert Hch. simpl. rewrite Hp. intros Hch. destruct (Z.eqb_spec p NET_POLICY_NONE) as [->|Hn].
  - apply Hch. by apply represents_delete.
  - destruct (represents_set m _ u p Hr Hu Hp Hn) as [He Hr'].
    assert (Hl : Z.of_nat (length (uidPolicys (netPolicy_ w))) < 2 ^ 32)
      by (rewrite (represents_length m) by done; lia).
    apply wp_bind. apply wp_bind, wp_gets. eapply wp_deref; [by rewrite sized_all|].
    case_bool_decide; cbn [negb]; by apply Hch.
Qed.

Lemma changed_repr m np w c w' :
  traffic_file w = true → ascii_text (hosVersion np) = true → represents m (uidPolicys np) →
  changed np w c w' → repr m w'.
Proof. intros Ht Hv Hr (root & d & _ & -> & _). done. Qed.

Lemma wp_GetUidPolicy_pairs kvs u w :
  uidPolicys (netPolicy_ w) = entry <$> kvs → Forall entry_ok kvs → in_u 32 u →
  wp (NetPolicyFile.GetUidPolicy u) (λ p w',
    p = default NET_POLICY_NONE ((list_to_map kvs : gmap Z Z) !! u) ∧ w' = w) w.
Proof.
  intros Hl Hok Hu. unfold NetPolicyFile.GetUidPolicy.
  apply wp_bind, wp_gets. rewrite Hl. pose proof (find_entry u kvs Hu Hok) as Hf.
  assert (Hrange : in_i 32 (default 0 ((list_to_map kvs : gmap Z Z) !! u))).
  { destruct ((list_to_map kvs : gmap Z Z) !! u) as [p|] eqn:Ep; [|done].
    apply elem_of_list_to_map_2 in Ep. rewrite Forall_forall in Hok.
    destruct (Hok _ Ep) as (_ & Hp%valid_range & _). simpl in *. unfold in_i. lia. }
  destruct (find_first _ (entry <$> kvs)) as [x|].
  - apply wp_bind. eapply wp_deref; [exact Hf|]. apply wp_ret. by rewrite to_i_small.
  - apply wp_ret. injection Hf as Hf. done.
Qed.

Lemma wp_GetUidPolicy m u w :
  repr m w → in_u 32 u →
  wp (NetPolicyFile.GetUidPolicy u) (λ p w', p = default NET_POLICY_NONE (m !! u) ∧ w' = w) w.
Proof. intros (_ & (kvs & Hl & _ & <- & Hok) & _) Hu. by apply wp_GetUidPolicy_pairs. Qed.

(** What the mask lets through. *)
Lemma mask_access p :
  valid p → p ≠ NET_POLICY_NONE →
  negb (Z.land (to_u 32 p) NET_POLICY_ALLOW_MASK =? 0) = access_allowed (Some p).
Proof. intros Hp Hn. by destruct (valid_cases p Hp) as [->|[->|[->|[->|[->| ->]]]]]. Qed.

Lemma repr_valid m w u p : repr m w → m !! u = Some p → valid p ∧ p ≠ NET_POLICY_NONE.
Proof.
  intros (_ & (kvs & _ & _ & <- & Hok) & _) Hp. apply elem_of_list_to_map_2 in Hp.
  rewrite Forall_forall in Hok. by destruct (Hok _ Hp) as (_ & ? & ?).
Qed.

Lemma wp_net_access m u w :
  repr m w → in_u 32 u →
  wp (NetPolicyService.net_access u) (λ b w', b = access_allowed (m !! u) ∧ w' = w) w.
Proof.
  intros Hw Hu. apply wp_bind. eapply wp_mono; [by apply (wp_GetUidPolicy m)|].
  intros p w' [-> ->]. destruct (m !! u) as [p|] eqn:Ep; [|by apply wp_ret].
  destruct (repr_valid m w u p Hw Ep) as [Hp Hn]. cbn [default from_option id].
  destruct (Z.eqb_spec p NET_POLICY_NONE); [done|]. rewrite mask_access by done.
  destruct (access_allowed (Some p)); by apply wp_ret.
Qed.

Lemma wp_GetUids m p w :
  repr m w → in_i 32 p →
  wp (NetPolicyService.GetUids p) (λ l w', (NoDup l ∧ ∀ u, u ∈ l ↔ m !! u = Some p) ∧ w' = w) w.
Proof.
  intros Hw Hp. pose proof Hw as (_ & (kvs & Hl & Hd & Hm & Hok) & _). apply wp_bind, wp_bind, wp_gets.
  rewrite Hl. apply wp_bind. eapply wp_deref; [by apply uids_loop_spec|]. do 2 apply wp_ret. simpl.
  split; [|done]. split.
  { eapply sublist_NoDup; [exact Hd|]. apply fmap_sublist, sublist_filter. }
  intros u. rewrite list_elem_of_fmap. split.
  - intros ([k q] & -> & [Hq Hin]%list_elem_of_filter). simpl in Hq |- *. subst q m.
    rewrite Forall_forall in Hok. destruct (Hok _ Hin) as (_ & Hv & Hn). simpl in Hv, Hn.
    rewrite (elem_of_list_to_map_1 kvs k (to_u 32 p)) by done. f_equal.
    apply valid_range in Hv. unfold in_i, to_u in *. destruct (decide (0 <= p)).
    + rewrite Z.mod_small; lia.
    + assert (p mod 2 ^ 32 = p + 2 ^ 32); [|lia]. symmetry. apply Z.mod_unique with (-1); lia.
  - intros Hu. exists (u, p). split; [done|]. apply list_elem_of_filter. simpl.
    destruct (repr_valid m w u p Hw Hu) as [Hv _]. rewrite to_u32_valid by done.
    split; [done|]. subst m. by apply elem_of_list_to_map_2.
Qed.

(** ** Starting *)

(** [InitPolicy] leaves all but the disk and the policies as they are, and
    returns [ok] with the policies [p]. *)
Definition initialised (ok : bool) (p : NetPolicy) w (ok' : bool) (w' : pworld F E) : Prop :=
  ok' = ok ∧ ∃ d, w' = set_disk d (set_policy p w).

Lemma wp_OnStart (p : NetPolicy) (ok : bool) w :
  running_ w = false →
  (∀ w1, p_disk w1 = p_disk w → netPolicy_ w1 = netPolicy_ w →
     wp (NetPolicyFile.InitPolicy (J:=J)) (initialised ok p w1) w1) →
  wp (NetPolicyService.OnStart (J:=J)) (λ _ w',
    (running_ w' = true → netPolicy_ w' = p) ∧ traffic_file w' = traffic_file w) w.
Proof.
  intros Hrun Hinit. unfold NetPolicyService.OnStart. apply wp_bind, wp_gets. unfold id. rewrite Hrun.
  apply wp_bind. unfold NetPolicyService.Init. apply wp_bind, wp_gets. unfold id.
  destruct registerLocalResult; cbn [negb].
  2:{ apply wp_bind, wp_modify, wp_ret. cbn [negb]. apply wp_ret. simpl. by rewrite Hrun. }
  apply wp_bind.
  assert (Hpub : wp (if registerToService_ w then mret true
      else on_phost (ext EvPublishAbility PublishAbility))
    (λ _ w1, ∃ h, w1 = set_phost h w) w).
  { destruct (registerToService_ w); [apply wp_ret; exists (p_host w); by destruct w|].
    unfold wp, on_phost, ext. destruct (PublishAbility _) as [b e]. eauto. }
  eapply wp_mono; [exact Hpub|]. intros b w1 [h ->]. destruct b; cbn [negb].
  2:{ apply wp_ret. cbn [negb]. apply wp_ret. simpl. by rewrite Hrun. }
  apply wp_bind, wp_modify, wp_bind. eapply wp_mono; [by apply Hinit|].
  intros ok' w2 [-> [d ->]]. destruct ok; cbn [negb]; apply wp_ret; cbn [negb].
  - by apply wp_modify.
  - apply wp_ret. simpl. by rewrite Hrun.
Qed.

Lemma wp_read_policy_file (Q : option string → pworld F E → Prop) w :
  (∀ d, (fs_stat POLICY_FILE_NAME (p_disk w)).1 = false →
     d = (fs_stat POLICY_FILE_NAME (p_disk w)).2 → Q None (set_disk d w)) →
  (∀ d c, (fs_stat POLICY_FILE_NAME (p_disk w)).1 = true →
     fs_read POLICY_FILE_NAME (fs_stat POLICY_FILE_NAME (p_disk w)).2 = (c, d) → Q c (set_disk d w)) →
  wp (NetPolicyFile.ReadFile POLICY_FILE_NAME) Q w.
Proof.
  intros HN HS. unfold NetPolicyFile.ReadFile. simpl. apply wp_bind.
  unfold NetPolicyFile.FileExists, wp at 1, on_disk.
  destruct (fs_stat POLICY_FILE_NAME (p_disk w)) as [b d] eqn:Es. exists b, (set_disk d w).
  split; [done|]. destruct b; cbn [negb].
  - unfold wp, on_disk. cbn [p_disk set_disk].
    destruct (fs_read POLICY_FILE_NAME d) as [c d'] eqn:Er. eexists _, _. split; [done|].
    exact (HS d' c eq_refl Er).
  - apply wp_ret. by apply HN.
Qed.

Context `{!HealthyDisk F}.

(** A file with a document adds its entries to those in memory. *)
Lemma wp_InitPolicy_document version l w :
  on_file version l (p_disk w) → Z.of_nat (length l) < 2 ^ 32 →
  wp (NetPolicyFile.InitPolicy (J:=J))
    (initialised true (mkNetPolicy (uidPolicys (netPolicy_ w) ++ l)
       (if String.eqb version "" then HOS_VERSION else version)) w) w.
Proof.
  intros (root & Hf & Hd) Hl. destruct (holds_stat _ _ _ Hf) as [Hs Hf'].
  destruct (holds_read _ _ _ Hf') as [Hr _]. unfold NetPolicyFile.InitPolicy. apply wp_bind.
  apply wp_read_policy_file; [intros d Hno; by rewrite Hno in Hs|].
  intros d c _ Hrd. rewrite Hrd in Hr. simpl in Hr. subst c. apply wp_bind, wp_ret.
  cbn [negb default from_option id]. destruct (write_text root (proj1 Hd)) as [_ Hne].
  destruct (String.eqb_spec (json_write root) ""); [done|]. cbn [negb].
  apply wp_bind, wp_gets, wp_bind.
  eapply wp_deref; [cbn [netPolicy_ set_disk]; by apply Json2Obj_document|].
  apply wp_bind, wp_modify. cbn [negb fst]. apply wp_ret. split; [done|]. by exists d.
Qed.

(** No file, or an empty one: nothing is added. *)
Lemma wp_InitPolicy_empty (d : F) :
  (fs_stat POLICY_FILE_NAME d).1 = false ∨ fs_holds POLICY_FILE_NAME EmptyString d →
  ∃ ok, ∀ w, p_disk w = d → wp (NetPolicyFile.InitPolicy (J:=J)) (initialised ok (netPolicy_ w) w) w.
Proof.
  intros Hf. unfold NetPolicyFile.InitPolicy.
  assert (Hset : ∀ d w, set_disk d w = set_disk d (set_policy (netPolicy_ w) w)) by (by intros ? []).
  destruct Hf as [Hs|Hf].
  - destruct (fs_stat POLICY_FILE_NAME (fs_stat POLICY_FILE_NAME d).2) as [b d1] eqn:E1.
    destruct (fs_create POLICY_FILE_NAME d1) as [b' d2] eqn:E2.
    exists (negb b && b'). intros w Hw. apply wp_bind, wp_read_policy_file; rewrite Hw;
      [|intros ? c Hyes; by rewrite Hyes in Hs].
    intros ? _ ->. apply wp_bind. unfold NetPolicyFile.CreateFile. simpl. apply wp_bind.
    unfold NetPolicyFile.FileExists, wp at 1, on_disk. cbn [p_disk set_disk]. rewrite E1.
    exists b, (set_disk d1 w). split; [done|]. destruct b.
    + apply wp_ret. cbn [negb]. apply wp_ret. split; [done|]. exists d1. apply Hset.
    + unfold wp at 1, on_disk. cbn [p_disk set_disk]. rewrite E2. exists b', (set_disk d2 w).
      split; [done|]. destruct b'; cbn [negb]; apply wp_ret; (split; [done|]); exists d2; apply Hset.
  - exists true. intros w Hw. destruct (holds_stat _ _ _ Hf) as [Hs Hf'].
    destruct (holds_read _ _ _ Hf') as [Hr _]. apply wp_bind.
    apply wp_read_policy_file; rewrite Hw; [intros ? Hno; by rewrite Hno in Hs|].
    intros d' c _ Hrd. rewrite Hrd in Hr. simpl in Hr. subst c. apply wp_bind, wp_ret.
    cbn [negb default from_option id]. simpl. apply wp_ret. split; [done|]. exists d'. apply Hset.
Qed.

(** The disks on which a new process finds the policies [m]. *)
Definition boots (m : gmap Z Z) (d : F) : Prop :=
  (m = ∅ ∧ ((fs_stat POLICY_FILE_NAME d).1 = false ∨ fs_holds POLICY_FILE_NAME EmptyString d)) ∨
  ∃ version l, on_file version l d ∧ represents m l ∧ ascii_text version = true ∧
    Z.of_nat (size m) < 2 ^ 32.

Lemma represents_empty : represents ∅ [].
Proof. exists []. split; [done|]. split; [apply NoDup_nil_2|]. by split. Qed.

Lemma wp_boot m d h :
  boots m d →
  wp (NetPolicyService.OnStart (J:=J)) (λ _ w, running_ w = true → repr m w)
    (NetPolicyService.construct d h).
Proof.
  intros [[-> Hf]|(version & l & Hf & Hr & Hv & Hm)].
  - destruct (wp_InitPolicy_empty d Hf) as (ok & Hok).
    eapply wp_mono; [apply (wp_OnStart (mkNetPolicy [] EmptyString) ok)|]; [done|..].
    + intros w1 Hd Hp. simpl in Hp. rewrite <- Hp. by apply Hok.
    + intros _ w [Hp Ht] Hrun. split; [done|]. rewrite (Hp Hrun). split; [apply represents_empty|done].
  - eapply wp_mono; [apply (wp_OnStart (mkNetPolicy l (if String.eqb version "" then HOS_VERSION else version)) true)|].
    + done.
    + intros w1 Hd Hp. pose proof (wp_InitPolicy_document version l w1) as Hi.
      rewrite Hp in Hi. apply Hi; [by rewrite Hd|]. by rewrite (represents_length m).
    + intros _ w [Hp Ht] Hrun. split; [done|]. rewrite (Hp Hrun). split; [done|]. simpl.
      by destruct (String.eqb version "").
Qed.

(** ** Every request *)

Lemma invalid_unchanged u p w m :
  repr m w → in_u 32 u → NetPolicyTraffic.IsPolicyValid p = false → Z.of_nat (size m) < 2 ^ 32 - 1 →
  NetPolicyService.SetUidPolicy (J:=J) u p w = Some (ERR_INVALID_POLICY, w).
Proof.
  intros (Ht & (kvs & Hl & Hd & Hm & Hok) & _) Hu Hp Hsz. unfold NetPolicyService.SetUidPolicy.
  assert (Hn : (p =? NET_POLICY_NONE) = false).
  { destruct (Z.eqb_spec p NET_POLICY_NONE) as [->|]; done. }
  assert (Hlen : Z.of_nat (length (uidPolicys (netPolicy_ w))) < 2 ^ 32).
  { rewrite (represents_length m); [lia|]. exists kvs. by split_and!. }
  assert (Hch : ∀ op, NetPolicyTraffic.change (J:=J) op u p w = Some (ERR_INVALID_POLICY, w)).
  { intros op. unfold NetPolicyTraffic.change, mbind, st_bind, gets. by rewrite Ht, Hp. }
  rewrite Hn. unfold NetPolicyFile.IsUidPolicyExist, throwing, mbind, st_bind, gets.
  rewrite sized_all by done. rewrite Hl, exist_loop_spec by done. simpl.
  by destruct (bool_decide _); simpl; apply Hch.
Qed.

Lemma policy_handle_ok m q w :
  repr m w → well_typed q → Z.of_nat (size m) < 2 ^ 32 - 1 →
  wp (policy_handle q) (λ r w', policy_answer q m r ∧ repr (policy_spec q m) w') w.
Proof.
  intros Hw Hq Hm. pose proof Hw as (Ht & Hr & Hv). destruct q as [u p|u|p|u b|u i]; simpl in Hq |- *.
  - destruct Hq as [Hu _]. apply wp_bind. destruct (NetPolicyTraffic.IsPolicyValid p) eqn:Hp.
    + eapply wp_mono; [by apply (wp_SetUidPolicy m)|].
      intros c w' (np & Hr' & Hv' & Hc). apply wp_ret. split.
      * destruct Hc as (root & d & -> & _). destruct (opens _); auto.
      * eapply changed_repr; [done|by rewrite Hv'| |exact Hc]. simpl in Hr'. by rewrite Hp in Hr'.
    + exists ERR_INVALID_POLICY, w. split; [by apply (invalid_unchanged u p w m)|]. by apply wp_ret.
  - apply wp_bind. eapply wp_mono; [by apply (wp_GetUidPolicy m)|]. intros p w' [-> ->]. by apply wp_ret.
  - apply wp_bind. eapply wp_mono; [by apply (wp_GetUids m)|]. intros l w' [Hl ->]. by apply wp_ret.
  - apply wp_bind. eapply wp_mono; [by apply (wp_net_access m)|]. intros a w' [-> ->]. by apply wp_ret.
  - apply wp_bind. eapply wp_mono; [by apply (wp_net_access m)|]. intros a w' [-> ->]. by apply wp_ret.
Qed.

Lemma policy_run_ok qs : ∀ m w,
  repr m w → Forall well_typed qs → Z.of_nat (size m + length qs) < 2 ^ 32 →
  wp (policy_run qs) (λ rs _, conforms qs m rs) w.
Proof.
  induction qs as [|q qs IH]; intros m w Hw Hqs Hm; [by apply wp_ret|].
  apply Forall_cons in Hqs as [Hq Hqs]. simpl in Hm. apply wp_bind.
  eapply wp_mono; [apply (policy_handle_ok m); [done..|lia]|]. intros r w1 [Ha Hw1].
  apply wp_bind. pose proof (size_spec q m).
  eapply wp_mono; [apply (IH (policy_spec q m)); [done..|lia]|].
  intros rs w2 Hrs. by apply wp_ret.
Qed.

(** ** What a restart finds *)

Definition lasting (m : gmap Z Z) : gmap Z Z :=
  filter (λ x, x.2 ≠ NET_POLICY_TEMPORARY_ALLOW_METERED) m.

Lemma kept_entries kvs :
  Forall entry_ok kvs →
  List.filter kept (entry <$> kvs)
  = entry <$> filter (λ x, x.2 ≠ NET_POLICY_TEMPORARY_ALLOW_METERED) kvs.
Proof.
  induction 1 as [|x kvs Hx _ IH]; [done|]. rewrite fmap_cons, filter_cons. cbn [List.filter].
  unfold kept at 1. cbn [policy entry].
  rewrite to_string_eqb; [|apply valid_range, Hx|done].
  change (to_u 32 NET_POLICY_TEMPORARY_ALLOW_METERED) with NET_POLICY_TEMPORARY_ALLOW_METERED.
  destruct (Z.eqb_spec x.2 NET_POLICY_TEMPORARY_ALLOW_METERED); cbn [negb].
  - rewrite decide_False by tauto. exact IH.
  - rewrite decide_True by done. by rewrite fmap_cons, IH.
Qed.

Lemma filter_pairs_map kvs :
  NoDup kvs.*1 →
  list_to_map (filter (λ x, x.2 ≠ NET_POLICY_TEMPORARY_ALLOW_METERED) kvs) = lasting (list_to_map kvs).
Proof.
  intros Hd. apply map_eq. intros u. apply option_eq. intros p. unfold lasting.
  rewrite map_lookup_filter_Some.
  rewrite <- !elem_of_list_to_map; [by rewrite list_elem_of_filter, (and_comm (_ ∈ _))|done|].
  eapply sublist_NoDup; [exact Hd|]. apply fmap_sublist, sublist_filter.
Qed.

Lemma represents_kept m l : represents m l → represents (lasting m) (List.filter kept l).
Proof.
  intros (kvs & -> & Hd & <- & Hok). rewrite kept_entries by done. eexists. split; [done|].
  split; [|split; [by apply filter_pairs_map|]].
  - eapply sublist_NoDup; [exact Hd|]. apply fmap_sublist, sublist_filter.
  - apply Forall_forall. intros x [_ Hx]%list_elem_of_filter. rewrite Forall_forall in Hok. by apply Hok.
Qed.

Lemma on_file_written root version l d :
  document root version l → opens d = true → on_file version l (written root d).
Proof. intros Hd Ho. exists root. split; [by apply holds_write|done]. Qed.

(** [OnStop] and [OnStart] in one process: the entries of the file are added
    to those that are still in memory. *)
Lemma wp_restart version l w :
  on_file version l (p_disk w) → Z.of_nat (length l) < 2 ^ 32 → traffic_file w = true →
  wp (NetPolicyService.OnStop ;; NetPolicyService.OnStart (J:=J)) (λ _ w', running_ w' = true →
    traffic_file w' = true ∧
    netPolicy_ w' = mkNetPolicy (uidPolicys (netPolicy_ w) ++ l)
      (if String.eqb version "" then HOS_VERSION else version)) w.
Proof.
  intros Hf Hl Ht. apply wp_bind, wp_modify.
  eapply wp_mono; [apply (wp_OnStart (mkNetPolicy (uidPolicys (netPolicy_ w) ++ l)
    (if String.eqb version "" then HOS_VERSION else version)) true); [done|]|].
  - intros w1 Hd Hp. pose proof (wp_InitPolicy_document version l w1) as Hi.
    rewrite Hp, Hd in Hi. by apply Hi.
  - intros _ w' [Hp Ht'] Hrun. rewrite Ht', (Hp Hrun). done.
Qed.

(** With the entries of a uid twice, deleting its policy erases the first. *)
Lemma delete_first_lookup kvs kvs' u :
  NoDup kvs.*1 →
  (list_to_map (erase_first (λ x, x.1 =? u) kvs ++ kvs') : gmap Z Z) !! u = (list_to_map kvs' : gmap Z Z) !! u.
Proof.
  intros Hd. rewrite list_to_map_app, lookup_union, erase_pair_map, lookup_delete_eq by done.
  by destruct (_ !! u).
Qed.

Lemma erase_app u kvs kvs' :
  u ∈ kvs.*1 →
  erase_first (λ x : Z * Z, x.1 =? u) (kvs ++ kvs') = erase_first (λ x, x.1 =? u) kvs ++ kvs'.
Proof.
  induction kvs as [|x kvs IH]; [by intros ?%elem_of_nil|]. cbn [fmap list_fmap app erase_first].
  destruct (Z.eqb_spec x.1 u) as [|Hne]; [done|]. intros [->|Hu]%elem_of_cons; [done|].
  by rewrite IH.
Qed.

End Code.
