(* ===== verification/PolicyProps.v ===== *)
(** * Properties of the policy service

    The service refines a finite map from uids to policies, across restarts of
    the process; and what happens when the file cannot be written, holds
    something that is not a number, or is read twice. *)

From S2P Require Import Prelude Parcel Parcelables CppStrings Files Host Policy PolicySpec.
From S2P Require Import PolicyCorrect.

Import SampleJson SampleDisk SamplePlatform.

(** ** A process to run examples on *)

Definition sample_boot (d : disk) : pworld disk unit :=
  match NetPolicyService.OnStart (J:=J) (NetPolicyService.construct d (mkHost None tt [])) with
  | Some (_, w) => w
  | None => NetPolicyService.construct d (mkHost None tt [])
  end.

Definition no_file : disk := mkDisk ∅ true.

Definition sample_after (qs : list policy_request) (w : pworld disk unit) : pworld disk unit :=
  match policy_run (J:=J) qs w with Some (_, w') => w' | None => w end.

(** Two uids with lasting policies, one with a temporary one. *)
Definition sample_sets : list policy_request :=
  [PSetUidPolicy 10001 32; PSetUidPolicy 10002 2; PSetUidPolicy 10003 64].

Definition sample_kvs : list (Z * Z) := [(10001, 32); (10002, 2); (10003, 64)].

Definition sample_world : pworld disk unit := sample_after sample_sets (sample_boot no_file).

Definition sample_changed : pworld disk unit := sample_after [PSetUidPolicy 10004 1] sample_world.

Lemma sample_repr : repr (list_to_map sample_kvs) sample_world.
Proof.
  split; [vm_compute; reflexivity|]. split; [|vm_compute; reflexivity]. exists sample_kvs.
  split; [vm_compute; reflexivity|]. split; [apply (bool_decide_unpack _); vm_compute; exact I|].
  split; [reflexivity|]. repeat constructor; discriminate.
Qed.

Lemma boots_no_file : boots (J:=J) ∅ no_file.
Proof. left. split; [done|]. by left. Qed.

(** C5. The policy service is a map: a process that boots on a disk with the
    policies [m] (none when there is no file) and then serves any requests
    throws nothing and answers each request as the map does: a valid policy
    replaces that of the uid, NONE deletes it, an invalid one is refused,
    reading a uid, listing the uids of a policy and the access decision follow
    the map. *)
Theorem policy_refinement {F E J} `{FileSystem F} `{JsonLaws J} `{Platform E} `{!HealthyDisk F}
    (m : gmap Z Z) (d : F) (h : host E) (qs : list policy_request) :
  boots (J:=J) m d → Forall well_typed qs → Z.of_nat (size m + length qs) < 2 ^ 32 →
  ∃ w, NetPolicyService.OnStart (J:=J) (NetPolicyService.construct d h) = Some (tt, w) ∧
    (running_ w = true →
     ∃ rs w', policy_run (J:=J) qs w = Some (rs, w') ∧ conforms qs m rs).
Proof.
  intros Hd Hqs Hm. destruct (wp_boot (E:=E) m d h Hd) as ([] & w & Hs & Hw). exists w.
  split; [exact Hs|]. intros Hrun.
  destruct (policy_run_ok (J:=J) qs m w (Hw Hrun) Hqs Hm) as (rs & w' & Hr & Hc). eauto.
Qed.

Lemma policy_refinement_witness :
  ∃ rs w', policy_run (J:=J) (sample_sets ++ [PIsUidNetAccess 10003 true; PGetUids 32])
    (sample_boot no_file) = Some (rs, w') ∧
  conforms (sample_sets ++ [PIsUidNetAccess 10003 true; PGetUids 32]) ∅ rs.
Proof.
  destruct (policy_refinement (J:=J) ∅ no_file (mkHost None tt [])
    (sample_sets ++ [PIsUidNetAccess 10003 true; PGetUids 32])) as (w & Hs & Hrun).
  - exact boots_no_file.
  - repeat constructor; vm_compute; repeat split; discriminate.
  - rewrite map_size_empty. vm_compute. reflexivity.
  - vm_compute in Hs. injection Hs as <-. exact (Hrun eq_refl).
Defined.

(** C9. Policies survive the process: when [SetUidPolicy] has returned success,
    a new process that boots on the disk as it is then has exactly the
    policies of the map, less those that are temporary. *)
Theorem policy_survives_restart {F E J} `{FileSystem F} `{JsonLaws J} `{Platform E} `{!HealthyDisk F}
    (m : gmap Z Z) (w w' : pworld F E) (u p : Z) (h : host E) :
  repr m w → in_u 32 u → valid p → Z.of_nat (size m) < 2 ^ 32 - 1 →
  NetPolicyService.SetUidPolicy (J:=J) u p w = Some (ERR_NONE, w') →
  ∃ w2, NetPolicyService.OnStart (J:=J) (NetPolicyService.construct (p_disk w') h) = Some (tt, w2) ∧
    (running_ w2 = true → repr (lasting (policy_spec (PSetUidPolicy u p) m)) w2).
Proof.
  intros Hw Hu Hp Hm Hset.
  destruct (wp_run _ _ _ _ _ (wp_SetUidPolicy (J:=J) m u p w Hw Hu Hp Hm) Hset)
    as (np & Hr & Hv & root & d & Hc & -> & Hd & Hdoc). specialize (Hd eq_refl). subst d.
  destruct (opens (p_disk w)) eqn:Ho; [|done]. simpl p_disk.
  destruct (wp_boot (E:=E) (J:=J) (lasting (policy_spec (PSetUidPolicy u p) m))
    (written root (p_disk w)) h) as ([] & w2 & Hs & Hw2); [|by exists w2].
  right. exists (hosVersion np), (List.filter kept (uidPolicys np)).
  split; [by apply on_file_written|]. split; [by apply represents_kept|].
  split; [rewrite Hv; apply Hw|]. pose proof (size_spec (PSetUidPolicy u p) m).
  assert (size (lasting (policy_spec (PSetUidPolicy u p) m)) ≤ size (policy_spec (PSetUidPolicy u p) m))%nat
    by apply map_size_filter. lia.
Qed.

Lemma policy_survives_restart_witness :
  repr (lasting (<[10004:=1]> (list_to_map sample_kvs))) (sample_boot (p_disk sample_changed)).
Proof.
  destruct (policy_survives_restart (J:=J) (list_to_map sample_kvs) sample_world sample_changed 10004 1
    (mkHost None tt [])) as (w2 & Hs & Hw2).
  - exact sample_repr.
  - split; [discriminate|reflexivity].
  - reflexivity.
  - reflexivity.
  - vm_compute. reflexivity.
  - assert (Hrun : running_ w2 = true) by (vm_compute in Hs; by injection Hs as <-).
    unfold sample_boot. rewrite Hs. exact (Hw2 Hrun).
Defined.

(** Deleting when the entries of a uid are there twice. *)
Lemma deletes_first {F E J} `{FileSystem F} `{JsonLaws J} `{Platform E} m l version (w : pworld F E) u p :
  traffic_file w = true → netPolicy_ w = mkNetPolicy (l ++ List.filter kept l) version →
  ascii_text version = true → represents m l → m !! u = Some p →
  p ≠ NET_POLICY_TEMPORARY_ALLOW_METERED → in_u 32 u → 2 * Z.of_nat (length l) < 2 ^ 32 →
  ∃ c w', NetPolicyService.SetUidPolicy (J:=J) u NET_POLICY_NONE w = Some (c, w') ∧
    NetPolicyService.GetUidPolicy u w' = Some (p, w').
Proof.
  intros Ht Hp Hv (kvs & -> & Hd & <- & Hok) Hup Hne Hu Hlen.
  rewrite kept_entries, <- fmap_app in Hp by done.
  set (kvs' := filter (λ x : Z * Z, x.2 ≠ NET_POLICY_TEMPORARY_ALLOW_METERED) kvs) in *.
  assert (Hok' : Forall entry_ok kvs').
  { apply Forall_forall. intros x [_ Hx]%list_elem_of_filter. rewrite Forall_forall in Hok. by apply Hok. }
  assert (Hin : u ∈ kvs.*1).
  { apply list_elem_of_fmap. exists (u, p). split; [done|]. by apply elem_of_list_to_map_2. }
  assert (Hop : changed_policy NET_POLICY_UID_OP_TYPE_DELETE u NET_POLICY_NONE (netPolicy_ w)
      = mkNetPolicy (entry <$> (erase_first (λ x, x.1 =? u) kvs ++ kvs')) version).
  { unfold changed_policy. rewrite Hp. cbn [uidPolicys hosVersion NetPolicyFile.apply_op].
    rewrite erase_entries; [by rewrite erase_app|done|by apply Forall_app]. }
  assert (Herase : Forall entry_ok (erase_first (λ x, x.1 =? u) kvs)).
  { apply Forall_forall. intros x Hx%elem_of_erase_first. rewrite Forall_forall in Hok. by apply Hok. }
  destruct (wp_change (J:=J) NET_POLICY_UID_OP_TYPE_DELETE u NET_POLICY_NONE w Ht eq_refl)
    as (c & w' & Hs & root & d & _ & -> & _).
  { rewrite Hop. split; [done|]. split; [apply plain_entries, Forall_app; done|].
    cbn [uidPolicys]. rewrite length_fmap, length_app. rewrite length_fmap in Hlen.
    assert (length kvs' ≤ length kvs)%nat by apply length_filter.
    assert ((length (erase_first (λ x : Z * Z, (x.1 =? u)%Z) kvs) ≤ length kvs)%nat)
      by (apply sublist_length, erase_first_sublist). lia. }
  exists c. eexists. split; [exact Hs|].
  destruct (wp_GetUidPolicy_pairs (erase_first (λ x, x.1 =? u) kvs ++ kvs') u
    (set_disk d (set_policy (changed_policy NET_POLICY_UID_OP_TYPE_DELETE u NET_POLICY_NONE (netPolicy_ w)) w)))
    as (p' & w' & Hg & -> & ->); [by rewrite Hop|by apply Forall_app|done|].
  rewrite delete_first_lookup in Hg by done.
  assert (Hk : (list_to_map kvs' : gmap Z Z) !! u = Some p).
  { unfold kvs'. rewrite filter_pairs_map by done. unfold lasting. by apply map_lookup_filter_Some. }
  rewrite Hk in Hg. exact Hg.
Qed.

(** A restart of the service in the same process reads the file again and
    keeps what is in memory: after it, deleting the policy of a uid leaves the
    policy in force. *)
Theorem policy_restart_keeps_deleted {F E J} `{FileSystem F} `{JsonLaws J} `{Platform E}
    `{!HealthyDisk F} (m : gmap Z Z) (w w1 : pworld F E) (v q u p : Z) :
  repr m w → in_u 32 v → valid q → 2 * Z.of_nat (size m) + 2 < 2 ^ 32 →
  NetPolicyService.SetUidPolicy (J:=J) v q w = Some (ERR_NONE, w1) →
  in_u 32 u → policy_spec (PSetUidPolicy v q) m !! u = Some p →
  p ≠ NET_POLICY_TEMPORARY_ALLOW_METERED →
  ∃ w2, (NetPolicyService.OnStop ;; NetPolicyService.OnStart (J:=J)) w1 = Some (tt, w2) ∧
    (running_ w2 = true → ∃ c w3,
       NetPolicyService.SetUidPolicy (J:=J) u NET_POLICY_NONE w2 = Some (c, w3) ∧
       NetPolicyService.GetUidPolicy u w3 = Some (p, w3)).
Proof.
  intros Hw Hv Hq Hm Hset Hu Hup Hp.
  destruct (wp_run _ _ _ _ _ (wp_SetUidPolicy (J:=J) m v q w Hw Hv Hq ltac:(lia)) Hset)
    as (np & Hr & Hver & root & d & Hc & -> & Hd & Hdoc). specialize (Hd eq_refl). subst d.
  destruct (opens (p_disk w)) eqn:Ho; [|done]. pose proof (size_spec (PSetUidPolicy v q) m) as Hsz.
  pose proof (represents_length _ _ Hr) as Hlen.
  assert (Hf : (length (List.filter kept (uidPolicys np)) ≤ length (uidPolicys np))%nat)
    by apply List.filter_length_le.
  destruct (wp_restart (hosVersion np) (List.filter kept (uidPolicys np))
    (set_disk (written root (p_disk w)) (set_policy np w))) as ([] & w2 & Hs & Hw2);
    [by apply on_file_written|lia|apply Hw|]. cbn [netPolicy_ set_disk set_policy] in Hw2.
  exists w2. split; [exact Hs|]. intros Hrun. destruct (Hw2 Hrun) as [Ht2 Hp2]. clear Hw2.
  eapply deletes_first; [done|exact Hp2| |exact Hr|exact Hup|done|done|lia].
  destruct (String.eqb (hosVersion np) ""); [done|]. rewrite Hver. apply Hw.
Qed.

Lemma policy_restart_keeps_deleted_witness :
  ∃ w2 c w3,
    (NetPolicyService.OnStop ;; NetPolicyService.OnStart (J:=J)) sample_changed = Some (tt, w2) ∧
    NetPolicyService.SetUidPolicy (J:=J) 10003 NET_POLICY_NONE w2 = Some (c, w3) ∧
    NetPolicyService.GetUidPolicy 10003 w3 = Some (64, w3).
Proof.
  destruct (policy_restart_keeps_deleted (J:=J) (list_to_map sample_kvs) sample_world sample_changed
    10004 1 10003 64) as (w2 & Hs & Hw2).
  - exact sample_repr.
  - split; [discriminate|reflexivity].
  - reflexivity.
  - reflexivity.
  - vm_compute. reflexivity.
  - split; [discriminate|reflexivity].
  - reflexivity.
  - discriminate.
  - assert (Hrun : running_ w2 = true) by (vm_compute in Hs; by injection Hs as <-).
    destruct (Hw2 Hrun) as (c & w3 & Hd & Hg). exists w2, c, w3. by split_and!.
Defined.

(** A change that cannot be saved is made all the same: when the file
    cannot be opened for output, [SetUidPolicy] reports an internal error, but
    the policy is in force until the process ends. *)
Theorem policy_unwritable {F E J} `{FileSystem F} `{JsonLaws J} `{Platform E}
    (m : gmap Z Z) (w : pworld F E) (u p : Z) :
  repr m w → in_u 32 u → valid p → Z.of_nat (size m) < 2 ^ 32 - 1 → opens (p_disk w) = false →
  ∃ w', NetPolicyService.SetUidPolicy (J:=J) u p w = Some (ERR_INTERNAL_ERROR, w') ∧
    repr (policy_spec (PSetUidPolicy u p) m) w'.
Proof.
  intros Hw Hu Hp Hm Ho.
  destruct (wp_SetUidPolicy (J:=J) m u p w Hw Hu Hp Hm) as (c & w' & Hs & np & Hr & Hv & Hc).
  exists w'. assert (c = ERR_INTERNAL_ERROR) as <-.
  { destruct Hc as (root & d & -> & _). by rewrite Ho. }
  split; [exact Hs|]. eapply changed_repr; [apply Hw|rewrite Hv; apply Hw|exact Hr|exact Hc].
Qed.

Definition read_only (w : pworld disk unit) : pworld disk unit :=
  set_disk (mkDisk (files (p_disk w)) false) w.

Lemma policy_unwritable_witness :
  ∃ w', NetPolicyService.SetUidPolicy (J:=J) 10003 0 (read_only sample_world)
    = Some (ERR_INTERNAL_ERROR, w') ∧ repr (delete 10003 (list_to_map sample_kvs)) w'.
Proof.
  apply (policy_unwritable (J:=J) (list_to_map sample_kvs) (read_only sample_world) 10003 0).
  - exact sample_repr.
  - split; [discriminate|reflexivity].
  - reflexivity.
  - reflexivity.
  - reflexivity.
Defined.

(** The file is trusted: when an entry of it has a uid that is not a
    number, the service starts, and then every change of a policy ends the
    process with an exception, unless an entry before it has the uid. *)
Theorem policy_bad_uid_aborts {F E J} `{FileSystem F} `{JsonLaws J} `{Platform E} `{!HealthyDisk F}
    (d : F) (h : host E) version l1 x l2 u p :
  on_file (J:=J) version (l1 ++ x :: l2) d → Z.of_nat (length (l1 ++ x :: l2)) < 2 ^ 32 →
  stol (uid x) = None → Forall (λ y, ∃ v, stol (uid y) = Some v ∧ to_u 32 v ≠ u) l1 →
  p ≠ NET_POLICY_NONE →
  ∃ w, NetPolicyService.OnStart (J:=J) (NetPolicyService.construct d h) = Some (tt, w) ∧
    (running_ w = true → NetPolicyService.SetUidPolicy (J:=J) u p w = None).
Proof.
  intros Hf Hl Hx Hl1 Hp.
  destruct (wp_OnStart (E:=E) (mkNetPolicy (l1 ++ x :: l2) (if String.eqb version "" then HOS_VERSION else version))
    true (NetPolicyService.construct d h)) as ([] & w & Hs & Hw & _); [done|..].
  { intros w1 Hd Hpol. pose proof (wp_InitPolicy_document version (l1 ++ x :: l2) w1) as Hi.
    rewrite Hpol, Hd in Hi. by apply Hi. }
  exists w. split; [exact Hs|]. intros Hrun. specialize (Hw Hrun). unfold NetPolicyService.SetUidPolicy.
  destruct (Z.eqb_spec p NET_POLICY_NONE); [done|].
  assert (He : NetPolicyFile.exist_loop u (l1 ++ x :: l2) = None).
  { clear -Hl1 Hx. induction Hl1 as [|y l (v & Hy & Hv) _ IH]; simpl; [by rewrite Hx|].
    rewrite Hy. simpl. by destruct (Z.eqb_spec (to_u 32 v) u). }
  unfold NetPolicyFile.IsUidPolicyExist, mbind, st_bind, gets. rewrite Hw. cbn [uidPolicys].
  rewrite sized_all, He by done. done.
Qed.

(** A file with an entry for the uid "root". *)
Definition bad_entries : list UidPolicy := [mkUidPolicy "10001" "32"; mkUidPolicy "root" "64"].

Definition bad_file : disk :=
  match NetPolicyFile.WriteFile_root (J:=J) (mkNetPolicy bad_entries "1.0") with
  | Some root => mkDisk {[POLICY_FILE_NAME := json_write root]} true
  | None => no_file
  end.

Lemma bad_file_document : on_file (J:=J) "1.0" bad_entries bad_file.
Proof.
  destruct (WriteFile_document (J:=J) (mkNetPolicy bad_entries "1.0")) as (root & Hr & Hd).
  - reflexivity.
  - repeat constructor.
  - reflexivity.
  - exists root. unfold bad_file. rewrite Hr. split; [apply lookup_singleton_eq|exact Hd].
Qed.

Lemma policy_bad_uid_aborts_witness :
  NetPolicyService.SetUidPolicy (J:=J) 10002 1 (sample_boot bad_file) = None.
Proof.
  destruct (policy_bad_uid_aborts (J:=J) bad_file (mkHost None tt []) "1.0"
    [mkUidPolicy "10001" "32"] (mkUidPolicy "root" "64") [] 10002 1) as (w & Hs & Hw).
  - exact bad_file_document.
  - reflexivity.
  - reflexivity.
  - constructor; [|constructor]. exists 10001. split; [reflexivity|discriminate].
  - discriminate.
  - assert (Hrun : running_ w = true) by (vm_compute in Hs; by injection Hs as <-).
    unfold sample_boot. rewrite Hs. exact (Hw Hrun).
Defined.
