(* ===== verification/PolicyIpc.v ===== *)
(** * The IPC layer of the policy service

    [net_policy_service_stub.cpp] and [net_policy_service_proxy.cpp]: five
    requests. The proxy has a default answer for every failure: an internal
    error, no policy, no uids, no access. *)

From S2P Require Import Prelude Parcel Parcelables Ipc Host CppStrings Files Policy.
From S2P Require Import PolicySpec PolicyCorrect PolicyProps.

(** [enum] of [i_net_policy_service.h] *)
Definition CMD_NSM_SET_UID_POLICY : Z := 1.
Definition CMD_NSM_GET_UID_POLICY : Z := 2.
Definition CMD_NSM_GET_UIDS : Z := 3.
Definition CMD_NSM_IS_NET_ACCESS_METERED : Z := 4.
Definition CMD_NSM_IS_NET_ACCESS_IFACENAME : Z := 5.

Definition policy_descriptor : string := "OHOS.NetManagerStandard.INetPolicyService".

Module NetPolicyServiceStub.
Section Code.
Context {F E J : Type} `{FileSystem F} `{JsonCpp J} `{Platform E} {P : Type} `{ParcelOps P}
  `{IpcPlatform P}.

(** [if (!reply.WriteX(v)) return ERR_FLATTEN_OBJECT; return ERR_NONE;] *)
Definition reply_with (k : pkind) (v : kty k) : handler P (pworld F E) := λ _ reply,
  let '(ok, reply') := pwrite k v reply in
  mret (if ok : bool then ERR_NONE else ERR_FLATTEN_OBJECT, reply').

(** A [uint32_t] argument becomes a policy, and a policy an [int32_t]. *)
Definition OnSetUidPolicy : handler P (pworld F E) :=
  reading ReadUint32 ERR_FLATTEN_OBJECT (λ uid,
  reading ReadUint32 ERR_FLATTEN_OBJECT (λ netPolicy,
  calling (NetPolicyService.SetUidPolicy (J:=J) uid (to_i 32 netPolicy)) (reply_with KInt32))).

Definition OnGetUidPolicy : handler P (pworld F E) :=
  reading ReadUint32 ERR_FLATTEN_OBJECT (λ uid,
  calling (NetPolicyService.GetUidPolicy uid) (reply_with KInt32)).

Definition OnGetUids : handler P (pworld F E) :=
  reading ReadUint32 ERR_FLATTEN_OBJECT (λ policy,
  calling (NetPolicyService.GetUids (to_i 32 policy)) (reply_with KUInt32Vector)).

Definition OnIsUidNetAccessMetered : handler P (pworld F E) :=
  reading ReadUint32 ERR_FLATTEN_OBJECT (λ uid,
  reading ReadBool ERR_FLATTEN_OBJECT (λ metered,
  calling (NetPolicyService.IsUidNetAccess uid metered) (reply_with KBool))).

Definition OnIsUidNetAccessIfaceName : handler P (pworld F E) :=
  reading ReadUint32 ERR_FLATTEN_OBJECT (λ uid,
  reading ReadString ERR_FLATTEN_OBJECT (λ ifaceName,
  calling (NetPolicyService.IsUidNetAccessIface uid ifaceName) (reply_with KBool))).

Definition memberFuncMap_ (code : Z) : option (handler P (pworld F E)) :=
  if code =? CMD_NSM_SET_UID_POLICY then Some OnSetUidPolicy
  else if code =? CMD_NSM_GET_UID_POLICY then Some OnGetUidPolicy
  else if code =? CMD_NSM_GET_UIDS then Some OnGetUids
  else if code =? CMD_NSM_IS_NET_ACCESS_METERED then Some OnIsUidNetAccessMetered
  else if code =? CMD_NSM_IS_NET_ACCESS_IFACENAME then Some OnIsUidNetAccessIfaceName
  else None.

Definition OnRemoteRequest (code : Z) : handler P (pworld F E) :=
  on_remote_request policy_descriptor memberFuncMap_ code.

End Code.
End NetPolicyServiceStub.

Module NetPolicyServiceProxy.
Section Code.
Context {S : Type} {P : Type} `{ParcelOps P} `{IpcPlatform P}.
Implicit Type r : remote P S.

Definition WriteInterfaceToken : pm P unit := Ipc.WriteInterfaceToken policy_descriptor.

(** [reply.ReadBool()]: false when the reply is empty. *)
Definition read_bool (reply : P) : bool :=
  match pread KBool reply with (Some b, _) => b | (None, _) => false end.

Definition SetUidPolicy r (uid policy : Z) : st S Z :=
  writing_or WriteInterfaceToken ERR_INTERNAL_ERROR
  (writing_or (WriteUint32 uid) ERR_INTERNAL_ERROR
  (writing_or (WriteUint32 (to_u 32 policy)) ERR_INTERNAL_ERROR
  (sending_or r ERR_INTERNAL_ERROR CMD_NSM_SET_UID_POLICY read_int32))) parcel_new.

Definition GetUidPolicy r (uid : Z) : st S Z :=
  writing_or WriteInterfaceToken NET_POLICY_NONE
  (writing_or (WriteUint32 uid) NET_POLICY_NONE
  (sending_or r NET_POLICY_NONE CMD_NSM_GET_UID_POLICY read_int32)) parcel_new.

Definition GetUids r (policy : Z) : st S (list Z) :=
  writing_or WriteInterfaceToken []
  (writing_or (WriteUint32 (to_u 32 policy)) []
  (sending_or r [] CMD_NSM_GET_UIDS (λ reply,
     match pread KUInt32Vector reply with (Some uids, _) => uids | (None, _) => [] end))) parcel_new.

Definition IsUidNetAccess r (uid : Z) (metered : bool) : st S bool :=
  writing_or WriteInterfaceToken false
  (writing_or (WriteUint32 uid) false
  (writing_or (WriteBool metered) false
  (sending_or r false CMD_NSM_IS_NET_ACCESS_METERED read_bool))) parcel_new.

Definition IsUidNetAccessIface r (uid : Z) (ifaceName : string) : st S bool :=
  writing_or WriteInterfaceToken false
  (writing_or (WriteUint32 uid) false
  (writing_or (WriteString ifaceName) false
  (sending_or r false CMD_NSM_IS_NET_ACCESS_IFACENAME read_bool))) parcel_new.

End Code.
End NetPolicyServiceProxy.

(** ** Properties of the IPC layer of the policy service

    A call through the proxy and the stub is the call of the service; when the
    service cannot be reached the proxy gives its default answer, and a message
    that was cut short changes nothing. *)

Section Messages.
Context {P : Type} `{ParcelLaws P}.

Definition policy_body (q : policy_request) : list pitem :=
  match q with
  | PSetUidPolicy u p => [PItem KUint32 u; PItem KUint32 (to_u 32 p)]
  | PGetUidPolicy u => [PItem KUint32 u]
  | PGetUids p => [PItem KUint32 (to_u 32 p)]
  | PIsUidNetAccess u b => [PItem KUint32 u; PItem KBool b]
  | PIsUidNetAccessIface u i => [PItem KUint32 u; PItem KString i]
  end.

Definition policy_message (q : policy_request) : list pitem :=
  PItem KInterfaceToken policy_descriptor :: policy_body q.

Definition policy_command (q : policy_request) : Z :=
  match q with
  | PSetUidPolicy _ _ => CMD_NSM_SET_UID_POLICY
  | PGetUidPolicy _ => CMD_NSM_GET_UID_POLICY
  | PGetUids _ => CMD_NSM_GET_UIDS
  | PIsUidNetAccess _ _ => CMD_NSM_IS_NET_ACCESS_METERED
  | PIsUidNetAccessIface _ _ => CMD_NSM_IS_NET_ACCESS_IFACENAME
  end.

(** The method of the proxy for a request. *)
Definition policy_call {S} `{IpcPlatform P} (r : remote P S) (q : policy_request) : st S policy_reply :=
  match q with
  | PSetUidPolicy u p => c ← NetPolicyServiceProxy.SetUidPolicy r u p ; mret (RCode c)
  | PGetUidPolicy u => p ← NetPolicyServiceProxy.GetUidPolicy r u ; mret (RPolicy p)
  | PGetUids p => l ← NetPolicyServiceProxy.GetUids r p ; mret (RUids l)
  | PIsUidNetAccess u b => a ← NetPolicyServiceProxy.IsUidNetAccess r u b ; mret (RAccess a)
  | PIsUidNetAccessIface u i => a ← NetPolicyServiceProxy.IsUidNetAccessIface r u i ; mret (RAccess a)
  end.

(** The answer when the service cannot be asked. *)
Definition default_reply (q : policy_request) : policy_reply :=
  match q with
  | PSetUidPolicy _ _ => RCode ERR_INTERNAL_ERROR
  | PGetUidPolicy _ => RPolicy NET_POLICY_NONE
  | PGetUids _ => RUids []
  | PIsUidNetAccess _ _ | PIsUidNetAccessIface _ _ => RAccess false
  end.

(** What the stub puts in the reply for an answer of the service. *)
Definition reply_item (r : policy_reply) : pitem :=
  match r with
  | RCode c => PItem KInt32 c
  | RPolicy p => PItem KInt32 p
  | RUids l => PItem KUInt32Vector l
  | RAccess b => PItem KBool b
  end.

Definition fits_request (q : policy_request) (r : policy_reply) : Prop :=
  match q, r with
  | PSetUidPolicy _ _, RCode _ | PGetUidPolicy _, RPolicy _ | PGetUids _, RUids _
  | PIsUidNetAccess _ _, RAccess _ | PIsUidNetAccessIface _ _, RAccess _ => True
  | _, _ => False
  end.

Context `{!RoomyParcel P} {S : Type} `{IpcPlatform P}.

Lemma read_bool_item (p : P) b l : unread p (PItem KBool b :: l) → NetPolicyServiceProxy.read_bool p = b.
Proof.
  intros Hp. unfold NetPolicyServiceProxy.read_bool. by destruct (unread_read _ _ _ _ Hp) as (p' & -> & _).
Qed.

(** The messages of the proxy, and what it makes of the reply. *)
Lemma policy_call_sends q f (Q : policy_reply → S → Prop) s :
  (∀ p, unread p (policy_message q) →
     wp (f (policy_command q) p parcel_new) (λ x s',
       (x.1 ≠ ERR_NONE ∧ Q (default_reply q) s') ∨
       (x.1 = ERR_NONE ∧ ∃ r, fits_request q r ∧ unread x.2 [reply_item r] ∧ Q r s')) s) →
  wp (policy_call (Some f) q) Q s.
Proof.
  intros Hf. assert (Hnew : unread (parcel_new : P) []) by apply unread_new.
  destruct q as [u p|u|p|u b|u i]; simpl; apply wp_bind;
    (eapply writing_or_sends; [apply sends_Write|exact Hnew|]; intros p1 Hp1);
    repeat (eapply writing_or_sends; [apply sends_Write|eassumption|]; intros ? ?);
    apply sending_or_wp;
    (eapply wp_mono; [apply Hf; eassumption|]);
    intros [code r'] s' [[Hc HQ]|(Hc & r & Hr & Hu & HQ)]; simpl in Hc |- *.
  all: destruct (Z.eqb_spec code 0); try done; cbn [negb]; try (apply wp_ret; exact HQ).
  all: destruct r; try done; simpl in Hu; apply wp_ret.
  - by rewrite (read_int32_reads _ _ _ Hu).
  - by rewrite (read_int32_reads _ _ _ Hu).
  - by destruct (unread_read _ _ _ _ Hu) as (? & -> & _).
  - by rewrite (read_bool_item _ _ _ Hu).
  - by rewrite (read_bool_item _ _ _ Hu).
Qed.

End Messages.

Section Stub.
Context {F E J P : Type} `{FileSystem F} `{JsonCpp J} `{Platform E} `{ParcelLaws P} `{!RoomyParcel P}
  `{IpcPlatform P}.
Implicit Type w : pworld F E.

Definition policy_stub : remote P (pworld F E) := Some (NetPolicyServiceStub.OnRemoteRequest (J:=J)).

Lemma reply_with_wp k v p r (Q : Z * P → pworld F E → Prop) w :
  unread r [] → (∀ r', unread r' [PItem k v] → Q (ERR_NONE, r') w) →
  wp (NetPolicyServiceStub.reply_with k v p r) Q w.
Proof.
  intros Hr HQ. unfold NetPolicyServiceStub.reply_with. destruct (roomy k v r) as [r' Hw].
  rewrite Hw. apply wp_ret, HQ. by apply (unread_write _ _ _ _ [] Hr Hw).
Qed.

Lemma policy_stub_serves q w r w' p reply :
  well_typed q → policy_handle (J:=J) q w = Some (r, w') →
  unread p (policy_message q) → unread reply [] →
  wp (NetPolicyServiceStub.OnRemoteRequest (J:=J) (policy_command q) p reply) (λ x w1,
    w1 = w' ∧ x.1 = ERR_NONE ∧ fits_request q r ∧ unread x.2 [reply_item r]) w.
Proof.
  intros Hq Hh Hp Hr. unfold policy_message in Hp.
  destruct q as [u pl|u|pl|u b|u i]; simpl in Hq, Hh; apply bind_run in Hh as (a & Hm & ->);
    cbn [policy_body policy_command] in Hp |- *;
    (eapply on_remote_request_ok; [reflexivity|exact Hp|]; intros p1 Hp1);
    repeat read_next; rewrite ?to_i_to_u by apply Hq;
    (eapply calling_runs; [exact Hm|]); apply reply_with_wp; try done; by intros r' Hr'.
Qed.

End Stub.

(** *** The properties *)

Import SampleJson SampleDisk SamplePlatform Unbounded.

(** Transparency: a request that a client makes through the proxy of the
    policy service, with parcels that do not fail, has exactly the effect and
    the answer of the call of the service. *)
Theorem policy_ipc_transparent {F E J P} `{FileSystem F} `{JsonCpp J} `{Platform E} `{ParcelLaws P}
    `{!RoomyParcel P} `{IpcPlatform P} q (w : pworld F E) r w' :
  well_typed q → policy_handle (J:=J) q w = Some (r, w') →
  policy_call (P:=P) (policy_stub (J:=J)) q w = Some (r, w').
Proof.
  intros Hq Hh.
  assert (Hwp : wp (policy_call (P:=P) (policy_stub (J:=J)) q) (λ r1 w1, r1 = r ∧ w1 = w') w).
  { apply policy_call_sends. intros p Hp.
    eapply wp_mono; [apply (policy_stub_serves q w r w'); [done..|apply unread_new]|].
    intros x w1 (-> & Hx & Hr & Hu). right. eauto 10. }
  destruct Hwp as (r1 & w1 & -> & -> & ->). done.
Qed.

Lemma policy_ipc_transparent_witness :
  policy_call (P:=buffer) (policy_stub (J:=J)) (PGetUids 64) sample_world
  = Some (RUids [10003], sample_world).
Proof.
  apply (policy_ipc_transparent (J:=J) (P:=buffer) (PGetUids 64) sample_world).
  - split; [discriminate|reflexivity].
  - vm_compute. reflexivity.
Defined.

(** A service that cannot be asked: without a remote object, and whenever
    the request returns an error, the proxy answers with an internal error to
    a change, with no policy, with no uids, and refuses access; nothing else
    happens than what the remote object did. *)
Lemma policy_proxy_default {S P} `{ParcelLaws P} `{!RoomyParcel P} `{IpcPlatform P} q (s : S) :
  policy_call (P:=P) None q s = Some (default_reply q, s) ∧
  ∀ (f : Z → handler P S) s',
    (∀ p, unread p (policy_message q) →
       ∃ x, f (policy_command q) p parcel_new s = Some (x, s') ∧ x.1 ≠ ERR_NONE) →
    policy_call (Some f) q s = Some (default_reply q, s').
Proof.
  split.
  - assert (Hnew : unread (parcel_new : P) []) by apply unread_new.
    enough (Hwp : wp (policy_call (P:=P) None q) (λ r s', r = default_reply q ∧ s' = s) s)
      by (destruct Hwp as (r & s' & -> & -> & ->); done).
    destruct q as [u p|u|p|u b|u i]; simpl; apply wp_bind;
      (eapply writing_or_sends; [apply sends_Write|exact Hnew|]; intros p1 Hp1);
      repeat (eapply writing_or_sends; [apply sends_Write|eassumption|]; intros ? ?); by apply wp_ret, wp_ret.
  - intros f s' Hf.
    enough (Hwp : wp (policy_call (Some f) q) (λ r s1, r = default_reply q ∧ s1 = s') s)
      by (destruct Hwp as (r & s1 & -> & -> & ->); done).
    apply policy_call_sends. intros p Hp. destruct (Hf p Hp) as (x & Hx & Hc).
    exists x, s'. split; [exact Hx|]. by left.
Qed.
