(* ===== verification/Ethernet.v ===== *)
(** * The ethernet service

    [services/ethernetmanager]: [DevInterfaceState] is the state of one
    interface and its dealings with the connection service, [EthernetManagement]
    the table of the interfaces, driven by link events of the kernel, DHCP
    results and clients, [EthernetService] the system ability. The lock of
    [EthernetManagement] makes each request one step. The kernel (sockets of
    [netLink_rtnl.cpp]), the DHCP library and the connection client are the
    interface [EthPlatform]. *)

From stdpp Require Import sorting.
From S2P Require Import Prelude Parcel Parcelables Host.

(** [ethernet_constants.h], [netmanager_constants.h], [dev_interface_state.h] *)
Definition ETHERNET_ERROR : Z := -1.
Definition ETHERNET_SUCCESS : Z := 0.
Definition NETMANAGER_ERROR : Z := -1.
Definition MINIMUM_SUPPLIER_ID : Z := 1000.
Definition DHCP_TIMEOUT : Z := 60.

(** [net_device_flags] of the kernel *)
Definition IFF_UP : Z := 1.
Definition IFF_LOWER_UP : Z := 65536.

Record NlkEventInfo := mkNlkEventInfo { iface_ : string; ifiFlags_ : Z }.

(** The fields of [OHOS::Wifi::DhcpResult] that are used. *)
Record DhcpResult := mkDhcpResult {
  iptype : Z;
  strYourCli : string;
  strServer : string;
  strDns1 : string;
  strDns2 : string;
  strRouter1 : string;
  strRouter2 : string;
}.

(** The outgoing calls. *)
Inductive eth_event :=
  | EthRegister (netType : Z) (ident : string) (netCapabilities : Z)
  | EthUnregister (supplierId : Z)
  | EthSupplierInfo (supplierId : Z) (info : NetSupplierInfo.t)
  | EthLinkInfo (supplierId : Z) (info : NetLinkInfo.t)
  | EthDhcpStart (iface : string)
  | EthDhcpStop (iface : string)
  | EthDhcpGetResult (iface : string) (timeout : Z)
  | EthSetIpAddr (ifName ip : string)
  | EthNlkInit
  | EthPublish.

Class EthPlatform (E : Type) := {
  eth_call : eth_event → E → Z * E;
  eth_GetHWaddr : string → E → list Z * E;
  eth_GetLinkInfo : E → list NlkEventInfo * E;
  eth_Publish : E → bool * E;
  eth_registerLocalResult : bool;
}.

(** [enum ConnLinkState] *)
Inductive ConnLinkState := REGISTERED | UNREGISTERED | LINK_AVAILABLE | LINK_UNAVAILABLE.

#[global] Instance ConnLinkState_eq_dec : EqDecision ConnLinkState.
Proof. solve_decision. Defined.

(** The objects behind [linkInfo_], [netSupplierInfo_] and [ifcfg_] belong to
    one interface: they are values here, and a null pointer is [None]. *)
Module DevInterface.
Record t := mk {
  connLinkState_ : ConnLinkState;
  netSupplier_ : Z;
  devName_ : string;
  devHWaddr_ : list Z;
  linkUp_ : bool;
  lowerUp_ : bool;
  dhcpReqState_ : bool;
  linkInfo_ : option NetLinkInfo.t;
  netSupplierInfo_ : option NetSupplierInfo.t;
  ifcfg_ : option InterfaceConfiguration.t;
  netCapabilities_ : Z;
}.

(** After the constructor. *)
Definition construct : t :=
  mk UNREGISTERED 0 "" [] false false false None (Some NetSupplierInfo.default) None
    NetSpecifier.NET_CAPABILITIES_INTERNET.

Definition with_conn (s : ConnLinkState) (id : Z) (d : t) : t :=
  mk s id (devName_ d) (devHWaddr_ d) (linkUp_ d) (lowerUp_ d) (dhcpReqState_ d) (linkInfo_ d)
    (netSupplierInfo_ d) (ifcfg_ d) (netCapabilities_ d).
Definition with_link (i : option NetLinkInfo.t) (d : t) : t :=
  mk (connLinkState_ d) (netSupplier_ d) (devName_ d) (devHWaddr_ d) (linkUp_ d) (lowerUp_ d)
    (dhcpReqState_ d) i (netSupplierInfo_ d) (ifcfg_ d) (netCapabilities_ d).
Definition with_supplier_info (i : option NetSupplierInfo.t) (d : t) : t :=
  mk (connLinkState_ d) (netSupplier_ d) (devName_ d) (devHWaddr_ d) (linkUp_ d) (lowerUp_ d)
    (dhcpReqState_ d) (linkInfo_ d) i (ifcfg_ d) (netCapabilities_ d).
Definition with_ifcfg (c : option InterfaceConfiguration.t) (d : t) : t :=
  mk (connLinkState_ d) (netSupplier_ d) (devName_ d) (devHWaddr_ d) (linkUp_ d) (lowerUp_ d)
    (dhcpReqState_ d) (linkInfo_ d) (netSupplierInfo_ d) c (netCapabilities_ d).

Definition SetDevName (devName : string) (d : t) : t :=
  mk (connLinkState_ d) (netSupplier_ d) devName (devHWaddr_ d) (linkUp_ d) (lowerUp_ d)
    (dhcpReqState_ d) (linkInfo_ d) (netSupplierInfo_ d) (ifcfg_ d) (netCapabilities_ d).
Definition SetDevHWaddr (hwAddr : list Z) (d : t) : t :=
  mk (connLinkState_ d) (netSupplier_ d) (devName_ d) hwAddr (linkUp_ d) (lowerUp_ d)
    (dhcpReqState_ d) (linkInfo_ d) (netSupplierInfo_ d) (ifcfg_ d) (netCapabilities_ d).
Definition SetNetCapabilities (netCapabilities : Z) (d : t) : t :=
  mk (connLinkState_ d) (netSupplier_ d) (devName_ d) (devHWaddr_ d) (linkUp_ d) (lowerUp_ d)
    (dhcpReqState_ d) (linkInfo_ d) (netSupplierInfo_ d) (ifcfg_ d) netCapabilities.
Definition SetLinkUp (up : bool) (d : t) : t :=
  mk (connLinkState_ d) (netSupplier_ d) (devName_ d) (devHWaddr_ d) up (lowerUp_ d)
    (dhcpReqState_ d) (linkInfo_ d) (netSupplierInfo_ d) (ifcfg_ d) (netCapabilities_ d).
Definition SetLowerUp (lowerUp : bool) (d : t) : t :=
  mk (connLinkState_ d) (netSupplier_ d) (devName_ d) (devHWaddr_ d) (linkUp_ d) lowerUp
    (dhcpReqState_ d) (linkInfo_ d) (netSupplierInfo_ d) (ifcfg_ d) (netCapabilities_ d).
Definition SetDhcpReqState (dhcpReqState : bool) (d : t) : t :=
  mk (connLinkState_ d) (netSupplier_ d) (devName_ d) (devHWaddr_ d) (linkUp_ d) (lowerUp_ d)
    dhcpReqState (linkInfo_ d) (netSupplierInfo_ d) (ifcfg_ d) (netCapabilities_ d).

(** Nothing calls it; the pointer would be shared with the caller. *)
Definition SetlinkInfo (linkInfo : option NetLinkInfo.t) (d : t) : t := with_link linkInfo d.

End DevInterface.

(** The members of [EthernetManagement]; a value of the map is a pointer. *)
Record EthernetManagementState := mkManagement {
  devs_ : gmap string (option DevInterface.t);
  dhcpService_ : bool;          (* is not null *)
}.

(** The process. [nlkHandles_] is the number of times the one
    [EthernetManagement] is in the list of handlers of [nlkRtnl_]. *)
Record eworld (E : Type) := mkEworld {
  e_env : E;
  e_log : list eth_event;
  ethManagement_ : option EthernetManagementState;
  nlkHandles_ : nat;
  e_registerToService_ : bool;
  e_running_ : bool;            (* state_ == STATE_RUNNING *)
}.
Arguments mkEworld {E}.
Arguments e_env {E}.
Arguments e_log {E}.
Arguments ethManagement_ {E}.
Arguments nlkHandles_ {E}.
Arguments e_registerToService_ {E}.
Arguments e_running_ {E}.

Definition set_management {E} (m : EthernetManagementState) (w : eworld E) : eworld E :=
  mkEworld (e_env w) (e_log w) (Some m) (nlkHandles_ w) (e_registerToService_ w) (e_running_ w).
Definition set_handles {E} (n : nat) (w : eworld E) : eworld E :=
  mkEworld (e_env w) (e_log w) (ethManagement_ w) n (e_registerToService_ w) (e_running_ w).
Definition set_estate {E} (reg run : bool) (w : eworld E) : eworld E :=
  mkEworld (e_env w) (e_log w) (ethManagement_ w) (nlkHandles_ w) reg run.

Section Calls.
Context {E : Type} `{EthPlatform E}.

(** A call with an effect outside: logged. *)
Definition eth_ext {A} (ev : eth_event) (f : E → A * E) : st (eworld E) A := λ w,
  let '(a, e) := f (e_env w) in
  Some (a, mkEworld e (e_log w ++ [ev]) (ethManagement_ w) (nlkHandles_ w) (e_registerToService_ w) (e_running_ w)).

Definition eth_do (ev : eth_event) : st (eworld E) Z := eth_ext ev (eth_call ev).

Definition eth_query {A} (f : E → A * E) : st (eworld E) A := λ w,
  let '(a, e) := f (e_env w) in
  Some (a, mkEworld e (e_log w) (ethManagement_ w) (nlkHandles_ w) (e_registerToService_ w) (e_running_ w)).

End Calls.

(** The order of the keys of a [std::map<std::string, T>]. *)
Definition key_le (a b : string) : Prop := String.leb a b = true.

#[global] Instance key_le_dec a b : Decision (key_le a b).
Proof. unfold key_le. apply _. Defined.

(** ** dev_interface_state.cpp

    A method returns its result and the object after it. *)

Module DevInterfaceState.
Import DevInterface.
Section Code.
Context {E : Type} `{EthPlatform E}.
Implicit Type d : t.

Definition GetIPSetMode (d : t) : Z :=
  match ifcfg_ d with
  | None => InterfaceConfiguration.STATIC
  | Some c => InterfaceConfiguration.mode_ c
  end.

Definition RemoteRegisterNetSupplier (d : t) : st (eworld E) (Z * t) :=
  if decide (connLinkState_ d = UNREGISTERED) then
    id ← eth_do (EthRegister NetSpecifier.NET_TYPE_ETHERNET (devName_ d) (netCapabilities_ d)) ;
    let d := with_conn (if MINIMUM_SUPPLIER_ID <? id then REGISTERED else connLinkState_ d) id d in
    mret (netSupplier_ d, d)
  else mret (netSupplier_ d, d).

Definition RemoteUnregisterNetSupplier (d : t) : st (eworld E) (Z * t) :=
  if decide (connLinkState_ d = UNREGISTERED) then mret (NETMANAGER_ERROR, d)
  else
    ret ← eth_do (EthUnregister (to_u 32 (netSupplier_ d))) ;
    if ret =? 0 then mret (ret, with_conn UNREGISTERED 0 d) else mret (ret, d).

Definition RemoteUpdateNetLinkInfo (d : t) : st (eworld E) Z :=
  if decide (connLinkState_ d = LINK_UNAVAILABLE) then mret NETMANAGER_ERROR
  else
    match linkInfo_ d with
    | None => mret NETMANAGER_ERROR
    | Some i => eth_do (EthLinkInfo (to_u 32 (netSupplier_ d)) i)
    end.

Definition UpdateSupplierAvailable (d : t) : st (eworld E) t :=
  info ← deref (netSupplierInfo_ d) ;
  let isAvailable := linkUp_ d && lowerUp_ d in
  let d := with_supplier_info (Some (NetSupplierInfo.mk isAvailable (NetSupplierInfo.isRoaming_ info)
             (NetSupplierInfo.strength_ info) (NetSupplierInfo.frequency_ info))) d in
  mret (with_conn (if isAvailable then LINK_AVAILABLE else LINK_UNAVAILABLE) (netSupplier_ d) d).

Definition RemoteUpdateNetSupplierInfo (d : t) : st (eworld E) (Z * t) :=
  if decide (connLinkState_ d = UNREGISTERED) then mret (NETMANAGER_ERROR, d)
  else
    match netSupplierInfo_ d with
    | None => mret (NETMANAGER_ERROR, d)
    | Some _ =>
      d ← UpdateSupplierAvailable d ;
      info ← deref (netSupplierInfo_ d) ;
      ret ← eth_do (EthSupplierInfo (to_u 32 (netSupplier_ d)) info) ;
      mret (ret, d)
    end.

(** [linkInfo_], created when there is none. *)
Definition link_info (d : t) : NetLinkInfo.t := default NetLinkInfo.default (linkInfo_ d).

(** The addresses, routes and servers of [i] replaced, the rest kept. *)
Definition with_lists (i : NetLinkInfo.t) (addrs dns : list INetAddr.t) (routes : list Route.t)
    : NetLinkInfo.t :=
  NetLinkInfo.mk (NetLinkInfo.ifaceName_ i) (NetLinkInfo.domain_ i) addrs dns routes (NetLinkInfo.mtu_ i).

(** [if (!ifcfg_ && ifcfg_->mode_ != STATIC)]: with a configuration the test
    is false, and without one it follows the null pointer. *)
Definition UpdateLinkInfo (d : t) : st (eworld E) t :=
  c ← deref (ifcfg_ d) ;
  let s := InterfaceConfiguration.ipStatic_ c in
  mret (with_link (Some (with_lists (link_info d)
    [StaticConfiguration.ipAddr_ s] (StaticConfiguration.dnsServers_ s)
    [Route.mk (devName_ d) (StaticConfiguration.route_ s) (StaticConfiguration.gate_ s)])) d).

Definition with_address (a : string) (x : INetAddr.t) : INetAddr.t :=
  INetAddr.mk (INetAddr.type_ x) (INetAddr.family_ x) (INetAddr.prefixlen_ x) a (INetAddr.netMask_ x)
    (INetAddr.hostName_ x).

(** The route of one router of a DHCP result, unless the server is the router. *)
Definition dhcp_route (iface strServer strRouter : string) : list Route.t :=
  if String.eqb strServer strRouter then []
  else [Route.mk iface
          (with_address (if String.eqb strRouter "*" then "0.0.0.0"%string else strRouter) INetAddr.default)
          (with_address strServer INetAddr.default)].

(** The overload for DHCP results: the servers are appended. *)
Definition UpdateLinkInfoDhcp (iface : string) (result : DhcpResult) (d : t) : t :=
  let i := link_info d in
  let ipAddr := INetAddr.mk (to_u 8 (iptype result)) (INetAddr.family_ INetAddr.default)
    (INetAddr.prefixlen_ INetAddr.default) (strYourCli result) (INetAddr.netMask_ INetAddr.default)
    (INetAddr.hostName_ INetAddr.default) in
  with_link (Some (with_lists i [ipAddr]
    (NetLinkInfo.dnsList_ i ++ [with_address (strDns1 result) ipAddr; with_address (strDns2 result) ipAddr])
    (dhcp_route iface (strServer result) (strRouter1 result)
     ++ dhcp_route iface (strServer result) (strRouter2 result)))) d.

Definition SetIpAddr (d : t) : st (eworld E) unit :=
  c ← deref (ifcfg_ d) ;
  eth_do (EthSetIpAddr (devName_ d)
    (INetAddr.address_ (StaticConfiguration.ipAddr_ (InterfaceConfiguration.ipStatic_ c)))) ;;
  mret tt.

Definition SetIfcfg (ifcfg : option InterfaceConfiguration.t) (d : t) : st (eworld E) t :=
  let d := with_ifcfg ifcfg d in
  c ← deref (ifcfg_ d) ;
  if InterfaceConfiguration.mode_ c =? InterfaceConfiguration.STATIC then
    d ← UpdateLinkInfo d ;
    SetIpAddr d ;;
    (if decide (connLinkState_ d = LINK_AVAILABLE) then RemoteUpdateNetLinkInfo d ;; mret tt
     else mret tt) ;;
    mret d
  else mret d.

End Code.
End DevInterfaceState.

(** ** ethernet_management.cpp *)

Module EthernetManagement.
Import DevInterface DevInterfaceState.
Section Code.
Context {E : Type} `{EthPlatform E}.

(** [devs_.find(iface)]: [None] when there is no entry. *)
Definition find_dev (iface : string) : st (eworld E) (option (option t)) :=
  m ← gets ethManagement_ ; m ← deref m ; mret (devs_ m !! iface).

(** The object of an entry changes. *)
Definition put_dev (iface : string) (d : t) : st (eworld E) unit :=
  m ← gets ethManagement_ ; m ← deref m ;
  modify (set_management (mkManagement (<[iface := Some d]> (devs_ m)) (dhcpService_ m))).

Definition dhcp_available : st (eworld E) bool :=
  m ← gets ethManagement_ ; m ← deref m ; mret (dhcpService_ m).

Definition UpdateInterfaceState (dev : string) (up lowerUp : bool) : st (eworld E) unit :=
  fit ← find_dev dev ;
  match fit with
  | None => mret tt
  | Some devState =>
    d ← deref devState ;
    let d := SetLowerUp lowerUp (SetLinkUp up d) in
    let mode := GetIPSetMode d in
    let dhcpReqState := dhcpReqState_ d in
    if lowerUp : bool then
      r ← RemoteUpdateNetSupplierInfo d ;
      let d := r.2 in
      if (mode =? InterfaceConfiguration.DHCP) && negb dhcpReqState then
        dhcp ← dhcp_available ;
        if negb dhcp then put_dev dev d
        else
          eth_do (EthDhcpStart dev) ;;
          eth_do (EthDhcpGetResult dev DHCP_TIMEOUT) ;;
          put_dev dev (SetDhcpReqState true d)
      else RemoteUpdateNetLinkInfo d ;; put_dev dev d
    else if (mode =? InterfaceConfiguration.DHCP) && dhcpReqState then
      dhcp ← dhcp_available ;
      if negb dhcp then put_dev dev d
      else
        eth_do (EthDhcpStop dev) ;;
        r ← RemoteUpdateNetSupplierInfo (SetDhcpReqState false d) ;
        put_dev dev r.2
    else
      r ← RemoteUpdateNetSupplierInfo d ;
      put_dev dev r.2
  end.

(** [fit == devs_.end() || fit->second == nullptr] *)
Definition found_dev (iface : string) : st (eworld E) (option t) :=
  fit ← find_dev iface ; mret (mjoin fit).

Definition UpdateDevInterfaceState (iface : string) (cfg : option InterfaceConfiguration.t)
    : st (eworld E) Z :=
  fit ← found_dev iface ;
  match fit with
  | None => mret ETHERNET_ERROR
  | Some d =>
    if negb (linkUp_ d) then mret ETHERNET_ERROR
    else d ← SetIfcfg cfg d ; put_dev iface d ;; mret ETHERNET_SUCCESS
  end.

Definition UpdateDevInterfaceLinkInfo (iface : string) (result : DhcpResult) : st (eworld E) Z :=
  fit ← found_dev iface ;
  match fit with
  | None => mret ETHERNET_ERROR
  | Some d =>
    if negb (linkUp_ d) then mret ETHERNET_ERROR
    else
      let d := UpdateLinkInfoDhcp iface result d in
      RemoteUpdateNetLinkInfo d ;; put_dev iface d ;; mret ETHERNET_SUCCESS
  end.

(** [EthDhcpResultNotify::OnSuccess], called by the DHCP library. *)
Definition OnSuccess (ifname : string) (result : DhcpResult) : st (eworld E) unit :=
  UpdateDevInterfaceLinkInfo ifname result ;; mret tt.

Definition GetDevInterfaceCfg (iface : string) : st (eworld E) (option InterfaceConfiguration.t) :=
  fit ← found_dev iface ;
  match fit with None => mret None | Some d => mret (ifcfg_ d) end.

Definition IsActivate (iface : string) : st (eworld E) Z :=
  fit ← found_dev iface ;
  match fit with
  | None => mret ETHERNET_ERROR
  | Some d => mret (if linkUp_ d then 1 else 0)
  end.

(** The keys of a [std::map], in its order. *)
Definition GetActivateInterfaces : st (eworld E) (list string) :=
  m ← gets ethManagement_ ; m ← deref m ;
  mret (merge_sort key_le (map_to_list (devs_ m)).*1).

Definition flag (ifiFlags bit : Z) : bool := negb (Z.land ifiFlags bit =? 0).

Definition Handle (info : NlkEventInfo) : st (eworld E) unit :=
  UpdateInterfaceState (iface_ info) (flag (ifiFlags_ info) IFF_UP) (flag (ifiFlags_ info) IFF_LOWER_UP).

(** The configuration of a new interface. *)
Definition static_default : InterfaceConfiguration.t :=
  InterfaceConfiguration.mk InterfaceConfiguration.STATIC StaticConfiguration.default.

(** One interface of the list. [insert] keeps an entry that is already there;
    the new object is then dropped at the end of the iteration. *)
Definition init_dev (it : NlkEventInfo) : st (eworld E) unit :=
  let devName := iface_ it in
  if String.eqb devName "" then mret tt
  else
    d ← SetIfcfg (Some static_default) construct ;
    hwAddr ← eth_query (eth_GetHWaddr devName) ;
    let up := flag (ifiFlags_ it) IFF_UP in
    let lowerUp := flag (ifiFlags_ it) IFF_LOWER_UP in
    let d := SetLowerUp lowerUp (SetLinkUp up (SetDevHWaddr hwAddr (SetDevName devName d))) in
    r ← RemoteRegisterNetSupplier d ;
    let d := r.2 in
    d ← (if up && lowerUp then r ← RemoteUpdateNetSupplierInfo d ; mret r.2 else mret d) ;
    fit ← find_dev devName ;
    match fit with
    | Some _ => mret tt
    | None => put_dev devName d
    end.

Definition Init : st (eworld E) unit :=
  linkInfos ← eth_query eth_GetLinkInfo ;
  if (Z.of_nat (length linkInfos) <=? 0) then mret tt else for_each init_dev linkInfos.

Definition RegisterNlk : st (eworld E) unit := modify (λ w, set_handles (S (nlkHandles_ w)) w).

End Code.
End EthernetManagement.

(** ** ethernet_service.cpp *)

Module EthernetService.
Section Code.
Context {E : Type} `{EthPlatform E}.

Definition construct (e : E) : eworld E :=
  mkEworld e [] (Some (mkManagement ∅ true)) 0 false false.

Definition Init : st (eworld E) bool :=
  if negb eth_registerLocalResult then mret false
  else
    w ← gets id ;
    if negb (e_registerToService_ w) then
      ok ← eth_ext EthPublish eth_Publish ;
      if negb ok then mret false
      else modify (λ w, set_estate true (e_running_ w) w) ;; mret true
    else mret true.

Definition OnStart : st (eworld E) unit :=
  w ← gets id ;
  if e_running_ w then mret tt
  else
    ok ← Init ;
    if negb ok then mret tt
    else
      eth_do EthNlkInit ;;
      m ← gets ethManagement_ ;
      (match m with
       | Some _ => EthernetManagement.Init ;; EthernetManagement.RegisterNlk
       | None => mret tt
       end) ;;
      modify (λ w, set_estate (e_registerToService_ w) true w).

Definition OnStop : st (eworld E) unit := modify (set_estate false false).

Definition SetIfaceConfig (iface : string) (ic : option InterfaceConfiguration.t) : st (eworld E) Z :=
  m ← gets ethManagement_ ;
  match m with
  | Some _ => EthernetManagement.UpdateDevInterfaceState iface ic
  | None => mret ETHERNET_ERROR
  end.

Definition GetIfaceConfig (iface : string) : st (eworld E) (option InterfaceConfiguration.t) :=
  m ← gets ethManagement_ ;
  match m with
  | Some _ => EthernetManagement.GetDevInterfaceCfg iface
  | None => mret None
  end.

Definition IsActivate (iface : string) : st (eworld E) Z :=
  m ← gets ethManagement_ ;
  match m with
  | Some _ => EthernetManagement.IsActivate iface
  | None => mret ETHERNET_ERROR
  end.

Definition GetActivateInterfaces : st (eworld E) (list string) :=
  m ← gets ethManagement_ ;
  match m with
  | Some _ => EthernetManagement.GetActivateInterfaces
  | None => mret []
  end.

End Code.
End EthernetService.

(** ** netLink_rtnl.cpp: the dispatch of a link event

    The loop over [nlkHandles_]: every handler is the same object. *)
Definition ProcessIfInfo {E} `{EthPlatform E} (info : NlkEventInfo) : st (eworld E) unit :=
  w ← gets id ; for_each (λ _, EthernetManagement.Handle info) (replicate (nlkHandles_ w) tt).
