(* ===== verification/EthernetSpec.v ===== *)
(** * What the ethernet service does

    Every operation as an update of one interface together with the calls it
    makes, in order; and the invariant of the service, of which the DHCP client
    of each interface is a part: it is started and stopped in turn. *)

From S2P Require Import Prelude Parcel Parcelables Host Ethernet.
Import DevInterface DevInterfaceState.

(** ** Calls and updates *)

Section Frame.
Context {E : Type}.
Implicit Type w : eworld E.

(** From [w] to [w'] exactly the calls [evs] are made, and no state changes. *)
Definition calls (evs : list eth_event) w w' : Prop :=
  e_log w' = e_log w ++ evs ∧ ethManagement_ w' = ethManagement_ w ∧ nlkHandles_ w' = nlkHandles_ w ∧
  e_registerToService_ w' = e_registerToService_ w ∧ e_running_ w' = e_running_ w.

(** The same, and then the interface [iface] is [d]. *)
Definition updates (evs : list eth_event) (iface : string) (d : t) w w' : Prop :=
  e_log w' = e_log w ++ evs ∧ nlkHandles_ w' = nlkHandles_ w ∧
  ∃ m, ethManagement_ w = Some m ∧
    ethManagement_ w' = Some (mkManagement (<[iface := Some d]> (devs_ m)) (dhcpService_ m)).

Lemma calls_nil w : calls [] w w.
Proof. repeat split. by rewrite app_nil_r. Qed.

Lemma calls_trans l1 l2 w1 w2 w3 : calls l1 w1 w2 → calls l2 w2 w3 → calls (l1 ++ l2) w1 w3.
Proof.
  intros (H1 & H2 & H3 & H4 & H5) (G1 & G2 & G3 & G4 & G5). split_and!; try congruence.
  by rewrite G1, H1, app_assoc.
Qed.

End Frame.

Section Ops.
Context {E : Type} `{EthPlatform E}.
Implicit Type w : eworld E.

Lemma wp_eth_do ev (Q : Z → eworld E → Prop) w :
  (∀ z w', calls [ev] w w' → Q z w') → wp (eth_do ev) Q w.
Proof.
  intros HQ. unfold wp, eth_do, eth_ext. destruct (eth_call ev (e_env w)) as [z e].
  exists z. eexists. split; [done|]. by apply HQ.
Qed.

Lemma wp_eth_query {A} (f : E → A * E) (Q : A → eworld E → Prop) w :
  (∀ a w', calls [] w w' → Q a w') → wp (eth_query f) Q w.
Proof.
  intros HQ. unfold wp, eth_query. destruct (f (e_env w)) as [a e]. exists a. eexists.
  split; [done|]. apply HQ. split_and!; try done. by rewrite app_nil_r.
Qed.

(** ** One interface *)

Definition up_and_running (d : t) : bool := linkUp_ d && lowerUp_ d.

Definition told_info (d : t) : NetSupplierInfo.t :=
  let i := default NetSupplierInfo.default (netSupplierInfo_ d) in
  NetSupplierInfo.mk (up_and_running d) (NetSupplierInfo.isRoaming_ i) (NetSupplierInfo.strength_ i)
    (NetSupplierInfo.frequency_ i).

(** Telling the connection service whether the interface is available. *)
Definition announced (d : t) : t :=
  if decide (connLinkState_ d = UNREGISTERED) then d
  else with_conn (if up_and_running d then LINK_AVAILABLE else LINK_UNAVAILABLE) (netSupplier_ d)
         (with_supplier_info (Some (told_info d)) d).

Definition announcement (d : t) : list eth_event :=
  if decide (connLinkState_ d = UNREGISTERED) then []
  else [EthSupplierInfo (to_u 32 (netSupplier_ d)) (told_info d)].

Definition link_report (d : t) : list eth_event :=
  if decide (connLinkState_ d = LINK_UNAVAILABLE) then []
  else match linkInfo_ d with
       | Some i => [EthLinkInfo (to_u 32 (netSupplier_ d)) i]
       | None => []
       end.

(** A configuration: a static one replaces the lists of the link information. *)
Definition static_link (c : InterfaceConfiguration.t) (d : t) : NetLinkInfo.t :=
  let s := InterfaceConfiguration.ipStatic_ c in
  with_lists (link_info d) [StaticConfiguration.ipAddr_ s] (StaticConfiguration.dnsServers_ s)
    [Route.mk (devName_ d) (StaticConfiguration.route_ s) (StaticConfiguration.gate_ s)].

Definition is_static (c : InterfaceConfiguration.t) : bool :=
  InterfaceConfiguration.mode_ c =? InterfaceConfiguration.STATIC.

Definition configured (c : InterfaceConfiguration.t) (d : t) : t :=
  if is_static c then with_link (Some (static_link c d)) (with_ifcfg (Some c) d)
  else with_ifcfg (Some c) d.

Definition configuration_calls (c : InterfaceConfiguration.t) (d : t) : list eth_event :=
  if is_static c then
    EthSetIpAddr (devName_ d)
      (INetAddr.address_ (StaticConfiguration.ipAddr_ (InterfaceConfiguration.ipStatic_ c)))
    :: (if decide (connLinkState_ d = LINK_AVAILABLE) then link_report (configured c d) else [])
  else [].

(** A link event: the flags, then the connection service and DHCP. *)
Definition uses_dhcp (d : t) : bool := GetIPSetMode d =? InterfaceConfiguration.DHCP.

Definition after_link_event (up lowerUp : bool) (d : t) : t :=
  let d := SetLowerUp lowerUp (SetLinkUp up d) in
  if lowerUp then
    if uses_dhcp d && negb (dhcpReqState_ d) then SetDhcpReqState true (announced d) else announced d
  else
    if uses_dhcp d && dhcpReqState_ d then announced (SetDhcpReqState false d) else announced d.

Definition link_event_calls (dev : string) (up lowerUp : bool) (d : t) : list eth_event :=
  let d := SetLowerUp lowerUp (SetLinkUp up d) in
  if lowerUp then
    announcement d ++
    (if uses_dhcp d && negb (dhcpReqState_ d)
     then [EthDhcpStart dev; EthDhcpGetResult dev DHCP_TIMEOUT]
     else link_report (announced d))
  else (if uses_dhcp d && dhcpReqState_ d then [EthDhcpStop dev] else []) ++ announcement d.

(** ** The operations of one interface *)

Lemma wp_announce d (Q : Z * t → eworld E → Prop) w :
  is_Some (netSupplierInfo_ d) →
  (∀ z w', calls (announcement d) w w' → Q (z, announced d) w') →
  wp (RemoteUpdateNetSupplierInfo d) Q w.
Proof.
  intros [i Hi] HQ. unfold RemoteUpdateNetSupplierInfo. unfold announced, announcement in HQ.
  destruct (decide (connLinkState_ d = UNREGISTERED)); [apply wp_ret, HQ, calls_nil|].
  rewrite Hi. apply wp_bind. unfold UpdateSupplierAvailable. apply wp_bind.
  eapply wp_deref; [exact Hi|]. apply wp_ret. apply wp_bind. eapply wp_deref; [reflexivity|].
  apply wp_bind, wp_eth_do. intros z w' Hw. apply wp_ret.
  unfold told_info in HQ. rewrite Hi in HQ. by apply HQ.
Qed.

Lemma wp_report d (Q : Z → eworld E → Prop) w :
  (∀ z w', calls (link_report d) w w' → Q z w') → wp (RemoteUpdateNetLinkInfo d) Q w.
Proof.
  intros HQ. unfold RemoteUpdateNetLinkInfo, link_report in *.
  destruct (decide (connLinkState_ d = LINK_UNAVAILABLE)); [apply wp_ret, HQ, calls_nil|].
  destruct (linkInfo_ d); [by apply wp_eth_do|apply wp_ret, HQ, calls_nil].
Qed.

Lemma wp_SetIfcfg c d (Q : t → eworld E → Prop) w :
  (∀ w', calls (configuration_calls c d) w w' → Q (configured c d) w') →
  wp (SetIfcfg (Some c) d) Q w.
Proof.
  intros HQ. unfold SetIfcfg, configuration_calls, configured, is_static in *. apply wp_bind.
  eapply wp_deref; [reflexivity|].
  destruct (InterfaceConfiguration.mode_ c =? InterfaceConfiguration.STATIC); [|apply wp_ret, HQ, calls_nil].
  apply wp_bind. unfold UpdateLinkInfo. apply wp_bind. eapply wp_deref; [reflexivity|]. apply wp_ret.
  apply wp_bind. unfold SetIpAddr. apply wp_bind. eapply wp_deref; [reflexivity|].
  apply wp_bind, wp_eth_do. intros _ w1 H1. apply wp_ret. apply wp_bind. simpl connLinkState_.
  destruct (decide (connLinkState_ d = LINK_AVAILABLE)).
  - apply wp_bind, wp_report. intros _ w2 H2. do 2 apply wp_ret. apply HQ.
    exact (calls_trans _ _ _ _ _ H1 H2).
  - do 2 apply wp_ret. by apply HQ.
Qed.

Lemma wp_register d (Q : Z * t → eworld E → Prop) w :
  connLinkState_ d = UNREGISTERED →
  (∀ id w', calls [EthRegister NetSpecifier.NET_TYPE_ETHERNET (devName_ d) (netCapabilities_ d)] w w' →
     Q (id, with_conn (if MINIMUM_SUPPLIER_ID <? id then REGISTERED else UNREGISTERED) id d) w') →
  wp (RemoteRegisterNetSupplier d) Q w.
Proof.
  intros Hd HQ. unfold RemoteRegisterNetSupplier. rewrite decide_True by done.
  apply wp_bind, wp_eth_do. intros id w' Hw. apply wp_ret. rewrite Hd. by apply HQ.
Qed.

(** ** The table *)

Lemma wp_find_dev iface m (Q : option (option t) → eworld E → Prop) w :
  ethManagement_ w = Some m → Q (devs_ m !! iface) w → wp (EthernetManagement.find_dev iface) Q w.
Proof. intros Hm HQ. apply wp_bind, wp_gets, wp_bind. eapply wp_deref; [exact Hm|]. by apply wp_ret. Qed.

Lemma wp_found_dev iface m (Q : option t → eworld E → Prop) w :
  ethManagement_ w = Some m → Q (mjoin (devs_ m !! iface)) w → wp (EthernetManagement.found_dev iface) Q w.
Proof. intros Hm HQ. apply wp_bind. eapply wp_find_dev; [exact Hm|]. by apply wp_ret. Qed.

Lemma wp_put_dev iface d evs (Q : unit → eworld E → Prop) w0 w :
  is_Some (ethManagement_ w0) → calls evs w0 w →
  (∀ w', updates evs iface d w0 w' → e_registerToService_ w' = e_registerToService_ w0 →
     e_running_ w' = e_running_ w0 → Q tt w') →
  wp (EthernetManagement.put_dev iface d) Q w.
Proof.
  intros [m Hm] (H1 & H2 & H3 & H4 & H5) HQ. apply wp_bind, wp_gets, wp_bind.
  eapply wp_deref; [by rewrite H2|]. apply wp_modify. apply HQ; [|done|done].
  split; [done|]. split; [done|]. exists m. done.
Qed.

(** A link event of an interface of the table. *)
Lemma wp_UpdateInterfaceState dev up lowerUp m d (Q : unit → eworld E → Prop) w :
  ethManagement_ w = Some m → dhcpService_ m = true → devs_ m !! dev = Some (Some d) →
  is_Some (netSupplierInfo_ d) →
  (∀ w', updates (link_event_calls dev up lowerUp d) dev (after_link_event up lowerUp d) w w' →
     e_registerToService_ w' = e_registerToService_ w → e_running_ w' = e_running_ w → Q tt w') →
  wp (EthernetManagement.UpdateInterfaceState dev up lowerUp) Q w.
Proof.
  intros Hm Hdhcp Hd Hi HQ. assert (Hs : is_Some (ethManagement_ w)) by by eexists.
  unfold link_event_calls, after_link_event in HQ.
  apply wp_bind. eapply wp_find_dev; [exact Hm|]. rewrite Hd. apply wp_bind.
  eapply wp_deref; [reflexivity|]. set (d1 := SetLowerUp lowerUp (SetLinkUp up d)) in *.
  assert (Hav : ∀ evs w1 (Q1 : bool → eworld E → Prop), calls evs w w1 → Q1 true w1 →
    wp EthernetManagement.dhcp_available Q1 w1).
  { intros evs w1 Q1 (_ & H2 & _) HQ1. apply wp_bind, wp_gets, wp_bind.
    eapply wp_deref; [by rewrite H2|]. apply wp_ret. by rewrite Hdhcp. }
  cbv zeta. destruct lowerUp.
  - apply wp_bind, wp_announce; [done|]. intros z w1 H1. cbn [snd]. fold (uses_dhcp d1).
    destruct (uses_dhcp d1 && negb (dhcpReqState_ d1)).
    + apply wp_bind. eapply Hav; [exact H1|]. cbn [negb].
      apply wp_bind, wp_eth_do. intros _ w2 H2. apply wp_bind, wp_eth_do. intros _ w3 H3.
      eapply wp_put_dev; [done| |exact HQ].
      exact (calls_trans _ _ _ _ _ H1 (calls_trans _ _ _ _ _ H2 H3)).
    + apply wp_bind, wp_report. intros _ w2 H2. eapply wp_put_dev; [done| |exact HQ].
      exact (calls_trans _ _ _ _ _ H1 H2).
  - fold (uses_dhcp d1). destruct (uses_dhcp d1 && dhcpReqState_ d1).
    + apply wp_bind. eapply Hav; [apply calls_nil|]. cbn [negb].
      apply wp_bind, wp_eth_do. intros _ w1 H1. apply wp_bind, wp_announce; [done|].
      intros z w2 H2. eapply wp_put_dev; [done| |exact HQ]. exact (calls_trans _ _ _ _ _ H1 H2).
    + apply wp_bind, wp_announce; [done|]. intros z w1 H1. eapply wp_put_dev; [done| |exact HQ]. exact H1.
Qed.

End Ops.
