(* ===== verification/EthernetInv.v ===== *)
(** * The invariant of the ethernet service

    [eth_inv] holds in every state that requests can lead to, also while the
    service starts: the pointers of every interface that a request follows are
    valid, an interface that is registered has a supplier id, no link
    information names its interface, and for each interface the DHCP client has
    been started and stopped in turn, the flag of the interface saying which was
    last. *)

From S2P Require Import Prelude Parcel Parcelables Host Ethernet EthernetSpec.
Import DevInterface DevInterfaceState.

(** ** DHCP in the log *)

(** The starts ([true]) and stops of the DHCP client of an interface. *)
Definition dhcp_log (iface : string) (evs : list eth_event) : list bool :=
  omap (λ ev, match ev with
              | EthDhcpStart i => if String.eqb i iface then Some true else None
              | EthDhcpStop i => if String.eqb i iface then Some false else None
              | _ => None
              end) evs.

(** From [b] on, every element is the opposite of the one before. *)
Fixpoint in_turn (b : bool) (l : list bool) : Prop :=
  match l with
  | [] => True
  | x :: l' => x = negb b ∧ in_turn x l'
  end.

Fixpoint last_of (b : bool) (l : list bool) : bool :=
  match l with
  | [] => b
  | x :: l' => last_of x l'
  end.

Lemma dhcp_log_app iface l1 l2 : dhcp_log iface (l1 ++ l2) = dhcp_log iface l1 ++ dhcp_log iface l2.
Proof. apply omap_app. Qed.

Lemma in_turn_app b l1 l2 : in_turn b l1 → in_turn (last_of b l1) l2 → in_turn b (l1 ++ l2).
Proof.
  revert b. induction l1 as [|x l1 IH]; intros b; [done|]. intros [Hx H1] H2. split; [done|]. by apply IH.
Qed.

Lemma last_of_app b l1 l2 : last_of b (l1 ++ l2) = last_of (last_of b l1) l2.
Proof.
  revert b. induction l1 as [|x l1 IH]; intros b; [done|]. apply (IH x).
Qed.

(** ** The invariant *)

Record dev_ok (d : t) : Prop := mkDevOk {
  dok_link : NetLinkInfo.ifaceName_ (link_info d) = ""%string;
  dok_info : is_Some (netSupplierInfo_ d);
  dok_id : connLinkState_ d = UNREGISTERED ∨ MINIMUM_SUPPLIER_ID < netSupplier_ d;
}.

Definition event_ok (ev : eth_event) : Prop :=
  match ev with
  | EthLinkInfo _ i => NetLinkInfo.ifaceName_ i = ""%string
  | _ => True
  end.

Definition dhcp_flag (o : option (option t)) : bool :=
  match mjoin o with Some d => dhcpReqState_ d | None => false end.

Definition entry_fine (o : option (option t)) : Prop :=
  match o with Some p => ∃ d, p = Some d ∧ dev_ok d | None => True end.

Definition table_ok (devs : gmap string (option t)) (log : list eth_event) : Prop :=
  ∀ iface, entry_fine (devs !! iface) ∧ in_turn false (dhcp_log iface log) ∧
    dhcp_flag (devs !! iface) = last_of false (dhcp_log iface log).

Definition eth_inv {E} (w : eworld E) : Prop :=
  Forall event_ok (e_log w) ∧
  ∃ m, ethManagement_ w = Some m ∧ dhcpService_ m = true ∧ table_ok (devs_ m) (e_log w).

(** Calls that have nothing to do with DHCP. *)
Definition plain_event (ev : eth_event) : Prop :=
  event_ok ev ∧ match ev with EthDhcpStart _ | EthDhcpStop _ => False | _ => True end.

Lemma plain_dhcp_log iface evs : Forall plain_event evs → dhcp_log iface evs = [].
Proof. induction 1 as [|ev evs [_ Hev] _ IH]; [done|]. destruct ev; try done; exact IH. Qed.

Lemma plain_ok evs : Forall plain_event evs → Forall event_ok evs.
Proof. intros Hf. eapply Forall_impl; [exact Hf|]. by intros ev []. Qed.

Section Inv.
Context {E : Type}.
Implicit Type w : eworld E.

Lemma inv_calls evs w w' : eth_inv w → calls evs w w' → Forall plain_event evs → eth_inv w'.
Proof.
  intros [Hl (m & Hm & Hd & Ht)] (H1 & H2 & _) Hev. split.
  - rewrite H1. apply Forall_app. split; [done|by apply plain_ok].
  - exists m. rewrite H2. split; [done|]. split; [done|]. intros iface. rewrite H1, dhcp_log_app.
    rewrite (plain_dhcp_log iface evs) by done. rewrite app_nil_r. apply Ht.
Qed.

(** The DHCP calls of an update of [iface], and its flag. *)
Definition dhcp_step (iface : string) (evs : list eth_event) (b b' : bool) : Prop :=
  (dhcp_log iface evs = [] ∧ b' = b) ∨ (dhcp_log iface evs = [negb b] ∧ b' = negb b).

Lemma inv_updates evs iface d w w' m :
  eth_inv w → updates evs iface d w w' → ethManagement_ w = Some m → Forall event_ok evs →
  dev_ok d → (∀ j, j ≠ iface → dhcp_log j evs = []) →
  dhcp_step iface evs (dhcp_flag (devs_ m !! iface)) (dhcpReqState_ d) → eth_inv w'.
Proof.
  intros [Hl (m0 & Hm & Hd & Ht)] (H1 & _ & m1 & Hm1 & H2) Hm2 Hev Hok Hj Hstep.
  rewrite Hm2 in Hm, Hm1. injection Hm as <-. injection Hm1 as <-. split.
  { rewrite H1. by apply Forall_app. }
  eexists. split; [exact H2|]. split; [done|]. cbn [devs_]. intros j. rewrite H1, dhcp_log_app.
  destruct (Ht j) as (He & Hin & Hflag). destruct (decide (j = iface)) as [->|Hne].
  - rewrite lookup_insert_eq. split; [by exists d|]. rewrite last_of_app, <- Hflag. cbn [dhcp_flag mjoin option_join].
    destruct Hstep as [[-> ->]|[-> ->]]; [by rewrite app_nil_r|].
    split; [|done]. apply in_turn_app; [done|]. by rewrite <- Hflag.
  - rewrite lookup_insert_ne by done. rewrite Hj by done. rewrite app_nil_r. done.
Qed.

Lemma inv_found w m iface d :
  eth_inv w → ethManagement_ w = Some m → mjoin (devs_ m !! iface) = Some d →
  dev_ok d ∧ devs_ m !! iface = Some (Some d) ∧ dhcpService_ m = true.
Proof.
  intros [_ (m0 & Hm & Hd & Ht)] Hm1 Hj. rewrite Hm1 in Hm. injection Hm as <-. destruct (Ht iface) as (He & _).
  destruct (devs_ m !! iface) as [[x|]|]; simpl in *; try done. simplify_eq.
  destruct He as (? & ? & ?). by simplify_eq.
Qed.

Lemma inv_estate reg run w : eth_inv w → eth_inv (set_estate reg run w).
Proof. done. Qed.

Lemma inv_handles n w : eth_inv w → eth_inv (set_handles n w).
Proof. done. Qed.

End Inv.

(** ** The updates keep it *)

Lemma announced_ok d : dev_ok d → dev_ok (announced d).
Proof.
  intros [Hl Hi Hid]. unfold announced. destruct (decide (connLinkState_ d = UNREGISTERED)); [by split|].
  split; [done|by eexists|]. right. by destruct Hid.
Qed.

Lemma configured_ok c d : dev_ok d → dev_ok (configured c d).
Proof.
  intros [Hl Hi Hid]. unfold configured. destruct (is_static c).
  - by split.
  - by split.
Qed.

Lemma flags_ok up lowerUp d : dev_ok d → dev_ok (SetLowerUp lowerUp (SetLinkUp up d)).
Proof. intros [Hl Hi Hid]. by split. Qed.

Lemma dhcp_flag_ok b d : dev_ok d → dev_ok (SetDhcpReqState b d).
Proof. intros [Hl Hi Hid]. by split. Qed.

Lemma dhcp_result_ok iface r d : dev_ok d → dev_ok (UpdateLinkInfoDhcp iface r d).
Proof. intros [Hl Hi Hid]. by split. Qed.

Lemma after_link_event_ok up lowerUp d : dev_ok d → dev_ok (after_link_event up lowerUp d).
Proof.
  intros Hd. pose proof (flags_ok up lowerUp d Hd). unfold after_link_event. cbv zeta.
  destruct lowerUp; destruct (_ && _); auto using announced_ok, dhcp_flag_ok.
Qed.

Lemma announcement_plain d : Forall plain_event (announcement d).
Proof. unfold announcement. destruct (decide _); [done|]. by constructor. Qed.

Lemma report_plain d : dev_ok d → Forall plain_event (link_report d).
Proof.
  intros Hd. unfold link_report. destruct (decide _); [done|].
  destruct (linkInfo_ d) as [i|] eqn:Ei; [|done]. constructor; [|done]. split; [|done].
  pose proof (dok_link d Hd) as Hl. unfold link_info in Hl. by rewrite Ei in Hl.
Qed.

Lemma configuration_plain c d : dev_ok d → Forall plain_event (configuration_calls c d).
Proof.
  intros Hd. unfold configuration_calls. destruct (is_static c); [|done]. constructor; [done|].
  destruct (decide _); [|done]. by apply report_plain, configured_ok.
Qed.

Lemma announced_flag d : dhcpReqState_ (announced d) = dhcpReqState_ d.
Proof. unfold announced. by destruct (decide _). Qed.

Lemma dhcp_log_start j iface : dhcp_log j [EthDhcpStart iface; EthDhcpGetResult iface DHCP_TIMEOUT]
  = if String.eqb iface j then [true] else [].
Proof. simpl. by destruct (String.eqb iface j). Qed.

Lemma dhcp_log_stop j iface : dhcp_log j [EthDhcpStop iface] = if String.eqb iface j then [false] else [].
Proof. simpl. by destruct (String.eqb iface j). Qed.

(** The DHCP client in a link event: only that of the interface, at most once,
    and against the flag. *)
Lemma link_event_dhcp dev up lowerUp d :
  dev_ok d →
  Forall event_ok (link_event_calls dev up lowerUp d) ∧
  (∀ j, j ≠ dev → dhcp_log j (link_event_calls dev up lowerUp d) = []) ∧
  dhcp_step dev (link_event_calls dev up lowerUp d) (dhcpReqState_ d)
    (dhcpReqState_ (after_link_event up lowerUp d)).
Proof.
  intros Hd. unfold link_event_calls, after_link_event, dhcp_step. cbv zeta.
  set (d1 := SetLowerUp lowerUp (SetLinkUp up d)). assert (Hd1 : dev_ok d1) by by apply flags_ok.
  assert (Hf : dhcpReqState_ d1 = dhcpReqState_ d) by done.
  pose proof (announcement_plain d1) as Ha. pose proof (plain_ok _ Ha) as Ha'.
  pose proof (report_plain _ (announced_ok _ Hd1)) as Hr. pose proof (plain_ok _ Hr) as Hr'.
  destruct lowerUp.
  - destruct (uses_dhcp d1 && negb (dhcpReqState_ d1)) eqn:Ed.
    + apply andb_prop in Ed as [_ Eb%negb_true_iff]. rewrite <- Hf, Eb. split_and!.
      * apply Forall_app. split; [done|]. by repeat constructor.
      * intros j Hj. rewrite dhcp_log_app, plain_dhcp_log, dhcp_log_start by done.
        by destruct (String.eqb_spec dev j) as [->|].
      * right. rewrite dhcp_log_app, plain_dhcp_log, dhcp_log_start by done. by rewrite String.eqb_refl.
    + rewrite announced_flag, <- Hf. split_and!; [by apply Forall_app| |].
      * intros j _. by rewrite dhcp_log_app, !plain_dhcp_log.
      * left. by rewrite dhcp_log_app, !plain_dhcp_log.
  - destruct (uses_dhcp d1 && dhcpReqState_ d1) eqn:Ed.
    + apply andb_prop in Ed as [_ Eb]. rewrite <- Hf, Eb, announced_flag. split_and!.
      * apply Forall_app. split; [by constructor|done].
      * intros j Hj. rewrite dhcp_log_app, (plain_dhcp_log _ (announcement d1)), dhcp_log_stop by done.
        by destruct (String.eqb_spec dev j) as [->|].
      * right. rewrite dhcp_log_app, (plain_dhcp_log _ (announcement d1)), dhcp_log_stop by done.
        by rewrite String.eqb_refl.
    + rewrite announced_flag, <- Hf. simpl app. split_and!; [done| |].
      * intros j _. by apply plain_dhcp_log.
      * left. by rewrite plain_dhcp_log.
Qed.
