(* ===== verification/EthernetCorrect.v ===== *)
(** * The requests of the ethernet service keep its invariant

    What the process is asked, the states it can be in, and the invariant of
    [EthernetInv] for each operation. *)

From S2P Require Import Prelude Parcel Parcelables Host.
From S2P Require Import Ethernet EthernetSpec EthernetInv.
Import DevInterface DevInterfaceState.

(** What the process is asked: by the system, by clients, by the kernel and by
    the DHCP library. *)
Inductive eth_request :=
  | EOnStart
  | EOnStop
  | ESetIfaceConfig (iface : string) (ic : option InterfaceConfiguration.t)
  | EGetIfaceConfig (iface : string)
  | EIsActivate (iface : string)
  | EGetActivateInterfaces
  | ELinkEvent (info : NlkEventInfo)
  | EDhcpSuccess (ifname : string) (result : DhcpResult).

Inductive eth_reply :=
  | ERDone
  | ERCode (c : Z)
  | ERConfig (c : option InterfaceConfiguration.t)
  | ERNames (l : list string).

(** The stub refuses a null configuration. *)
Definition eth_enabled (q : eth_request) : Prop :=
  match q with ESetIfaceConfig _ None => False | _ => True end.

Section Code.
Context {E : Type} `{EthPlatform E}.
Implicit Type w : eworld E.

Definition eth_handle (q : eth_request) : st (eworld E) eth_reply :=
  match q with
  | EOnStart => EthernetService.OnStart ;; mret ERDone
  | EOnStop => EthernetService.OnStop ;; mret ERDone
  | ESetIfaceConfig iface ic => c ← EthernetService.SetIfaceConfig iface ic ; mret (ERCode c)
  | EGetIfaceConfig iface => c ← EthernetService.GetIfaceConfig iface ; mret (ERConfig c)
  | EIsActivate iface => c ← EthernetService.IsActivate iface ; mret (ERCode c)
  | EGetActivateInterfaces => l ← EthernetService.GetActivateInterfaces ; mret (ERNames l)
  | ELinkEvent info => ProcessIfInfo info ;; mret ERDone
  | EDhcpSuccess ifname r => EthernetManagement.OnSuccess ifname r ;; mret ERDone
  end.

Inductive eth_reachable (e : E) : eworld E → Prop :=
  | eth_reach_init : eth_reachable e (EthernetService.construct e)
  | eth_reach_step w q r w' :
      eth_reachable e w → eth_enabled q → eth_handle q w = Some (r, w') → eth_reachable e w'.

(** ** Every request keeps the invariant *)

Lemma inv_construct (e : E) : eth_inv (EthernetService.construct e).
Proof. split; [done|]. eexists. split; [done|]. split; [done|]. intros iface. simpl. rewrite lookup_empty. by split_and!. Qed.

Lemma ok_Handle info w : eth_inv w → wp (EthernetManagement.Handle info) (λ _, eth_inv) w.
Proof.
  intros Hw. pose proof Hw as [_ (m & Hm & Hd & Ht)]. unfold EthernetManagement.Handle.
  set (up := EthernetManagement.flag _ _). set (lowerUp := EthernetManagement.flag _ IFF_LOWER_UP).
  destruct (devs_ m !! iface_ info) as [p|] eqn:Ep.
  - destruct (Ht (iface_ info)) as (He & _). rewrite Ep in He. destruct He as (d & -> & Hok).
    eapply wp_UpdateInterfaceState; [exact Hm|done|exact Ep|apply Hok|]. intros w' Hw' _ _.
    destruct (link_event_dhcp (iface_ info) up lowerUp d Hok) as (Hev & Hj & Hs).
    eapply inv_updates; [exact Hw|exact Hw'|exact Hm|done|by apply after_link_event_ok|done|].
    rewrite Ep. exact Hs.
  - apply wp_bind. eapply wp_find_dev; [exact Hm|]. rewrite Ep. by apply wp_ret.
Qed.

Lemma ok_SetIfaceConfig iface c w :
  eth_inv w → wp (EthernetManagement.UpdateDevInterfaceState iface (Some c)) (λ _, eth_inv) w.
Proof.
  intros Hw. pose proof Hw as [_ (m & Hm & Hd & Ht)]. apply wp_bind.
  eapply wp_found_dev; [exact Hm|]. destruct (mjoin (devs_ m !! iface)) as [d|] eqn:Ej; [|by apply wp_ret].
  destruct (inv_found w m iface d Hw Hm Ej) as (Hok & Hi & _).
  destruct (linkUp_ d); cbn [negb]; [|by apply wp_ret].
  apply wp_bind, wp_SetIfcfg. intros w1 H1. pose proof (configuration_plain c d Hok) as Hp.
  apply wp_bind. eapply wp_put_dev; [by eexists|exact H1|]. intros w2 H2 _ _. apply wp_ret.
  eapply inv_updates; [exact Hw|exact H2|exact Hm|by apply plain_ok|by apply configured_ok|
    intros j _; by apply plain_dhcp_log|].
  left. rewrite Hi. split; [by apply plain_dhcp_log|]. unfold configured. by destruct (is_static c).
Qed.

Lemma ok_OnSuccess iface r w : eth_inv w → wp (EthernetManagement.OnSuccess iface r) (λ _, eth_inv) w.
Proof.
  intros Hw. pose proof Hw as [_ (m & Hm & Hd & Ht)]. apply wp_bind, wp_bind.
  eapply wp_found_dev; [exact Hm|].
  destruct (mjoin (devs_ m !! iface)) as [d|] eqn:Ej; [|by apply wp_ret, wp_ret].
  destruct (inv_found w m iface d Hw Hm Ej) as (Hok & Hi & _).
  destruct (linkUp_ d); cbn [negb]; [|by apply wp_ret, wp_ret].
  assert (Hok' : dev_ok (UpdateLinkInfoDhcp iface r d)) by by apply dhcp_result_ok.
  apply wp_bind, wp_report. intros _ w1 H1. pose proof (report_plain _ Hok') as Hp.
  apply wp_bind. eapply wp_put_dev; [by eexists|exact H1|]. intros w2 H2 _ _. apply wp_ret, wp_ret.
  eapply inv_updates; [exact Hw|exact H2|exact Hm|by apply plain_ok|done|
    intros j _; by apply plain_dhcp_log|].
  left. rewrite Hi. split; [by apply plain_dhcp_log|done].
Qed.

(** A new interface. *)
Lemma ok_init_dev it w : eth_inv w → wp (EthernetManagement.init_dev it) (λ _, eth_inv) w.
Proof.
  intros Hw. pose proof Hw as [_ (m & Hm & Hd & Ht)]. unfold EthernetManagement.init_dev. cbv zeta.
  destruct (String.eqb_spec (iface_ it) ""); [by apply wp_ret|].
  apply wp_bind, wp_SetIfcfg. intros w1 H1. apply wp_bind, wp_eth_query. intros hw w2 H2.
  apply wp_bind, wp_register; [done|]. intros id w3 H3. cbn [snd].
  set (up := EthernetManagement.flag _ _). set (lowerUp := EthernetManagement.flag _ IFF_LOWER_UP).
  set (d := with_conn _ _ _).
  assert (Hok : dev_ok d).
  { split; [done|by eexists|]. simpl.
    destruct (Z.ltb_spec MINIMUM_SUPPLIER_ID id); [by right|by left]. }
  assert (Hc : ∃ evs, calls evs w w3 ∧ Forall plain_event evs).
  { eexists. split; [exact (calls_trans _ _ _ _ _ H1 (calls_trans _ _ _ _ _ H2 H3))|].
    apply Forall_app. split; [by repeat constructor|]. by repeat constructor. }
  destruct Hc as (evs & Hc & Hev).
  assert (Hend : ∀ evs' d' w4, calls evs' w w4 → Forall plain_event evs' → dev_ok d' →
    dhcpReqState_ d' = false →
    wp (fit ← EthernetManagement.find_dev (iface_ it) ;
        match fit with Some _ => mret tt | None => EthernetManagement.put_dev (iface_ it) d' end)
      (λ _, eth_inv) w4).
  { intros evs' d' w4 H4 Hev' Hok' Hf. apply wp_bind. eapply wp_find_dev; [by rewrite (proj1 (proj2 H4))|].
    destruct (devs_ m !! iface_ it) as [p|] eqn:Ep; [by apply wp_ret; eapply inv_calls|].
    eapply wp_put_dev; [by eexists|exact H4|]. intros w5 H5 _ _.
    eapply inv_updates; [exact Hw|exact H5|exact Hm|by apply plain_ok|done|
      intros j _; by apply plain_dhcp_log|].
    left. rewrite Ep. split; [by apply plain_dhcp_log|done]. }
  apply wp_bind. destruct (up && lowerUp).
  - apply wp_bind, wp_announce; [by eexists|]. intros z w4 H4. apply wp_ret. cbn [snd].
    eapply Hend; [exact (calls_trans _ _ _ _ _ Hc H4)| |by apply announced_ok|by rewrite announced_flag].
    apply Forall_app. split; [done|apply announcement_plain].
  - apply wp_ret. by eapply Hend.
Qed.

Lemma ok_for_each {A} (f : A → st (eworld E) unit) l w :
  (∀ x w, eth_inv w → wp (f x) (λ _, eth_inv) w) → eth_inv w → wp (for_each f l) (λ _, eth_inv) w.
Proof. intros Hf Hw. apply (wp_for_each f l (λ _, eth_inv)); [done| |done]. intros x l' w1 Hw1. by apply Hf. Qed.

(** The service is published at most once; the table is the same. *)
Lemma ok_Init w : eth_inv w → wp EthernetService.Init (λ _ w', eth_inv w' ∧ ethManagement_ w' = ethManagement_ w) w.
Proof.
  intros Hw. unfold EthernetService.Init. destruct eth_registerLocalResult; cbn [negb]; [|by apply wp_ret].
  apply wp_bind, wp_gets. unfold id. destruct (e_registerToService_ w); cbn [negb]; [by apply wp_ret|].
  apply wp_bind. unfold wp at 1, eth_ext. destruct (eth_Publish (e_env w)) as [b e].
  exists b. eexists. split; [done|].
  assert (Hw' : eth_inv (mkEworld e (e_log w ++ [EthPublish]) (ethManagement_ w) (nlkHandles_ w)
    (e_registerToService_ w) (e_running_ w))).
  { apply (inv_calls [EthPublish] w); [done|by split_and!|by repeat constructor]. }
  destruct b; cbn [negb]; [|by apply wp_ret]. by apply wp_bind, wp_modify, wp_ret.
Qed.

Lemma ok_OnStart w : eth_inv w → wp EthernetService.OnStart (λ _, eth_inv) w.
Proof.
  intros Hw. unfold EthernetService.OnStart. apply wp_bind, wp_gets. unfold id.
  destruct (e_running_ w); [by apply wp_ret|]. apply wp_bind.
  eapply wp_mono; [by apply ok_Init|]. intros ok w1 [Hw1 _]. destruct ok; cbn [negb]; [|by apply wp_ret].
  apply wp_bind, wp_eth_do. intros _ w2 H2.
  assert (Hw2 : eth_inv w2) by (eapply inv_calls; [exact Hw1|exact H2|by repeat constructor]).
  apply wp_bind, wp_gets, wp_bind. destruct (ethManagement_ w2) as [m|]; [|by apply wp_ret, wp_modify].
  apply wp_bind. unfold EthernetManagement.Init. apply wp_bind, wp_eth_query. intros l w3 H3.
  assert (Hw3 : eth_inv w3) by (eapply inv_calls; [exact Hw2|exact H3|done]).
  eapply (wp_mono _ (λ _, eth_inv)).
  - destruct (_ <=? 0); [by apply wp_ret|]. apply ok_for_each; [apply ok_init_dev|done].
  - intros _ w4 Hw4. unfold EthernetManagement.RegisterNlk. by apply wp_modify, wp_modify.
Qed.

(** The queries change nothing. *)
Lemma ok_query {A} (m : st (eworld E) A) w :
  (∀ mg, ethManagement_ w = Some mg → wp m (λ _ w', w' = w) w) → eth_inv w →
  wp m (λ _, eth_inv) w.
Proof.
  intros Hm Hw. pose proof Hw as [_ (mg & Hmg & _)]. eapply wp_mono; [by apply (Hm mg)|].
  by intros _ w' ->.
Qed.

Lemma eth_handle_ok q w : eth_inv w → eth_enabled q → wp (eth_handle q) (λ _, eth_inv) w.
Proof.
  intros Hw Hq. pose proof Hw as [_ (mg & Hmg & _)].
  destruct q as [| |iface [c|]|iface|iface| |info|iface r]; try done; cbn [eth_handle];
    (apply wp_bind; eapply (wp_mono _ (λ _, eth_inv)); [|by intros; apply wp_ret]).
  - by apply ok_OnStart.
  - by apply wp_modify.
  - unfold EthernetService.SetIfaceConfig. apply wp_bind, wp_gets. rewrite Hmg. by apply ok_SetIfaceConfig.
  - apply ok_query; [|done]. intros m Hm. apply wp_bind, wp_gets. rewrite Hm. apply wp_bind.
    eapply wp_found_dev; [exact Hm|]. by destruct (mjoin _); apply wp_ret.
  - apply ok_query; [|done]. intros m Hm. apply wp_bind, wp_gets. rewrite Hm. apply wp_bind.
    eapply wp_found_dev; [exact Hm|]. by destruct (mjoin _); apply wp_ret.
  - apply ok_query; [|done]. intros m Hm. apply wp_bind, wp_gets. rewrite Hm. apply wp_bind, wp_gets, wp_bind.
    eapply wp_deref; [exact Hm|]. by apply wp_ret.
  - unfold ProcessIfInfo. apply wp_bind, wp_gets. apply ok_for_each; [|done].
    intros _ w1 Hw1. by apply ok_Handle.
  - by apply ok_OnSuccess.
Qed.

Lemma eth_reachable_inv e w : eth_reachable e w → eth_inv w.
Proof.
  induction 1 as [|w q r w' _ IH Hq Hh]; [apply inv_construct|].
  exact (wp_run _ _ _ _ _ (eth_handle_ok q w IH Hq) Hh).
Qed.

End Code.
