(* ===== verification/EthernetProps.v ===== *)
(** * Properties of the ethernet service

    For every state that requests, link events of the kernel and DHCP results
    can lead to, and for any platform. *)

From S2P Require Import Prelude Parcel Parcelables Host NetIds ConnState ConnNetwork.
From S2P Require Import Ethernet EthernetSpec EthernetInv EthernetCorrect.
Import DevInterface DevInterfaceState.

(** ** A platform to run examples on

    The kernel knows "eth0", up and running; the connection service gives it
    the id 1001; every other call succeeds. *)

#[global] Instance sample_eth : EthPlatform unit := {
  eth_call ev e := (match ev with EthRegister _ _ _ => 1001 | _ => 0 end, e);
  eth_GetHWaddr _ e := ([], e);
  eth_GetLinkInfo e := ([mkNlkEventInfo "eth0" 65537], e);
  eth_Publish e := (true, e);
  eth_registerLocalResult := true;
}.

Definition eth_after (qs : list eth_request) : eworld unit :=
  foldl (λ w q, match eth_handle q w with Some (_, w') => w' | None => w end)
    (EthernetService.construct tt) qs.

Lemma eth_after_reachable qs q :
  eth_reachable tt (eth_after qs) → eth_enabled q → eth_reachable tt (eth_after (qs ++ [q])).
Proof.
  intros Hr Hq. unfold eth_after. rewrite foldl_app. simpl. fold (eth_after qs).
  destruct (eth_handle q (eth_after qs)) as [[r w']|] eqn:Eh; [|done]. by eapply eth_reach_step.
Qed.

Lemma eth_all_reachable qs : Forall eth_enabled qs → eth_reachable tt (eth_after qs).
Proof.
  intros Hqs. induction qs as [|q qs IH] using rev_ind; [constructor|].
  apply Forall_app in Hqs as [Hqs Hq]. apply Forall_cons in Hq as [Hq _].
  apply eth_after_reachable; [by apply IH|done].
Qed.

Definition static_config : InterfaceConfiguration.t :=
  InterfaceConfiguration.mk InterfaceConfiguration.STATIC
    (StaticConfiguration.mk (INetAddr.mk 1 2 24 "192.168.0.2" "" "") INetAddr.default INetAddr.default
       INetAddr.default [INetAddr.mk 1 2 0 "192.168.0.1" "" ""] "").

Definition dhcp_config : InterfaceConfiguration.t :=
  InterfaceConfiguration.mk InterfaceConfiguration.DHCP StaticConfiguration.default.

Definition dhcp_result : DhcpResult := mkDhcpResult 0 "10.0.0.7" "10.0.0.1" "10.0.0.1" "8.8.8.8" "*" "*".

(** Started, switched to DHCP, and the cable plugged in. *)
Definition with_dhcp : list eth_request :=
  [EOnStart; ESetIfaceConfig "eth0" (Some dhcp_config); ELinkEvent (mkNlkEventInfo "eth0" 65537)].

Definition eth0 : t :=
  match ethManagement_ (eth_after with_dhcp) with
  | Some m => match devs_ m !! "eth0"%string with Some (Some d) => d | _ => construct end
  | None => construct
  end.

Lemma with_dhcp_reachable : eth_reachable tt (eth_after with_dhcp).
Proof. apply eth_all_reachable. by repeat constructor. Qed.

Section Lemmas.
Context {E : Type} `{EthPlatform E}.
Implicit Type w : eworld E.

Lemma updates_trans l1 l2 iface d1 d2 w w1 w2 :
  updates l1 iface d1 w w1 → updates l2 iface d2 w1 w2 → updates (l1 ++ l2) iface d2 w w2.
Proof.
  intros (H1 & H2 & m & Hm & H3) (G1 & G2 & m1 & Hm1 & G3). split; [by rewrite G1, H1, app_assoc|].
  split; [congruence|]. exists m. split; [done|]. rewrite H3 in Hm1. injection Hm1 as <-.
  rewrite G3. simpl. by rewrite insert_insert_eq.
Qed.

(** A configuration of an interface that is up. *)
Lemma run_configure iface c m d w :
  ethManagement_ w = Some m → devs_ m !! iface = Some (Some d) → linkUp_ d = true →
  ∃ w', EthernetService.SetIfaceConfig iface (Some c) w = Some (ETHERNET_SUCCESS, w') ∧
    updates (configuration_calls c d) iface (configured c d) w w'.
Proof.
  intros Hm Hd Hup.
  enough (Hwp : wp (EthernetService.SetIfaceConfig iface (Some c)) (λ z w', z = ETHERNET_SUCCESS ∧
    updates (configuration_calls c d) iface (configured c d) w w') w)
    by (destruct Hwp as (z & w' & Hr & -> & Hw'); eauto).
  unfold EthernetService.SetIfaceConfig. apply wp_bind, wp_gets. rewrite Hm. apply wp_bind.
  eapply wp_found_dev; [exact Hm|]. rewrite Hd. cbn [mjoin option_join]. rewrite Hup. cbn [negb].
  apply wp_bind, wp_SetIfcfg. intros w1 H1. apply wp_bind.
  eapply wp_put_dev; [by eexists|exact H1|]. intros w2 H2 _ _. by apply wp_ret.
Qed.

Lemma run_dhcp_result iface r m d w :
  ethManagement_ w = Some m → devs_ m !! iface = Some (Some d) → linkUp_ d = true →
  ∃ w', EthernetManagement.OnSuccess iface r w = Some (tt, w') ∧
    updates (link_report (UpdateLinkInfoDhcp iface r d)) iface (UpdateLinkInfoDhcp iface r d) w w'.
Proof.
  intros Hm Hd Hup.
  enough (Hwp : wp (EthernetManagement.OnSuccess iface r) (λ _ w',
    updates (link_report (UpdateLinkInfoDhcp iface r d)) iface (UpdateLinkInfoDhcp iface r d) w w') w)
    by (destruct Hwp as ([] & w' & Hr & Hw'); eauto).
  apply wp_bind, wp_bind. eapply wp_found_dev; [exact Hm|]. rewrite Hd. cbn [mjoin option_join].
  rewrite Hup. cbn [negb]. apply wp_bind, wp_report. intros _ w1 H1. apply wp_bind.
  eapply wp_put_dev; [by eexists|exact H1|]. intros w2 H2 _ _. by apply wp_ret, wp_ret.
Qed.

Lemma run_get_config iface evs d w w' :
  updates evs iface d w w' → EthernetService.GetIfaceConfig iface w' = Some (ifcfg_ d, w').
Proof.
  intros (_ & _ & m & _ & Hm). unfold EthernetService.GetIfaceConfig, EthernetManagement.GetDevInterfaceCfg,
    EthernetManagement.found_dev, EthernetManagement.find_dev, mbind, st_bind, gets, deref.
  rewrite Hm. cbn. rewrite Hm. cbn. by rewrite lookup_insert_eq.
Qed.

Lemma configured_cfg c d : ifcfg_ (configured c d) = Some c.
Proof. unfold configured. by destruct (is_static c). Qed.

Lemma configured_up c d : linkUp_ (configured c d) = linkUp_ d.
Proof. unfold configured. by destruct (is_static c). Qed.

End Lemmas.

(** C18. Safety of the ethernet service: from every reachable state, for every
    platform, every request returns; no pointer the code follows is null. (A
    null configuration, which the stub refuses, is not a request.) *)
Theorem eth_no_undefined_behaviour {E} `{EthPlatform E} (e : E) w q :
  eth_reachable e w → eth_enabled q → ∃ r w', eth_handle q w = Some (r, w').
Proof.
  intros Hw Hq. destruct (eth_handle_ok q w (eth_reachable_inv e w Hw) Hq) as (r & w' & Hr & _). eauto.
Qed.

Lemma eth_no_undefined_behaviour_witness :
  ∃ r w', eth_handle (EDhcpSuccess "eth0" dhcp_result) (eth_after with_dhcp) = Some (r, w').
Proof. apply (eth_no_undefined_behaviour tt); [exact with_dhcp_reachable|exact I]. Defined.

(** C20. The DHCP client of an interface is started and stopped in turn: in
    every reachable state the starts and stops of each interface alternate,
    beginning with a start, and [dhcpReqState_] says whether it is running. *)
Theorem eth_dhcp_in_turn {E} `{EthPlatform E} (e : E) w m iface :
  eth_reachable e w → ethManagement_ w = Some m →
  in_turn false (dhcp_log iface (e_log w)) ∧
  dhcp_flag (devs_ m !! iface) = last_of false (dhcp_log iface (e_log w)).
Proof.
  intros Hw Hm. destruct (eth_reachable_inv e w Hw) as [_ (m' & Hm' & _ & Ht)].
  rewrite Hm in Hm'. injection Hm' as <-. by destruct (Ht iface) as (_ & ? & ?).
Qed.

Lemma eth_dhcp_in_turn_witness :
  in_turn false (dhcp_log "eth0" (e_log (eth_after with_dhcp))) ∧
  dhcp_flag (Some (Some eth0)) = last_of false (dhcp_log "eth0" (e_log (eth_after with_dhcp))).
Proof.
  assert (Hm : ∃ m, ethManagement_ (eth_after with_dhcp) = Some m ∧ devs_ m !! "eth0"%string = Some (Some eth0))
    by (eexists; vm_compute; split; reflexivity).
  destruct Hm as (m & Hm & Hd). rewrite <- Hd.
  exact (eth_dhcp_in_turn tt (eth_after with_dhcp) m "eth0" with_dhcp_reachable Hm).
Defined.

(** C19. A link event: for an interface of the table, the connection service is
    told first whether the link is available (when the interface is
    registered), and then, with the cable in, either the DHCP client is started
    (DHCP, not yet running) or the link information is sent; with the cable
    out, a running DHCP client is stopped first. The interface remembers the
    flags, is available exactly when both are set, and nothing else happens.
    Other interfaces are ignored. *)
Theorem eth_link_event {E} `{EthPlatform E} (e : E) w m info :
  eth_reachable e w → ethManagement_ w = Some m →
  let up := EthernetManagement.flag (ifiFlags_ info) IFF_UP in
  let lowerUp := EthernetManagement.flag (ifiFlags_ info) IFF_LOWER_UP in
  match devs_ m !! iface_ info with
  | Some (Some d) => ∃ w',
      EthernetManagement.Handle info w = Some (tt, w') ∧
      updates (link_event_calls (iface_ info) up lowerUp d) (iface_ info)
        (after_link_event up lowerUp d) w w' ∧
      (connLinkState_ d ≠ UNREGISTERED →
       connLinkState_ (after_link_event up lowerUp d)
       = if up && lowerUp then LINK_AVAILABLE else LINK_UNAVAILABLE)
  | _ => EthernetManagement.Handle info w = Some (tt, w)
  end.
Proof.
  intros Hw Hm up lowerUp. pose proof (eth_reachable_inv e w Hw) as [_ (m' & Hm' & Hd & Ht)].
  rewrite Hm in Hm'. injection Hm' as <-. destruct (Ht (iface_ info)) as (He & _).
  destruct (devs_ m !! iface_ info) as [p|] eqn:Ep.
  - destruct He as (d & -> & Hok).
    assert (Hwp : wp (EthernetManagement.Handle info) (λ _ w',
      updates (link_event_calls (iface_ info) up lowerUp d) (iface_ info)
        (after_link_event up lowerUp d) w w') w).
    { eapply wp_UpdateInterfaceState; [exact Hm|done|exact Ep|apply Hok|]. by intros w' Hw' _ _. }
    destruct Hwp as ([] & w' & Hr & Hu). exists w'. split; [exact Hr|]. split; [exact Hu|].
    intros Hreg. unfold after_link_event, announced, up_and_running. cbv zeta.
    destruct lowerUp; destruct (_ && _); simpl; rewrite decide_False by done; done.
  - unfold EthernetManagement.Handle, EthernetManagement.UpdateInterfaceState,
      EthernetManagement.find_dev, mbind, st_bind, gets, deref. rewrite Hm. cbn. by rewrite Ep.
Qed.

Lemma eth_link_event_witness :
  ∃ w', EthernetManagement.Handle (mkNlkEventInfo "eth0" 1) (eth_after with_dhcp) = Some (tt, w') ∧
    updates (link_event_calls "eth0" true false eth0) "eth0" (after_link_event true false eth0)
      (eth_after with_dhcp) w' ∧
    (connLinkState_ eth0 ≠ UNREGISTERED →
     connLinkState_ (after_link_event true false eth0) = LINK_UNAVAILABLE).
Proof.
  assert (Hm : ∃ m, ethManagement_ (eth_after with_dhcp) = Some m ∧ devs_ m !! "eth0"%string = Some (Some eth0))
    by (eexists; vm_compute; split; reflexivity).
  destruct Hm as (m & Hm & Hd).
  pose proof (eth_link_event tt (eth_after with_dhcp) m (mkNlkEventInfo "eth0" 1) with_dhcp_reachable Hm) as Ht.
  cbn [iface_] in Ht. rewrite Hd in Ht. exact Ht.
Defined.

(** C21. Configuring an interface: [SetIfaceConfig] fails without effect for an
    interface that is unknown or down. Otherwise it succeeds, [GetIfaceConfig]
    returns the configuration, no other interface changes, and a static one
    replaces the addresses, servers and routes of the link information, sets
    the address of the interface, and is sent to the connection service when
    the link is available. *)
Theorem eth_configure {E} `{EthPlatform E} (e : E) w m iface c :
  eth_reachable e w → ethManagement_ w = Some m →
  match mjoin (devs_ m !! iface) with
  | Some d =>
    if linkUp_ d then ∃ w',
      EthernetService.SetIfaceConfig iface (Some c) w = Some (ETHERNET_SUCCESS, w') ∧
      EthernetService.GetIfaceConfig iface w' = Some (Some c, w') ∧
      updates (configuration_calls c d) iface (configured c d) w w'
    else EthernetService.SetIfaceConfig iface (Some c) w = Some (ETHERNET_ERROR, w)
  | None => EthernetService.SetIfaceConfig iface (Some c) w = Some (ETHERNET_ERROR, w)
  end.
Proof.
  intros Hw Hm. destruct (mjoin (devs_ m !! iface)) as [d|] eqn:Ej.
  - destruct (inv_found w m iface d (eth_reachable_inv e w Hw) Hm Ej) as (Hok & Hd & _).
    destruct (linkUp_ d) eqn:Eu.
    + destruct (run_configure iface c m d w Hm Hd Eu) as (w' & Hr & Hu). exists w'.
      split; [exact Hr|]. split; [|exact Hu]. rewrite (run_get_config _ _ _ _ _ Hu). by rewrite configured_cfg.
    + unfold EthernetService.SetIfaceConfig, EthernetManagement.UpdateDevInterfaceState,
        EthernetManagement.found_dev, EthernetManagement.find_dev, mbind, st_bind, gets, deref.
      rewrite Hm. cbn. rewrite Hm. cbn. rewrite Hd. cbn. by rewrite Eu.
  - unfold EthernetService.SetIfaceConfig, EthernetManagement.UpdateDevInterfaceState,
      EthernetManagement.found_dev, EthernetManagement.find_dev, mbind, st_bind, gets, deref.
    rewrite Hm. cbn. rewrite Hm. cbn. by rewrite Ej.
Qed.

Lemma eth_configure_witness :
  ∃ w', EthernetService.SetIfaceConfig "eth0" (Some static_config) (eth_after with_dhcp)
      = Some (ETHERNET_SUCCESS, w') ∧
    EthernetService.GetIfaceConfig "eth0" w' = Some (Some static_config, w') ∧
    updates (configuration_calls static_config eth0) "eth0" (configured static_config eth0)
      (eth_after with_dhcp) w'.
Proof.
  assert (Hm : ∃ m, ethManagement_ (eth_after with_dhcp) = Some m ∧ devs_ m !! "eth0"%string = Some (Some eth0))
    by (eexists; vm_compute; split; reflexivity).
  destruct Hm as (m & Hm & Hd).
  pose proof (eth_configure tt (eth_after with_dhcp) m "eth0" static_config with_dhcp_reachable Hm) as Ht.
  rewrite Hd in Ht. exact Ht.
Defined.

(** A static configuration does not stop DHCP: after it has been accepted
    the DHCP client is left running if it was, and the next DHCP result, which
    is accepted all the same, replaces the static address by its own. *)
Theorem eth_static_overridden {E} `{EthPlatform E} (e : E) w m d iface c r :
  eth_reachable e w → ethManagement_ w = Some m → devs_ m !! iface = Some (Some d) →
  linkUp_ d = true → is_static c = true →
  ∃ w1 w2 evs d', EthernetService.SetIfaceConfig iface (Some c) w = Some (ETHERNET_SUCCESS, w1) ∧
    EthernetManagement.OnSuccess iface r w1 = Some (tt, w2) ∧ updates evs iface d' w w2 ∧
    dhcp_log iface evs = [] ∧ dhcpReqState_ d' = dhcpReqState_ d ∧
    GetIPSetMode d' = InterfaceConfiguration.STATIC ∧
    INetAddr.address_ <$> NetLinkInfo.netAddrList_ (link_info d') = [strYourCli r].
Proof.
  intros Hw Hm Hd Hup Hc. destruct (inv_found w m iface d (eth_reachable_inv e w Hw) Hm) as (Hok & _);
    [by rewrite Hd|].
  destruct (run_configure iface c m d w Hm Hd Hup) as (w1 & Hr1 & Hu1).
  pose proof Hu1 as (_ & _ & m0 & Hm0 & Hm1). rewrite Hm in Hm0. injection Hm0 as <-.
  destruct (run_dhcp_result iface r _ (configured c d) w1 Hm1) as (w2 & Hr2 & Hu2);
    [apply lookup_insert_eq|by rewrite configured_up|].
  exists w1, w2. eexists _, _. split; [exact Hr1|]. split; [exact Hr2|].
  split; [exact (updates_trans _ _ _ _ _ _ _ _ Hu1 Hu2)|]. split_and!.
  - rewrite dhcp_log_app, !plain_dhcp_log; [done|by apply report_plain, dhcp_result_ok, configured_ok|].
    by apply configuration_plain.
  - unfold configured. by rewrite Hc.
  - unfold GetIPSetMode. simpl. rewrite configured_cfg. by apply Z.eqb_eq in Hc.
  - done.
Qed.

Lemma eth_static_overridden_witness :
  ∃ w1 w2 evs d', EthernetService.SetIfaceConfig "eth0" (Some static_config) (eth_after with_dhcp)
      = Some (ETHERNET_SUCCESS, w1) ∧
    EthernetManagement.OnSuccess "eth0" dhcp_result w1 = Some (tt, w2) ∧
    updates evs "eth0" d' (eth_after with_dhcp) w2 ∧
    dhcp_log "eth0" evs = [] ∧ dhcpReqState_ d' = true ∧
    GetIPSetMode d' = InterfaceConfiguration.STATIC ∧
    INetAddr.address_ <$> NetLinkInfo.netAddrList_ (link_info d') = ["10.0.0.7"%string].
Proof.
  assert (Hm : ∃ m, ethManagement_ (eth_after with_dhcp) = Some m ∧ devs_ m !! "eth0"%string = Some (Some eth0))
    by (eexists; vm_compute; split; reflexivity).
  destruct Hm as (m & Hm & Hd).
  apply (eth_static_overridden tt (eth_after with_dhcp) m eth0 "eth0" static_config dhcp_result).
  - exact with_dhcp_reachable.
  - exact Hm.
  - exact Hd.
  - vm_compute. reflexivity.
  - reflexivity.
Defined.

(** The link information of ethernet never names its interface: in every
    reachable state each [UpdateNetLinkInfo] that was sent has an empty
    [ifaceName_], and a network of the connection service whose information has
    none either adds no interface in netd for it. *)
Theorem eth_link_info_unnamed {E E'} `{EthPlatform E} `{Platform E'} (e : E) w id i n (h : host E') :
  eth_reachable e w → EthLinkInfo id i ∈ e_log w →
  NetLinkInfo.ifaceName_ i = ""%string ∧
  (NetLinkInfo.ifaceName_ (Network.netLinkInfo_ n) = ""%string →
   NetworkOps.UpdateInterfaces n i h = Some (tt, h)).
Proof.
  intros Hw Hi. destruct (eth_reachable_inv e w Hw) as [Hl _]. rewrite Forall_forall in Hl.
  pose proof (Hl _ Hi) as Hn. simpl in Hn. split; [done|]. intros Hn'.
  unfold NetworkOps.UpdateInterfaces. by rewrite Hn, Hn'.
Qed.

Definition unnamed_link : NetLinkInfo.t := static_link static_config eth0.

Lemma eth_link_info_unnamed_witness :
  NetLinkInfo.ifaceName_ unnamed_link = ""%string ∧
  (NetLinkInfo.ifaceName_ NetLinkInfo.default = ""%string →
   NetworkOps.UpdateInterfaces (Network.mk NetLinkInfo.default INetAddr.default INetAddr.default
      Route.default true false false 0 7) unnamed_link (mkHost (E:=unit) None tt []) = Some (tt, mkHost None tt [])).
Proof.
  apply (eth_link_info_unnamed (H0:=SamplePlatform.sample) tt
    (eth_after (with_dhcp ++ [ESetIfaceConfig "eth0" (Some static_config)])) 1001 unnamed_link
    (Network.mk NetLinkInfo.default INetAddr.default INetAddr.default Route.default true false false 0 7)).
  - apply eth_all_reachable. by repeat constructor.
  - apply list_elem_of_In. vm_compute. repeat first [left; reflexivity | right].
Defined.
