(* ===== verification/EthernetStart.v ===== *)
(** * The start of the ethernet service, step by step

    [EthernetService::OnStart] of ethernet_service.cpp and
    [EthernetManagement::Init] of ethernet_management.cpp, which publish the
    service and start the listener first, and then fill the table without its
    mutex: requests and link messages come while it runs. A step is one
    statement; a method of an interface that a statement calls is one step. A
    request that uses what the start uses at the same time, without anything
    that orders them, is a data race, which is undefined. *)

From S2P Require Import Prelude Parcel Parcelables Host Ethernet EthernetCorrect.
Import DevInterface DevInterfaceState.

(** The statements on a new interface, after [devs_.insert], in their order. *)
Inductive dev_stmt :=
  | PSetIfcfg
  | PGetHWaddr
  | PSetDevName (hwAddr : list Z)
  | PSetDevHWaddr (hwAddr : list Z)
  | PSetLinkUp
  | PSetLowerUp
  | PRegister
  | PAnnounce.

(** Where [OnStart] is. In the loop of [Init]: the link of the iteration, the
    links that are left, and where the new object is: [None] when it is the one of
    the table, itself when [insert] found an entry and the object is nobody
    else's. *)
Inductive start_pc :=
  | SBegin
  | SListen
  | SDump
  | SInsert (it : NlkEventInfo) (rest : list NlkEventInfo)
  | SDev (s : dev_stmt) (it : NlkEventInfo) (own : option t) (rest : list NlkEventInfo)
  | SRegisterNlk
  | SRunning
  | SDone.

Section Code.
Context {E : Type} `{EthPlatform E}.
Implicit Type w : eworld E.

(** The next iteration of the loop, or its end. *)
Definition next_link (rest : list NlkEventInfo) : start_pc :=
  match rest with [] => SRegisterNlk | it :: rest => SInsert it rest end.

(** [devState->], and what the call leaves. *)
Definition load_dev (it : NlkEventInfo) (own : option t) : st (eworld E) t :=
  match own with
  | Some d => mret d
  | None => fit ← EthernetManagement.find_dev (iface_ it) ; deref (mjoin fit)
  end.

Definition store_dev (it : NlkEventInfo) (own : option t) (d : t) : st (eworld E) (option t) :=
  match own with
  | Some _ => mret (Some d)
  | None => EthernetManagement.put_dev (iface_ it) d ;; mret None
  end.

Definition link_up (it : NlkEventInfo) : bool := EthernetManagement.flag (ifiFlags_ it) IFF_UP.

Definition link_lowerUp (it : NlkEventInfo) : bool := EthernetManagement.flag (ifiFlags_ it) IFF_LOWER_UP.

(** A statement on the object, and the one after it. *)
Definition dev_method (s : dev_stmt) (it : NlkEventInfo) (d : t) : st (eworld E) (t * option dev_stmt) :=
  match s with
  | PSetIfcfg => d ← SetIfcfg (Some EthernetManagement.static_default) d ; mret (d, Some PGetHWaddr)
  | PGetHWaddr => hwAddr ← eth_query (eth_GetHWaddr (iface_ it)) ; mret (d, Some (PSetDevName hwAddr))
  | PSetDevName hwAddr => mret (SetDevName (iface_ it) d, Some (PSetDevHWaddr hwAddr))
  | PSetDevHWaddr hwAddr => mret (SetDevHWaddr hwAddr d, Some PSetLinkUp)
  | PSetLinkUp => mret (SetLinkUp (link_up it) d, Some PSetLowerUp)
  | PSetLowerUp => mret (SetLowerUp (link_lowerUp it) d, Some PRegister)
  | PRegister =>
    r ← RemoteRegisterNetSupplier d ;
    mret (r.2, if link_up it && link_lowerUp it then Some PAnnounce else None)
  | PAnnounce => r ← RemoteUpdateNetSupplierInfo d ; mret (r.2, None)
  end.

(** The next step of [OnStart]. *)
Definition start_step (p : start_pc) : st (eworld E) start_pc :=
  match p with
  | SBegin =>
    w ← gets id ;
    if e_running_ w then mret SDone
    else ok ← EthernetService.Init ; mret (if ok : bool then SListen else SDone)
  | SListen =>
    eth_do EthNlkInit ;;
    m ← gets ethManagement_ ;
    mret (match m with Some _ => SDump | None => SRunning end)
  | SDump => linkInfos ← eth_query eth_GetLinkInfo ; mret (next_link linkInfos)
  | SInsert it rest =>
    if String.eqb (iface_ it) "" then mret (next_link rest)
    else
      fit ← EthernetManagement.find_dev (iface_ it) ;
      match fit with
      | Some _ => mret (SDev PSetIfcfg it (Some construct) rest)
      | None => EthernetManagement.put_dev (iface_ it) construct ;; mret (SDev PSetIfcfg it None rest)
      end
  | SDev s it own rest =>
    d ← load_dev it own ;
    r ← dev_method s it d ;
    own ← store_dev it own r.1 ;
    mret (match r.2 with Some s => SDev s it own rest | None => next_link rest end)
  | SRegisterNlk => EthernetManagement.RegisterNlk ;; mret SRunning
  | SRunning => modify (λ w, set_estate (e_registerToService_ w) true w) ;; mret SDone
  | SDone => mret SDone
  end.

(** What a request reads or writes. The table, with its mutex, and then by the
    link messages only through a handler; the handlers; the state of the service. *)
Definition touches_table (q : eth_request) w : bool :=
  match q with
  | ESetIfaceConfig _ _ | EGetIfaceConfig _ | EIsActivate _ | EGetActivateInterfaces | EDhcpSuccess _ _ => true
  | ELinkEvent _ => negb (nlkHandles_ w =? 0)%nat
  | EOnStart | EOnStop => false
  end.

(** While the loop of [Init] runs it changes the table and the objects in it
    without the mutex; [RegisterNlk] changes the handlers without one; and
    [OnStart] reads and writes the state of the service, as [OnStop] does. *)
Definition races (p : start_pc) (q : eth_request) w : bool :=
  match p with
  | SInsert _ _ | SDev _ _ _ _ => touches_table q w
  | SRegisterNlk => match q with ELinkEvent _ => true | _ => false end
  | SBegin | SRunning => match q with EOnStop => true | _ => false end
  | SListen | SDump | SDone => false
  end.

(** A request while [OnStart] is at [p]. *)
Definition request_among (p : start_pc) (q : eth_request) : st (eworld E) eth_reply :=
  r ← gets (races p q) ; if r : bool then ub else eth_handle q.

(** Steps of [OnStart] with nothing between them. *)
Fixpoint start_steps (n : nat) (p : start_pc) : st (eworld E) start_pc :=
  match n with O => mret p | S n => p ← start_step p ; start_steps n p end.

End Code.
