(* ===== verification/EthernetStartProps.v ===== *)
(** * Properties of the start of the ethernet service

    Its steps, with nothing between them, are [OnStart]; and with any requests
    that do not race with it between them, the service ends with the links of the
    dump and with the state that each was told of last. *)

From S2P Require Import Prelude Parcel Parcelables Host Ethernet EthernetSpec EthernetInv EthernetCorrect.
From S2P Require Import EthernetProps EthernetStart.
Import DevInterface DevInterfaceState.

(** ** Code that does not look at the table *)

Section Frames.
Context {E : Type} `{EthPlatform E}.
Implicit Type w : eworld E.

Definition on_table {A} (m : EthernetManagementState) (r : option (A * eworld E)) : option (A * eworld E) :=
  match r with Some (a, w) => Some (a, set_management m w) | None => None end.

Definition frames {A} (c : st (eworld E) A) : Prop := ∀ m w, c (set_management m w) = on_table m (c w).

Lemma frames_ret {A} (a : A) : frames (mret a).
Proof. by intros m w. Qed.

Lemma frames_bind {A B} (c : st (eworld E) A) (k : A → st (eworld E) B) :
  frames c → (∀ a, frames (k a)) → frames (c ≫= k).
Proof.
  intros Hc Hk m w. unfold mbind, st_bind. rewrite Hc. destruct (c w) as [[a w1]|]; [|done]. cbn. apply Hk.
Qed.

Lemma frames_deref {A} (o : option A) : frames (deref o).
Proof. by destruct o. Qed.

Lemma frames_do ev : frames (eth_do ev).
Proof. intros m w. unfold eth_do, eth_ext. cbn. by destruct (eth_call ev (e_env w)). Qed.

Lemma frames_query {A} (f : E → A * E) : frames (eth_query f).
Proof. intros m w. unfold eth_query. cbn. by destruct (f (e_env w)). Qed.

#[local] Hint Resolve frames_ret frames_deref frames_do frames_query : netdb.

(** Straight-line code of such calls. *)
Ltac framed := repeat match goal with
  | |- frames (_ ≫= _) => apply frames_bind; [|intros ?]
  | |- frames (if ?b then _ else _) => destruct b
  | |- frames (match ?o with _ => _ end) => destruct o
  | |- frames _ => solve [auto with netdb]
  end.

Lemma frames_SetIfcfg c d : frames (SetIfcfg c d).
Proof. unfold SetIfcfg, UpdateLinkInfo, SetIpAddr, RemoteUpdateNetLinkInfo. framed. Qed.

Lemma frames_register d : frames (RemoteRegisterNetSupplier d).
Proof. unfold RemoteRegisterNetSupplier. framed. Qed.

Lemma frames_announce d : frames (RemoteUpdateNetSupplierInfo d).
Proof. unfold RemoteUpdateNetSupplierInfo, UpdateSupplierAvailable. framed. Qed.

#[local] Hint Resolve frames_SetIfcfg frames_register frames_announce : netdb.

Lemma frames_method s it d : frames (dev_method s it d).
Proof. destruct s; unfold dev_method; framed. Qed.

Lemma set_management_same m w : ethManagement_ w = Some m → set_management m w = w.
Proof. intros Hm. destruct w. cbn in Hm. by rewrite Hm. Qed.

(** Such code keeps the table. *)
Lemma frames_keep {A} (c : st (eworld E) A) m w a w' :
  frames c → ethManagement_ w = Some m → c w = Some (a, w') → ethManagement_ w' = Some m.
Proof.
  intros Hc Hm Hw. pose proof (Hc m w) as Hf. rewrite (set_management_same m w) in Hf by done.
  rewrite Hw in Hf. injection Hf as Hf. by rewrite Hf.
Qed.

(** ** The steps alone *)

(** The statements on an object that is nobody else's. *)
Fixpoint dev_run (n : nat) (s : dev_stmt) (it : NlkEventInfo) (d : t) : st (eworld E) t :=
  match n with
  | O => mret d
  | S n =>
    r ← dev_method s it d ;
    match r.2 with Some s => dev_run n s it r.1 | None => mret r.1 end
  end.

Lemma frames_run n s it d : frames (dev_run n s it d).
Proof.
  revert s d. induction n as [|n IH]; intros s d; cbn [dev_run]; [apply frames_ret|].
  apply frames_bind; [apply frames_method|]. intros [d' [s'|] ]; [apply IH|apply frames_ret].
Qed.

(** Runs of the statements, one inside the other. *)
Ltac unrolled := repeat progress (cbn [fst snd dev_method]; unfold mbind, st_bind, mret, st_ret; cbv beta).

(** An iteration of the loop of [Init]. *)
Lemma init_dev_run it w :
  EthernetManagement.init_dev it w =
  (if String.eqb (iface_ it) "" then mret tt
   else d ← dev_run 8 PSetIfcfg it construct ;
        fit ← EthernetManagement.find_dev (iface_ it) ;
        match fit with Some _ => mret tt | None => EthernetManagement.put_dev (iface_ it) d end) w.
Proof.
  unfold EthernetManagement.init_dev. cbv zeta. destruct (String.eqb _ _); [reflexivity|].
  fold (link_up it) (link_lowerUp it). cbn [dev_run dev_method]. unrolled.
  destruct (SetIfcfg _ construct w) as [[d w1]|]; [|reflexivity]. unrolled.
  destruct (eth_query _ w1) as [[hw w2]|]; [|reflexivity]. unrolled.
  destruct (RemoteRegisterNetSupplier _ w2) as [[r w3]|]; [|reflexivity]. unrolled.
  destruct (link_up it && link_lowerUp it); [|reflexivity]. unrolled.
  by destruct (RemoteUpdateNetSupplierInfo _ w3) as [[r' w4]|].
Qed.

(** Some number of steps. *)
Definition leads (p : start_pc) w (p' : start_pc) w' : Prop := ∃ n, start_steps n p w = Some (p', w').

Lemma leads_refl p w : leads p w p w.
Proof. by exists 0%nat. Qed.

Lemma leads_step p w p1 w1 p2 w2 : start_step p w = Some (p1, w1) → leads p1 w1 p2 w2 → leads p w p2 w2.
Proof. intros Hs [n Hn]. exists (S n). cbn [start_steps]. unfold mbind, st_bind. by rewrite Hs. Qed.

Lemma leads_trans p w p1 w1 p2 w2 : leads p w p1 w1 → leads p1 w1 p2 w2 → leads p w p2 w2.
Proof.
  intros [n Hn] Hl. revert p w Hn. induction n as [|n IH]; intros p w Hn; cbn [start_steps] in Hn.
  - by injection Hn as -> ->.
  - unfold mbind, st_bind in Hn. destruct (start_step p w) as [[p' w']|] eqn:Hs; [|done].
    eapply leads_step; [exact Hs|by apply IH].
Qed.

(** The world after the object of [iface] was changed in the table. *)
Definition table_set (m : EthernetManagementState) (iface : string) (d : t) : EthernetManagementState :=
  mkManagement (<[iface := Some d]> (devs_ m)) (dhcpService_ m).

Lemma table_set_twice m iface d d' : table_set (table_set m iface d) iface d' = table_set m iface d'.
Proof. unfold table_set. cbn. by rewrite insert_insert_eq. Qed.

Lemma run_put_dev iface d m w :
  ethManagement_ w = Some m → EthernetManagement.put_dev iface d w = Some (tt, set_management (table_set m iface d) w).
Proof. intros Hm. unfold EthernetManagement.put_dev, mbind, st_bind, gets. rewrite Hm. done. Qed.

Lemma run_find_dev iface m w :
  ethManagement_ w = Some m → EthernetManagement.find_dev iface w = Some (devs_ m !! iface, w).
Proof. intros Hm. unfold EthernetManagement.find_dev, mbind, st_bind, gets. rewrite Hm. done. Qed.

(** The statements that are left, this one included. *)
Definition stage (s : dev_stmt) : nat :=
  match s with
  | PSetIfcfg => 8 | PGetHWaddr => 7 | PSetDevName _ => 6 | PSetDevHWaddr _ => 5
  | PSetLinkUp => 4 | PSetLowerUp => 3 | PRegister => 2 | PAnnounce => 1
  end.

Lemma method_next s it d w d' s' w' : dev_method s it d w = Some ((d', Some s'), w') → (stage s' < stage s)%nat.
Proof.
  destruct s; unfold dev_method, mbind, st_bind, mret, st_ret; intros Hm.
  - destruct (SetIfcfg _ d w) as [[? ?]|]; [|done]. injection Hm as <- <- <-. cbn. lia.
  - destruct (eth_query _ w) as [[? ?]|]; [|done]. injection Hm as <- <- <-. cbn. lia.
  - injection Hm as <- <- <-. cbn. lia.
  - injection Hm as <- <- <-. cbn. lia.
  - injection Hm as <- <- <-. cbn. lia.
  - injection Hm as <- <- <-. cbn. lia.
  - destruct (RemoteRegisterNetSupplier d w) as [[? ?]|]; [|done].
    destruct (link_up it && link_lowerUp it); [|done]. injection Hm as <- <- <-. cbn. lia.
  - by destruct (RemoteUpdateNetSupplierInfo d w) as [[? ?]|].
Qed.

(** The statements on an object of their own. *)
Lemma own_run n s it rest d d' w w' :
  (stage s <= n)%nat → dev_run n s it d w = Some (d', w') → leads (SDev s it (Some d) rest) w (next_link rest) w'.
Proof.
  revert s d w. induction n as [|n IH]; intros s d w Hs Hrun; [by destruct s; cbn in Hs; lia|].
  cbn [dev_run] in Hrun. unfold mbind, st_bind in Hrun.
  destruct (dev_method s it d w) as [[[d1 s1] w1]|] eqn:Hm; [|done]. cbn [fst snd] in Hrun.
  eapply leads_step.
  { cbn [start_step load_dev store_dev]. unfold mbind, st_bind, mret, st_ret. rewrite Hm. reflexivity. }
  cbn [fst snd]. destruct s1 as [s1|].
  - apply IH; [|done]. pose proof (method_next _ _ _ _ _ _ _ Hm). lia.
  - injection Hrun as -> ->. apply leads_refl.
Qed.

(** On the object of the table they do the same, and the table has the result. *)
Lemma shared_run n s it rest d d' m w w' :
  (stage s <= n)%nat → ethManagement_ w = Some m → devs_ m !! iface_ it = Some (Some d) →
  dev_run n s it d w = Some (d', w') →
  leads (SDev s it None rest) w (next_link rest) (set_management (table_set m (iface_ it) d') w').
Proof.
  revert s d m w w'. induction n as [|n IH]; intros s d m w w' Hs Hm Hd Hrun; [by destruct s; cbn in Hs; lia|].
  cbn [dev_run] in Hrun. unfold mbind, st_bind in Hrun.
  destruct (dev_method s it d w) as [[[d1 s1] w1]|] eqn:Hmet; [|done]. cbn [fst snd] in Hrun.
  pose proof (frames_keep _ _ _ _ _ (frames_method s it d) Hm Hmet) as Hm1.
  eapply leads_step.
  { cbn [start_step load_dev store_dev]. unfold mbind, st_bind, mret, st_ret. rewrite (run_find_dev _ m) by done.
    rewrite Hd. cbn [mjoin option_join deref]. unfold mret, st_ret. rewrite Hmet. cbn [fst snd]. rewrite (run_put_dev _ _ m) by done.
    reflexivity. }
  destruct s1 as [s1|].
  - set (m1 := table_set m (iface_ it) d1).
    pose proof (frames_run n s1 it d1 m1 w1) as Hf. rewrite Hrun in Hf. cbn [on_table] in Hf.
    pose proof (method_next _ _ _ _ _ _ _ Hmet) as Hlt.
    assert (Hl : leads (SDev s1 it None rest) (set_management m1 w1) (next_link rest)
      (set_management (table_set m1 (iface_ it) d') (set_management m1 w'))).
    { eapply IH; [lia|done| |exact Hf]. cbn. apply lookup_insert_eq. }
    unfold m1 in Hl at 2. rewrite table_set_twice in Hl. exact Hl.
  - injection Hrun as -> ->. apply leads_refl.
Qed.

(** An iteration, the loop, and the whole. *)
Lemma link_run it rest m w w' :
  ethManagement_ w = Some m → EthernetManagement.init_dev it w = Some (tt, w') →
  leads (SInsert it rest) w (next_link rest) w' ∧ is_Some (ethManagement_ w').
Proof.
  intros Hm Hi. rewrite init_dev_run in Hi. destruct (String.eqb (iface_ it) "") eqn:En.
  { injection Hi as <-. split; [|by eexists]. eapply leads_step; [|apply leads_refl]. cbn [start_step]. by rewrite En. }
  unfold mbind, st_bind in Hi. destruct (dev_run 8 PSetIfcfg it construct w) as [[d w1]|] eqn:Hrun; [|done].
  pose proof (frames_keep _ _ _ _ _ (frames_run _ _ _ _) Hm Hrun) as Hm1.
  rewrite (run_find_dev _ m) in Hi by done.
  assert (Hins : ∀ o, devs_ m !! iface_ it = o → start_step (SInsert it rest) w =
    match o with
    | Some _ => Some (SDev PSetIfcfg it (Some construct) rest, w)
    | None => Some (SDev PSetIfcfg it None rest, set_management (table_set m (iface_ it) construct) w)
    end).
  { intros o Ho. cbn [start_step]. rewrite En. unfold mbind, st_bind. rewrite (run_find_dev _ m), Ho by done.
    destruct o; [done|]. by rewrite (run_put_dev _ _ m). }
  destruct (devs_ m !! iface_ it) as [o|] eqn:Ed.
  - injection Hi as <-. split; [|by eexists]. eapply leads_step; [by apply (Hins (Some o))|]. by eapply (own_run 8).
  - rewrite (run_put_dev _ _ m) in Hi by done. injection Hi as <-. split; [|by eexists].
    eapply leads_step; [by apply (Hins None)|]. set (m1 := table_set m (iface_ it) construct).
    pose proof (frames_run 8 PSetIfcfg it construct m1 w) as Hf. rewrite Hrun in Hf. cbn [on_table] in Hf.
    assert (Hl : leads (SDev PSetIfcfg it None rest) (set_management m1 w) (next_link rest)
      (set_management (table_set m1 (iface_ it) d) (set_management m1 w1))).
    { eapply (shared_run 8); [done|done| |exact Hf]. cbn. apply lookup_insert_eq. }
    unfold m1 in Hl at 2. rewrite table_set_twice in Hl. exact Hl.
Qed.

Lemma links_run l w w' :
  is_Some (ethManagement_ w) → for_each EthernetManagement.init_dev l w = Some (tt, w') → leads (next_link l) w SRegisterNlk w'.
Proof.
  revert w. induction l as [|it l IH]; intros w [m Hm] Hl; cbn [for_each] in Hl.
  - injection Hl as <-. apply leads_refl.
  - unfold mbind, st_bind in Hl. destruct (EthernetManagement.init_dev it w) as [[[] w1]|] eqn:Hi; [|done].
    destruct (link_run it l m w w1 Hm Hi) as [Hrun Hs]. eapply leads_trans; [exact Hrun|]. by apply IH.
Qed.

(** The steps with nothing between them are [OnStart]. *)
Theorem start_alone w w' : EthernetService.OnStart w = Some (tt, w') → leads SBegin w SDone w'.
Proof.
  unfold EthernetService.OnStart, mbind, st_bind, gets, modify, id. intros Hs.
  destruct (e_running_ w) eqn:Er.
  { injection Hs as <-. eapply leads_step; [|apply leads_refl]. cbn. unfold mbind, st_bind, gets, id. by rewrite Er. }
  destruct (EthernetService.Init w) as [[ok w1]|] eqn:Ei; [|done].
  assert (Hb : start_step SBegin w = Some (if ok then SListen else SDone, w1)).
  { cbn. unfold mbind, st_bind, gets, id. by rewrite Er, Ei. }
  eapply leads_step; [exact Hb|]. destruct ok; cbn [negb] in Hs; [|injection Hs as <-; apply leads_refl].
  destruct (eth_do EthNlkInit w1) as [[z w2]|] eqn:Ed; [|done].
  assert (Hlis : start_step SListen w1 = Some (match ethManagement_ w2 with Some _ => SDump | None => SRunning end, w2)).
  { cbn. unfold mbind, st_bind, gets. by rewrite Ed. }
  eapply leads_step; [exact Hlis|]. destruct (ethManagement_ w2) as [m|] eqn:Em.
  - unfold EthernetManagement.Init, EthernetManagement.RegisterNlk, mbind, st_bind in Hs.
    destruct (eth_query eth_GetLinkInfo w2) as [[l w3]|] eqn:Eq; [|done].
    assert (Hd : start_step SDump w2 = Some (next_link l, w3)) by (cbn; unfold mbind, st_bind; by rewrite Eq).
    eapply leads_step; [exact Hd|].
    assert (Hm3 : is_Some (ethManagement_ w3)).
    { rewrite (frames_keep _ _ _ _ _ (frames_query _) Em Eq). by eexists. }
    assert (Hl : ∃ w4, for_each EthernetManagement.init_dev l w3 = Some (tt, w4) ∧
      w' = set_estate (e_registerToService_ w4) true (set_handles (S (nlkHandles_ w4)) w4)).
    { destruct l as [|it l]; [injection Hs as <-; by eexists|].
      rewrite (proj2 (Z.leb_gt _ _)) in Hs by (cbn; lia).
      destruct (for_each _ _ w3) as [[[] w4]|]; [|done]. injection Hs as <-. by eexists. }
    destruct Hl as (w4 & Hl & ->). eapply leads_trans; [by apply links_run|].
    eapply leads_step; [reflexivity|]. eapply leads_step; [reflexivity|]. apply leads_refl.
  - injection Hs as <-. eapply leads_step; [reflexivity|]. apply leads_refl.
Qed.

End Frames.

(** ** The start among requests *)

Section Among.
Context {E : Type} `{EthPlatform E}.
Implicit Type w : eworld E.

(** The link message of a request, when a handler is there for it. *)
Definition heard w (q : eth_request) : list NlkEventInfo :=
  match q with
  | ELinkEvent info => if (nlkHandles_ w =? 0)%nat then [] else [info]
  | _ => []
  end.

(** The dump that is known after a step. *)
Definition dump_after (p : start_pc) w (dump : list NlkEventInfo) : list NlkEventInfo :=
  match p with SDump => (eth_GetLinkInfo (e_env w)).1 | _ => dump end.

(** [OnStart] of a new process is at [p] after [n] steps, other requests came
    between them, none in a race: with the dump that [Init] was given and the
    link messages that had a handler. *)
Inductive starting (e : E) : nat → start_pc → eworld E → list NlkEventInfo → list NlkEventInfo → Prop :=
  | starting_begin : starting e 0 SBegin (EthernetService.construct e) [] []
  | starting_step n p w dump late p' w' :
      starting e n p w dump late → p ≠ SDone → start_step p w = Some (p', w') →
      starting e (S n) p' w' (dump_after p w dump) late
  | starting_request n p w dump late q r w' :
      starting e n p w dump late → eth_enabled q → q ≠ EOnStart → request_among p q w = Some (r, w') →
      starting e n p w' dump (late ++ heard w q).

Definition flags_of (d : t) : bool * bool := (linkUp_ d, lowerUp_ d).

Definition flags_in (it : NlkEventInfo) : bool * bool := (link_up it, link_lowerUp it).

(** The flags of an interface that is in the table. *)
Definition seen_in (devs : gmap string (option t)) (iface : string) : option (bool * bool) :=
  d ← mjoin (devs !! iface) ; Some (flags_of d).

Definition seen w (iface : string) : option (bool * bool) :=
  m ← ethManagement_ w ; seen_in (devs_ m) iface.

(** What a list of link messages says of an interface, in order. *)
Definition said (links : list NlkEventInfo) (iface : string) : list (bool * bool) :=
  flags_in <$> filter (λ i, iface_ i = iface) links.

(** What was said last after the start, else what the dump says first. *)
Definition told (dump late : list NlkEventInfo) (iface : string) : option (bool * bool) :=
  if String.eqb iface "" then None
  else match head (said dump iface) with
       | None => None
       | Some f => Some (default f (last (said late iface)))
       end.

(** *** The flags in a request *)

Lemma seen_calls evs w w' iface : calls evs w w' → seen w' iface = seen w iface.
Proof. intros (_ & Hm & _). unfold seen. by rewrite Hm. Qed.

Lemma seen_updates evs dev d w w' iface :
  updates evs dev d w w' → seen w' iface = if decide (iface = dev) then Some (flags_of d) else seen w iface.
Proof.
  intros (_ & _ & m & Hm & Hm'). unfold seen. rewrite Hm, Hm'. cbn. unfold seen_in.
  destruct (decide (iface = dev)) as [->|Hne]; [by rewrite lookup_insert_eq|by rewrite lookup_insert_ne].
Qed.

Lemma seen_found w m iface d :
  ethManagement_ w = Some m → mjoin (devs_ m !! iface) = Some d → seen w iface = Some (flags_of d).
Proof. intros Hm Hd. unfold seen. rewrite Hm. cbn. unfold seen_in. by rewrite Hd. Qed.

Lemma announced_seen d : flags_of (announced d) = flags_of d.
Proof. unfold announced. by destruct (decide _). Qed.

Lemma configured_seen c d : flags_of (configured c d) = flags_of d.
Proof. unfold configured. by destruct (is_static c). Qed.

Lemma after_link_seen up lowerUp d : flags_of (after_link_event up lowerUp d) = (up, lowerUp).
Proof.
  unfold after_link_event. cbv zeta. set (d1 := SetLowerUp lowerUp (SetLinkUp up d)).
  pose proof (announced_seen d1) as H1. pose proof (announced_seen (SetDhcpReqState false d1)) as H2.
  destruct lowerUp; destruct (_ && _); exact H1 || exact H2.
Qed.

(** The state that a request leaves, seen from the start. *)
Record answered (w : eworld E) (info : list NlkEventInfo) (w' : eworld E) : Prop := mkAnswered {
  an_handles : nlkHandles_ w' = nlkHandles_ w;
  an_running : e_running_ w' = true → e_running_ w = true;
  an_seen : ∀ iface, seen w' iface = f ← seen w iface ; Some (default f (last (said info iface)));
}.

Lemma answered_same w : answered w [] w.
Proof. split; [done|done|]. intros iface. cbn. by destruct (seen w iface). Qed.

Lemma answered_keep w w' :
  nlkHandles_ w' = nlkHandles_ w → (e_running_ w' = true → e_running_ w = true) →
  (∀ iface, seen w' iface = seen w iface) → answered w [] w'.
Proof. intros Hh Hr Hs. split; [done|done|]. intros iface. rewrite Hs. cbn. by destruct (seen w iface). Qed.

Lemma answered_update evs dev d d' w w' m :
  ethManagement_ w = Some m → mjoin (devs_ m !! dev) = Some d → updates evs dev d' w w' →
  e_running_ w' = e_running_ w → flags_of d' = flags_of d → answered w [] w'.
Proof.
  intros Hm Hd Hu Hr Hf. apply answered_keep; [apply Hu|by rewrite Hr|]. intros iface.
  rewrite (seen_updates _ _ _ _ _ _ Hu). destruct (decide (iface = dev)) as [->|]; [|done].
  rewrite (seen_found w m dev d) by done. by rewrite Hf.
Qed.

Lemma sees_SetIfaceConfig iface c w :
  eth_inv w → wp (EthernetManagement.UpdateDevInterfaceState iface (Some c)) (λ _, answered w []) w.
Proof.
  intros Hw. pose proof Hw as [_ (m & Hm & _)]. apply wp_bind. eapply wp_found_dev; [exact Hm|].
  destruct (mjoin (devs_ m !! iface)) as [d|] eqn:Ej; [|by apply wp_ret, answered_same].
  destruct (linkUp_ d); cbn [negb]; [|by apply wp_ret, answered_same].
  apply wp_bind, wp_SetIfcfg. intros w1 H1. apply wp_bind.
  eapply wp_put_dev; [by eexists|exact H1|]. intros w2 H2 _ Hr. apply wp_ret.
  eapply answered_update; [exact Hm|exact Ej|exact H2|exact Hr|apply configured_seen].
Qed.

Lemma sees_OnSuccess iface r w : eth_inv w → wp (EthernetManagement.OnSuccess iface r) (λ _, answered w []) w.
Proof.
  intros Hw. pose proof Hw as [_ (m & Hm & _)]. apply wp_bind, wp_bind. eapply wp_found_dev; [exact Hm|].
  destruct (mjoin (devs_ m !! iface)) as [d|] eqn:Ej; [|by apply wp_ret, wp_ret, answered_same].
  destruct (linkUp_ d); cbn [negb]; [|by apply wp_ret, wp_ret, answered_same].
  apply wp_bind, wp_report. intros _ w1 H1. apply wp_bind.
  eapply wp_put_dev; [by eexists|exact H1|]. intros w2 H2 _ Hr. apply wp_ret, wp_ret.
  by eapply answered_update; [exact Hm|exact Ej|exact H2|exact Hr|].
Qed.

Lemma sees_Handle info w : eth_inv w → wp (EthernetManagement.Handle info) (λ _, answered w [info]) w.
Proof.
  intros Hw. pose proof Hw as [_ (m & Hm & Hd & Ht)]. unfold EthernetManagement.Handle.
  fold (link_up info) (link_lowerUp info). destruct (Ht (iface_ info)) as (He & _).
  destruct (devs_ m !! iface_ info) as [o|] eqn:Ep.
  - destruct He as (d & -> & Hok).
    eapply wp_UpdateInterfaceState; [exact Hm|done|exact Ep|apply Hok|]. intros w' Hu _ Hr.
    split; [apply Hu|by rewrite Hr|]. intros iface. rewrite (seen_updates _ _ _ _ _ _ Hu). unfold said.
    destruct (decide (iface = iface_ info)) as [->|Hne].
    + rewrite (seen_found w m (iface_ info) d), filter_cons_True by (done || by rewrite Ep). cbn. by rewrite after_link_seen.
    + rewrite filter_cons_False by congruence. cbn. by destruct (seen w iface).
  - apply wp_bind. eapply wp_find_dev; [exact Hm|]. rewrite Ep. apply wp_ret. split; [done|done|]. intros iface.
    unfold said. destruct (decide (iface_ info = iface)) as [<-|Hne].
    + unfold seen. rewrite Hm. cbn. unfold seen_in. by rewrite Ep.
    + rewrite filter_cons_False by congruence. cbn. by destruct (seen w iface).
Qed.

Lemma sees_query {A} (c : st (eworld E) A) w : wp c (λ _ w', w' = w) w → wp c (λ _, answered w []) w.
Proof. intros Hc. eapply wp_mono; [exact Hc|]. intros _ w' ->. apply answered_same. Qed.

Lemma sees_request q w :
  eth_inv w → eth_enabled q → q ≠ EOnStart → (nlkHandles_ w <= 1)%nat →
  wp (eth_handle q) (λ _ w', answered w (heard w q) w' ∧ eth_inv w') w.
Proof.
  intros Hw Hq Hs Hn. apply (wp_and _ (λ _, answered w (heard w q))); [|by apply eth_handle_ok].
  pose proof Hw as [_ (mg & Hmg & _)].
  destruct q as [| |iface [c|]|iface|iface| |info|iface r]; try done; cbn [eth_handle heard];
    (apply wp_bind; eapply (wp_mono _ (λ _, answered w _)); [|intros ? ? Ha; exact (wp_ret _ _ _ Ha)]).
  - apply wp_modify. by apply answered_keep.
  - unfold EthernetService.SetIfaceConfig. apply wp_bind, wp_gets. rewrite Hmg. by apply sees_SetIfaceConfig.
  - apply sees_query, wp_bind, wp_gets. rewrite Hmg. apply wp_bind.
    eapply wp_found_dev; [exact Hmg|]. by destruct (mjoin _); apply wp_ret.
  - apply sees_query, wp_bind, wp_gets. rewrite Hmg. apply wp_bind.
    eapply wp_found_dev; [exact Hmg|]. by destruct (mjoin _); apply wp_ret.
  - apply sees_query, wp_bind, wp_gets. rewrite Hmg. apply wp_bind, wp_gets, wp_bind.
    eapply wp_deref; [exact Hmg|]. by apply wp_ret.
  - unfold ProcessIfInfo. apply wp_bind, wp_gets. unfold id.
    destruct (nlkHandles_ w) as [|[|n]]; [|cbn|lia].
    + apply wp_ret, answered_same.
    + apply wp_bind. eapply wp_mono; [by apply sees_Handle|]. cbv beta. intros _ w' Ha. by apply wp_ret.
  - by apply sees_OnSuccess.
Qed.

(** *** What a step does *)

(** A statement on an object: the connection service is called at most, and
    the flags are set when it is their turn. *)
Definition flags_at (s : dev_stmt) (it : NlkEventInfo) (f : bool * bool) : Prop :=
  match s with
  | PSetIfcfg | PGetHWaddr | PSetDevName _ | PSetDevHWaddr _ | PSetLinkUp => True
  | PSetLowerUp => f.1 = link_up it
  | PRegister | PAnnounce => f = flags_in it
  end.

Definition after_stmt (it : NlkEventInfo) (d : t) (w : eworld E) (r : t * option dev_stmt) (w' : eworld E) : Prop :=
  (∃ evs, calls evs w w' ∧ Forall plain_event evs) ∧ dev_ok r.1 ∧ dhcpReqState_ r.1 = dhcpReqState_ d ∧
  match r.2 with Some s => flags_at s it (flags_of r.1) | None => flags_of r.1 = flags_in it end.

Lemma after_stmt_quiet it d w d' s :
  dev_ok d' → dhcpReqState_ d' = dhcpReqState_ d → flags_at s it (flags_of d') → after_stmt it d w (d', Some s) w.
Proof. intros Hok Hd Hf. split_and!; try done. exists []. split; [apply calls_nil|done]. Qed.

Lemma dev_method_ok s it d w :
  dev_ok d → flags_at s it (flags_of d) → wp (dev_method s it d) (after_stmt it d w) w.
Proof.
  intros Hok Hf. destruct s; cbn [dev_method flags_at] in *.
  - apply wp_bind, wp_SetIfcfg. intros w1 H1. apply wp_ret. split; [|split_and!]; try done.
    + eexists. split; [exact H1|]. by apply configuration_plain.
    + by apply configured_ok.
  - apply wp_bind, wp_eth_query. intros hw w1 H1. apply wp_ret. split; [by eexists|]. by split_and!.
  - apply wp_ret. apply after_stmt_quiet; [by destruct Hok|done..].
  - apply wp_ret. apply after_stmt_quiet; [by destruct Hok|done..].
  - apply wp_ret. apply after_stmt_quiet; [by destruct Hok|done..].
  - apply wp_ret. apply after_stmt_quiet; [by destruct Hok|done|]. cbn in *. unfold flags_of, flags_in. by rewrite <- Hf.
  - apply wp_bind.
    assert (Hend : ∀ r w1, (∃ evs, calls evs w w1 ∧ Forall plain_event evs) → dev_ok r.2 →
      dhcpReqState_ r.2 = dhcpReqState_ d → flags_of r.2 = flags_of d →
      wp (mret ((r : Z * t).2, if link_up it && link_lowerUp it then Some PAnnounce else None)) (after_stmt it d w) w1).
    { intros r w1 Hc Hok1 Hd Hr. rewrite <- Hr in Hf. apply wp_ret. split_and!; [done..|]. cbn [fst snd].
      by destruct (link_up it && link_lowerUp it). }
    destruct (decide (connLinkState_ d = UNREGISTERED)) as [Hu|Hu].
    + apply wp_register; [done|]. intros id w1 H1. apply Hend; [| |done|done].
      * eexists. split; [exact H1|]. by repeat constructor.
      * destruct Hok as [Hl Hi Hid]. split; [done|done|]. cbn.
        destruct (Z.ltb_spec MINIMUM_SUPPLIER_ID id); [by right|by left].
    + unfold RemoteRegisterNetSupplier. rewrite decide_False by done. apply wp_ret, Hend; [|done..].
      exists []. split; [apply calls_nil|done].
  - apply wp_bind, wp_announce; [apply Hok|]. intros z w1 H1. apply wp_ret. split; [|split_and!].
    + eexists. split; [exact H1|apply announcement_plain].
    + by apply announced_ok.
    + apply announced_flag.
    + cbn [fst snd]. by rewrite announced_seen.
Qed.

(** The object of the table after a statement. *)
Lemma inv_stmt evs iface d d' w w' m :
  eth_inv w → ethManagement_ w = Some m → devs_ m !! iface = Some (Some d) → updates evs iface d' w w' →
  Forall plain_event evs → dev_ok d' → dhcpReqState_ d' = dhcpReqState_ d → eth_inv w'.
Proof.
  intros Hw Hm Hd Hu Hp Hok Hf. eapply inv_updates; [exact Hw|exact Hu|exact Hm|by apply plain_ok|done| |].
  - intros j _. by apply plain_dhcp_log.
  - left. rewrite Hd. split; [by apply plain_dhcp_log|done].
Qed.

(** *** The invariant of the start *)

(** The table while nobody listens: the links of [pre] have been entered. *)
Definition entered (pre late : list NlkEventInfo) w : Prop :=
  nlkHandles_ w = 0%nat ∧ late = [] ∧ ∀ iface, seen w iface = told pre [] iface.

Definition start_ok (p : start_pc) (w : eworld E) (dump late : list NlkEventInfo) : Prop :=
  eth_inv w ∧
  match p with
  | SBegin => dump = [] ∧ entered [] late w ∧ e_running_ w ≠ true
  | SListen | SDump => dump = [] ∧ entered [] late w
  | SInsert it rest => ∃ pre, dump = pre ++ it :: rest ∧ entered pre late w
  | SDev s it (Some d) rest =>
    ∃ pre, dump = pre ++ it :: rest ∧ entered pre late w ∧ dev_ok d ∧ flags_at s it (flags_of d) ∧
      is_Some (told pre [] (iface_ it))
  | SDev s it None rest =>
    ∃ pre, dump = pre ++ it :: rest ∧ told pre [] (iface_ it) = None ∧ iface_ it ≠ ""%string ∧
      nlkHandles_ w = 0%nat ∧ late = [] ∧
      (∀ iface, iface ≠ iface_ it → seen w iface = told pre [] iface) ∧
      ∃ f, seen w (iface_ it) = Some f ∧ flags_at s it f
  | SRegisterNlk => entered dump late w
  | SRunning => nlkHandles_ w = 1%nat ∧ ∀ iface, seen w iface = told dump late iface
  | SDone =>
    (nlkHandles_ w <= 1)%nat ∧
    (e_running_ w = true → nlkHandles_ w = 1%nat ∧ ∀ iface, seen w iface = told dump late iface)
  end.

Lemma said_app l1 l2 iface : said (l1 ++ l2) iface = said l1 iface ++ said l2 iface.
Proof. unfold said. by rewrite filter_app, fmap_app. Qed.

Lemma told_late dump late l iface :
  told dump (late ++ l) iface = f ← told dump late iface ; Some (default f (last (said l iface))).
Proof.
  unfold told. destruct (String.eqb iface ""); [done|]. destruct (head (said dump iface)) as [f|]; [|done].
  cbn. rewrite said_app, last_app. by destruct (last (said l iface)).
Qed.

(** A link more of the dump says something of an interface that nothing was
    said of yet. *)
Lemma told_more pre it iface :
  told (pre ++ [it]) [] iface =
  match told pre [] iface with
  | Some f => Some f
  | None => if decide (iface = iface_ it ∧ iface ≠ ""%string) then Some (flags_in it) else None
  end.
Proof.
  unfold told. rewrite said_app. destruct (String.eqb_spec iface ""%string) as [->|Hne].
  { by rewrite decide_False by tauto. }
  destruct (said pre iface) as [|f l]; [|done]. cbn [app head]. unfold said.
  destruct (decide (iface = iface_ it)) as [->|Hd].
  - rewrite filter_cons_True by done. by rewrite decide_True.
  - rewrite filter_cons_False by congruence. cbn. by rewrite decide_False by tauto.
Qed.

Lemma seen_entry w iface f :
  seen w iface = Some f → ∃ m d, ethManagement_ w = Some m ∧ devs_ m !! iface = Some (Some d) ∧ f = flags_of d.
Proof.
  unfold seen. destruct (ethManagement_ w) as [m|]; [|done]. cbn. unfold seen_in.
  destruct (devs_ m !! iface) as [[d|]|] eqn:Ed; try done. intros [= <-]. eauto.
Qed.

Lemma seen_none w m iface : eth_inv w → ethManagement_ w = Some m → seen w iface = None → devs_ m !! iface = None.
Proof.
  intros [_ (m' & Hm' & _ & Ht)] Hm. rewrite Hm' in Hm. injection Hm as ->. unfold seen. rewrite Hm'. cbn. unfold seen_in.
  destruct (Ht iface) as (He & _). destruct (devs_ m !! iface) as [o|]; [|done]. by destruct He as (d & -> & _).
Qed.

(** *** Requests keep it *)

Lemma heard_nobody w q : nlkHandles_ w = 0%nat → heard w q = [].
Proof. intros Hn. destruct q; try done. cbn. by rewrite Hn. Qed.

Lemma answered_seen w w' iface : answered w [] w' → seen w' iface = seen w iface.
Proof. intros [_ _ Hs]. rewrite Hs. cbn. by destruct (seen w iface). Qed.

Lemma answered_told w info w' dump late :
  answered w info w' → (∀ iface, seen w iface = told dump late iface) → ∀ iface, seen w' iface = told dump (late ++ info) iface.
Proof. intros [_ _ Hs] Ht iface. by rewrite Hs, Ht, told_late. Qed.

Lemma answered_entered pre late w w' : answered w [] w' → entered pre late w → entered pre late w'.
Proof.
  intros Ha (Hn & Hl & Hs). split; [by rewrite (an_handles _ _ _ Ha)|]. split; [done|]. intros iface.
  by rewrite (answered_seen _ _ _ Ha).
Qed.

Lemma start_ok_handles p w dump late : start_ok p w dump late → (nlkHandles_ w <= 1)%nat.
Proof.
  intros [_ Hp]. destruct p as [| | |it rest|s it [d|] rest| | |]; unfold entered in Hp; naive_solver lia.
Qed.

Lemma request_keeps p w dump late q :
  start_ok p w dump late → eth_enabled q → q ≠ EOnStart →
  wp (eth_handle q) (λ _ w', start_ok p w' dump (late ++ heard w q)) w.
Proof.
  intros Hok Hq Hs. pose proof (start_ok_handles _ _ _ _ Hok) as Hn. destruct Hok as [Hw Hp].
  eapply wp_mono; [by apply sees_request|]. cbv beta. intros _ w' [Ha Hw']. split; [done|].
  assert (Hquiet : nlkHandles_ w = 0%nat → heard w q = [] ∧ answered w [] w').
  { intros H0. rewrite heard_nobody in * by done. done. }
  destruct p as [| | |it rest|s it [d|] rest| | |].
  - destruct Hp as (-> & He & Hr). destruct (Hquiet (proj1 He)) as [-> Ha']. rewrite app_nil_r.
    split; [done|]. split; [by eapply answered_entered|]. intros Hr'. by apply Hr, (an_running _ _ _ Ha).
  - destruct Hp as (-> & He). destruct (Hquiet (proj1 He)) as [-> Ha']. rewrite app_nil_r.
    split; [done|]. by eapply answered_entered.
  - destruct Hp as (-> & He). destruct (Hquiet (proj1 He)) as [-> Ha']. rewrite app_nil_r.
    split; [done|]. by eapply answered_entered.
  - destruct Hp as (pre & -> & He). destruct (Hquiet (proj1 He)) as [-> Ha']. rewrite app_nil_r.
    exists pre. split; [done|]. by eapply answered_entered.
  - destruct Hp as (pre & -> & He & Hrest). destruct (Hquiet (proj1 He)) as [-> Ha']. rewrite app_nil_r.
    exists pre. split; [done|]. split; [by eapply answered_entered|done].
  - destruct Hp as (pre & -> & Ht & Hne & H0 & -> & Hse & Hf). destruct (Hquiet H0) as [-> Ha'].
    exists pre. split_and!; try done; [by rewrite (an_handles _ _ _ Ha')|..].
    + intros iface Hi. rewrite (answered_seen _ _ _ Ha'). by apply Hse.
    + by rewrite (answered_seen _ _ _ Ha').
  - destruct (Hquiet (proj1 Hp)) as [-> Ha']. rewrite app_nil_r. by eapply answered_entered.
  - destruct Hp as [H1 Ht]. split; [by rewrite (an_handles _ _ _ Ha)|]. by eapply answered_told.
  - destruct Hp as [H1 Ht]. rewrite (an_handles _ _ _ Ha). split; [done|].
    intros [Hh Hseen]%(an_running _ _ _ Ha)%Ht. split; [done|]. by eapply answered_told.
Qed.

(** *** Steps keep it *)

Lemma moved_Init w :
  eth_inv w → nlkHandles_ w = 0%nat → e_running_ w ≠ true →
  wp EthernetService.Init (λ _ w', eth_inv w' ∧ nlkHandles_ w' = 0%nat ∧ e_running_ w' ≠ true ∧
    ∀ iface, seen w' iface = seen w iface) w.
Proof.
  intros Hw Hh Hr.
  enough (Hm : wp EthernetService.Init (λ _ w', nlkHandles_ w' = nlkHandles_ w ∧ e_running_ w' = e_running_ w) w).
  { eapply wp_mono; [apply (wp_and _ _ _ _ (ok_Init w Hw) Hm)|]. cbv beta. intros _ w' [ [Hw' Hm'] [H1 H2] ].
    split_and!; [done|congruence|congruence|]. intros iface. unfold seen. by rewrite Hm'. }
  unfold EthernetService.Init. destruct eth_registerLocalResult; cbn [negb]; [|by apply wp_ret].
  apply wp_bind, wp_gets. unfold id. destruct (e_registerToService_ w); cbn [negb]; [by apply wp_ret|].
  apply wp_bind. unfold wp at 1, eth_ext. destruct (eth_Publish (e_env w)) as [b e].
  exists b. eexists. split; [done|]. destruct b; cbn [negb]; [by apply wp_bind, wp_modify, wp_ret|by apply wp_ret].
Qed.

Lemma entered_calls pre late evs w w' : calls evs w w' → entered pre late w → entered pre late w'.
Proof.
  intros Hc (Hn & Hl & Hs). split; [by rewrite (proj1 (proj2 (proj2 Hc)))|]. split; [done|]. intros iface.
  by rewrite (seen_calls _ _ _ _ Hc).
Qed.

Lemma next_ok pre rest w dump late :
  eth_inv w → dump = pre ++ rest → entered pre late w → start_ok (next_link rest) w dump late.
Proof.
  intros Hw -> He. split; [done|]. destruct rest as [|it rest]; cbn [next_link]; [by rewrite app_nil_r|]. by exists pre.
Qed.

(** A link that adds nothing. *)
Lemma entered_known pre it late w :
  iface_ it = ""%string ∨ is_Some (told pre [] (iface_ it)) → entered pre late w → entered (pre ++ [it]) late w.
Proof.
  intros Hk (Hn & Hl & Hs). split_and!; [done..|]. intros iface. rewrite Hs, told_more.
  destruct (told pre [] iface) eqn:Et; [done|]. destruct (decide _) as [ [-> Hne]|]; [|done].
  destruct Hk as [Hk|[f Hk] ]; congruence.
Qed.

Lemma construct_ok : dev_ok construct.
Proof. split; [done|by eexists|by left]. Qed.

Lemma step_insert it rest w dump late :
  start_ok (SInsert it rest) w dump late → wp (start_step (SInsert it rest)) (λ p' w', start_ok p' w' dump late) w.
Proof.
  intros [Hw (pre & -> & He)]. pose proof Hw as [_ (m & Hm & _ & Ht)]. cbn [start_step].
  destruct (String.eqb_spec (iface_ it) ""%string) as [Hn|Hn].
  { apply wp_ret, (next_ok (pre ++ [it])); [done|by rewrite <- app_assoc|]. apply entered_known; [by left|done]. }
  apply wp_bind. eapply wp_find_dev; [exact Hm|]. pose proof (proj2 (proj2 He) (iface_ it)) as Hsee.
  destruct (devs_ m !! iface_ it) as [o|] eqn:Ed.
  - apply wp_ret. split; [done|]. exists pre. split; [done|]. split; [exact He|]. split; [exact construct_ok|].
    split; [done|]. destruct (Ht (iface_ it)) as (Hf & _). rewrite Ed in Hf. destruct Hf as (d & -> & _).
    rewrite <- Hsee, (seen_found w m _ d) by (done || by rewrite Ed). by eexists.
  - apply wp_bind. eapply wp_put_dev; [by eexists|apply calls_nil|]. intros w' Hu _ _. apply wp_ret.
    destruct He as (H0 & -> & Hs). split.
    + eapply inv_updates; [exact Hw|exact Hu|exact Hm|done|exact construct_ok|done|]. left. by rewrite Ed.
    + exists pre. split_and!; try done.
      * rewrite <- Hsee. unfold seen. rewrite Hm. cbn. unfold seen_in. by rewrite Ed.
      * by rewrite (proj1 (proj2 Hu)).
      * intros iface Hi. rewrite (seen_updates _ _ _ _ _ _ Hu), decide_False by done. apply Hs.
      * eexists. rewrite (seen_updates _ _ _ _ _ _ Hu), decide_True by done. done.
Qed.

Lemma step_own s it d rest w dump late :
  start_ok (SDev s it (Some d) rest) w dump late →
  wp (start_step (SDev s it (Some d) rest)) (λ p' w', start_ok p' w' dump late) w.
Proof.
  intros [Hw (pre & -> & He & Hd & Hf & Hk)]. cbn [start_step load_dev store_dev]. apply wp_bind, wp_ret, wp_bind.
  eapply wp_mono; [by apply dev_method_ok|]. cbv beta. intros [d' s'] w1 ((evs & Hc & Hp) & Hd' & _ & Hf'). cbn [fst snd] in *.
  apply wp_bind, wp_ret, wp_ret.
  assert (Hw1 : eth_inv w1) by by eapply inv_calls.
  assert (He1 : entered pre late w1) by by eapply entered_calls.
  destruct s' as [s'|].
  - split; [done|]. by exists pre.
  - apply (next_ok (pre ++ [it])); [done|by rewrite <- app_assoc|]. apply entered_known; [by right|done].
Qed.

Lemma step_shared s it rest w dump late :
  start_ok (SDev s it None rest) w dump late →
  wp (start_step (SDev s it None rest)) (λ p' w', start_ok p' w' dump late) w.
Proof.
  intros [Hw (pre & -> & Ht & Hne & H0 & -> & Hs & f & Hsee & Hf)].
  destruct (seen_entry _ _ _ Hsee) as (m & d & Hm & Hd & ->).
  destruct (inv_found w m (iface_ it) d Hw Hm) as (Hok & _); [by rewrite Hd|].
  cbn [start_step load_dev store_dev]. apply wp_bind, wp_bind. eapply wp_find_dev; [exact Hm|]. rewrite Hd.
  eapply wp_deref; [reflexivity|]. apply wp_bind. eapply wp_mono; [by apply dev_method_ok|]. cbv beta.
  intros [d' s'] w1 ((evs & Hc & Hp) & Hd' & Hdh & Hf'). cbn [fst snd] in *. apply wp_bind, wp_bind.
  eapply wp_put_dev; [by eexists|exact Hc|]. intros w2 Hu _ _. apply wp_ret, wp_ret.
  assert (Hw2 : eth_inv w2) by by eapply inv_stmt. assert (H02 : nlkHandles_ w2 = 0%nat) by by rewrite (proj1 (proj2 Hu)).
  assert (Hs2 : ∀ iface, iface ≠ iface_ it → seen w2 iface = told pre [] iface).
  { intros iface Hi. rewrite (seen_updates _ _ _ _ _ _ Hu), decide_False by done. by apply Hs. }
  assert (Hit : seen w2 (iface_ it) = Some (flags_of d')) by by rewrite (seen_updates _ _ _ _ _ _ Hu), decide_True.
  destruct s' as [s'|].
  - split; [done|]. exists pre. split_and!; try done. by eexists.
  - apply (next_ok (pre ++ [it])); [done|by rewrite <- app_assoc|]. split_and!; [done..|]. intros iface.
    rewrite told_more. destruct (decide (iface = iface_ it)) as [->|Hi].
    + rewrite Ht, decide_True by done. by rewrite Hit, Hf'.
    + rewrite Hs2, decide_False by naive_solver. by destruct (told pre [] iface).
Qed.

Lemma start_step_keeps p w dump late :
  start_ok p w dump late → wp (start_step p) (λ p' w', start_ok p' w' (dump_after p w dump) late) w.
Proof.
  intros Hok. destruct p as [| | |it rest|s it [d|] rest| | |]; cbn [dump_after].
  - destruct Hok as [Hw (-> & He & Hr)]. cbn [start_step]. apply wp_bind, wp_gets. unfold id.
    destruct (e_running_ w) eqn:Er; [done|]. destruct He as (H0 & -> & Hs).
    apply wp_bind. eapply wp_mono; [apply moved_Init; [done|done|by rewrite Er]|]. cbv beta.
    intros ok w' (Hw' & Hh' & Hr' & Hs'). apply wp_ret. split; [done|]. destruct ok; [|by rewrite Hh'; split; [lia|] ].
    split; [done|]. split_and!; [done..|]. intros iface. by rewrite Hs'.
  - destruct Hok as [Hw (-> & He)]. cbn [start_step]. apply wp_bind, wp_eth_do. intros _ w' Hc.
    assert (Hw' : eth_inv w') by (eapply inv_calls; [exact Hw|exact Hc|by repeat constructor]).
    pose proof Hw' as [_ (m & Hm & _)]. apply wp_bind, wp_gets, wp_ret. rewrite Hm. split; [done|].
    split; [done|by eapply entered_calls].
  - destruct Hok as [Hw (-> & He)]. cbn [start_step]. apply wp_bind. unfold wp at 1, eth_query.
    destruct (eth_GetLinkInfo (e_env w)) as [l e] eqn:El. exists l. eexists. split; [done|]. cbn [fst].
    apply wp_ret, (next_ok []); [done|done|]. exact He.
  - by apply step_insert.
  - by apply step_own.
  - by apply step_shared.
  - destruct Hok as [Hw (H0 & -> & Hs)]. apply wp_bind, wp_modify, wp_ret. split; [done|].
    split; [cbn; by rewrite H0|done].
  - destruct Hok as [Hw [H1 Hs]]. apply wp_bind, wp_modify, wp_ret. split; [done|]. cbn. rewrite H1. split; [lia|done].
  - by apply wp_ret.
Qed.

Lemma request_among_runs p q w x : request_among p q w = Some x ↔ races p q w = false ∧ eth_handle q w = Some x.
Proof.
  unfold request_among, mbind, st_bind, gets. destruct (races p q w); [|by split; [|intros [_ ?] ] ]. by split; [|intros [? _] ].
Qed.

Lemma starting_ok e n p w dump late : starting e n p w dump late → start_ok p w dump late.
Proof.
  induction 1 as [|n p w dump late p' w' Hs IH Hnd Hstep|n p w dump late q r w' Hs IH Hq Hne Hh].
  - split; [apply inv_construct|]. split; [done|]. split; [|done]. split_and!; [done..|]. intros iface.
    unfold told. cbn. by destruct (String.eqb iface "").
  - exact (wp_run _ _ _ _ _ (start_step_keeps _ _ _ _ IH) Hstep).
  - apply request_among_runs in Hh as [_ Hh]. exact (wp_run _ _ _ _ _ (request_keeps _ _ _ _ q IH Hq Hne) Hh).
Qed.

(** *** The steps that are left *)

Definition left_steps (p : start_pc) : nat :=
  match p with
  | SDone => 0
  | SRunning => 1
  | SRegisterNlk => 2
  | SInsert _ rest => 13 + 10 * length rest
  | SDev s _ _ rest => 3 + 10 * length rest + stage s
  | SBegin | SListen | SDump => 0
  end.

(** The dump is known. *)
Definition dumped (p : start_pc) : Prop := match p with SBegin | SListen | SDump => False | _ => True end.

Lemma next_left rest : dumped (next_link rest) ∧ (left_steps (next_link rest) <= 3 + 10 * length rest)%nat.
Proof. destruct rest as [|it rest]; cbn; split; done || lia. Qed.

Lemma step_nearer p w p' w' :
  start_step p w = Some (p', w') →
  match p with
  | SBegin => p' = SListen ∨ p' = SDone
  | SListen => p' = SDump ∨ p' = SRunning
  | SDump => p' = next_link (eth_GetLinkInfo (e_env w)).1
  | SDone => True
  | _ => dumped p' ∧ (left_steps p' < left_steps p)%nat
  end.
Proof.
  destruct p as [| | |it rest|s it own rest| | |]; cbn [start_step]; unfold mbind, st_bind, mret, st_ret.
  - unfold gets, id. destruct (e_running_ w); [intros [= <- _]; by right|].
    destruct (EthernetService.Init w) as [[ [] w1]|]; [| |done]; intros [= <- _]; auto.
  - destruct (eth_do EthNlkInit w) as [[z w1]|]; [|done]. cbn. destruct (ethManagement_ w1); intros [= <- _]; auto.
  - unfold eth_query. destruct (eth_GetLinkInfo (e_env w)) as [l e]. by intros [= <- _].
  - destruct (next_left rest) as [Hd Hl]. destruct (String.eqb _ _); [intros [= <- _]; split; [done|cbn; lia]|].
    destruct (EthernetManagement.find_dev _ w) as [[ [o|] w1]|]; [intros [= <- _]; split; [done|cbn; lia]| |done].
    destruct (EthernetManagement.put_dev _ _ w1) as [[u w2]|]; [|done]. intros [= <- _]; split; [done|cbn; lia].
  - destruct (next_left rest) as [Hd Hl]. destruct (load_dev it own w) as [[d w1]|]; [|done].
    destruct (dev_method s it d w1) as [[ [d' s'] w2]|] eqn:Hm; [|done]. cbn [fst snd].
    destruct (store_dev it own d' w2) as [[own' w3]|]; [|done]. destruct s' as [s'|]; intros [= <- _].
    + pose proof (method_next _ _ _ _ _ _ _ Hm). cbn. split; [done|lia].
    + split; [done|]. cbn. destruct s; cbn; lia.
  - intros [= <- _]. cbn. split; [done|lia].
  - intros [= <- _]. cbn. split; [done|lia].
  - done.
Qed.

Lemma starting_bound e n p w dump late :
  starting e n p w dump late →
  match p with
  | SBegin => n = 0%nat
  | SListen => n = 1%nat
  | SDump => n = 2%nat
  | _ => (n + left_steps p <= 6 + 10 * length dump)%nat
  end.
Proof.
  induction 1 as [|n p w dump late p' w' Hs IH Hnd Hstep|n p w dump late q r w' Hs IH Hq Hne Hh]; [done| |done].
  pose proof (step_nearer _ _ _ _ Hstep) as Hp.
  assert (Hlater : dumped p' → (S n + left_steps p' <= 6 + 10 * length (dump_after p w dump))%nat →
    match p' with
    | SBegin => S n = 0%nat
    | SListen => S n = 1%nat
    | SDump => S n = 2%nat
    | _ => (S n + left_steps p' <= 6 + 10 * length (dump_after p w dump))%nat
    end) by by destruct p'.
  destruct p; try (destruct Hp as [Hd Hl]; apply Hlater; [done|cbn [dump_after]; lia]).
  - destruct Hp as [-> | ->]; [by subst|cbn; lia].
  - destruct Hp as [-> | ->]; [by subst|cbn; lia].
  - subst p' n. destruct (next_left (eth_GetLinkInfo (e_env w)).1) as [Hd Hl].
    apply Hlater; [done|cbn [dump_after]; lia].
  - done.
Qed.

(** *** Running an example: [None] is the next step, [Some q] a request. *)

Definition start_state : Type := nat * start_pc * eworld E * list NlkEventInfo * list NlkEventInfo.

Definition start_act (x : start_state) (a : option eth_request) : option start_state :=
  let '(n, p, w, dump, late) := x in
  match a, p with
  | None, SDone => None
  | None, _ => '(p', w') ← start_step p w ; Some (S n, p', w', dump_after p w dump, late)
  | Some q, _ => '(_, w') ← request_among p q w ; Some (n, p, w', dump, late ++ heard w q)
  end.

Definition start_acts (e : E) (acts : list (option eth_request)) : option start_state :=
  foldl (λ x a, x ≫= λ x, start_act x a) (Some (0%nat, SBegin, EthernetService.construct e, [], [])) acts.

Definition may_act (a : option eth_request) : Prop :=
  match a with Some q => eth_enabled q ∧ q ≠ EOnStart | None => True end.

Lemma start_acts_starting e acts n p w dump late :
  Forall may_act acts → start_acts e acts = Some (n, p, w, dump, late) → starting e n p w dump late.
Proof.
  revert n p w dump late. induction acts as [|a acts IH] using rev_ind; intros n p w dump late Ha Hr.
  { injection Hr as <- <- <- <- <-. constructor. }
  apply Forall_app in Ha as [Ha [Hl _]%Forall_cons]. unfold start_acts in Hr. rewrite foldl_app in Hr.
  fold (start_acts e acts) in Hr. cbn in Hr. destruct (start_acts e acts) as [[[[[n1 p1] w1] dump1] late1]|]; [|done].
  specialize (IH _ _ _ _ _ Ha eq_refl). cbn in Hr. destruct a as [q|].
  - destruct (request_among p1 q w1) as [[r w2]|] eqn:Hh; [|done]. cbn in Hr. injection Hr as <- <- <- <- <-.
    destruct Hl as [Hq Hne]. by eapply starting_request.
  - assert (Hd : p1 = SDone ∨ p1 ≠ SDone) by (destruct p1; auto). destruct Hd as [->|Hnd]; [done|].
    assert (Hs : ∃ p2 w2, start_step p1 w1 = Some (p2, w2) ∧
      (S n1, p2, w2, dump_after p1 w1 dump1, late1) = (n, p, w, dump, late)).
    { destruct p1; try done; destruct (start_step _ w1) as [[p2 w2]|]; try done; cbn in Hr; injection Hr as <- <- <- <- <-; eauto. }
    destruct Hs as (p2 & w2 & Hs & [= <- <- <- <- <-]). by eapply starting_step.
Qed.

End Among.

(** C26. The start of the ethernet service among requests. The statements of
    [OnStart] and [Init], with nothing between them, are [OnStart]. Link messages
    of the kernel, DHCP results, clients and [OnStop] may come at any of them. A
    request is defined exactly when it is in no data race with the start: one
    that uses the table while the loop of [Init] fills it without the mutex is, a
    link message while the handler is registered is, and so is [OnStop] where
    [OnStart] uses the state of the service. As long as no request raced, every
    statement is defined, the start ends within ten statements for each link of
    the dump and six more, and then the table has exactly the interfaces with a
    name of the dump, each with the flags of the last link message for it that
    came after the handler was registered, else of the first entry of the dump.
    (A message that came before is lost, though the listener runs.) *)
Theorem eth_start_interleaved {E} `{EthPlatform E} (e : E) n p w dump late :
  starting e n p w dump late →
  (∀ w', EthernetService.OnStart (EthernetService.construct e) = Some (tt, w') →
     leads SBegin (EthernetService.construct e) SDone w') ∧
  (∃ p' w', start_step p w = Some (p', w')) ∧
  (∀ q, eth_enabled q → q ≠ EOnStart → is_Some (request_among p q w) ↔ races p q w = false) ∧
  (n <= 6 + 10 * length dump)%nat ∧
  (p = SDone → e_running_ w = true → ∀ iface, seen w iface = told dump late iface).
Proof.
  intros Hs. pose proof (starting_ok _ _ _ _ _ _ Hs) as Hok. split_and!.
  - apply start_alone.
  - destruct (start_step_keeps _ _ _ _ Hok) as (p' & w' & Hr & _). eauto.
  - intros q Hq Hne. destruct (request_keeps _ _ _ _ q Hok Hq Hne) as (r & w' & Hr & _). split.
    + by intros [x [Hx _]%request_among_runs].
    + intros Hx. exists (r, w'). by apply request_among_runs.
  - pose proof (starting_bound _ _ _ _ _ _ Hs). destruct p; lia.
  - intros -> Hr. apply Hok, Hr.
Qed.

(** The cable of "eth0" is pulled before the handler is registered. *)
Definition pulled_early : list (option eth_request) :=
  replicate 5 None ++ [Some (ELinkEvent (mkNlkEventInfo "eth0" 1))] ++ replicate 9 None.

(** A client that asks at that moment reads the table while it is changed. *)
Example asked_early : start_acts tt (replicate 5 None ++ [Some (EGetIfaceConfig "eth0")]) = None.
Proof. vm_compute. reflexivity. Qed.

Lemma eth_start_interleaved_witness :
  ∃ w, start_acts tt pulled_early = Some (14%nat, SDone, w, [mkNlkEventInfo "eth0" 65537], []) ∧
    seen w "eth0"%string = Some (true, true).
Proof.
  assert (Hr : ∃ w, start_acts tt pulled_early = Some (14%nat, SDone, w, [mkNlkEventInfo "eth0" 65537], []) ∧
    e_running_ w = true) by (eexists; vm_compute; split; reflexivity).
  destruct Hr as (w & Hr & Hrun). exists w. split; [exact Hr|].
  pose proof (eth_start_interleaved tt _ _ _ _ _ (start_acts_starting tt pulled_early _ _ _ _ _
    ltac:(by repeat constructor) Hr)) as (_ & _ & _ & _ & Ht).
  exact (Ht eq_refl Hrun "eth0"%string).
Defined.
