(* ===== verification/EthernetIpc.v ===== *)
(** * The IPC layer of the ethernet service

    [ethernet_service_stub.cpp] and [ethernet_service_proxy.cpp]: four
    requests, one of which answers with a configuration and one with a list of
    names. *)

From S2P Require Import Prelude Parcel Parcelables Ipc NetmanagerIpc Sends Host Ethernet.
From S2P Require Import EthernetSpec EthernetInv EthernetCorrect EthernetProps.

(** [i_ethernet_service.h] *)
Definition GET_CFG_SUC : Z := 1.
Definition CMD_SET_IF_CFG : Z := 0.
Definition CMD_GET_IF_CFG : Z := 1.
Definition CMD_IS_ACTIVATE : Z := 2.
Definition CMD_GET_ACTIVATE_INTERFACE : Z := 3.
Definition eth_descriptor : string := "OHOS.NetManagerStandard.IEthernetService".

Module EthernetServiceStub.
Section Code.
Context {E : Type} `{EthPlatform E} {P : Type} `{ParcelOps P} `{IpcPlatform P} `{ErrCodes}.

Definition OnSetIfaceConfig : handler P (eworld E) :=
  reading ReadString NETMANAGER_ERR_READ_DATA_FAIL (λ iface,
  reading_any InterfaceConfiguration.Unmarshalling (λ ic,
  match ic with
  | None => finish NETMANAGER_ERR_LOCAL_PTR_NULL
  | Some ic => calling (EthernetService.SetIfaceConfig iface (Some ic)) (λ ret, replying (WriteInt32 ret))
  end)).

Definition OnGetIfaceConfig : handler P (eworld E) :=
  reading ReadString NETMANAGER_ERR_READ_DATA_FAIL (λ iface,
  calling (EthernetService.GetIfaceConfig iface) (λ ic,
  match ic with
  | Some ic => replying (WriteInt32 GET_CFG_SUC ;; InterfaceConfiguration.Marshalling ic)
  | None => replying (WriteInt32 0)
  end)).

Definition OnIsActivate : handler P (eworld E) :=
  reading ReadString NETMANAGER_ERR_READ_DATA_FAIL (λ iface,
  calling (EthernetService.IsActivate iface) (λ ret, replying (WriteInt32 ret))).

Definition OnGetActivateInterfaces : handler P (eworld E) :=
  calling EthernetService.GetActivateInterfaces (λ ifaces,
  replying (WriteInt32 (to_i 32 (Z.of_nat (length ifaces))) ;; write_each WriteString ifaces)).

Definition memberFuncMap_ (code : Z) : option (handler P (eworld E)) :=
  if code =? CMD_SET_IF_CFG then Some OnSetIfaceConfig
  else if code =? CMD_GET_IF_CFG then Some OnGetIfaceConfig
  else if code =? CMD_IS_ACTIVATE then Some OnIsActivate
  else if code =? CMD_GET_ACTIVATE_INTERFACE then Some OnGetActivateInterfaces
  else None.

Definition OnRemoteRequest : Z → handler P (eworld E) := netmanager_request eth_descriptor memberFuncMap_.

End Code.
End EthernetServiceStub.

Module EthernetServiceProxy.
Section Code.
Context {S : Type} {P : Type} `{ParcelOps P} `{ErrCodes}.
Implicit Type r : remote P S.

Definition WriteInterfaceToken : pm P unit := Ipc.WriteInterfaceToken eth_descriptor.

(** The configuration is dereferenced. *)
Definition SetIfaceConfig r (iface : string) (ic : option InterfaceConfiguration.t) : st S Z :=
  writing_or WriteInterfaceToken NETMANAGER_ERR_WRITE_DESCRIPTOR_TOKEN_FAIL
  (writing_or (WriteString iface) NETMANAGER_ERR_WRITE_DESCRIPTOR_TOKEN_FAIL (λ data,
  match ic with
  | None => ub
  | Some ic =>
    writing_or (InterfaceConfiguration.Marshalling ic) NETMANAGER_ERR_WRITE_DESCRIPTOR_TOKEN_FAIL
    (sending_or r NETMANAGER_ERR_IPC_CONNECT_STUB_FAIL CMD_SET_IF_CFG read_int32) data
  end)) parcel_new.

Definition read_config (reply : P) : option InterfaceConfiguration.t :=
  match ReadInt32 reply with
  | (Some res, reply') =>
    if negb (res =? GET_CFG_SUC) then None else (InterfaceConfiguration.Unmarshalling reply').1
  | (None, _) => None
  end.

Definition GetIfaceConfig r (iface : string) : st S (option InterfaceConfiguration.t) :=
  writing_or WriteInterfaceToken None
  (writing_or (WriteString iface) None
  (sending_or r None CMD_GET_IF_CFG read_config)) parcel_new.

Definition IsActivate r (iface : string) : st S Z :=
  writing_or WriteInterfaceToken NETMANAGER_ERR_WRITE_DESCRIPTOR_TOKEN_FAIL
  (writing_or (WriteString iface) NETMANAGER_ERR_WRITE_DESCRIPTOR_TOKEN_FAIL
  (sending_or r NETMANAGER_ERR_IPC_CONNECT_STUB_FAIL CMD_IS_ACTIVATE read_int32)) parcel_new.

(** [reply.ReadString()]: empty when there is none. *)
Fixpoint read_names (n : nat) (reply : P) : list string :=
  match n with
  | O => []
  | Datatypes.S n' =>
    let '(o, reply') := ReadString reply in default EmptyString o :: read_names n' reply'
  end.

(** [int32_t size = reply.ReadInt32(); for (int i = 0; i < size; i++)] *)
Definition read_interfaces (reply : P) : list string :=
  let '(o, reply') := ReadInt32 reply in read_names (Z.to_nat (default 0 o)) reply'.

Definition GetActivateInterfaces r : st S (list string) :=
  writing_or WriteInterfaceToken []
  (sending_or r [] CMD_GET_ACTIVATE_INTERFACE read_interfaces) parcel_new.

End Code.
End EthernetServiceProxy.

(** ** Properties of the IPC layer of the ethernet service

    A call through the proxy and the stub is the call of the service; what
    makes the stub refuse a message keeps it from the service. *)

Section Messages.
Context {P : Type} `{ParcelLaws P} `{!RoomyParcel P}.

(** The requests of a client; the configuration must fit its format. *)
Definition eth_sendable (q : eth_request) : Prop :=
  match q with
  | ESetIfaceConfig _ (Some c) => InterfaceConfiguration.fits c
  | EGetIfaceConfig _ | EIsActivate _ | EGetActivateInterfaces => True
  | _ => False
  end.

Definition eth_body (q : eth_request) : list pitem :=
  match q with
  | ESetIfaceConfig iface (Some c) => PItem KString iface :: InterfaceConfiguration.wire c
  | EGetIfaceConfig iface | EIsActivate iface => [PItem KString iface]
  | _ => []
  end.

Definition eth_message (q : eth_request) : list pitem :=
  PItem KInterfaceToken eth_descriptor :: eth_body q.

Definition eth_command (q : eth_request) : Z :=
  match q with
  | EGetIfaceConfig _ => CMD_GET_IF_CFG
  | EIsActivate _ => CMD_IS_ACTIVATE
  | EGetActivateInterfaces => CMD_GET_ACTIVATE_INTERFACE
  | _ => CMD_SET_IF_CFG
  end.

(** The method of the proxy for a request. *)
Definition eth_proxy_call {S} `{ErrCodes} (r : remote P S) (q : eth_request) : st S eth_reply :=
  match q with
  | ESetIfaceConfig iface ic => c ← EthernetServiceProxy.SetIfaceConfig r iface ic ; mret (ERCode c)
  | EGetIfaceConfig iface => c ← EthernetServiceProxy.GetIfaceConfig r iface ; mret (ERConfig c)
  | EIsActivate iface => c ← EthernetServiceProxy.IsActivate r iface ; mret (ERCode c)
  | EGetActivateInterfaces => l ← EthernetServiceProxy.GetActivateInterfaces r ; mret (ERNames l)
  | _ => mret ERDone
  end.

(** What travels back, and the replies that fit the format. *)
Definition eth_reply_items (r : eth_reply) : list pitem :=
  match r with
  | ERCode c => [PItem KInt32 c]
  | ERConfig None => [PItem KInt32 0]
  | ERConfig (Some c) => PItem KInt32 GET_CFG_SUC :: InterfaceConfiguration.wire c
  | ERNames l => PItem KInt32 (to_i 32 (Z.of_nat (length l))) :: (PItem KString <$> l)
  | ERDone => []
  end.

Definition eth_reply_fits (r : eth_reply) : Prop :=
  match r with
  | ERConfig (Some c) => InterfaceConfiguration.fits c
  | ERNames l => Z.of_nat (length l) < 2 ^ 31
  | _ => True
  end.

Definition reply_of (q : eth_request) (r : eth_reply) : Prop :=
  match q, r with
  | ESetIfaceConfig _ _, ERCode _ | EIsActivate _, ERCode _ | EGetIfaceConfig _, ERConfig _
  | EGetActivateInterfaces, ERNames _ => True
  | _, _ => False
  end.

(** What the proxy makes of a reply. *)
Definition read_reply (q : eth_request) (reply : P) : eth_reply :=
  match q with
  | EGetIfaceConfig _ => ERConfig (EthernetServiceProxy.read_config reply)
  | EGetActivateInterfaces => ERNames (EthernetServiceProxy.read_interfaces reply)
  | _ => ERCode (read_int32 reply)
  end.

Lemma read_names_items l (p : P) :
  unread p (PItem KString <$> l) → EthernetServiceProxy.read_names (length l) p = l.
Proof.
  revert p. induction l as [|x l IH]; intros p Hp; [done|]. rewrite fmap_cons in Hp.
  destruct (unread_read _ _ _ _ Hp) as (p' & Hr & Hp').
  cbn [length EthernetServiceProxy.read_names]. unfold ReadString, Read. rewrite Hr.
  cbn [default from_option id]. f_equal. by apply IH.
Qed.

Lemma read_reply_items q r (p : P) :
  reply_of q r → eth_reply_fits r → unread p (eth_reply_items r) → read_reply q p = r.
Proof.
  intros Hq Hf Hp. destruct q as [| |i c|i|i| |e|i d], r as [|z|[c'|]|l]; try done;
    cbn [read_reply eth_reply_items eth_reply_fits] in *.
  - by rewrite (read_int32_reads _ _ _ Hp).
  - unfold EthernetServiceProxy.read_config, ReadInt32, Read.
    destruct (unread_read _ _ _ _ Hp) as (p' & -> & Hp'). rewrite Z.eqb_refl. cbn [negb].
    destruct (reads_InterfaceConfiguration c' Hf p' []) as (p2 & -> & _); [by rewrite app_nil_r|done].
  - unfold EthernetServiceProxy.read_config, ReadInt32, Read.
    by destruct (unread_read _ _ _ _ Hp) as (p' & -> & Hp').
  - by rewrite (read_int32_reads _ _ _ Hp).
  - unfold EthernetServiceProxy.read_interfaces, ReadInt32, Read.
    destruct (unread_read _ _ _ _ Hp) as (p' & -> & Hp'). cbn [default from_option id].
    rewrite to_i_small; [|done|unfold in_i; lia]. rewrite Nat2Z.id. by rewrite read_names_items.
Qed.

Context {S : Type} `{ErrCodes}.

Lemma eth_proxy_sends q f (Q : eth_reply → S → Prop) s :
  eth_sendable q →
  (∀ p, unread p (eth_message q) →
     wp (f (eth_command q) p parcel_new) (λ x s', x.1 = 0 ∧ Q (read_reply q x.2) s') s) →
  wp (eth_proxy_call (Some f) q) Q s.
Proof.
  intros Hq Hf. assert (Hnew : unread (parcel_new : P) []) by apply unread_new.
  destruct q as [| |i [c|]|i|i| |e|i d]; try done; simpl; apply wp_bind;
    (eapply writing_or_sends; [apply sends_Write|exact Hnew|]; intros p1 Hp1);
    repeat (eapply writing_or_sends; [solve [eauto with netdb]|eassumption|]; intros ? ?);
    apply sending_or_wp;
    (eapply wp_mono; [apply Hf; unfold eth_message; simpl in *; rewrite <- ?app_assoc in *; simpl in *; eassumption|]);
    intros [code r'] s' [Hc HQ]; simpl in Hc, HQ |- *; subst code; by apply wp_ret.
Qed.

End Messages.

Section Stub.
Context {E P : Type} `{EthPlatform E} `{ParcelLaws P} `{!RoomyParcel P} `{IpcPlatform P} `{ErrCodes}.
Implicit Type w : eworld E.

Definition eth_stub : remote P (eworld E) := Some EthernetServiceStub.OnRemoteRequest.

Lemma eth_stub_serves q w r w' p reply :
  eth_sendable q → eth_handle q w = Some (r, w') → unread p (eth_message q) → unread reply [] →
  wp (EthernetServiceStub.OnRemoteRequest (eth_command q) p reply) (λ x w1,
    w1 = w' ∧ x.1 = 0 ∧ reply_of q r ∧ unread x.2 (eth_reply_items r)) w.
Proof.
  intros Hq Hh Hp Hr. unfold eth_message in Hp.
  destruct q as [| |i [c|]|i|i| |e|i d]; try done; cbn [eth_handle] in Hh;
    apply handled in Hh as (a & Hm & ->);
    (eapply netmanager_request_ok; [reflexivity|exact Hp|]; intros p1 Hp1); cbn [eth_body] in Hp1.
  - unfold EthernetServiceStub.OnSetIfaceConfig. read_next.
    eapply (reading_any_reads _ c _ _ _ _ []); [by apply reads_InterfaceConfiguration| |].
    { by rewrite app_nil_r. }
    intros p2 _. eapply calling_runs; [exact Hm|]. eapply replying_wp; [apply sends_Write|done|]. done.
  - unfold EthernetServiceStub.OnGetIfaceConfig. read_next. eapply calling_runs; [exact Hm|].
    destruct a as [c|].
    + eapply replying_wp; [apply sends_bind_cons, sends_InterfaceConfiguration|done|]. done.
    + eapply replying_wp; [apply sends_Write|done|]. done.
  - unfold EthernetServiceStub.OnIsActivate. read_next. eapply calling_runs; [exact Hm|].
    eapply replying_wp; [apply sends_Write|done|]. done.
  - eapply calling_runs; [exact Hm|]. eapply replying_wp; [apply sends_bind_cons, sends_names|done|]. done.
Qed.

End Stub.

(** *** The properties *)

Import Unbounded.

#[local] Instance sample_codes : ErrCodes := {| COMMON_ERR_OFFSET := 2097152 |}.

(** Transparency: a request that a client makes through the proxy of the
    ethernet service, with parcels that do not fail, has exactly the effect and
    the answer of the call of the service, a configuration and a list of names
    included. *)
Theorem eth_ipc_transparent {E P} `{EthPlatform E} `{ParcelLaws P} `{!RoomyParcel P} `{IpcPlatform P}
    `{ErrCodes} q (w : eworld E) r w' :
  eth_sendable q → eth_reply_fits r → eth_handle q w = Some (r, w') →
  eth_proxy_call (P:=P) eth_stub q w = Some (r, w').
Proof.
  intros Hq Hf Hh.
  assert (Hwp : wp (eth_proxy_call (P:=P) eth_stub q) (λ r1 w1, r1 = r ∧ w1 = w') w).
  { apply eth_proxy_sends; [done|]. intros p Hp.
    eapply wp_mono; [apply (eth_stub_serves q w r w'); [done..|apply unread_new]|].
    intros x w1 (-> & Hx & Hr & Hu). split; [done|]. split; [|done]. by apply read_reply_items. }
  destruct Hwp as (r1 & w1 & -> & -> & ->). done.
Qed.

Lemma eth_ipc_transparent_witness :
  eth_proxy_call (P:=buffer) eth_stub (EGetIfaceConfig "eth0") (eth_after with_dhcp)
  = Some (ERConfig (Some dhcp_config), eth_after with_dhcp).
Proof.
  apply (eth_ipc_transparent (P:=buffer) (EGetIfaceConfig "eth0") (eth_after with_dhcp)).
  - exact I.
  - vm_compute. repeat split; discriminate.
  - vm_compute. reflexivity.
Defined.
