(* ===== verification/Netlink.v ===== *)
(** * Link messages of the kernel

    The parsing half of [netLink_rtnl.cpp]. A message buffer is the list of its
    bytes; a read outside of it is undefined behaviour. The macros of
    <linux/netlink.h> and <linux/rtnetlink.h> are written out with the
    conversions of C: [len] is an [int32_t], the lengths in the messages are
    unsigned. *)

From Stdlib Require Import Ascii.
From S2P Require Import Prelude Parcel Parcelables Host Ethernet.

(** ** Bytes in memory *)

Definition u8_at (buf : list Z) (off : nat) : option Z := le_value <$> bytes_at buf off 1.
Definition u16_at (buf : list Z) (off : nat) : option Z := le_value <$> bytes_at buf off 2.
Definition u32_at (buf : list Z) (off : nat) : option Z := le_value <$> bytes_at buf off 4.

(** [std::string] of a C string: the characters before the first NUL. *)
Fixpoint string_of_bytes (bs : list Z) : option string :=
  match bs with
  | [] => None
  | b :: bs' =>
    if b =? 0 then Some EmptyString
    else String (ascii_of_N (Z.to_N b)) <$> string_of_bytes bs'
  end.

Definition string_at (buf : list Z) (off : nat) : option string := string_of_bytes (drop off buf).

(** ** The headers of the kernel *)

(** [IFLA_MAX] grows with the kernel. *)
Class NetlinkHeaders := { IFLA_MAX : Z }.

Definition RTM_NEWLINK : Z := 16.
Definition RTM_DELLINK : Z := 17.
Definition RTM_GETLINK : Z := 18.
Definition IFLA_IFNAME : Z := 3.
Definition ARPHRD_ETHER : Z := 1.

(** [sizeof] of [struct nlmsghdr], [struct ifinfomsg] and [struct rtattr]. *)
Definition nlmsghdr_size : Z := 16.
Definition ifinfomsg_size : Z := 16.
Definition rtattr_size : Z := 4.

(** [NLMSG_ALIGN] and [RTA_ALIGN]: (x + 3) & ~3 in unsigned arithmetic. *)
Definition ALIGN4 (x : Z) : Z := Z.land (to_u 32 (x + 3)) (to_u 32 (Z.lnot 3)).

Definition NLMSG_LENGTH (x : Z) : Z := x + ALIGN4 nlmsghdr_size.
Definition NLMSG_SPACE (x : Z) : Z := ALIGN4 (NLMSG_LENGTH x).

(** [len -= ALIGN(l)] for a signed [len]. *)
Definition len_minus (len l : Z) : Z := to_i 32 (to_u 32 len - ALIGN4 l).

(** ** netLink_rtnl.cpp: ProcessReadMsg, ProcessLinkEventMsg *)

Module NetLinkRtnl.
Section Read.
Context `{NetlinkHeaders}.
Implicit Type buf : list Z.

(** The fields of [struct nlmsghdr]; what is read is an [option], with [None]
    for a read outside of the buffer. *)
Definition nlmsg_len buf (nh : nat) : option Z := u32_at buf nh.
Definition nlmsg_type buf (nh : nat) : option Z := u16_at buf (nh + 4).

Definition NLMSG_DATA (nh : nat) : nat := nh + Z.to_nat (NLMSG_LENGTH 0).

Definition NLMSG_OK buf (nh : nat) (len : Z) : option bool :=
  if nlmsghdr_size <=? len then
    l ← nlmsg_len buf nh ; mret ((nlmsghdr_size <=? l) && (l <=? to_u 32 len))
  else mret false.

(** The fields of [struct ifinfomsg] and [struct rtattr]. *)
Definition ifi_type buf (ifInfo : nat) : option Z := u16_at buf (ifInfo + 2).
Definition ifi_flags buf (ifInfo : nat) : option Z := u32_at buf (ifInfo + 8).
Definition rta_len buf (attr : nat) : option Z := u16_at buf attr.
Definition rta_type buf (attr : nat) : option Z := u16_at buf (attr + 2).

Definition IFLA_RTA (ifInfo : nat) : nat := ifInfo + Z.to_nat (ALIGN4 ifinfomsg_size).
Definition RTA_DATA (attr : nat) : nat := attr + Z.to_nat (ALIGN4 rtattr_size).

Definition RTA_OK buf (attr : nat) (len : Z) : option bool :=
  if rtattr_size <=? len then
    l ← rta_len buf attr ; mret ((rtattr_size <=? l) && (l <=? len))
  else mret false.

(** [for (; RTA_OK(attr, len); attr = RTA_NEXT(attr, len)) if (attr->rta_type
    <= IFLA_MAX) tb[attr->rta_type] = attr;] Every round takes four bytes at
    least. *)
Fixpoint rta_loop (fuel : nat) buf (attr : nat) (len : Z) (tb : gmap Z nat) : option (gmap Z nat) :=
  ok ← RTA_OK buf attr len ;
  if negb ok then mret tb
  else match fuel with
       | O => None
       | S fuel' =>
         type ← rta_type buf attr ;
         let tb := if type <=? IFLA_MAX then <[type := attr]> tb else tb in
         l ← rta_len buf attr ;
         rta_loop fuel' buf (attr + Z.to_nat (ALIGN4 l)) (len_minus len l) tb
       end.

(** What [ProcessIfInfoMsg] and [ProcessLinkMsg] read from a message: nothing
    for an interface that is not ethernet. *)
Definition read_link buf (nh : nat) : option (option NlkEventInfo) :=
  let ifInfo := NLMSG_DATA nh in
  type ← ifi_type buf ifInfo ;
  if negb (type =? ARPHRD_ETHER) then mret None
  else
    l ← nlmsg_len buf nh ;
    let len := to_i 32 (l - NLMSG_SPACE ifinfomsg_size) in
    tb ← rta_loop (Z.to_nat len) buf (IFLA_RTA ifInfo) len ∅ ;
    iface ← (match tb !! IFLA_IFNAME with
             | Some attr => string_at buf (RTA_DATA attr)
             | None => mret EmptyString
             end) ;
    flags ← ifi_flags buf ifInfo ;
    mret (Some (mkNlkEventInfo iface flags)).

(** The default [NlkEventInfo] for what is not ethernet. *)
Definition ProcessLinkMsg buf (nh : nat) : option NlkEventInfo :=
  o ← read_link buf nh ; mret (default (mkNlkEventInfo EmptyString 0) o).

End Read.

Section Messages.
Context {S : Type}.

(** [for (nh = ...; NLMSG_OK(nh, len); nh = NLMSG_NEXT(nh, len)) body]. Every
    round takes sixteen bytes at least. *)
Fixpoint nlmsg_loop {A} (fuel : nat) (body : nat → A → st S A) (buf : list Z) (nh : nat) (len : Z) (a : A)
    : st S A :=
  ok ← deref (NLMSG_OK buf nh len) ;
  if negb ok then mret a
  else match fuel with
       | O => ub
       | Datatypes.S fuel' =>
         a ← body nh a ;
         l ← deref (nlmsg_len buf nh) ;
         nlmsg_loop fuel' body buf (nh + Z.to_nat (ALIGN4 l)) (len_minus len l) a
       end.

(** [switch (nh->nlmsg_type)] *)
Definition on_link {A} (buf : list Z) (link : nat → A → st S A) (nh : nat) (a : A) : st S A :=
  type ← deref (nlmsg_type buf nh) ;
  if (type =? RTM_NEWLINK) || (type =? RTM_DELLINK) then link nh a else mret a.

End Messages.

Section Code.
Context `{NetlinkHeaders}.

Definition ProcessReadMsg {S} (buf : list Z) (len : Z) (infos : list NlkEventInfo)
    : st S (list NlkEventInfo) :=
  nlmsg_loop (Z.to_nat len) (on_link buf (λ nh infos,
    info ← deref (ProcessLinkMsg buf nh) ; mret (infos ++ [info]))) buf 0 len infos.

Context {E : Type} `{EthPlatform E}.

Definition ProcessIfInfoMsg (buf : list Z) (nh : nat) : st (eworld E) unit :=
  o ← deref (read_link buf nh) ;
  match o with None => mret tt | Some info => ProcessIfInfo info end.

Definition ProcessLinkEventMsg (buf : list Z) (len : Z) : st (eworld E) unit :=
  nlmsg_loop (Z.to_nat len) (on_link buf (λ nh _, ProcessIfInfoMsg buf nh)) buf 0 len tt.

End Code.
End NetLinkRtnl.
