(* ===== verification/NetlinkSpec.v ===== *)
(** * What a buffer of link messages means

    The readers of [Netlink] never leave a buffer that has room after the
    message; messages in the format of the kernel are read back as the links
    that they describe. *)

From Stdlib Require Import Ascii.
From S2P Require Import Prelude Parcel Parcelables Host CppStrings Ethernet Netlink.
Import NetLinkRtnl.

(** ** Numbers in memory *)

(** A number inside the buffer can be read, and fits its width. *)
Lemma le_at_some buf off n :
  bytes buf → (off + n ≤ length buf)%nat →
  ∃ v, le_value <$> bytes_at buf off n = Some v ∧ in_u (8 * Z.of_nat n) v.
Proof.
  intros Hb Hn. rewrite bytes_at_some by done. eexists. split; [done|].
  assert (Hl : length (take n (drop off buf)) = n) by (rewrite length_take, length_drop; lia).
  rewrite <- Hl at 1. apply le_value_range. by apply Forall_take, Forall_drop.
Qed.

(** A field that was written is read back. *)
Lemma le_at_written pre n x post off :
  off = length pre → in_u (8 * Z.of_nat n) x →
  le_value <$> bytes_at (pre ++ le_bytes n x ++ post) off n = Some x.
Proof.
  intros -> Hx. rewrite bytes_at_some by (rewrite !length_app, le_bytes_length; lia).
  rewrite drop_app_length, take_app_le by (by rewrite le_bytes_length).
  rewrite take_ge by (by rewrite le_bytes_length). simpl. by rewrite le_value_bytes.
Qed.

(** ** Alignment *)

Lemma ALIGN4_eq x : 0 <= x <= 2 ^ 32 - 4 → ALIGN4 x = 4 * ((x + 3) / 4).
Proof.
  intros Hx. unfold ALIGN4. rewrite to_u_small by (unfold in_u; lia).
  assert (Hm : to_u 32 (Z.lnot 3) = Z.shiftl (Z.ones 30) 2) by reflexivity. rewrite Hm.
  assert (Hl : Z.land (x + 3) (Z.shiftl (Z.ones 30) 2) = Z.shiftl (Z.land (Z.shiftr (x + 3) 2) (Z.ones 30)) 2).
  { apply Z.bits_inj'. intros i Hi. rewrite Z.land_spec, !Z.shiftl_spec, Z.land_spec by done.
    destruct (Z.ltb_spec i 2) as [Hi2|Hi2].
    - rewrite !(Z.testbit_neg_r _ (i - 2)) by lia. by rewrite andb_false_r.
    - rewrite Z.shiftr_spec by lia. do 2 f_equal. lia. }
  rewrite Hl, Z.land_ones by done. rewrite Z.shiftl_mul_pow2, Z.shiftr_div_pow2 by done.
  change (2 ^ 2) with 4. rewrite Z.mod_small; [lia|].
  split; [apply Z.div_pos; lia|]. apply Z.div_lt_upper_bound; lia.
Qed.

Lemma ALIGN4_bounds x : 0 <= x <= 2 ^ 32 - 4 → x <= ALIGN4 x <= x + 3 ∧ (0 < x → 4 <= ALIGN4 x).
Proof.
  intros Hx. rewrite ALIGN4_eq by done. pose proof (Z.div_mod (x + 3) 4 ltac:(done)) as Hd.
  pose proof (Z.mod_pos_bound (x + 3) 4 ltac:(done)). repeat split; lia.
Qed.

Lemma ALIGN4_multiple x k : x = 4 * k → 0 <= x <= 2 ^ 32 - 4 → ALIGN4 x = x.
Proof.
  intros -> Hx. rewrite ALIGN4_eq by done. replace (4 * k + 3) with (3 + k * 4) by lia.
  rewrite Z.div_add by done. change (3 / 4) with 0. lia.
Qed.

Lemma len_minus_eq len l :
  0 <= len < 2 ^ 31 → 0 < l <= len → len_minus len l = len - ALIGN4 l.
Proof.
  intros Hlen Hl. pose proof (ALIGN4_bounds l). unfold len_minus.
  rewrite to_u_small by (unfold in_u; lia). apply to_i_small; [done|]. unfold in_i. lia.
Qed.

(** ** Reading stays inside

    [room buf stop]: after the [stop] bytes that were received the buffer has
    room for the rest of a header, and a NUL. *)

Definition room (buf : list Z) (stop : Z) : Prop :=
  stop + 12 <= Z.of_nat (length buf) < 2 ^ 31 ∧
  ∃ z, stop <= Z.of_nat z ∧ buf !! z = Some 0.

Lemma string_at_some buf off z :
  (off ≤ z)%nat → buf !! z = Some 0 → is_Some (string_at buf off).
Proof.
  intros Hz Hb. unfold string_at.
  assert (Hd : drop off buf !! (z - off)%nat = Some 0) by (rewrite lookup_drop; rewrite <- Hb; f_equal; lia).
  revert Hd. generalize (drop off buf), (z - off)%nat. clear. intros bs. induction bs as [|b bs IH]; intros k Hk; [done|].
  simpl. destruct (Z.eqb_spec b 0) as [|Hb]; [eauto|]. destruct k as [|k]; [by injection Hk|].
  destruct (IH k Hk) as [s ->]. eauto.
Qed.

Section Inside.
Context `{NetlinkHeaders}.
Variables (buf : list Z) (stop : Z).
Hypotheses (Hbytes : bytes buf) (Hroom : room buf stop).

Lemma u16_some off : Z.of_nat off + 2 <= stop + 12 → ∃ v, u16_at buf off = Some v ∧ in_u 16 v.
Proof. intros Hoff. destruct Hroom as [Hl _]. apply (le_at_some buf off 2); [done|]. lia. Qed.

Lemma u32_some off : Z.of_nat off + 4 <= stop + 12 → ∃ v, u32_at buf off = Some v ∧ in_u 32 v.
Proof. intros Hoff. destruct Hroom as [Hl _]. apply (le_at_some buf off 4); [done|]. lia. Qed.

(** The attributes of a message that ends at [last]. *)
Definition inside (tb : gmap Z nat) : Prop := ∀ t a, tb !! t = Some a → Z.of_nat a + 4 <= stop.

Lemma rta_loop_inside fuel attr len tb :
  len <= Z.of_nat fuel → Z.of_nat attr + len <= stop → - 2 ^ 31 <= len → inside tb →
  ∃ tb', rta_loop fuel buf attr len tb = Some tb' ∧ inside tb'.
Proof.
  destruct Hroom as [Hlen _].
  revert attr len tb. induction fuel as [|fuel IH]; intros attr len tb Hf Hs Hlow Htb; cbn [rta_loop]; unfold RTA_OK, rtattr_size.
  - destruct (Z.leb_spec 4 len); [lia|]. exists tb. by split.
  - destruct (Z.leb_spec 4 len) as [H4|H4]; [|by exists tb].
    destruct (u16_some attr) as (l & Hl & Hlr); [lia|]. unfold rta_len. rewrite Hl. simpl.
    destruct (Z.leb_spec 4 l) as [Hl4|_]; [|by exists tb].
    destruct (Z.leb_spec l len) as [Hll|_]; [|by exists tb]. simpl.
    destruct (u16_some (attr + 2)) as (t & Ht & _); [lia|]. unfold rta_type. rewrite Ht. simpl.
    rewrite len_minus_eq by lia. pose proof (ALIGN4_bounds l) as Ha.
    apply IH; [lia|lia|lia|]. intros t' a'. destruct (t <=? IFLA_MAX); [|apply Htb].
    rewrite lookup_insert_Some. intros [[_ <-]|[_ Ha']]; [lia|by apply (Htb t')].
Qed.

Lemma read_link_inside nh l :
  nlmsg_len buf nh = Some l → 16 <= l → Z.of_nat nh + l <= stop → is_Some (read_link buf nh).
Proof.
  intros Hl Hl16 Hs. pose proof Hroom as [Hlen (z & Hz & Hnul)].
  unfold read_link, NLMSG_DATA, ifi_type, ifi_flags, IFLA_RTA. change (Z.to_nat (NLMSG_LENGTH 0)) with 16%nat.
  destruct (u16_some (nh + 16 + 2)) as (t & Ht & _); [lia|]. rewrite Ht. simpl.
  destruct (t =? ARPHRD_ETHER); [|by eexists]. simpl. rewrite Hl. simpl.
  change (NLMSG_SPACE ifinfomsg_size) with 32. change (Z.to_nat (ALIGN4 ifinfomsg_size)) with 16%nat.
  rewrite to_i_small by (unfold in_i; lia).
  destruct (rta_loop_inside (Z.to_nat (l - 32)) (nh + 16 + 16) (l - 32) ∅) as (tb & -> & Htb);
    [lia|lia|lia|by intros t' a'; rewrite lookup_empty|]. simpl.
  destruct (u32_some (nh + 16 + 8)) as (fl & Hfl & _); [lia|]. rewrite Hfl.
  destruct (tb !! IFLA_IFNAME) as [attr|] eqn:Htb'; [|by eexists].
  apply Htb in Htb'. unfold RTA_DATA. change (Z.to_nat (ALIGN4 rtattr_size)) with 4%nat.
  destruct (string_at_some buf (attr + 4) z) as [s ->]; [lia|done|]. by eexists.
Qed.

(** The loop over messages: a body that handles every message inside. *)
Lemma nlmsg_loop_wp {S A} (body : nat → A → st S A) (I : A → S → Prop) fuel nh len a s :
  (∀ nh l a s, nlmsg_len buf nh = Some l → 16 <= l → Z.of_nat nh + l <= stop → I a s →
     wp (body nh a) I s) →
  len <= Z.of_nat fuel → Z.of_nat nh + len <= stop → - 2 ^ 31 <= len → I a s →
  wp (nlmsg_loop fuel body buf nh len a) I s.
Proof.
  intros Hbody. destruct Hroom as [Hlen _].
  revert nh len a s. induction fuel as [|fuel IH]; intros nh len a s Hf Hs Hlow HI; cbn [nlmsg_loop];
    unfold NLMSG_OK, nlmsghdr_size.
  - destruct (Z.leb_spec 16 len); [lia|]. by apply wp_bind, wp_ret, wp_ret.
  - destruct (Z.leb_spec 16 len) as [H16|H16]; [|by apply wp_bind, wp_ret, wp_ret].
    destruct (u32_some nh) as (l & Hl & Hlr); [lia|].
    assert (Hnl : nlmsg_len buf nh = Some l) by exact Hl. rewrite Hnl.
    apply wp_bind, wp_ret. rewrite to_u_small by (unfold in_u; lia).
    destruct (Z.leb_spec 16 l) as [Hl16|_]; [|by apply wp_ret].
    destruct (Z.leb_spec l len) as [Hll|_]; [|by apply wp_ret]. simpl.
    apply wp_bind. eapply wp_mono; [apply (Hbody nh l); [done|lia|lia|done]|]. intros a' s' HI'.
    apply wp_bind, wp_ret. rewrite len_minus_eq by lia. pose proof (ALIGN4_bounds l).
    apply IH; [lia|lia|lia|done].
Qed.

(** The message type of a message inside, and the bodies. *)
Lemma on_link_wp {S A} (link : nat → A → st S A) (I : A → S → Prop) nh l a s :
  nlmsg_len buf nh = Some l → 16 <= l → Z.of_nat nh + l <= stop → I a s →
  wp (link nh a) I s → wp (on_link buf link nh a) I s.
Proof.
  intros Hl Hl16 Hs HI Hlink. destruct (u16_some (nh + 4)) as (t & Ht & _); [lia|].
  unfold on_link, nlmsg_type. rewrite Ht. apply wp_bind, wp_ret. by destruct (_ || _); [|apply wp_ret].
Qed.

Lemma ProcessReadMsg_inside {S} len infos (s : S) :
  len <= stop → - 2 ^ 31 <= len → wp (ProcessReadMsg buf len infos) (λ _ s', s' = s) s.
Proof.
  intros Hs Hlow. apply (nlmsg_loop_wp _ (λ _ s', s' = s)); [|lia|lia|lia|done].
  intros nh l a s' Hl Hl16 Hnh ->. apply (on_link_wp _ (λ _ s', s' = s) nh l); [done..|].
  destruct (read_link_inside nh l Hl Hl16 Hnh) as [o Ho]. unfold ProcessLinkMsg. rewrite Ho.
  by apply wp_bind, wp_ret, wp_ret.
Qed.

End Inside.

(** ** The format of the kernel *)

Definition pad4 (bs : list Z) : list Z :=
  bs ++ replicate (Z.to_nat (ALIGN4 (Z.of_nat (length bs)) - Z.of_nat (length bs))) 0.

(** A [struct rtattr] with its payload. *)
Record attribute := mkAttribute { at_type : Z; at_payload : list Z }.

Definition attr_len (x : attribute) : Z := 4 + Z.of_nat (length (at_payload x)).

Definition encode_attr (x : attribute) : list Z :=
  pad4 (le_bytes 2 (attr_len x) ++ le_bytes 2 (at_type x) ++ at_payload x).

(** A message about a link. *)
Record link := mkLink {
  lk_family : Z;
  lk_type : Z;
  lk_index : Z;
  lk_flags : Z;
  lk_change : Z;
  lk_attrs : list attribute;
}.

Definition encode_link (x : link) : list Z :=
  [lk_family x; 0] ++ le_bytes 2 (lk_type x) ++ le_bytes 4 (lk_index x) ++ le_bytes 4 (lk_flags x) ++
  le_bytes 4 (lk_change x) ++ concat (encode_attr <$> lk_attrs x).

(** A netlink message: its type, the rest of its header, and what follows. *)
Record message := mkMessage {
  ms_type : Z;
  ms_flags : Z;
  ms_seq : Z;
  ms_pid : Z;
  ms_body : list Z;
}.

Definition message_len (x : message) : Z := 16 + Z.of_nat (length (ms_body x)).

Definition encode_message (x : message) : list Z :=
  pad4 (le_bytes 4 (message_len x) ++ le_bytes 2 (ms_type x) ++ le_bytes 2 (ms_flags x) ++
    le_bytes 4 (ms_seq x) ++ le_bytes 4 (ms_pid x) ++ ms_body x).

Definition encode_all (ms : list message) : list Z := concat (encode_message <$> ms).

(** What is well formed: the fields fit, a name has a NUL, and the body of a
    message about a link describes one. *)
Definition attr_ok (x : attribute) : Prop :=
  in_u 16 (at_type x) ∧ attr_len x < 2 ^ 16 ∧ bytes (at_payload x) ∧
  (at_type x = IFLA_IFNAME → 0 ∈ at_payload x).

Definition link_ok (x : link) : Prop :=
  in_u 8 (lk_family x) ∧ in_u 16 (lk_type x) ∧ in_u 32 (lk_index x) ∧ in_u 32 (lk_flags x) ∧
  in_u 32 (lk_change x) ∧ Forall attr_ok (lk_attrs x).

Definition link_message (t : Z) : bool := (t =? RTM_NEWLINK) || (t =? RTM_DELLINK).

Definition message_ok (x : message) : Prop :=
  in_u 16 (ms_type x) ∧ in_u 16 (ms_flags x) ∧ in_u 32 (ms_seq x) ∧ in_u 32 (ms_pid x) ∧
  bytes (ms_body x).

(** ** The links of the messages *)

(** The name is the text of the last attribute of that type. *)
Definition link_name (attrs : list attribute) : string :=
  default EmptyString (x ← last (filter (λ x, at_type x = IFLA_IFNAME) attrs) ; string_of_bytes (at_payload x)).

Definition link_info (x : link) : option NlkEventInfo :=
  if decide (lk_type x = ARPHRD_ETHER) then Some (mkNlkEventInfo (link_name (lk_attrs x)) (lk_flags x))
  else None.

(** Messages of the kernel: each is about a link, or of another type. *)
Inductive item := ILink (deleted : bool) (flags seq pid : Z) (x : link) | IOther (x : message).

Definition item_message (i : item) : message :=
  match i with
  | ILink deleted flags seq pid x =>
    mkMessage (if deleted then RTM_DELLINK else RTM_NEWLINK) flags seq pid (encode_link x)
  | IOther x => x
  end.

Definition item_ok (i : item) : Prop :=
  message_ok (item_message i) ∧
  match i with ILink _ _ _ _ x => link_ok x | IOther x => link_message (ms_type x) = false end.

Definition item_links (i : item) : list (option NlkEventInfo) :=
  match i with ILink _ _ _ _ x => [link_info x] | IOther _ => [] end.

(** ** Reading what was written *)

Lemma pad4_length bs : Z.of_nat (length bs) <= 2 ^ 32 - 4 → Z.of_nat (length (pad4 bs)) = ALIGN4 (Z.of_nat (length bs)).
Proof.
  intros Hl. pose proof (ALIGN4_bounds (Z.of_nat (length bs))). unfold pad4.
  rewrite length_app, length_replicate. lia.
Qed.

Lemma encode_attr_length x :
  attr_ok x → Z.of_nat (length (encode_attr x)) = ALIGN4 (attr_len x).
Proof.
  intros (_ & Hl & _). unfold encode_attr. rewrite pad4_length;
    rewrite !length_app, !le_bytes_length; unfold attr_len in *; [f_equal|]; lia.
Qed.

Lemma encode_message_length x :
  message_len x <= 2 ^ 32 - 4 → Z.of_nat (length (encode_message x)) = ALIGN4 (message_len x).
Proof.
  intros Hl. unfold encode_message. rewrite pad4_length;
    rewrite !length_app, !le_bytes_length; unfold message_len in *; [f_equal|]; lia.
Qed.

(** The text of a payload with a NUL does not depend on what follows. *)
Lemma string_of_bytes_app bs post s : string_of_bytes bs = Some s → string_of_bytes (bs ++ post) = Some s.
Proof.
  revert s. induction bs as [|b bs IH]; intros s; [done|]. simpl. destruct (b =? 0); [done|].
  destruct (string_of_bytes bs) as [t|]; [|done]. by rewrite (IH t eq_refl).
Qed.

Lemma string_of_bytes_nul bs : 0 ∈ bs → is_Some (string_of_bytes bs).
Proof.
  induction bs as [|b bs IH]; intros Hin; [by apply elem_of_nil in Hin|]. simpl.
  destruct (Z.eqb_spec b 0) as [|Hb]; [by eexists|]. apply elem_of_cons in Hin as [<-|Hin]; [done|].
  destruct (IH Hin) as [s ->]. by eexists.
Qed.

(** A field inside a longer buffer. *)
Lemma le_at_in pre fs n x post off :
  off = (length pre + length fs)%nat → in_u (8 * Z.of_nat n) x →
  le_value <$> bytes_at (pre ++ (fs ++ le_bytes n x ++ post)) off n = Some x.
Proof. intros -> Hx. rewrite app_assoc. apply le_at_written; [by rewrite length_app|done]. Qed.

(** The attribute [x] starts at [a] in [buf]. *)
Definition payload_at (buf : list Z) (a : nat) (x : attribute) : Prop :=
  ∃ post, drop (a + 4) buf = at_payload x ++ post.

Definition name_entry (buf : list Z) (tb tb' : gmap Z nat) (attrs : list attribute) : Prop :=
  match last (filter (λ x, at_type x = IFLA_IFNAME) attrs) with
  | Some x => ∃ a, tb' !! IFLA_IFNAME = Some a ∧ payload_at buf a x
  | None => tb' !! IFLA_IFNAME = tb !! IFLA_IFNAME
  end.

Section Formats.
Context `{NetlinkHeaders}.

Lemma encode_attr_fields pre x post :
  attr_ok x →
  let buf := pre ++ encode_attr x ++ post in
  rta_len buf (length pre) = Some (attr_len x) ∧ rta_type buf (length pre) = Some (at_type x) ∧
  payload_at buf (length pre) x.
Proof.
  intros (Ht & Hl & _) buf. unfold buf, encode_attr, pad4. rewrite <- !app_assoc.
  assert (Hlen : in_u 16 (attr_len x)) by (unfold in_u, attr_len in *; lia).
  split; [by apply (le_at_written pre 2)|]. split.
  - apply (le_at_in pre (le_bytes 2 (attr_len x)) 2); [by rewrite le_bytes_length|done].
  - eexists. unfold buf. rewrite drop_app_add. simpl. reflexivity.
Qed.

Lemma rta_loop_reads attrs pre post tb fuel len buf :
  IFLA_IFNAME <= IFLA_MAX → Forall attr_ok attrs →
  buf = pre ++ concat (encode_attr <$> attrs) ++ post → Z.of_nat (length buf) < 2 ^ 31 →
  len = Z.of_nat (length (concat (encode_attr <$> attrs))) → len <= Z.of_nat fuel →
  ∃ tb', rta_loop fuel buf (length pre) len tb = Some tb' ∧ name_entry buf tb tb' attrs.
Proof.
  intros Hmax Hok. revert pre tb fuel len.
  induction Hok as [|x attrs Hx _ IH]; intros pre tb fuel len Hb Hbuf -> Hf.
  { exists tb. split; [by destruct fuel|done]. }
  rewrite fmap_cons in Hb, Hf |- *. cbn [concat] in *. rewrite <- app_assoc in Hb. rewrite length_app in Hf |- *.
  pose proof (encode_attr_length x Hx) as Hxl. pose proof Hx as (Ht & Hl & _).
  assert (Hl4 : 4 <= attr_len x) by (unfold attr_len; lia).
  pose proof (ALIGN4_bounds (attr_len x)) as Ha.
  assert (Hbl : length buf = (length pre + (length (encode_attr x) +
    (length (concat (encode_attr <$> attrs)) + length post)))%nat) by (by rewrite Hb, !length_app).
  destruct (encode_attr_fields pre x (concat (encode_attr <$> attrs) ++ post) Hx) as (Hrl & Hrt & Hp).
  rewrite <- Hb in Hrl, Hrt, Hp. destruct fuel as [|fuel]; [lia|].
  remember (Z.of_nat (length (encode_attr x) + length (concat (encode_attr <$> attrs)))) as len eqn:Elen.
  cbn [rta_loop]. unfold RTA_OK, rtattr_size. rewrite (proj2 (Z.leb_le 4 _)) by lia. rewrite Hrl. simpl.
  rewrite (proj2 (Z.leb_le 4 (attr_len x))), (proj2 (Z.leb_le (attr_len x) _)) by lia. simpl.
  rewrite Hrt. simpl. rewrite len_minus_eq by lia.
  set (tb1 := if at_type x <=? IFLA_MAX then <[at_type x:=length pre]> tb else tb).
  destruct (IH (pre ++ encode_attr x) tb1 fuel (Z.of_nat (length (concat (encode_attr <$> attrs)))))
    as (tb' & R & Hn); [by rewrite Hb, <- app_assoc|done|done|lia|].
  rewrite length_app in R. exists tb'. split.
  - rewrite <- R. f_equal; lia.
  - unfold name_entry in *. rewrite filter_cons. destruct (decide (at_type x = IFLA_IFNAME)) as [Et|Et].
    + rewrite last_cons. destruct (last _); [done|]. exists (length pre). split; [|done].
      rewrite Hn. unfold tb1. rewrite Et, (proj2 (Z.leb_le _ _)) by done. apply lookup_insert_eq.
    + destruct (last _); [done|]. rewrite Hn. unfold tb1. destruct (_ <=? _); [|done].
      by apply lookup_insert_ne.
Qed.

(** The header of a message in a buffer. *)
Definition message_head (x : message) : list Z :=
  le_bytes 4 (message_len x) ++ le_bytes 2 (ms_type x) ++ le_bytes 2 (ms_flags x) ++
  le_bytes 4 (ms_seq x) ++ le_bytes 4 (ms_pid x).

Lemma message_in pre x post :
  let buf := pre ++ encode_message x ++ post in
  Z.of_nat (length buf) < 2 ^ 31 →
  message_len x <= Z.of_nat (length (encode_message x)) ∧
  nlmsg_len buf (length pre) = Some (message_len x) ∧
  (in_u 16 (ms_type x) → nlmsg_type buf (length pre) = Some (ms_type x)) ∧
  ∃ rest, buf = (pre ++ message_head x) ++ ms_body x ++ rest.
Proof.
  intros buf Hbuf. unfold buf in *. rewrite !length_app in Hbuf.
  assert (He : encode_message x = message_head x ++ ms_body x ++
    replicate (Z.to_nat (ALIGN4 (message_len x) - message_len x)) 0).
  { unfold encode_message, pad4, message_head. rewrite <- !app_assoc. do 7 f_equal.
    rewrite !length_app, !le_bytes_length. unfold message_len. do 2 f_equal; [f_equal|]; lia. }
  assert (Hl : message_len x <= Z.of_nat (length (encode_message x))).
  { rewrite He, !length_app. unfold message_head, message_len. rewrite !length_app, !le_bytes_length. lia. }
  assert (Hm : in_u 32 (message_len x)) by (unfold in_u, message_len in *; lia).
  rewrite He. unfold message_head. rewrite <- !app_assoc.
  split; [rewrite He in Hl; unfold message_head in Hl; by rewrite <- !app_assoc in Hl|].
  split; [by apply (le_at_written pre 4)|]. split.
  - intros Ht. apply (le_at_in pre (le_bytes 4 (message_len x)) 2); [by rewrite le_bytes_length|done].
  - eexists. by rewrite <- !app_assoc.
Qed.

Lemma name_entry_reads buf tb attrs :
  Forall attr_ok attrs → name_entry buf ∅ tb attrs →
  match tb !! IFLA_IFNAME with
  | Some attr => string_at buf (RTA_DATA attr)
  | None => mret EmptyString
  end = Some (link_name attrs).
Proof.
  rewrite Forall_forall. unfold name_entry, link_name. intros Hat He.
  destruct (last _) as [y|] eqn:Hy; [|by rewrite He, lookup_empty].
  destruct He as (a & -> & rest & Hd). unfold string_at, RTA_DATA.
  change (Z.to_nat (ALIGN4 rtattr_size)) with 4%nat. rewrite Hd. cbn [mbind option_bind].
  apply last_Some_elem_of, list_elem_of_filter in Hy as [Hty Hy]. destruct (Hat y Hy) as (_ & _ & _ & Hnul).
  destruct (string_of_bytes_nul _ (Hnul Hty)) as [s Hs]. rewrite Hs. by apply string_of_bytes_app.
Qed.

(** A message about a link is read as the link. *)
Lemma read_link_reads x t flags seq pid pre post :
  let buf := pre ++ encode_message (mkMessage t flags seq pid (encode_link x)) ++ post in
  IFLA_IFNAME <= IFLA_MAX → link_ok x → Z.of_nat (length buf) < 2 ^ 31 →
  read_link buf (length pre) = Some (link_info x).
Proof.
  intros buf Hmax (Hf & Ht & Hi & Hfl & Hc & Hat) Hbuf.
  destruct (message_in pre (mkMessage t flags seq pid (encode_link x)) post Hbuf)
    as (_ & Hlen & _ & rest & Hr). fold buf in Hlen, Hr. cbn [ms_body] in Hr.
  set (h := pre ++ message_head _) in Hr.
  assert (Hh : length h = (length pre + 16)%nat)
    by (unfold h, message_head; rewrite !length_app, !le_bytes_length; lia).
  unfold encode_link in Hr. rewrite <- !app_assoc in Hr.
  assert (Htype : u16_at buf (length h + 2) = Some (lk_type x))
    by (rewrite Hr; by apply (le_at_in h [_; _] 2)).
  assert (Hflags : u32_at buf (length h + 8) = Some (lk_flags x)).
  { rewrite Hr. apply (le_at_in h ([_; _] ++ le_bytes 2 (lk_type x) ++ le_bytes 4 (lk_index x)) 4);
      [by rewrite !length_app, !le_bytes_length|done]. }
  unfold read_link, link_info, NLMSG_DATA, IFLA_RTA. change (Z.to_nat (NLMSG_LENGTH 0)) with 16%nat.
  rewrite <- Hh. unfold ifi_type. rewrite Htype.
  destruct (decide (lk_type x = ARPHRD_ETHER)) as [Et|Et]; cbn [mbind option_bind];
    [|by rewrite (proj2 (Z.eqb_neq _ _) Et)].
  rewrite (proj2 (Z.eqb_eq _ _) Et). cbn [negb]. rewrite Hlen. cbn [mbind option_bind].
  set (g := h ++ [lk_family x; 0] ++ le_bytes 2 (lk_type x) ++ le_bytes 4 (lk_index x) ++
    le_bytes 4 (lk_flags x) ++ le_bytes 4 (lk_change x)).
  assert (Hg : length g = (length h + 16)%nat) by (unfold g; rewrite !length_app, !le_bytes_length; simpl; lia).
  set (attrs := concat (encode_attr <$> lk_attrs x)) in *.
  assert (Hb : buf = g ++ attrs ++ rest) by (rewrite Hr; unfold g; by rewrite <- !app_assoc).
  assert (Hn : to_i 32 (message_len (mkMessage t flags seq pid (encode_link x)) - NLMSG_SPACE ifinfomsg_size) =
    Z.of_nat (length attrs)).
  { assert (Hla : Z.of_nat (length attrs) < 2 ^ 31) by (rewrite Hb, !length_app in Hbuf; lia).
    unfold message_len. cbn [ms_body]. change (NLMSG_SPACE ifinfomsg_size) with 32. unfold encode_link.
    rewrite !length_app, !le_bytes_length. fold attrs. rewrite to_i_small; [simpl length|done|unfold in_i; simpl length]; lia. }
  rewrite Hn, Nat2Z.id. change (Z.to_nat (ALIGN4 ifinfomsg_size)) with 16%nat. rewrite <- Hg.
  destruct (rta_loop_reads (lk_attrs x) g rest ∅ (length attrs) (Z.of_nat (length attrs)) buf)
    as (tb & -> & He); [done..|lia|].
  cbn [mbind option_bind]. unfold ifi_flags. rewrite Hflags.
  by rewrite (name_entry_reads buf tb _ Hat He).
Qed.

End Formats.
