(* ===== verification/NetlinkCorrect.v ===== *)
(** * The two parsers of link messages

    [ProcessReadMsg] and [ProcessLinkEventMsg] on a buffer: what they make of
    messages in the format of the kernel, also when the last one is cut off;
    and that they stay inside a buffer whatever it holds. *)

From S2P Require Import Prelude Parcel Parcelables Host CppStrings Ethernet.
From S2P Require Import EthernetSpec EthernetInv EthernetCorrect Netlink NetlinkSpec.
Import NetLinkRtnl.

(** One item after the other. *)
Fixpoint fold_items {S A} (f : item → A → st S A) (items : list item) (a : A) : st S A :=
  match items with
  | [] => mret a
  | i :: items => a ← f i a ; fold_items f items a
  end.

Section Loop.
Context `{NetlinkHeaders}.

(** [items] at [off] in [buf], and then nothing that the loop takes for a
    message in the [rest] bytes that remain. *)
Definition holds_items (buf : list Z) (off : nat) (len : Z) (items : list item) : Prop :=
  Forall item_ok items ∧ Z.of_nat (length buf) < 2 ^ 31 ∧
  ∃ pre post, buf = pre ++ encode_all (item_message <$> items) ++ post ∧ off = length pre ∧
    let taken := length (encode_all (item_message <$> items)) in
    Z.of_nat taken <= len < 2 ^ 31 ∧
    NLMSG_OK buf (off + taken) (len - Z.of_nat taken) = Some false.

Lemma nlmsg_loop_end {S A} (body : nat → A → st S A) buf fuel nh len a s :
  NLMSG_OK buf nh len = Some false → nlmsg_loop fuel body buf nh len a s = Some (a, s).
Proof. intros Hk. destruct fuel; cbn [nlmsg_loop]; by rewrite Hk. Qed.

Lemma NLMSG_OK_true buf nh len l :
  nlmsg_len buf nh = Some l → 16 <= l <= len → len < 2 ^ 31 → NLMSG_OK buf nh len = Some true.
Proof.
  intros Hl Hr Hm. unfold NLMSG_OK, nlmsghdr_size. rewrite (proj2 (Z.leb_le 16 len)), Hl by lia.
  cbn [mbind option_bind]. rewrite to_u_small by (unfold in_u; lia).
  by rewrite (proj2 (Z.leb_le 16 l)), (proj2 (Z.leb_le l len)) by lia.
Qed.

Lemma nlmsg_loop_step {S A} (body : nat → A → st S A) buf fuel nh len l a s :
  NLMSG_OK buf nh len = Some true → nlmsg_len buf nh = Some l →
  nlmsg_loop (Datatypes.S fuel) body buf nh len a s =
    match body nh a s with
    | Some (a', s') => nlmsg_loop fuel body buf (nh + Z.to_nat (ALIGN4 l)) (len_minus len l) a' s'
    | None => None
    end.
Proof.
  intros Hk Hl. cbn [nlmsg_loop]. rewrite Hk. unfold mbind, st_bind. cbn [deref mret st_ret negb].
  destruct (body nh a s) as [[a' s']|]; [|done]. by rewrite Hl.
Qed.

Lemma nlmsg_loop_reads {S A} (body : nat → A → st S A) (f : item → A → st S A) buf fuel off len items a (s : S) :
  (∀ pre i post a s, item_ok i → buf = pre ++ encode_message (item_message i) ++ post →
     body (length pre) a s = f i a s) →
  holds_items buf off len items → len <= Z.of_nat fuel →
  nlmsg_loop fuel body buf off len a s = fold_items f items a s.
Proof.
  intros Hbody (Hok & Hbuf & pre & post & Hb & -> & Hlen & Hend). revert pre fuel len a s Hb Hlen Hend.
  induction Hok as [|i items Hi _ IH]; intros pre fuel len a s Hb Hlen Hend Hf; cbn zeta in *.
  - simpl in Hend. rewrite Nat.add_0_r, Z.sub_0_r in Hend.
    by rewrite nlmsg_loop_end.
  - rewrite fmap_cons in *. unfold encode_all in *. rewrite fmap_cons in *. cbn [concat] in *.
    set (rest := concat _) in *. rewrite <- app_assoc in Hb. rewrite length_app in Hend, Hlen.
    assert (Hbl : length buf = (length pre + (length (encode_message (item_message i)) + (length rest + length post)))%nat)
      by (by rewrite Hb, !length_app).
    destruct (message_in pre (item_message i) (rest ++ post)) as (Hl & Hnl & _ & _); [by rewrite <- Hb|].
    rewrite <- Hb in Hnl.
    assert (Hm : message_len (item_message i) <= 2 ^ 32 - 4) by lia.
    pose proof (encode_message_length _ Hm) as Hml.
    assert (H16 : 16 <= message_len (item_message i)) by (unfold message_len; lia).
    remember (length (encode_message (item_message i))) as n eqn:En.
    destruct fuel as [|fuel]; [lia|]. rewrite (nlmsg_loop_step _ _ _ _ _ (message_len (item_message i)));
      [|apply (NLMSG_OK_true _ _ _ _ Hnl); lia|done].
    rewrite (Hbody pre i (rest ++ post)) by done. cbn [fold_items]. unfold mbind, st_bind.
    destruct (f i a s) as [[a' s']|]; [|done]. rewrite len_minus_eq by lia. rewrite <- Hml, Nat2Z.id, En.
    rewrite <- length_app. rewrite Nat.add_assoc in Hend. apply IH.
    + by rewrite Hb, <- app_assoc.
    + lia.
    + rewrite length_app. rewrite <- Hend. f_equal; lia.
    + lia.
Qed.

End Loop.

(** ** What a buffer says, apart from what is done with it *)

Section Scan.
Context `{NetlinkHeaders}.

(** The link of one message, if it is about a link. *)
Definition message_link (buf : list Z) (nh : nat) : option (list (option NlkEventInfo)) :=
  type ← nlmsg_type buf nh ;
  if link_message type then o ← read_link buf nh ; Some [o] else Some [].

(** The links that the messages of a buffer describe, [None] for one that is
    not ethernet. *)
Fixpoint scan_from (fuel : nat) (buf : list Z) (nh : nat) (len : Z) : option (list (option NlkEventInfo)) :=
  ok ← NLMSG_OK buf nh len ;
  if negb ok then Some []
  else match fuel with
       | O => None
       | Datatypes.S fuel' =>
         l ← message_link buf nh ;
         n ← nlmsg_len buf nh ;
         rest ← scan_from fuel' buf (nh + Z.to_nat (ALIGN4 n)) (len_minus len n) ;
         Some (l ++ rest)
       end.

Definition scan (buf : list Z) (len : Z) : option (list (option NlkEventInfo)) :=
  scan_from (Z.to_nat len) buf 0 len.

(** A body that handles each link by [g], with what the loop accumulates. *)
Definition handles {S A} (buf : list Z) (g : option NlkEventInfo → A → st S A) (nh : nat) (a : A) : st S A :=
  o ← deref (read_link buf nh) ; g o a.

Fixpoint fold_links {S A} (g : option NlkEventInfo → A → st S A) (l : list (option NlkEventInfo)) (a : A) : st S A :=
  match l with
  | [] => mret a
  | o :: l => a ← g o a ; fold_links g l a
  end.

Lemma NLMSG_OK_len buf nh len : NLMSG_OK buf nh len = Some true → is_Some (nlmsg_len buf nh).
Proof. unfold NLMSG_OK. destruct (_ <=? len); [|done]. by destruct (nlmsg_len buf nh). Qed.

(** One message handled. *)
Lemma on_link_handles {S A} (g : option NlkEventInfo → A → st S A) buf nh a s :
  on_link buf (handles buf g) nh a s =
    match message_link buf nh with Some l => fold_links g l a s | None => None end.
Proof.
  unfold on_link, handles, message_link. destruct (nlmsg_type buf nh) as [t|]; [|done]. cbn [mbind option_bind].
  unfold mbind, st_bind. cbn [deref mret st_ret]. fold (link_message t). destruct (link_message t); [|done].
  destruct (read_link buf nh) as [o|]; [|done]. cbn [option_bind deref mret st_ret fold_links].
  unfold mbind, st_bind, mret, st_ret. by destruct (g o a s) as [[??]|].
Qed.

Lemma fold_links_app {S A} (g : option NlkEventInfo → A → st S A) l1 l2 a s :
  fold_links g (l1 ++ l2) a s =
    match fold_links g l1 a s with Some (a', s') => fold_links g l2 a' s' | None => None end.
Proof.
  revert a s. induction l1 as [|o l1 IH]; intros a s; [done|]. cbn [app fold_links]. unfold mbind, st_bind.
  destruct (g o a s) as [[a' s']|]; [apply IH|done].
Qed.

(** Handling while reading is handling what has been read. *)
Lemma loop_scans {S A} (g : option NlkEventInfo → A → st S A) fuel buf nh len a s :
  nlmsg_loop fuel (on_link buf (handles buf g)) buf nh len a s =
    match scan_from fuel buf nh len with Some l => fold_links g l a s | None => None end.
Proof.
  revert nh len a s. induction fuel as [|fuel IH]; intros nh len a s.
  { cbn [nlmsg_loop scan_from]. by destruct (NLMSG_OK buf nh len) as [[]|]. }
  destruct (NLMSG_OK buf nh len) as [[]|] eqn:Hk; [|by rewrite nlmsg_loop_end; [cbn [scan_from]; rewrite Hk|]|].
  2:{ cbn [nlmsg_loop scan_from]. by rewrite Hk. }
  destruct (NLMSG_OK_len _ _ _ Hk) as [n Hn]. rewrite (nlmsg_loop_step _ _ _ _ _ _ _ _ Hk Hn), on_link_handles.
  cbn [scan_from]. rewrite Hk, Hn. cbn [mbind option_bind negb].
  destruct (message_link buf nh) as [l|]; [|done].
  specialize (IH (nh + Z.to_nat (ALIGN4 n))%nat (len_minus len n)).
  destruct (scan_from fuel _ _) as [rest|]; cbn [mbind option_bind]; [rewrite fold_links_app|];
    by destruct (fold_links g l a s) as [[a' s']|].
Qed.

Lemma nlmsg_loop_ext {S A} (f g : nat → A → st S A) fuel buf nh len a s :
  (∀ nh a s, f nh a s = g nh a s) →
  nlmsg_loop fuel (on_link buf f) buf nh len a s = nlmsg_loop fuel (on_link buf g) buf nh len a s.
Proof.
  intros Hfg. revert nh len a s. induction fuel as [|fuel IH]; intros nh len a s; [done|].
  assert (Ho : on_link buf f nh a s = on_link buf g nh a s).
  { unfold on_link, mbind, st_bind. destruct (nlmsg_type buf nh) as [t|]; [|done]. cbn [deref mret st_ret].
    by destruct (_ || _). }
  destruct (NLMSG_OK buf nh len) as [[]|] eqn:Hk; [|by rewrite !nlmsg_loop_end|].
  - destruct (NLMSG_OK_len _ _ _ Hk) as [n Hn]. rewrite !(nlmsg_loop_step _ _ _ _ _ _ _ _ Hk Hn), Ho.
    destruct (on_link buf g nh a s) as [[??]|]; [apply IH|done].
  - cbn [nlmsg_loop]. by rewrite Hk.
Qed.

(** *** The parsers of the sources *)

Definition no_link : NlkEventInfo := mkNlkEventInfo EmptyString 0.

Lemma ProcessReadMsg_scans {S} buf len infos (s : S) :
  ProcessReadMsg buf len infos s =
    match scan buf len with Some l => Some (infos ++ (default no_link <$> l), s) | None => None end.
Proof.
  set (g (o : option NlkEventInfo) (infos : list NlkEventInfo) := (mret (infos ++ [default no_link o]) : st S _)).
  transitivity (nlmsg_loop (Z.to_nat len) (on_link buf (handles buf g)) buf 0 len infos s).
  - apply nlmsg_loop_ext. intros nh a s'. unfold ProcessLinkMsg, handles, mbind, st_bind.
    by destruct (read_link buf nh).
  - rewrite loop_scans. fold (scan buf len). destruct (scan buf len) as [l|]; [|done].
    revert infos. induction l as [|o l IH]; intros infos; [by rewrite app_nil_r|].
    cbn [fold_links]. unfold mbind, st_bind, g at 1, mret, st_ret. rewrite IH. by rewrite <- app_assoc.
Qed.

Section Events.
Context {E : Type} `{EthPlatform E}.
Implicit Type w : eworld E.

Lemma ProcessLinkEventMsg_scans buf len w :
  ProcessLinkEventMsg buf len w =
    match scan buf len with Some l => for_each ProcessIfInfo (omap id l) w | None => None end.
Proof.
  set (g (o : option NlkEventInfo) (_ : unit) :=
    match o with None => mret tt | Some info => ProcessIfInfo info end : st (eworld E) unit).
  transitivity (nlmsg_loop (Z.to_nat len) (on_link buf (handles buf g)) buf 0 len tt w).
  - apply nlmsg_loop_ext. intros nh [] s'. by unfold ProcessIfInfoMsg, handles.
  - rewrite loop_scans. fold (scan buf len). destruct (scan buf len) as [l|]; [|done].
    revert w. induction l as [|[info|] l IH]; intros w; [done| |apply IH].
    cbn [fold_links g omap list_omap id for_each]. unfold mbind, st_bind.
    destruct (ProcessIfInfo info w) as [[[] w']|]; [apply IH|done].
Qed.

End Events.

(** Messages of the kernel. *)
Lemma message_link_item pre i post :
  let buf := pre ++ encode_message (item_message i) ++ post in
  IFLA_IFNAME <= IFLA_MAX → item_ok i → Z.of_nat (length buf) < 2 ^ 31 →
  message_link buf (length pre) = Some (item_links i).
Proof.
  intros buf Hmax [Hm Hi] Hbuf. destruct (message_in pre (item_message i) post Hbuf) as (_ & _ & Ht & _).
  unfold message_link. fold buf in Ht. rewrite Ht by apply Hm.
  destruct i as [deleted flags seq pid x|x]; cbn [item_message ms_type mbind option_bind item_links] in *.
  - replace (link_message _) with true by by destruct deleted.
    unfold buf. rewrite (read_link_reads x _ flags seq pid pre post Hmax Hi Hbuf). done.
  - by rewrite Hi.
Qed.

Lemma scan_items buf len items :
  IFLA_IFNAME <= IFLA_MAX → holds_items buf 0 len items → scan buf len = Some (concat (item_links <$> items)).
Proof.
  intros Hmax Hb. set (g (o : option NlkEventInfo) (l : list (option NlkEventInfo)) := (mret (l ++ [o]) : st unit _)).
  assert (Hg : ∀ l a, fold_links g l a tt = Some (a ++ l, tt)).
  { induction l as [|o l IH]; intros a; [by rewrite app_nil_r|]. cbn [fold_links].
    unfold mbind, st_bind, g at 1, mret, st_ret. by rewrite IH, <- app_assoc. }
  set (f i (a : list (option NlkEventInfo)) := (mret (a ++ item_links i) : st unit _)).
  assert (Hf : ∀ l a, fold_items f l a tt = Some (a ++ concat (item_links <$> l), tt)).
  { induction l as [|i l IH]; intros a; [by rewrite app_nil_r|]. rewrite fmap_cons. cbn [fold_items concat].
    unfold mbind, st_bind, f at 1, mret, st_ret. by rewrite IH, <- app_assoc. }
  assert (Hl : nlmsg_loop (Z.to_nat len) (on_link buf (handles buf g)) buf 0 len [] tt = fold_items f items [] tt).
  { apply nlmsg_loop_reads; [|done|lia]. intros pre i post a [] Hi Hbuf. rewrite on_link_handles, Hbuf.
    rewrite message_link_item; [by rewrite Hg|done..|]. rewrite <- Hbuf. apply Hb. }
  rewrite loop_scans, Hf in Hl. fold (scan buf len) in Hl. destruct (scan buf len) as [l|]; [|done].
  rewrite Hg in Hl. by injection Hl as ->.
Qed.

(** Any bytes. *)
Lemma scan_inside buf stop len :
  bytes buf → room buf stop → - 2 ^ 31 <= len <= stop → is_Some (scan buf len).
Proof.
  intros Hb Hr Hl. pose proof (ProcessReadMsg_scans (S := unit) buf len [] tt) as Hs.
  destruct (ProcessReadMsg_inside buf stop Hb Hr len [] tt) as (a & s & Hp & _); [lia..|].
  rewrite Hp in Hs. by destruct (scan buf len).
Qed.

End Scan.
