(* ===== verification/NetlinkSocket.v ===== *)
(** * The sockets of [netLink_rtnl.cpp]

    The calls of the C library and of the kernel are the interface
    [KernelOps]; what the code does with their results is written out. The
    descriptors that are open and the static [seq_] are state. *)

From S2P Require Import Prelude Parcel Parcelables Host CppStrings Ethernet Netlink.

(** ** The interface *)

(** <sys/socket.h>, <fcntl.h>, <linux/netlink.h>, <linux/rtnetlink.h> *)
Definition AF_UNSPEC : Z := 0.
Definition AF_INET : Z := 2.
Definition AF_NETLINK : Z := 16.
Definition SOCK_DGRAM : Z := 2.
Definition SOCK_RAW : Z := 3.
Definition NETLINK_ROUTE : Z := 0.
Definition NLM_F_REQUEST : Z := 1.
Definition NLM_F_DUMP : Z := 768.
Definition RTMGRP_LINK : Z := 1.
Definition RTMGRP_IPV4_IFADDR : Z := 16.
Definition RTMGRP_IPV4_ROUTE : Z := 64.
Definition RTMGRP_IPV6_IFADDR : Z := 256.
Definition RTMGRP_IPV6_ROUTE : Z := 1024.
Definition IFNAMSIZ : Z := 16.

(** [netLink_rtnl.h] *)
Definition NLK_SOCK_BUF_LEN : Z := 20480.
Definition NLK_BUFF_LEN : Z := 2048.
Definition NLK_HWADDR_BUF_LEN : Z := 16.
Definition NLK_HWADDR_LEN : Z := 6.
Definition NLK_TV_SEC : Z := 5.
Definition NLK_TV_USEC : Z := 0.

(** [struct sockaddr_nl]: the family and the groups. *)
Record sockaddr_nl := mkSockaddrNl { nl_family : Z; nl_groups : Z }.

Definition sockaddr_nl_size : Z := 12.

Record timeval := mkTimeval { tv_sec : Z; tv_usec : Z }.

(** Each operation takes the state of the kernel to a result and a state.
    [k_read] gives the bytes that were received, or nothing for an error;
    [k_select] of the one descriptor its result, whether the descriptor is set,
    and the time that it leaves in its argument; the requests of [ioctl] take
    the name in the [struct ifreq]; [k_inet_pton] the four bytes of the
    destination. *)
Class KernelOps (K : Type) := {
  k_socket : Z → Z → Z → K → Z * K;
  k_set_nonblock : Z → K → Z * K;
  k_set_rcvbuf : Z → Z → K → Z * K;
  k_bind : Z → sockaddr_nl → K → Z * K;
  k_getsockname : Z → sockaddr_nl → Z → K → (Z * sockaddr_nl * Z) * K;
  k_sendmsg : Z → sockaddr_nl → list Z → K → Z * K;
  k_read : Z → Z → K → option (list Z) * K;
  k_select : Z → timeval → K → (Z * bool * timeval) * K;
  k_ioctl_get_flags : Z → string → K → Z * K;
  k_ioctl_set_addr : Z → string → Z → list Z → K → Z * K;
  k_ioctl_get_hwaddr : Z → string → K → (Z * list Z) * K;
  k_inet_pton : string → list Z → Z * list Z;
  k_time : K → Z * K;
  k_close : Z → K → Z * K;
}.

(** The kernel, the descriptors this code has open, and [NetLinkRtnl::seq_]. *)
Record nworld (K : Type) := mkNworld { n_env : K; n_open : list Z; n_seq : Z }.
Arguments mkNworld {K}.
Arguments n_env {K}.
Arguments n_open {K}.
Arguments n_seq {K}.

(** [strcpy_s] into an array of [n] characters: a string that does not fit
    leaves the empty one; [strncpy_s] with a count of [n]. *)
Definition strcpy_s (n : Z) (s : string) : string :=
  if Z.of_nat (String.length s) <? n then s else EmptyString.

Definition strncpy_s (n : Z) (s : string) : string := String.substring 0 (Z.to_nat n) s.

Module NetLinkSocket.
Import NetLinkRtnl.
Section Kernel.
Context {K : Type} `{KernelOps K} `{NetlinkHeaders}.

Definition sys {A} (f : K → A * K) : st (nworld K) A := λ n,
  let '(a, k) := f (n_env n) in Some (a, mkNworld k (n_open n) (n_seq n)).

(** [socket] gives a descriptor or a negative number. *)
Definition socket (domain type protocol : Z) : st (nworld K) Z :=
  fd ← sys (k_socket domain type protocol) ;
  modify (λ n, mkNworld (n_env n) (if 0 <=? fd then fd :: n_open n else n_open n) (n_seq n)) ;;
  mret fd.

Definition close (fd : Z) : st (nworld K) unit :=
  sys (k_close fd) ;;
  modify (λ n, mkNworld (n_env n) (erase_first (Z.eqb fd) (n_open n)) (n_seq n)).

Definition set_seq (x : Z) : st (nworld K) unit := modify (λ n, mkNworld (n_env n) (n_open n) x).

(** [close(fd); return ETHERNET_ERROR;] *)
Definition close_error (fd : Z) : st (nworld K) Z := close fd ;; mret ETHERNET_ERROR.

Definition CreateNetLinkSocket : st (nworld K) Z :=
  fd ← socket AF_NETLINK SOCK_RAW NETLINK_ROUTE ;
  if fd <? 0 then mret ETHERNET_ERROR
  else
    ret ← sys (k_set_nonblock fd) ;
    if ret <? 0 then close_error fd
    else
      ret ← sys (k_bind fd (mkSockaddrNl AF_NETLINK 0)) ;
      if ret <? 0 then close_error fd
      else
        r ← sys (k_getsockname fd (mkSockaddrNl AF_NETLINK 0) sockaddr_nl_size) ;
        let '(ret, snl, addr_len) := r in
        if (ret <? 0) || negb (addr_len =? sockaddr_nl_size) then close_error fd
        else if negb (nl_family snl =? AF_NETLINK) then close_error fd
        else t ← sys k_time ; set_seq (to_i 32 t) ;; mret fd.

(** The first [nlmsg_len] bytes of the request: its header and the
    [ifinfomsg], of which nothing but the family is named. *)
Definition request (seq : Z) : list Z :=
  le_bytes 4 (NLMSG_LENGTH ifinfomsg_size) ++ le_bytes 2 RTM_GETLINK ++
  le_bytes 2 (Z.lor NLM_F_DUMP NLM_F_REQUEST) ++ le_bytes 4 (to_u 32 seq) ++ le_bytes 4 0 ++
  AF_UNSPEC :: replicate 15 0.

Definition NetLinkSendMsg (fd : Z) (nlh : list Z) : st (nworld K) Z :=
  ret ← sys (k_sendmsg fd (mkSockaddrNl AF_NETLINK 0) nlh) ; mret (to_i 32 ret).

(** [bzero(buff); ret = read(fd, buff, n);]: the buffer and [ret]. *)
Definition read (fd n : Z) : st (nworld K) (list Z * Z) :=
  r ← sys (k_read fd n) ;
  mret (match r with
        | Some bs => (bs ++ replicate (Z.to_nat n - length bs) 0, Z.of_nat (length bs))
        | None => (replicate (Z.to_nat n) 0, -1)
        end).

(** [++seq_] *)
Definition next_seq : st (nworld K) Z :=
  s ← gets n_seq ;
  if decide (in_i 32 (s + 1)) then set_seq (s + 1) ;; mret (s + 1) else ub.

Definition GetLinkInfo (infos : list NlkEventInfo) : st (nworld K) (list NlkEventInfo) :=
  seq ← next_seq ;
  let req := request seq in
  fd ← CreateNetLinkSocket ;
  if fd <? 0 then mret infos
  else
    ret ← NetLinkSendMsg fd req ;
    if ret <? 0 then mret infos
    else
      r ← read fd NLK_SOCK_BUF_LEN ;
      ProcessReadMsg r.1 r.2 infos.

Definition SetIpAddr (ifName ip : string) : st (nworld K) Z :=
  fd ← socket AF_INET SOCK_DGRAM 0 ;
  if fd =? -1 then mret ETHERNET_ERROR
  else
    ret ← sys (k_ioctl_get_flags fd (strcpy_s IFNAMSIZ (c_str ifName))) ;
    if ret <? 0 then close_error fd
    else
      let '(_, sin_addr) := k_inet_pton (c_str ip) (replicate 4 0) in
      ret ← sys (k_ioctl_set_addr fd (strncpy_s (IFNAMSIZ - 1) (c_str ifName)) AF_INET sin_addr) ;
      if ret <? 0 then close_error fd else close fd ;; mret ETHERNET_SUCCESS.

Definition GetHWaddr (devName : string) : st (nworld K) (list Z) :=
  sock ← socket AF_INET SOCK_DGRAM 0 ;
  if sock <? 0 then mret []
  else
    r ← sys (k_ioctl_get_hwaddr sock (strcpy_s IFNAMSIZ (c_str devName))) ;
    let '(ret, sa_data) := r in
    if ret <? 0 then close sock ;; mret []
    else
      let macaddr := take (Z.to_nat NLK_HWADDR_LEN) sa_data ++
        replicate (Z.to_nat (NLK_HWADDR_BUF_LEN - NLK_HWADDR_LEN)) 0 in
      close sock ;; mret (take (Z.to_nat NLK_HWADDR_LEN) macaddr).

End Kernel.

(** ** The listener

    The ethernet service on this kernel: the calls of [EthPlatform] that
    [netLink_rtnl.cpp] answers are its functions, the others are those of the
    platform [E]. *)

Section Platform.
Context {K E : Type} `{KernelOps K} `{NetlinkHeaders} `{EthPlatform E}.

(** A run that is undefined has no result; what it would leave is not used. *)
Definition total {A} (a : A) (m : st (nworld K) A) (e : nworld K * E) : A * (nworld K * E) :=
  match m e.1 with Some (x, n) => (x, (n, e.2)) | None => (a, e) end.

Definition beside {A} (f : E → A * E) (e : nworld K * E) : A * (nworld K * E) :=
  let '(x, e') := f e.2 in (x, (e.1, e')).

#[export] Instance kernel_platform : EthPlatform (nworld K * E) := {
  eth_call ev :=
    match ev with
    | EthSetIpAddr ifName ip => total ETHERNET_ERROR (SetIpAddr ifName ip)
    | _ => beside (eth_call ev)
    end;
  eth_GetHWaddr devName := total [] (GetHWaddr devName);
  eth_GetLinkInfo := total [] (GetLinkInfo []);
  eth_Publish := beside eth_Publish;
  eth_registerLocalResult := eth_registerLocalResult;
}.

Definition on_kernel {A} (m : st (nworld K) A) : st (eworld (nworld K * E)) A := λ w,
  match m (e_env w).1 with
  | Some (a, n) => Some (a, mkEworld (n, (e_env w).2) (e_log w) (ethManagement_ w) (nlkHandles_ w)
                              (e_registerToService_ w) (e_running_ w))
  | None => None
  end.

(** [timeout] is changed by [select]. *)
Definition NetLinkHandle (netLinkSocket : Z) (timeout : timeval)
    : st (eworld (nworld K * E)) (Z * timeval) :=
  r ← on_kernel (sys (k_select netLinkSocket timeout)) ;
  let '(selectFd, isset, timeout) := r in
  if selectFd <? 0 then mret (ETHERNET_ERROR, timeout)
  else if 0 <? selectFd then
    if isset : bool then
      r ← on_kernel (read netLinkSocket NLK_BUFF_LEN) ;
      ProcessLinkEventMsg r.1 r.2 ;; mret (ETHERNET_SUCCESS, timeout)
    else mret (ETHERNET_SUCCESS, timeout)
  else mret (ETHERNET_SUCCESS, timeout).

(** Before the loop: the socket, or nothing when the thread returns. *)
Definition listener_socket : st (nworld K) (option Z) :=
  netLinkSocket ← socket AF_NETLINK SOCK_RAW NETLINK_ROUTE ;
  if netLinkSocket <? 0 then mret None
  else
    ret ← sys (k_set_rcvbuf netLinkSocket NLK_SOCK_BUF_LEN) ;
    if negb (ret =? 0) then mret None
    else
      ret ← sys (k_bind netLinkSocket (mkSockaddrNl AF_NETLINK
        (Z.lor (Z.lor (Z.lor (Z.lor RTMGRP_LINK RTMGRP_IPV4_IFADDR) RTMGRP_IPV4_ROUTE) RTMGRP_IPV6_IFADDR)
           RTMGRP_IPV6_ROUTE))) ;
      mret (if ret =? 0 then Some netLinkSocket else None).

(** [while (true)]: the first [n] rounds, and the time that is left. *)
Fixpoint listener_rounds (n : nat) (netLinkSocket : Z) (timeout : timeval)
    : st (eworld (nworld K * E)) timeval :=
  match n with
  | O => mret timeout
  | S n' =>
    r ← NetLinkHandle netLinkSocket timeout ;
    listener_rounds n' netLinkSocket r.2
  end.

Definition NetLinkListenerThead (n : nat) : st (eworld (nworld K * E)) unit :=
  fd ← on_kernel listener_socket ;
  match fd with
  | None => mret tt
  | Some netLinkSocket => listener_rounds n netLinkSocket (mkTimeval NLK_TV_SEC NLK_TV_USEC) ;; mret tt
  end.

End Platform.
End NetLinkSocket.
