(* ===== verification/NetlinkProps.v ===== *)
(** * Properties of the parsers of link messages *)

From S2P Require Import Prelude Parcel Parcelables Host CppStrings Ethernet.
From S2P Require Import EthernetSpec EthernetInv EthernetCorrect EthernetProps.
From S2P Require Import Netlink NetlinkSpec NetlinkCorrect NetlinkSocket.
Import NetLinkRtnl.

(** ** Buffers to run examples on

    A message about "eth0", one about the loopback device and the end of the
    dump; then the first 20 bytes of a message of which the rest is missing. *)

#[global] Instance sample_headers : NetlinkHeaders := { IFLA_MAX := 63 }.

Definition eth0_name : list Z := [101; 116; 104; 48; 0].

Definition eth0_link : link :=
  mkLink 0 ARPHRD_ETHER 2 65537 0 [mkAttribute 1 [0; 1; 2; 3; 4; 5]; mkAttribute IFLA_IFNAME eth0_name].

Definition lo_link : link := mkLink 0 772 1 65609 0 [mkAttribute IFLA_IFNAME [108; 111; 0]].

Definition sample_items : list item :=
  [ILink false 2 7 0 eth0_link; ILink false 2 7 0 lo_link; IOther (mkMessage 3 2 7 0 [0; 0; 0; 0])].

Definition sample_bytes : list Z :=
  encode_all (item_message <$> sample_items) ++
  take 20 (encode_message (item_message (ILink false 2 7 0 eth0_link))).

Definition sample_buffer : list Z := sample_bytes ++ replicate 1000 0.

Lemma bytes_decide bs : forallb (λ b, (0 <=? b) && (b <? 256)) bs = true → bytes bs.
Proof.
  rewrite forallb_forall. intros Hb. apply Forall_forall. intros b Hin. apply list_elem_of_In, Hb in Hin.
  unfold in_u. change (2 ^ 8) with 256. apply andb_prop in Hin as [?%Z.leb_le ?%Z.ltb_lt]. done.
Qed.

Lemma sample_items_ok : Forall item_ok sample_items.
Proof.
  repeat constructor; try (vm_compute; congruence); try (by apply bytes_decide); try done.
Qed.

Lemma sample_holds : holds_items sample_buffer 0 (Z.of_nat (length sample_bytes)) sample_items.
Proof.
  split; [apply sample_items_ok|]. split; [done|].
  exists [], (drop (length (encode_all (item_message <$> sample_items))) sample_buffer).
  split; [vm_compute; reflexivity|]. split; [done|]. split; [vm_compute; split; congruence|].
  vm_compute. reflexivity.
Qed.

(** ** The parsers *)

(** C22. Round trip. From messages in the format of the kernel, and possibly the
    beginning of another that was cut off, [ProcessReadMsg] makes the list of
    the links in their order, with the text of the name attribute and the
    flags, a default entry standing for each link that is not ethernet;
    [ProcessLinkEventMsg] hands exactly the ethernet links to the handlers, in
    order. *)
Theorem netlink_roundtrip {E} `{NetlinkHeaders} `{EthPlatform E} buf len items infos (w : eworld E) :
  IFLA_IFNAME <= IFLA_MAX → holds_items buf 0 len items →
  let links := concat (item_links <$> items) in
  ProcessReadMsg buf len infos w = Some (infos ++ (default no_link <$> links), w) ∧
  ProcessLinkEventMsg buf len w = for_each ProcessIfInfo (omap id links) w.
Proof.
  intros Hmax Hb links. rewrite ProcessReadMsg_scans, ProcessLinkEventMsg_scans.
  by rewrite (scan_items buf len items Hmax Hb).
Qed.

Lemma netlink_roundtrip_witness :
  ProcessReadMsg sample_buffer (Z.of_nat (length sample_bytes)) [] (EthernetService.construct tt)
    = Some ([mkNlkEventInfo "eth0" 65537; no_link], EthernetService.construct tt).
Proof.
  destruct (netlink_roundtrip sample_buffer (Z.of_nat (length sample_bytes)) sample_items []
    (EthernetService.construct tt)) as [Hr _]; [vm_compute; congruence|apply sample_holds|].
  rewrite Hr. reflexivity.
Defined.

(** Equivalence of the two parsers, on any buffer: reading the links of a
    buffer into a list, and handling those that are ethernet one after the
    other, is what [ProcessLinkEventMsg] does while it reads; and one of them
    runs out of the buffer whenever the other does. *)
Lemma netlink_parsers_agree {E S} `{NetlinkHeaders} `{EthPlatform E} buf len (s : S) (w : eworld E) :
  match ProcessReadMsg buf len [] s with
  | Some (infos, s') =>
    s' = s ∧ ∃ links, infos = default no_link <$> links ∧
      ProcessLinkEventMsg buf len w = for_each ProcessIfInfo (omap id links) w
  | None => ProcessLinkEventMsg buf len w = None
  end.
Proof.
  rewrite ProcessReadMsg_scans, ProcessLinkEventMsg_scans. destruct (scan buf len) as [l|]; [|done].
  split; [done|]. by exists l.
Qed.

Lemma for_each_ProcessIfInfo_ok {E} `{EthPlatform E} l (w : eworld E) :
  eth_inv w → wp (for_each ProcessIfInfo l) (λ _, eth_inv) w.
Proof.
  apply ok_for_each. intros info w1 Hw1. apply wp_bind, wp_gets. apply ok_for_each; [|done].
  intros _ w2. apply ok_Handle.
Qed.

(** C23. Termination inside the buffer, whatever the kernel sends. When twelve
    bytes follow the bytes that were received, with a NUL among them, both
    parsers return, neither reads outside of the buffer, and the state of the
    service stays consistent. *)
Theorem netlink_total {E} `{NetlinkHeaders} `{EthPlatform E} buf stop len infos (w : eworld E) :
  bytes buf → room buf stop → - 2 ^ 31 <= len <= stop → eth_inv w →
  (∃ infos', ProcessReadMsg buf len infos w = Some (infos ++ infos', w)) ∧
  wp (ProcessLinkEventMsg buf len) (λ _, eth_inv) w.
Proof.
  intros Hb Hr Hl Hw. destruct (scan_inside buf stop len Hb Hr Hl) as [l Hs]. split.
  - eexists. by rewrite ProcessReadMsg_scans, Hs.
  - unfold wp. rewrite ProcessLinkEventMsg_scans, Hs. by apply for_each_ProcessIfInfo_ok.
Qed.


(** A message of 17 bytes that ends in the middle of its [ifinfomsg], and a
    name without an end: bytes that are no message of the kernel. *)
Definition wild_bytes : list Z :=
  [32; 0; 0; 0; 16; 0; 0; 0; 0; 0; 0; 0; 0; 0; 0; 0; 0; 0; 1; 0; 0; 0; 0; 0; 1; 0; 0; 0; 0; 0; 0; 0;
   40; 0; 0; 0; 16; 0; 0; 0; 0; 0; 0; 0; 0; 0; 0; 0; 0; 0; 1; 0; 0; 0; 0; 0; 1; 0; 0; 0; 0; 0; 0; 0; 5; 0; 3; 0; 97; 98; 99; 100;
   17; 0; 0; 0; 16; 0; 0; 0; 0; 0; 0; 0; 0; 0; 0; 0; 255].

Lemma netlink_total_witness :
  ∃ infos', ProcessReadMsg (wild_bytes ++ replicate 12 0) 89 [] (EthernetService.construct tt)
    = Some (infos', EthernetService.construct tt).
Proof.
  destruct (netlink_total (wild_bytes ++ replicate 12 0) 89 89 [] (EthernetService.construct tt)) as [[l Hl] _].
  - by apply bytes_decide.
  - split; [vm_compute; split; congruence|]. exists 100%nat. split; [vm_compute; congruence|reflexivity].
  - lia.
  - apply inv_construct.
  - exists l. exact Hl.
Defined.

(** The room is needed: in a buffer that was filled to its end, a message of
    sixteen bytes at the end makes the parser read behind the buffer. *)
Definition full_buffer : list Z :=
  encode_all [mkMessage 3 0 0 0 (replicate 2016 0); mkMessage RTM_NEWLINK 0 0 0 []].

Theorem netlink_full_buffer_overruns (s : unit) :
  Z.of_nat (length full_buffer) = NLK_BUFF_LEN ∧ ProcessReadMsg full_buffer NLK_BUFF_LEN [] s = None.
Proof. split; vm_compute; reflexivity. Qed.
