(* ===== verification/NetlinkSocketProps.v ===== *)
(** * Properties of the netlink sockets

    The dump of the links, the descriptors, the listener, and the start of the
    ethernet service on the answer of the kernel. *)

From S2P Require Import Prelude Parcel Parcelables Host CppStrings Ethernet.
From S2P Require Import EthernetSpec EthernetInv EthernetCorrect EthernetProps.
From S2P Require Import Netlink NetlinkSpec NetlinkCorrect NetlinkSocket NetlinkProps.
Import NetLinkRtnl NetLinkSocket.

(** ** The descriptors *)

Section Descriptors.
Context {K : Type} `{KernelOps K}.
Implicit Type n : nworld K.

(** [socket] gives a descriptor, or -1 "if an error occurred". *)
Definition socket_law : Prop := ∀ domain type protocol k, -1 <= (k_socket domain type protocol k).1.

Lemma wp_sys {A} (f : K → A * K) (Q : A → nworld K → Prop) n :
  (∀ a k, f (n_env n) = (a, k) → Q a (mkNworld k (n_open n) (n_seq n))) → wp (sys f) Q n.
Proof.
  intros HQ. unfold wp, sys. destruct (f (n_env n)) as [a k] eqn:Ef. eexists _, _. split; [done|]. by apply HQ.
Qed.

Lemma wp_socket domain type protocol (Q : Z → nworld K → Prop) n :
  socket_law →
  (∀ k, Q (-1) (mkNworld k (n_open n) (n_seq n))) →
  (∀ fd k, 0 <= fd → Q fd (mkNworld k (fd :: n_open n) (n_seq n))) → wp (socket domain type protocol) Q n.
Proof.
  intros Hlaw Hno Hyes. apply wp_bind, wp_sys. intros fd k Hk. apply wp_bind, wp_modify, wp_ret. cbn [n_env n_open n_seq].
  pose proof (Hlaw domain type protocol (n_env n)) as Hfd. rewrite Hk in Hfd. cbn [fst] in Hfd.
  destruct (Z.leb_spec 0 fd); [by apply Hyes|]. replace fd with (-1) by lia. apply Hno.
Qed.

Lemma wp_close fd (Q : unit → nworld K → Prop) n l :
  n_open n = fd :: l → (∀ k, Q tt (mkNworld k l (n_seq n))) → wp (close fd) Q n.
Proof.
  intros Ho HQ. apply wp_bind, wp_sys. intros z k _. apply wp_modify. cbn [n_env n_open n_seq].
  rewrite Ho. cbn [erase_first]. by rewrite Z.eqb_refl.
Qed.

Lemma wp_close_error fd (Q : Z → nworld K → Prop) n l :
  n_open n = fd :: l → (∀ k, Q ETHERNET_ERROR (mkNworld k l (n_seq n))) → wp (close_error fd) Q n.
Proof. intros Ho HQ. apply wp_bind. eapply wp_close; [exact Ho|]. intros k. by apply wp_ret. Qed.

(** The netlink socket: open exactly when its descriptor is returned. *)
Lemma wp_CreateNetLinkSocket (Q : Z → nworld K → Prop) n :
  socket_law →
  (∀ k, Q ETHERNET_ERROR (mkNworld k (n_open n) (n_seq n))) →
  (∀ fd k t, 0 <= fd → Q fd (mkNworld k (fd :: n_open n) (to_i 32 t))) →
  wp CreateNetLinkSocket Q n.
Proof.
  intros Hlaw Hno Hyes. apply wp_bind, wp_socket; [done|by intros k; apply wp_ret|].
  intros fd k Hfd. rewrite (proj2 (Z.ltb_ge _ _)) by done.
  apply wp_bind, wp_sys. intros r1 k1 _. destruct (r1 <? 0); [by eapply wp_close_error|].
  apply wp_bind, wp_sys. intros r2 k2 _. destruct (r2 <? 0); [by eapply wp_close_error|].
  apply wp_bind, wp_sys. intros [[r3 snl] len] k3 _.
  destruct (_ || _); [by eapply wp_close_error|]. destruct (negb _); [by eapply wp_close_error|].
  apply wp_bind, wp_sys. intros t k4 _. apply wp_bind, wp_modify, wp_ret. by apply Hyes.
Qed.

Lemma wp_SetIpAddr ifName ip (Q : Z → nworld K → Prop) n :
  socket_law → (∀ r k, r = ETHERNET_SUCCESS ∨ r = ETHERNET_ERROR → Q r (mkNworld k (n_open n) (n_seq n))) →
  wp (SetIpAddr ifName ip) Q n.
Proof.
  intros Hlaw HQ. apply wp_bind, wp_socket; [done|by intros k; apply wp_ret, HQ; right|].
  intros fd k Hfd. destruct (Z.eqb_spec fd (-1)); [lia|].
  apply wp_bind, wp_sys. intros r1 k1 _.
  destruct (r1 <? 0); [eapply wp_close_error; [done|]; intros k'; by apply HQ; right|].
  destruct (k_inet_pton _ _) as [z addr]. apply wp_bind, wp_sys. intros r2 k2 _.
  destruct (r2 <? 0); [eapply wp_close_error; [done|]; intros k'; by apply HQ; right|].
  apply wp_bind. eapply wp_close; [done|]. intros k'. apply wp_ret, HQ. by left.
Qed.

Lemma wp_GetHWaddr devName (Q : list Z → nworld K → Prop) n :
  socket_law → (∀ r k, Z.of_nat (length r) <= NLK_HWADDR_LEN → Q r (mkNworld k (n_open n) (n_seq n))) →
  wp (GetHWaddr devName) Q n.
Proof.
  intros Hlaw HQ. apply wp_bind, wp_socket; [done|by intros k; apply wp_ret, HQ|].
  intros fd k Hfd. rewrite (proj2 (Z.ltb_ge _ _)) by done. apply wp_bind, wp_sys. intros [r1 sa] k1 _.
  destruct (r1 <? 0); (apply wp_bind; eapply wp_close; [done|]; intros k'; apply wp_ret, HQ); [done|].
  rewrite length_take. change (Z.to_nat NLK_HWADDR_LEN) with 6%nat. change NLK_HWADDR_LEN with 6. lia.
Qed.

End Descriptors.

(** ** The dump of the links *)

(** [sizeof(buff)] bytes of which the first are what was received. *)
Definition received (n : Z) (bs : list Z) : list Z := bs ++ replicate (Z.to_nat n - length bs) 0.

(** The answer of [read]: no more than was asked for; and either twelve bytes
    less, or messages in the format of the kernel. *)
Definition answer_ok `{NetlinkHeaders} (n : Z) (bs : list Z) : Prop :=
  bytes bs ∧ Z.of_nat (length bs) <= n ∧
  (Z.of_nat (length bs) + 12 <= n ∨
   IFLA_IFNAME <= IFLA_MAX ∧ ∃ items, holds_items (received n bs) 0 (Z.of_nat (length bs)) items).

Lemma received_length n bs : Z.of_nat (length bs) <= n → Z.of_nat (length (received n bs)) = n.
Proof. intros Hn. unfold received. rewrite length_app, length_replicate. lia. Qed.

Lemma scan_received `{NetlinkHeaders} n bs :
  n < 2 ^ 31 → answer_ok n bs → is_Some (scan (received n bs) (Z.of_nat (length bs))).
Proof.
  intros Hn (Hb & Hl & [Hroom|[Hmax [items Hi]]]); [|by rewrite (scan_items _ _ _ Hmax Hi)].
  pose proof (received_length n bs Hl) as Hlen.
  apply (scan_inside _ (Z.of_nat (length bs))); [| |lia].
  - apply Forall_app. split; [done|]. apply Forall_replicate. split; [done|]. vm_compute. congruence.
  - split; [lia|]. exists (length bs). split; [lia|]. unfold received. rewrite lookup_app_r, Nat.sub_diag by done.
    apply lookup_replicate. split; [done|lia].
Qed.

Lemma scan_nothing `{NetlinkHeaders} buf : scan buf (-1) = Some [].
Proof. done. Qed.

(** The request: a dump of all links. *)
Definition dump_request (seq : Z) : message :=
  mkMessage RTM_GETLINK (Z.lor NLM_F_DUMP NLM_F_REQUEST) (to_u 32 seq) 0
    (encode_link (mkLink AF_UNSPEC 0 0 0 0 [])).

Lemma request_encodes seq : request seq = encode_message (dump_request seq).
Proof. reflexivity. Qed.

Section Dump.
Context {K : Type} `{KernelOps K} `{NetlinkHeaders}.
Implicit Type n : nworld K.

Definition read_law (n : Z) : Prop := ∀ fd k bs, (k_read fd n k).1 = Some bs → answer_ok n bs.

Lemma wp_read fd len (Q : list Z * Z → nworld K → Prop) n :
  (∀ k, (k_read fd len (n_env n)).1 = None → Q (replicate (Z.to_nat len) 0, -1) (mkNworld k (n_open n) (n_seq n))) →
  (∀ bs k, (k_read fd len (n_env n)).1 = Some bs →
     Q (received len bs, Z.of_nat (length bs)) (mkNworld k (n_open n) (n_seq n))) →
  wp (NetLinkSocket.read fd len) Q n.
Proof.
  intros Hnone Hsome. apply wp_bind, wp_sys. intros r k Hk. rewrite Hk in *. apply wp_ret.
  destruct r as [bs|]; [by apply Hsome|by apply Hnone].
Qed.

(** What the caller gets when the socket is [fd] and the kernel is in [k]. *)
Definition dump_result (fd seq : Z) (k : K) (infos r : list NlkEventInfo) : Prop :=
  let '(sent, k1) := k_sendmsg fd (mkSockaddrNl AF_NETLINK 0) (encode_message (dump_request seq)) k in
  if to_i 32 sent <? 0 then r = infos
  else match (k_read fd NLK_SOCK_BUF_LEN k1).1 with
       | None => r = infos
       | Some bs =>
         ∃ links, scan (received NLK_SOCK_BUF_LEN bs) (Z.of_nat (length bs)) = Some links ∧
           r = infos ++ (default no_link <$> links)
       end.

Lemma wp_GetLinkInfo infos (Q : list NlkEventInfo → nworld K → Prop) n :
  socket_law → read_law NLK_SOCK_BUF_LEN → in_i 32 (n_seq n + 1) →
  (∀ k, Q infos (mkNworld k (n_open n) (n_seq n + 1))) →
  (∀ fd k t k' r, 0 <= fd → dump_result fd (n_seq n + 1) k infos r →
     Q r (mkNworld k' (fd :: n_open n) (to_i 32 t))) →
  wp (GetLinkInfo infos) Q n.
Proof.
  intros Hlaw Hread Hseq Hno Hyes. apply wp_bind, wp_bind, wp_gets. rewrite decide_True by done.
  apply wp_bind, wp_modify, wp_ret, wp_bind, wp_CreateNetLinkSocket; [done|intros k; by apply wp_ret|].
  cbn [n_open n_seq]. intros fd k t Hfd. rewrite (proj2 (Z.ltb_ge _ _)) by done.
  apply wp_bind, wp_bind, wp_sys. cbn [n_env]. intros sent k1 Hk1. apply wp_ret. rewrite request_encodes in Hk1.
  assert (Hres : ∀ r, (if to_i 32 sent <? 0 then r = infos else
    match (k_read fd NLK_SOCK_BUF_LEN k1).1 with
    | None => r = infos
    | Some bs => ∃ links, scan (received NLK_SOCK_BUF_LEN bs) (Z.of_nat (length bs)) = Some links ∧
        r = infos ++ (default no_link <$> links)
    end) → dump_result fd (n_seq n + 1) k infos r).
  { intros r Hr. unfold dump_result. by rewrite Hk1. }
  destruct (to_i 32 sent <? 0); [by apply wp_ret, (Hyes _ k), Hres|].
  apply wp_bind, wp_read; cbn [n_env fst snd]; [intros k2 Hr|intros bs k2 Hr]; unfold wp; rewrite ProcessReadMsg_scans.
  - rewrite scan_nothing. eexists _, _. split; [done|]. apply (Hyes _ k); [done|]. apply Hres. rewrite Hr.
    by rewrite app_nil_r.
  - destruct (scan_received NLK_SOCK_BUF_LEN bs) as [l Hl]; [done|by eapply Hread|]. rewrite Hl.
    eexists _, _. split; [done|]. apply (Hyes _ k); [done|]. apply Hres. rewrite Hr. by exists l.
Qed.

End Dump.

(** A kernel to run examples on: it answers a read with the sample messages,
    and every [select] with a timeout. *)
#[global] Instance sample_kernel : KernelOps unit := {
  k_socket _ _ _ k := (3, k);
  k_set_nonblock _ k := (0, k);
  k_set_rcvbuf _ _ k := (0, k);
  k_bind _ _ k := (0, k);
  k_getsockname _ a n k := (0, a, n, k);
  k_sendmsg _ _ bs k := (Z.of_nat (length bs), k);
  k_read _ _ k := (Some sample_bytes, k);
  k_select _ _ k := (0, false, mkTimeval 0 0, k);
  k_ioctl_get_flags _ _ k := (0, k);
  k_ioctl_set_addr _ _ _ _ k := (0, k);
  k_ioctl_get_hwaddr _ _ k := (0, [2; 0; 0; 0; 0; 1; 0; 0; 0; 0; 0; 0; 0; 0], k);
  k_inet_pton _ bs := (1, bs);
  k_time k := (1650000000, k);
  k_close _ k := (0, k);
}.

Definition sample_nworld : nworld unit := mkNworld tt [] 0.

Lemma sample_socket_law : socket_law (K := unit).
Proof. intros d t p k. simpl. lia. Qed.

Lemma sample_bytes_ok : bytes sample_bytes.
Proof. by apply bytes_decide. Qed.

Lemma sample_read_law n : 1000 <= n → read_law (K := unit) n.
Proof.
  intros Hn fd k bs [= <-]. assert (Hl : Z.of_nat (length sample_bytes) <= 500) by by vm_compute.
  split; [apply sample_bytes_ok|]. split; [|left]; lia.
Qed.

(** The dump of the links. [GetLinkInfo] without a socket returns the list
    as it was. With one, it sends the well-formed request for a dump of all
    links under the next sequence number, reads once, and appends what the
    first answer describes, nothing when sending or reading fails; and the
    descriptor stays open on every one of these branches. *)
Theorem link_dump {K} `{KernelOps K} `{NetlinkHeaders} infos (n : nworld K) :
  socket_law → read_law NLK_SOCK_BUF_LEN → in_i 32 (n_seq n + 1) →
  wp (GetLinkInfo infos) (λ r n',
    r = infos ∧ n_open n' = n_open n ∧ n_seq n' = n_seq n + 1 ∨
    ∃ fd k, 0 <= fd ∧ n_open n' = fd :: n_open n ∧ in_i 32 (n_seq n') ∧
      dump_result fd (n_seq n + 1) k infos r) n.
Proof.
  intros Hlaw Hread Hseq. apply wp_GetLinkInfo; [done..|by left|].
  intros fd k t k' r Hfd Hr. right. exists fd, k. split_and!; [done..|by apply to_i_range|done].
Qed.

Lemma link_dump_witness :
  ∃ n', GetLinkInfo [] sample_nworld = Some ([mkNlkEventInfo "eth0" 65537; no_link], n') ∧ n_open n' = [3].
Proof.
  destruct (link_dump [] sample_nworld sample_socket_law (sample_read_law NLK_SOCK_BUF_LEN ltac:(by vm_compute))
    ltac:(by vm_compute))
    as (r & n' & Hr & [(-> & Ho & _)|(fd & k & _ & Ho & _ & Hd)]).
  - vm_compute in Hr. congruence.
  - exists n'. destruct Hd as (links & Hs & ->). assert (Hl : Some links = Some [Some (mkNlkEventInfo "eth0" 65537); None]).
    { rewrite <- Hs. vm_compute. reflexivity. }
    injection Hl as ->. split; [exact Hr|]. vm_compute in Hr. by injection Hr as <-.
Defined.

(** The descriptors of the other functions. [SetIpAddr] and [GetHWaddr]
    close on every branch what they opened, and [CreateNetLinkSocket] leaves
    its socket open exactly when it returns it; a hardware address has six
    bytes at most, and [SetIpAddr] one of two results. *)
Theorem netlink_descriptors {K} `{KernelOps K} ifName ip (n : nworld K) :
  socket_law →
  wp (SetIpAddr ifName ip) (λ r n', n_open n' = n_open n ∧ (r = ETHERNET_SUCCESS ∨ r = ETHERNET_ERROR)) n ∧
  wp (GetHWaddr ifName) (λ r n', n_open n' = n_open n ∧ Z.of_nat (length r) <= NLK_HWADDR_LEN) n ∧
  wp CreateNetLinkSocket (λ fd n', n_open n' = if fd <? 0 then n_open n else fd :: n_open n) n.
Proof.
  intros Hlaw. split_and!.
  - by apply wp_SetIpAddr.
  - by apply wp_GetHWaddr.
  - apply wp_CreateNetLinkSocket; [done..|]. intros fd k t Hfd. by rewrite (proj2 (Z.ltb_ge _ _)).
Qed.

Lemma netlink_descriptors_witness :
  ∃ n', SetIpAddr "eth0" "10.0.0.2" sample_nworld = Some (0, n') ∧ n_open n' = [].
Proof.
  destruct (netlink_descriptors "eth0" "10.0.0.2" sample_nworld sample_socket_law) as ((r & n' & Hr & Ho & _) & _).
  exists n'. split; [|exact Ho]. rewrite Hr. vm_compute in Hr. by injection Hr as <-.
Defined.

(** ** The listener *)

(** The time of a [struct timeval] in microseconds. *)
Definition usec (t : timeval) : Z := tv_sec t * 1000000 + tv_usec t.

(** [select] of Linux leaves the time that it did not sleep: never more than
    there was, and none when it timed out. *)
Definition select_law {K} `{KernelOps K} : Prop := ∀ fd t k, 0 <= usec t →
  let '(r, _, t', _) := k_select fd t k in 0 <= usec t' <= usec t ∧ (r = 0 → usec t' = 0).

Definition set_kernel {K E} (n : nworld K) (w : eworld (nworld K * E)) : eworld (nworld K * E) :=
  mkEworld (n, (e_env w).2) (e_log w) (ethManagement_ w) (nlkHandles_ w) (e_registerToService_ w) (e_running_ w).

Definition kernel_of {K E} (w : eworld (nworld K * E)) : nworld K := (e_env w).1.

Section Listener.
Context {K E : Type} `{KernelOps K} `{NetlinkHeaders} `{EthPlatform E}.
Implicit Type w : eworld (nworld K * E).

Lemma wp_on_kernel {A} (m : st (nworld K) A) (Q : A → eworld (nworld K * E) → Prop) w :
  wp m (λ a n, Q a (set_kernel n w)) (kernel_of w) → wp (on_kernel m) Q w.
Proof. intros (a & n & Hm & HQ). eexists _, _. split; [unfold on_kernel; fold (kernel_of w); by rewrite Hm|done]. Qed.

Lemma wp_NetLinkHandle fd t (Q : Z * timeval → eworld (nworld K * E) → Prop) w :
  read_law NLK_BUFF_LEN → eth_inv w →
  (∀ r isset t' k, k_select fd t (n_env (kernel_of w)) = (r, isset, t', k) →
     ∀ z w', eth_inv w' → Q (z, t') w') →
  wp (NetLinkHandle fd t) Q w.
Proof.
  intros Hread Hw HQ. apply wp_bind, wp_on_kernel, wp_sys. intros [[r isset] t'] k Hk. specialize (HQ r isset t' k Hk).
  destruct (r <? 0); [by apply wp_ret, HQ|]. destruct (0 <? r); [|by apply wp_ret, HQ].
  destruct isset; [|by apply wp_ret, HQ]. apply wp_bind, wp_on_kernel, wp_read; [intros k2 Hr|intros bs k2 Hr];
    apply wp_bind; unfold wp at 1; rewrite ProcessLinkEventMsg_scans; cbn [fst snd].
  - rewrite scan_nothing. eexists _, _. split; [done|]. by apply wp_ret, HQ.
  - destruct (scan_received NLK_BUFF_LEN bs) as [l ->]; [done|by eapply Hread|].
    eapply wp_mono; [by apply for_each_ProcessIfInfo_ok|]. intros [] w' Hw'. by apply wp_ret, HQ.
Qed.

Lemma wp_listener_rounds n fd t w :
  read_law NLK_BUFF_LEN → select_law → eth_inv w → 0 <= usec t →
  wp (listener_rounds n fd t) (λ t' w', eth_inv w' ∧ 0 <= usec t' <= usec t) w.
Proof.
  intros Hread Hsel. revert t w. induction n as [|n IH]; intros t w Hw Ht; [by apply wp_ret|].
  apply wp_bind, wp_NetLinkHandle; [done..|]. intros r isset t' k Hk z w' Hw'. cbn [snd].
  pose proof (Hsel fd t (n_env (kernel_of w)) Ht) as Hs. rewrite Hk in Hs. destruct Hs as [Hs _].
  eapply wp_mono; [apply IH; [done|lia]|]. intros t2 w2 [Hw2 Ht2]. split; [done|lia].
Qed.

End Listener.

(** The listener. Whatever number of rounds it runs, the thread is never
    undefined and keeps the service consistent. All its waiting together is
    bounded by the five seconds of the first timeout, which [select] uses up
    and nothing sets again: from the first [select] that times out on, every
    later one is called with no time to wait, and the thread polls. *)
Theorem listener_spins {K E} `{KernelOps K} `{NetlinkHeaders} `{EthPlatform E} (w : eworld (nworld K * E)) fd :
  socket_law → read_law NLK_BUFF_LEN → select_law → eth_inv w →
  (∀ n, wp (NetLinkListenerThead n) (λ _, eth_inv) w) ∧
  ∀ n, wp (listener_rounds n fd (mkTimeval NLK_TV_SEC NLK_TV_USEC)) (λ t w1,
    0 <= usec t <= 5000000 ∧
    let '(r, _, _, _) := k_select fd t (n_env (kernel_of w1)) in
    r = 0 → ∀ m, wp (listener_rounds (S m) fd t) (λ t2 _, usec t2 = 0) w1) w.
Proof.
  intros Hlaw Hread Hsel Hw. split; intros n.
  - apply wp_bind, wp_on_kernel, wp_bind, wp_socket; [done|by intros k; do 2 apply wp_ret|].
    intros fd' k Hfd. rewrite (proj2 (Z.ltb_ge _ _)) by done. apply wp_bind, wp_sys. intros r k1 _.
    destruct (negb (r =? 0)); [by do 2 apply wp_ret|]. apply wp_bind, wp_sys. intros r2 k2 _. apply wp_ret.
    destruct (r2 =? 0); [|by apply wp_ret]. apply wp_bind.
    eapply wp_mono; [by apply wp_listener_rounds|]. intros t w' [Hw' _]. by apply wp_ret.
  - eapply wp_mono; [by apply wp_listener_rounds|]. intros t w1 [Hw1 Ht]. split; [exact Ht|].
    destruct (k_select fd t _) as [[[r isset] t'] k] eqn:Hk. intros -> m.
    pose proof (Hsel fd t (n_env (kernel_of w1)) (proj1 Ht)) as Hs. rewrite Hk in Hs. destruct Hs as [_ Hs].
    apply wp_bind, wp_NetLinkHandle; [done..|]. intros r' isset' t2 k2 Hk2 z w2 Hw2. rewrite Hk in Hk2. injection Hk2 as <- <- <- <-.
    specialize (Hs eq_refl). eapply wp_mono; [apply wp_listener_rounds; [done..|cbn [snd]; lia]|].
    intros t3 w3 [_ Ht3]. cbn [snd] in Ht3. lia.
Qed.

Definition sample_eworld : eworld (nworld unit * unit) := EthernetService.construct (sample_nworld, tt).

Lemma sample_select_law : select_law (K := unit).
Proof. intros fd t k Ht. cbn. split; [split; [done|exact Ht]|done]. Qed.

Lemma listener_spins_witness :
  wp (listener_rounds 100 3 (mkTimeval NLK_TV_SEC NLK_TV_USEC)) (λ t2 _, usec t2 = 0) sample_eworld.
Proof.
  destruct (listener_spins sample_eworld 3 sample_socket_law (sample_read_law NLK_BUFF_LEN ltac:(by vm_compute))
    sample_select_law (inv_construct _)) as [_ Hs].
  destruct (Hs 0%nat) as (t & w1 & [= <- <-] & _ & Hm). exact (Hm eq_refl 99%nat).
Defined.

(** ** The start of the ethernet service *)

Section Start.
Context {E : Type} `{EthPlatform E}.
Implicit Type w : eworld E.

Lemma wp_eth_ext {A} ev (f : E → A * E) (Q : A → eworld E → Prop) w :
  (∀ a e, f (e_env w) = (a, e) →
     Q a (mkEworld e (e_log w ++ [ev]) (ethManagement_ w) (nlkHandles_ w) (e_registerToService_ w) (e_running_ w))) →
  wp (eth_ext ev f) Q w.
Proof.
  intros HQ. unfold wp, eth_ext. destruct (f (e_env w)) as [a e]. eexists _, _. split; [done|]. by apply HQ.
Qed.

Lemma wp_eth_query_run {A} (f : E → A * E) (Q : A → eworld E → Prop) w :
  (∀ a e, f (e_env w) = (a, e) →
     Q a (mkEworld e (e_log w) (ethManagement_ w) (nlkHandles_ w) (e_registerToService_ w) (e_running_ w))) →
  wp (eth_query f) Q w.
Proof.
  intros HQ. unfold wp, eth_query. destruct (f (e_env w)) as [a e]. eexists _, _. split; [done|]. by apply HQ.
Qed.

(** The interfaces of the service are those of [P], and it handles link events
    [h] times. *)
Definition tracks (h : nat) (P : string → Prop) w : Prop :=
  nlkHandles_ w = h ∧ ∃ m, ethManagement_ w = Some m ∧ ∀ iface, is_Some (devs_ m !! iface) ↔ P iface.

Lemma tracks_iff h (P P' : string → Prop) w : (∀ iface, P iface ↔ P' iface) → tracks h P w → tracks h P' w.
Proof. intros Hiff (Hh & m & Hm & Hd). split; [done|]. exists m. split; [done|]. intros iface. by rewrite Hd. Qed.

Lemma tracks_calls h P evs w w' : calls evs w w' → tracks h P w → tracks h P w'.
Proof. intros (_ & Hm' & Hh' & _) (Hh & m & Hm & Hd). split; [by rewrite Hh'|]. exists m. by rewrite Hm'. Qed.

(** The end of [init_dev]. *)
Lemma insert_dev_tracks h P name d w :
  tracks h P w →
  wp (fit ← EthernetManagement.find_dev name ;
      match fit with Some _ => mret tt | None => EthernetManagement.put_dev name d end)
    (λ _ w', tracks h (λ i, P i ∨ i = name) w') w.
Proof.
  intros (Hh & m & Hm & Hd). apply wp_bind. eapply wp_find_dev; [exact Hm|].
  destruct (devs_ m !! name) as [p|] eqn:Ep.
  - apply wp_ret. split; [done|]. exists m. split; [done|]. intros i. rewrite Hd. split; [by left|]. intros [H1| ->]; [done|].
    apply Hd. by eexists.
  - eapply wp_put_dev; [by eexists|apply calls_nil|]. intros w' (_ & Hh' & m' & Hm1 & Hm2) _ _.
    split; [by rewrite Hh'|].
    rewrite Hm in Hm1. injection Hm1 as <-. eexists. split; [exact Hm2|]. intros i. cbn [devs_].
    rewrite lookup_insert_is_Some', Hd.
    split; (intros [H1|H1]; [by right|by left]).
Qed.

Lemma init_dev_tracks h P it w :
  tracks h P w → wp (EthernetManagement.init_dev it) (λ _ w', tracks h (λ i, P i ∨ i = iface_ it ∧ i ≠ ""%string) w') w.
Proof.
  intros Hw. unfold EthernetManagement.init_dev. cbv zeta. destruct (String.eqb_spec (iface_ it) "") as [He|He].
  { apply wp_ret. eapply tracks_iff; [|exact Hw]. intros i. split; [by left|]. intros [H1|[H1 H2]]; congruence. }
  assert (Hend : ∀ d w1, tracks h P w1 →
    wp (fit ← EthernetManagement.find_dev (iface_ it) ;
        match fit with Some _ => mret tt | None => EthernetManagement.put_dev (iface_ it) d end)
      (λ _ w', tracks h (λ i, P i ∨ i = iface_ it ∧ i ≠ ""%string) w') w1).
  { intros d w1 Hw1. eapply wp_mono; [by apply insert_dev_tracks|]. intros x w2. apply tracks_iff.
    intros i. split; (intros [H1|H1]; [by left|right]); [by subst|apply H1]. }
  apply wp_bind, wp_SetIfcfg. intros w1 H1. pose proof (tracks_calls h P _ _ _ H1 Hw) as Hw1.
  apply wp_bind, wp_eth_query. intros hw w2 H2. pose proof (tracks_calls h P _ _ _ H2 Hw1) as Hw2.
  apply wp_bind, wp_register; [done|]. intros id w3 H3. pose proof (tracks_calls h P _ _ _ H3 Hw2) as Hw3.
  cbn [snd]. apply wp_bind. destruct (_ && _).
  - apply wp_bind, wp_announce; [by eexists|]. intros z w4 H4. pose proof (tracks_calls h P _ _ _ H4 Hw3) as Hw4.
    by apply wp_ret, Hend.
  - by apply wp_ret, Hend.
Qed.

Lemma init_devs_track h P l w :
  tracks h P w →
  wp (for_each EthernetManagement.init_dev l)
    (λ _ w', tracks h (λ i, P i ∨ i ≠ ""%string ∧ i ∈ iface_ <$> l) w') w.
Proof.
  revert P w. induction l as [|it l IH]; intros P w Hw.
  - apply wp_ret. eapply tracks_iff; [|exact Hw]. intros i. rewrite elem_of_nil. tauto.
  - apply wp_bind. eapply wp_mono; [by apply init_dev_tracks|]. intros x1 w1 Hw1.
    eapply wp_mono; [exact (IH _ _ Hw1)|]. intros x2 w2. apply tracks_iff. intros i. rewrite fmap_cons, elem_of_cons. tauto.
Qed.

Lemma tracks_construct (e : E) : tracks 0 (λ _, False) (EthernetService.construct e).
Proof. split; [done|]. exists (mkManagement ∅ true). split; [done|]. intros i. cbn [devs_]. rewrite lookup_empty. split; [by intros []|done]. Qed.

End Start.

Lemma beside_run {K E A} (f : E → A * E) (n : nworld K) e a x :
  beside f (n, e) = (a, x) → ∃ e', x = (n, e') ∧ f e = (a, e').
Proof. unfold beside. cbn [fst snd]. destruct (f e) as [a' e'] eqn:Ef. intros [= <- <-]. by exists e'. Qed.

(** The default entry of a link that is not ethernet has no name. *)
Lemma named_links (links : list (option NlkEventInfo)) iface :
  iface ≠ ""%string ∧ iface ∈ iface_ <$> (default no_link <$> links) ↔
  iface ≠ ""%string ∧ ∃ info, Some info ∈ links ∧ iface_ info = iface.
Proof.
  split; intros [Hne Hin]; (split; [done|]).
  - apply list_elem_of_fmap in Hin as (x & -> & Hin). apply list_elem_of_fmap in Hin as ([info|] & -> & Hin); [|done].
    by exists info.
  - destruct Hin as (info & Hin & <-). apply list_elem_of_fmap. exists info. split; [done|].
    apply list_elem_of_fmap. by exists (Some info).
Qed.

Lemma link_dump_run :
  ∃ n', GetLinkInfo [] sample_nworld = Some (default no_link <$> [Some (mkNlkEventInfo "eth0" 65537); None], n').
Proof. eexists. vm_compute. reflexivity. Qed.

(** The start of the ethernet service on the answer of the kernel. When
    the service can be published and the kernel's dump describes [links], the
    service tracks after [OnStart] exactly the ethernet links that have a name:
    the default entries for other links add nothing. *)
Lemma eth_start_tracks {K E} `{KernelOps K} `{NetlinkHeaders} `{EthPlatform E} (n n' : nworld K) (e : E) links :
  eth_registerLocalResult = true → (∀ e, (eth_Publish e).1 = true) →
  GetLinkInfo [] n = Some (default no_link <$> links, n') →
  wp EthernetService.OnStart (λ _ w,
    e_running_ w = true ∧
    tracks 1 (λ iface, iface ≠ ""%string ∧ ∃ info, Some info ∈ links ∧ iface_ info = iface) w)
    (EthernetService.construct (n, e)).
Proof.
  intros Hreg Hpub Hdump. apply wp_bind, wp_gets. cbn [id EthernetService.construct e_running_].
  apply wp_bind. unfold EthernetService.Init. cbn [eth_registerLocalResult kernel_platform]. rewrite Hreg. cbn [negb].
  apply wp_bind, wp_gets. cbn [id e_registerToService_ negb]. apply wp_bind, wp_eth_ext.
  intros b x (e1 & -> & He)%beside_run. specialize (Hpub e). rewrite He in Hpub. cbn in Hpub. subst b.
  apply wp_bind, wp_modify, wp_ret. cbn [negb].
  apply wp_bind, wp_eth_ext. intros z x (e2 & -> & _)%beside_run.
  apply wp_bind, wp_gets. apply wp_bind, wp_bind, wp_bind, wp_eth_query_run.
  intros infos x Hx. cbn in Hx. unfold total in Hx. cbn [fst snd] in Hx. rewrite Hdump in Hx. simplify_eq/=.
  set (w0 := mkEworld _ _ _ _ _ _). assert (Hw0 : tracks 0 (λ _, False) w0) by apply (tracks_construct (n, e)).
  eapply (wp_mono _ (λ _, tracks 0 (λ i, i ≠ ""%string ∧ i ∈ iface_ <$> (default no_link <$> links)))).
  - destruct (Z.leb_spec (Z.of_nat (length (default no_link <$> links))) 0) as [Hl|Hl].
    + apply wp_ret. destruct links; [|simpl in Hl; lia]. eapply tracks_iff; [|exact Hw0]. intros i.
      rewrite elem_of_nil. tauto.
    + eapply wp_mono; [exact (init_devs_track _ _ _ _ Hw0)|]. intros x' w'. apply tracks_iff. tauto.
  - intros [] w [Hh Ht]. apply wp_modify, wp_modify. split; [done|]. split; [cbn; by rewrite Hh|].
    destruct Ht as (m & Hm & Hd). exists m. split; [done|]. intros iface. rewrite Hd.
    by rewrite named_links.
Qed.

Lemma eth_start_tracks_witness :
  wp EthernetService.OnStart (λ _ w, tracks 1 (λ iface, iface = "eth0"%string) w) sample_eworld.
Proof.
  destruct (link_dump_run) as [n' Hd].
  eapply wp_mono; [apply (eth_start_tracks sample_nworld n' tt [Some (mkNlkEventInfo "eth0" 65537); None]); [done..|exact Hd]|].
  intros x w [_ Ht]. eapply tracks_iff; [|exact Ht]. intros iface. split.
  - intros [_ (info & Hin & <-)]. apply elem_of_cons in Hin as [[= ->]|Hin]; [done|].
    apply elem_of_cons in Hin as [Hin|Hin]; [done|]. by apply elem_of_nil in Hin.
  - intros ->. split; [done|]. eexists. split; [by apply elem_of_cons; left|done].
Defined.
