(* ===== verification/NetdRoute.v ===== *)
(** * Routes without the native netd

    [netd_controller.cpp] compiled without [NATIVE_NETD_FEATURE]: every call is
    a success that does nothing, apart from [NetworkAddRoute], which asks the
    kernel itself. The descriptors are those of [NetlinkSocket]. *)

From S2P Require Import Prelude Parcel Parcelables Host CppStrings Ethernet.
From S2P Require Import Netlink NetlinkSocket NetlinkProps NetlinkSocketProps.
Import NetLinkSocket.

(** ** The interface *)

(** <netinet/in.h>, <net/route.h>: the fields that are set. *)
Record sockaddr_in := mkSockaddrIn { sin_family : Z; sin_port : Z; sin_addr : list Z }.

Record rtentry := mkRtentry {
  rt_dst : sockaddr_in;
  rt_gateway : sockaddr_in;
  rt_genmask : sockaddr_in;
  rt_flags : Z;
  rt_dev : option string;
}.

Definition RTF_GATEWAY : Z := 2.

(** [inet_aton] of a string and of what the address was before; [ioctl] of
    [SIOCADDRT]. *)
Class RouteKernel (K : Type) := {
  k_inet_aton : string → list Z → Z * list Z;
  k_ioctl_add_route : Z → rtentry → K → Z * K;
}.

(** After [bzero]. *)
Definition blank_address : sockaddr_in := mkSockaddrIn 0 0 (replicate 4 0).

(** ** netd_controller.cpp *)

Module NetdPlain.
Section Code.
Context {K : Type} `{KernelOps K} `{RouteKernel K}.

Definition AddRoute (ip mask gateWay devName : string) : st (nworld K) Z :=
  fd ← socket AF_INET SOCK_DGRAM 0 ;
  if fd <? 0 then mret (-1)
  else
    let '(r, gw) := k_inet_aton (c_str gateWay) (sin_addr blank_address) in
    if r <? 0 then mret (-1)
    else
      let '(r, dst) := k_inet_aton (c_str ip) (sin_addr blank_address) in
      if r <? 0 then mret (-1)
      else
        let '(r, gm) := k_inet_aton (c_str mask) (sin_addr blank_address) in
        if r <? 0 then mret (-1)
        else
          let dev := if String.eqb devName "" then None else Some (c_str devName) in
          ret ← sys (k_ioctl_add_route fd (mkRtentry (mkSockaddrIn AF_INET 0 dst) (mkSockaddrIn AF_INET 0 gw)
                       (mkSockaddrIn AF_INET 0 gm) RTF_GATEWAY dev)) ;
          if ret <? 0 then mret (-1) else close fd ;; mret 0.

(** The branch of [NetworkAddRoute]; the network is not used. *)
Definition NetworkAddRoute (netId : Z) (ifName destination nextHop : string) : st (nworld K) Z :=
  AddRoute destination "0.0.0.0" nextHop ifName.

End Code.
End NetdPlain.

(** ** What it does *)

(** [inet_aton] "returns nonzero if the address is valid, zero if not", and
    leaves the address alone when it is not. *)
Definition aton_law {K} `{RouteKernel K} : Prop :=
  ∀ s a, 0 <= (k_inet_aton s a).1 ∧ ((k_inet_aton s a).1 = 0 → (k_inet_aton s a).2 = a).

Section Route.
Context {K : Type} `{KernelOps K} `{RouteKernel K}.
Implicit Type n : nworld K.

(** The bytes of a string, and 0.0.0.0 for one that is not an address. *)
Definition address (s : string) : list Z :=
  let '(r, a) := k_inet_aton (c_str s) (replicate 4 0) in if r =? 0 then replicate 4 0 else a.

Lemma aton_address s : aton_law → ∃ r, 0 <= r ∧ k_inet_aton (c_str s) (replicate 4 0) = (r, address s).
Proof.
  intros Hlaw. destruct (Hlaw (c_str s) (replicate 4 0)) as [Hr Hz]. unfold address.
  destruct (k_inet_aton (c_str s) (replicate 4 0)) as [r a]. cbn [fst snd] in *. exists r. split; [done|].
  destruct (Z.eqb_spec r 0) as [->|]; [by rewrite Hz|done].
Qed.

(** The one route that is asked for. *)
Definition route_to (ip mask gateWay devName : string) : rtentry :=
  mkRtentry (mkSockaddrIn AF_INET 0 (address ip)) (mkSockaddrIn AF_INET 0 (address gateWay))
    (mkSockaddrIn AF_INET 0 (address mask)) RTF_GATEWAY
    (if String.eqb devName "" then None else Some (c_str devName)).

End Route.

(** A route without the native netd. Without a socket nothing is asked and
    the answer is -1. With one, the kernel is asked for exactly one route,
    through the gateway and the device, with 0.0.0.0 in the place of any string
    that is not an address, since [inet_aton] is never negative; the answer is 0
    when the kernel agrees, and the descriptor is closed then, and only then. *)
Lemma add_route {K} `{KernelOps K} `{RouteKernel K} ip mask gateWay devName (n : nworld K) :
  socket_law → aton_law →
  wp (NetdPlain.AddRoute ip mask gateWay devName) (λ r n',
    n_seq n' = n_seq n ∧
    ((r = -1 ∧ n_open n' = n_open n ∧ (k_socket AF_INET SOCK_DGRAM 0 (n_env n)).1 = -1) ∨
     ∃ fd k, k_socket AF_INET SOCK_DGRAM 0 (n_env n) = (fd, k) ∧ 0 <= fd ∧
       let '(z, k') := k_ioctl_add_route fd (route_to ip mask gateWay devName) k in
       if z <? 0 then r = -1 ∧ n' = mkNworld k' (fd :: n_open n) (n_seq n)
       else r = 0 ∧ n' = mkNworld (k_close fd k').2 (n_open n) (n_seq n))) n.
Proof.
  intros Hsock Haton. apply wp_bind, wp_bind, wp_sys. intros fd k Hk.
  pose proof (Hsock AF_INET SOCK_DGRAM 0 (n_env n)) as Hfd. rewrite Hk in Hfd |- *. cbn [fst] in *.
  apply wp_bind, wp_modify, wp_ret. cbn [n_env n_open n_seq].
  destruct (Z.ltb_spec fd 0) as [Hneg|Hpos].
  { apply wp_ret. split; [done|]. left. rewrite (proj2 (Z.leb_gt _ _)) by lia. split_and!; [done|done|lia]. }
  rewrite (proj2 (Z.leb_le _ _)) by done. cbn [sin_addr blank_address].
  destruct (aton_address gateWay Haton) as (r1 & ? & ->). rewrite (proj2 (Z.ltb_ge _ _)) by done.
  destruct (aton_address ip Haton) as (r2 & ? & ->). rewrite (proj2 (Z.ltb_ge _ _)) by done.
  destruct (aton_address mask Haton) as (r3 & ? & ->). rewrite (proj2 (Z.ltb_ge _ _)) by done.
  fold (route_to ip mask gateWay devName). apply wp_bind, wp_sys. intros z k' Hz. cbn [n_env n_open n_seq].
  destruct (z <? 0) eqn:Ez.
  - apply wp_ret. split; [done|]. right. exists fd, k. cbn [n_env] in Hz. rewrite Hz, Ez. by split_and!.
  - apply wp_bind, wp_bind, wp_sys. intros c k2 Hc. apply wp_modify, wp_ret. cbn [n_env n_open n_seq erase_first] in *.
    rewrite Z.eqb_refl. split; [done|]. right. exists fd, k. rewrite Hz, Ez, Hc. by split_and!.
Qed.

(** The kernel refuses every route, and no string is an address. *)
#[local] Instance refusing : RouteKernel unit := {
  k_inet_aton _ a := (0, a);
  k_ioctl_add_route _ _ k := (-1, k);
}.

Lemma add_route_witness :
  ∃ n', NetdPlain.AddRoute "nowhere" "0.0.0.0" "10.0.0.1" "eth0" sample_nworld = Some (-1, n') ∧ n_open n' = [3].
Proof.
  destruct (add_route "nowhere" "0.0.0.0" "10.0.0.1" "eth0" sample_nworld) as (r & n' & Hr & _ & [(_ & _ & Hs)|(fd & k & Hs & _ & Hz)]).
  - apply sample_socket_law.
  - by intros s a.
  - discriminate Hs.
  - injection Hs as <- <-. destruct Hz as [-> ->]. eexists. split; [exact Hr|reflexivity].
Defined.
