(* ===== verification/Regex.v ===== *)
(** * Regular expressions

    The part of [std::regex] that the sources use: character classes,
    sequence, option, repetition with bounds. [regex_match] runs by
    derivatives; it decides [matches], the usual meaning. *)

From Stdlib Require Import Ascii.
From S2P Require Import Prelude.

Inductive regex :=
  | RNone
  | REmpty
  | RClass (c : ascii → bool)
  | RSeq (r1 r2 : regex)
  | RAlt (r1 r2 : regex)
  | RStar (r : regex).

(** [r+], [r?], [r{n}] and [r{n,m}] with [m = n + k]. *)
Definition RPlus (r : regex) : regex := RSeq r (RStar r).
Definition ROpt (r : regex) : regex := RAlt r REmpty.

Fixpoint RTimes (n : nat) (r : regex) : regex :=
  match n with O => REmpty | S n' => RSeq r (RTimes n' r) end.

Fixpoint RUpTo (k : nat) (r : regex) : regex :=
  match k with O => REmpty | S k' => ROpt (RSeq r (RUpTo k' r)) end.

Definition RBetween (n k : nat) (r : regex) : regex := RSeq (RTimes n r) (RUpTo k r).

(** The meaning. *)
Inductive matches : regex → list ascii → Prop :=
  | MEmpty : matches REmpty []
  | MClass c x : c x = true → matches (RClass c) [x]
  | MSeq r1 r2 s1 s2 : matches r1 s1 → matches r2 s2 → matches (RSeq r1 r2) (s1 ++ s2)
  | MAltL r1 r2 s : matches r1 s → matches (RAlt r1 r2) s
  | MAltR r1 r2 s : matches r2 s → matches (RAlt r1 r2) s
  | MStarNil r : matches (RStar r) []
  | MStarCons r s1 s2 : matches r s1 → matches (RStar r) s2 → matches (RStar r) (s1 ++ s2).

Fixpoint nullable (r : regex) : bool :=
  match r with
  | RNone | RClass _ => false
  | REmpty | RStar _ => true
  | RSeq r1 r2 => nullable r1 && nullable r2
  | RAlt r1 r2 => nullable r1 || nullable r2
  end.

(** What may follow after the character [x]. *)
Fixpoint derive (x : ascii) (r : regex) : regex :=
  match r with
  | RNone | REmpty => RNone
  | RClass c => if c x then REmpty else RNone
  | RSeq r1 r2 =>
    if nullable r1 then RAlt (RSeq (derive x r1) r2) (derive x r2) else RSeq (derive x r1) r2
  | RAlt r1 r2 => RAlt (derive x r1) (derive x r2)
  | RStar r => RSeq (derive x r) (RStar r)
  end.

Definition regex_match (s : string) (r : regex) : bool :=
  nullable (foldl (λ r x, derive x r) r (String.list_ascii_of_string s)).

(** ** Inversion *)

Lemma matches_none s : ¬ matches RNone s.
Proof. inversion 1. Qed.

Lemma matches_empty s : matches REmpty s ↔ s = [].
Proof. split; [by inversion 1|intros ->; constructor]. Qed.

Lemma matches_class c s : matches (RClass c) s ↔ ∃ x, s = [x] ∧ c x = true.
Proof. split; [inversion 1; eauto|]. intros (x & -> & ?). by constructor. Qed.

Lemma matches_seq r1 r2 s :
  matches (RSeq r1 r2) s ↔ ∃ s1 s2, s = s1 ++ s2 ∧ matches r1 s1 ∧ matches r2 s2.
Proof. split; [inversion 1; eauto|]. intros (s1 & s2 & -> & ? & ?). by constructor. Qed.

Lemma matches_alt r1 r2 s : matches (RAlt r1 r2) s ↔ matches r1 s ∨ matches r2 s.
Proof. split; [inversion 1; auto|]. intros [?|?]; by constructor. Qed.

(** ** The derivative is right *)

Lemma nullable_matches r : nullable r = true ↔ matches r [].
Proof.
  induction r as [| |c|r1 IH1 r2 IH2|r1 IH1 r2 IH2|r IH]; simpl.
  - split; [done|]. by intros ?%matches_none.
  - split; [constructor|done].
  - split; [done|]. by intros (x & ? & _)%matches_class.
  - rewrite andb_true_iff, IH1, IH2, matches_seq. split; [intros [??]; by exists [], []|].
    intros (s1 & s2 & Es & H1 & H2). symmetry in Es. by apply app_eq_nil in Es as [-> ->].
  - by rewrite orb_true_iff, IH1, IH2, matches_alt.
  - split; [constructor|done].
Qed.

(** A repetition that matches something starts with a match of something. *)
Lemma star_cons r x s :
  matches (RStar r) (x :: s) ↔
  ∃ s1 s2, s = s1 ++ s2 ∧ matches r (x :: s1) ∧ matches (RStar r) s2.
Proof.
  split; [|intros (s1 & s2 & -> & ? & ?); by apply (MStarCons r (x :: s1))].
  intros H. remember (RStar r) as q eqn:Eq. remember (x :: s) as l eqn:El. revert s El.
  induction H as [| | | | | |r' s1 s2 H1 _ H2 IH]; intros s0 El; simplify_eq.
  destruct s1 as [|y s1]; [by apply IH|]. simpl in El. injection El as -> <-. eauto.
Qed.

Lemma derive_seq r1 r2 x s :
  matches (RSeq r1 r2) (x :: s) ↔
  (∃ s1 s2, s = s1 ++ s2 ∧ matches r1 (x :: s1) ∧ matches r2 s2) ∨
  (nullable r1 = true ∧ matches r2 (x :: s)).
Proof.
  rewrite matches_seq, nullable_matches. split.
  - intros (s1 & s2 & Es & H1 & H2). destruct s1 as [|y s1]; simpl in Es.
    + right. by subst.
    + left. injection Es as -> ->. eauto.
  - intros [(s1 & s2 & -> & H1 & H2)|[H1 H2]]; [by exists (x :: s1), s2|by exists [], (x :: s)].
Qed.

Lemma derive_matches x r s : matches (derive x r) s ↔ matches r (x :: s).
Proof.
  revert s. induction r as [| |c|r1 IH1 r2 IH2|r1 IH1 r2 IH2|r IH]; intros s; simpl.
  - split; by intros ?%matches_none.
  - rewrite matches_empty. split; [by intros ?%matches_none|done].
  - rewrite matches_class. destruct (c x) eqn:Ec.
    + rewrite matches_empty. split; [intros ->; eauto|]. by intros (y & [= <- ->] & _).
    + split; [by intros ?%matches_none|]. intros (y & [= <- ->] & ?). congruence.
  - rewrite derive_seq. setoid_rewrite <- IH1. destruct (nullable r1).
    + rewrite matches_alt, matches_seq, IH2. tauto.
    + rewrite matches_seq. split; [tauto|]. by intros [?|[??]].
  - by rewrite !matches_alt, IH1, IH2.
  - rewrite matches_seq, star_cons. by setoid_rewrite IH.
Qed.

Lemma regex_match_spec s r : regex_match s r = true ↔ matches r (String.list_ascii_of_string s).
Proof.
  unfold regex_match. generalize (String.list_ascii_of_string s) as l. intros l. revert r.
  induction l as [|x l IH]; intros r; simpl; [apply nullable_matches|]. rewrite IH. apply derive_matches.
Qed.

(** ** The derived forms *)

Lemma matches_opt r s : matches (ROpt r) s ↔ s = [] ∨ matches r s.
Proof.
  unfold ROpt. rewrite matches_alt, matches_empty. tauto.
Qed.

Lemma matches_star_class c s : matches (RStar (RClass c)) s ↔ Forall (λ x, c x = true) s.
Proof.
  split.
  - intros H. remember (RStar (RClass c)) as q eqn:Eq. induction H; simplify_eq; [done|].
    apply Forall_app. split; [|by apply IHmatches2]. apply matches_class in H as (x & -> & ?). by constructor.
  - induction 1 as [|x s Hx _ IH]; [constructor|].
    apply (MStarCons (RClass c) [x] s); [by constructor|done].
Qed.

Lemma matches_plus_class c s : matches (RPlus (RClass c)) s ↔ s ≠ [] ∧ Forall (λ x, c x = true) s.
Proof.
  unfold RPlus. rewrite matches_seq. split.
  - intros (s1 & s2 & -> & (x & -> & Hx)%matches_class & H%matches_star_class).
    split; [done|]. by constructor.
  - intros [Hs H]. destruct s as [|x s]; [done|]. apply Forall_cons in H as [Hx H].
    exists [x], s. split; [done|]. split; [by constructor|by apply matches_star_class].
Qed.

Lemma matches_times_class n c s :
  matches (RTimes n (RClass c)) s ↔ length s = n ∧ Forall (λ x, c x = true) s.
Proof.
  revert s. induction n as [|n IH]; intros s; simpl.
  - rewrite matches_empty. split; [by intros ->|]. intros [Hs _]. by destruct s.
  - rewrite matches_seq. split.
    + intros (s1 & s2 & -> & (x & -> & Hx)%matches_class & [<- H]%IH). split; [done|]. by constructor.
    + intros [Hs H]. destruct s as [|x s]; [done|]. apply Forall_cons in H as [Hx H].
      exists [x], s. split; [done|]. split; [by constructor|]. apply IH. split; [|done]. by injection Hs.
Qed.

Lemma matches_upto_class k c s :
  matches (RUpTo k (RClass c)) s ↔ (length s ≤ k)%nat ∧ Forall (λ x, c x = true) s.
Proof.
  revert s. induction k as [|k IH]; intros s; simpl.
  - rewrite matches_empty. split; [intros ->; split; [simpl; lia|done]|].
    intros [Hs _]. destruct s; [done|simpl in Hs; lia].
  - rewrite matches_opt, matches_seq. split.
    + intros [->|(s1 & s2 & -> & (x & -> & Hx)%matches_class & [Hl H]%IH)]; [split; [simpl; lia|done]|].
      split; [simpl; lia|by constructor].
    + intros [Hs H]. destruct s as [|x s]; [by left|]. right. apply Forall_cons in H as [Hx H].
      exists [x], s. split; [done|]. split; [by constructor|]. apply IH. split; [simpl in Hs; lia|done].
Qed.

Lemma matches_between_class n k c s :
  matches (RBetween n k (RClass c)) s ↔
  (n ≤ length s ≤ n + k)%nat ∧ Forall (λ x, c x = true) s.
Proof.
  unfold RBetween. rewrite matches_seq. split.
  - intros (s1 & s2 & -> & [Hn H1]%matches_times_class & [Hk H2]%matches_upto_class).
    rewrite length_app. split; [lia|]. by apply Forall_app.
  - intros [Hl H]. exists (take n s), (drop n s). rewrite take_drop. split; [done|].
    rewrite <- (take_drop n s) in H. apply Forall_app in H as [H1 H2]. split.
    + apply matches_times_class. split; [|done]. rewrite length_take. lia.
    + apply matches_upto_class. split; [|done]. rewrite length_drop. lia.
Qed.
