(* ===== verification/Dns.v ===== *)
(** * The DNS resolver service

    [dns_resolver_service.cpp] and the two methods of [NetdController] that
    only it calls. [getaddrinfo] hands out a linked list of structures in
    memory that the caller owns, so the model has a heap: a map from locations
    to blocks. A load from, or a release of, a block that is not there is
    undefined behaviour, and so is a [free] of a block that was not allocated on
    its own. *)

From Stdlib Require Import Ascii.
From S2P Require Import Prelude Parcel Parcelables Host CppStrings Regex.

(** ** Memory *)

(** [struct addrinfo], without the length of the address. *)
Record addrinfo := mkAddrinfo {
  ai_flags : Z;
  ai_family : Z;
  ai_socktype : Z;
  ai_protocol : Z;
  ai_addr : option positive;
  ai_canonname : option positive;
  ai_next : option positive;
}.

Inductive block :=
  | BAddrinfo (ai : addrinfo)
  | BBytes (bytes : list Z).

(** ** The platform *)

(** What [GetResolverInfo] fills in: the arguments it has by reference. *)
Record ResolverInfo := mkResolverInfo {
  ri_servers : list string;
  ri_domains : list string;
  ri_baseTimeoutMsec : Z;
  ri_retryCount : Z;
}.

(** The resolver of netd and [inet_ntop] for the sixteen bytes of an IPv6
    address. [native_getaddrinfo] gets the name, the hints and the network; it
    makes room for its answer. Where it puts the blocks is its own business, as
    it has [freeaddrinfo] to release them: [own_allocation l] says that the
    block [l] is an allocation of its own, whose address [free] accepts, and not
    a part of one that holds something else too. *)
Class DnsPlatform (E : Type) := {
  native_getaddrinfo : string → addrinfo → Z → E * gmap positive block → (Z * option positive) * (E * gmap positive block);
  native_getResolverInfo : Z → list string → list string → E → (Z * ResolverInfo) * E;
  inet_ntop6 : list Z → string;
  own_allocation : positive → bool;
}.

Record dworld (E : Type) := mkDworld {
  d_host : host E;
  d_heap : gmap positive block;
  d_running : bool;              (* state_ == STATE_RUNNING *)
  d_registerToService_ : bool;
}.
Arguments mkDworld {E}.
Arguments d_host {E}.
Arguments d_heap {E}.
Arguments d_running {E}.
Arguments d_registerToService_ {E}.

Definition set_dhost {E} (h : host E) (w : dworld E) : dworld E :=
  mkDworld h (d_heap w) (d_running w) (d_registerToService_ w).
Definition set_heap {E} (h : gmap positive block) (w : dworld E) : dworld E :=
  mkDworld (d_host w) h (d_running w) (d_registerToService_ w).
Definition set_dstate {E} (reg run : bool) (w : dworld E) : dworld E :=
  mkDworld (d_host w) (d_heap w) run reg.

Section Memory.
Context {E : Type} `{DnsPlatform E}.

Definition on_dhost {A} (m : st (host E) A) : st (dworld E) A := λ w,
  match m (d_host w) with Some (a, h) => Some (a, set_dhost h w) | None => None end.

Definition load (l : positive) : st (dworld E) block :=
  h ← gets d_heap ; deref (h !! l).

(** [p->member] for a [struct addrinfo *]. *)
Definition load_addrinfo (l : positive) : st (dworld E) addrinfo :=
  b ← load l ; match b with BAddrinfo ai => mret ai | BBytes _ => ub end.

(** [*p = ai]. *)
Definition store_addrinfo (l : positive) (ai : addrinfo) : st (dworld E) unit :=
  load_addrinfo l ;; modify (λ w, set_heap (<[l := BAddrinfo ai]> (d_heap w)) w).

(** [n] bytes at an offset of the block behind a pointer. *)
Definition load_bytes (p : option positive) (offset n : nat) : st (dworld E) (list Z) :=
  l ← deref p ;
  b ← load l ;
  match b with
  | BBytes bytes =>
    if decide (offset + n ≤ length bytes)%nat then mret (take n (drop offset bytes)) else ub
  | BAddrinfo _ => ub
  end.

(** [free(p)], and [delete p] of a [struct addrinfo]. *)
Definition free (l : positive) : st (dworld E) unit :=
  load l ;;
  if own_allocation l then modify (λ w, set_heap (delete l (d_heap w)) w) else ub.

(** The destructor of a [unique_ptr]. *)
Definition drop_unique (res : option positive) : st (dworld E) unit :=
  match res with Some l => free l | None => mret tt end.

(** [for (cur = head; cur != nullptr; cur = cur->ai_next) body]. The body
    does not change the memory; a list in it has at most as many nodes as it
    has blocks, so that more iterations only happen on a cyclic list. *)
Fixpoint addrinfo_loop {A} (fuel : nat) (body : addrinfo → A → st (dworld E) A) (cur : option positive)
    (a : A) : st (dworld E) A :=
  match cur, fuel with
  | None, _ => mret a
  | Some _, O => ub
  | Some l, S fuel' =>
    ai ← load_addrinfo l ; a' ← body ai a ; addrinfo_loop fuel' body (ai_next ai) a'
  end.

Definition for_addrinfo {A} (body : addrinfo → A → st (dworld E) A) (head : option positive) (a : A)
    : st (dworld E) A :=
  h ← gets d_heap ; addrinfo_loop (size h) body head a.

End Memory.

(** ** netd_controller.cpp, continued *)

Module NetdResolver.
Section Code.
Context {E : Type} `{Platform E} `{DnsPlatform E}.

(** [dnsResolvService_->getaddrinfo(...)], and what it leaves in [res]. *)
Definition resolve (hostName : string) (hints : addrinfo) (netId : Z) : st (dworld E) (Z * option positive) := λ w,
  let '(r, (e, h)) := native_getaddrinfo hostName hints netId (h_env (d_host w), d_heap w) in
  Some (r, set_heap h (set_dhost (mkHost (h_netd (d_host w)) e (h_log (d_host w))) w)).

(** The answer and [res]; [serverName] is not used. *)
Definition GetAddrInfo (hostName serverName : string) (hints : addrinfo) (netId : Z)
    : st (dworld E) (Z * option positive) :=
  self ← on_dhost NetdControllerOps.GetInstance ;
  if NetdController.dnsResolvService_ self then resolve (c_str hostName) hints (to_u 16 netId)
  else mret (NetdController.ERR_SERVICE_UPDATE_NET_LINK_INFO_FAIL, None).

Definition GetResolverInfo (netId : Z) (info : ResolverInfo) : st (host E) (Z * ResolverInfo) :=
  self ← NetdControllerOps.GetInstance ;
  if NetdController.dnsResolvService_ self then
    query (native_getResolverInfo (to_u 16 netId) (ri_servers info) (ri_domains info))
  else mret (NetdController.ERR_SERVICE_UPDATE_NET_LINK_INFO_FAIL, info).

End Code.
End NetdResolver.

(** ** dns_resolver_service.cpp *)

Module DnsResolverService.

Definition DNS_ERROR : Z := -1.
Definition DNS_SUCCESS : Z := 0.

(** [<sys/socket.h>] and [<netdb.h>] of Linux. *)
Definition AF_INET : Z := 2.
Definition AF_INET6 : Z := 10.
Definition AI_PASSIVE : Z := 1.
Definition SOCK_DGRAM : Z := 2.

Definition IPV4_SIZE : nat := 16.
Definition IPV6_SIZE : nat := 48.

(** The character classes of the pattern. *)
Definition in_range (lo hi x : ascii) : bool :=
  (N_of_ascii lo <=? N_of_ascii x)%N && (N_of_ascii x <=? N_of_ascii hi)%N.

Definition is_lower : ascii → bool := in_range "a" "z".
Definition is_digit : ascii → bool := in_range "0" "9".
Definition is_lower_digit (x : ascii) : bool := is_digit x || is_lower x.
Definition is_host_char (x : ascii) : bool :=
  is_digit x || in_range "A" "Z" x || is_lower x || Ascii.eqb x "-" || Ascii.eqb x "_" || Ascii.eqb x ".".

Definition RChar (x : ascii) : regex := RClass (λ y, Ascii.eqb y x).

(** [([0-9A-Za-z\-_\.]+)\.([0-9a-z]+\.[a-z]{2,3}(\.[a-z]{2})?)] *)
Definition domainPattern : regex :=
  RSeq (RPlus (RClass is_host_char))
  (RSeq (RChar ".")
  (RSeq (RPlus (RClass is_lower_digit))
  (RSeq (RChar ".")
  (RSeq (RBetween 2 1 (RClass is_lower))
  (ROpt (RSeq (RChar ".") (RTimes 2 (RClass is_lower)))))))).

Definition IsDomainValid (hostName : string) : bool :=
  if String.eqb hostName "" then false
  else if regex_match hostName domainPattern then true else false.

(** [inet_ntop(AF_INET, ...)]: the dotted decimal form, when it and its NUL
    fit in the buffer. *)
Definition inet_ntop4 (bytes : list Z) (size : nat) : option string :=
  match bytes with
  | [a; b; c; d] =>
    let s := (to_string a +:+ "." +:+ to_string b +:+ "." +:+ to_string c +:+ "." +:+ to_string d)%string in
    if decide (String.length s < size)%nat then Some s else None
  | _ => None
  end.

Section Code.
Context {E : Type} `{Platform E} `{DnsPlatform E}.

(** The process before the service starts. *)
Definition construct (e : E) : dworld E := mkDworld (mkHost None e []) ∅ false false.

Definition Init : st (dworld E) bool :=
  w ← gets id ;
  if negb registerLocalResult then mret false
  else
    published ← (if d_registerToService_ w then mret true
                 else on_dhost (ext EvPublishAbility PublishAbility)) ;
    if negb published then mret false
    else modify (λ w, set_dstate true (d_running w) w) ;; mret true.

Definition OnStart : st (dworld E) unit :=
  w ← gets id ;
  if d_running w then mret tt
  else
    ok ← Init ;
    if negb ok then mret tt
    else modify (λ w, set_dstate (d_registerToService_ w) true w).

Definition OnStop : st (dworld E) unit := modify (set_dstate false false).

(** [if (ai->ai_addr != nullptr) { free(ai->ai_addr); ai->ai_addr = nullptr; }] *)
Definition free_ai_addr (ai : positive) : st (dworld E) unit :=
  a ← load_addrinfo ai ;
  match ai_addr a with
  | Some p =>
    free p ;;
    store_addrinfo ai (mkAddrinfo (ai_flags a) (ai_family a) (ai_socktype a) (ai_protocol a) None
                         (ai_canonname a) (ai_next a))
  | None => mret tt
  end.

(** The same for [ai->ai_canonname]. *)
Definition free_ai_canonname (ai : positive) : st (dworld E) unit :=
  a ← load_addrinfo ai ;
  match ai_canonname a with
  | Some p =>
    free p ;;
    store_addrinfo ai (mkAddrinfo (ai_flags a) (ai_family a) (ai_socktype a) (ai_protocol a) (ai_addr a)
                         None (ai_next a))
  | None => mret tt
  end.

(** One round releases at least one block. *)
Fixpoint FreeAddrInfo2_loop (fuel : nat) (ai : option positive) : st (dworld E) unit :=
  match ai, fuel with
  | None, _ => mret tt
  | Some _, O => ub
  | Some ai, S fuel' =>
    free_ai_addr ai ;;
    free_ai_canonname ai ;;
    a ← load_addrinfo ai ;
    free ai ;;
    match ai_next a with
    | None => mret tt
    | Some aiNext => FreeAddrInfo2_loop fuel' (Some aiNext)
    end
  end.

Definition FreeAddrInfo2 (aiHead : option positive) : st (dworld E) unit :=
  h ← gets d_heap ; FreeAddrInfo2_loop (size h) aiHead.

(** [sin_addr] is at offset 4 of [struct sockaddr_in], [sin6_addr] at offset 8
    of [struct sockaddr_in6]. A buffer that [inet_ntop] did not fill is the
    empty string. *)
Definition sin_addr (p : option positive) : st (dworld E) (list Z) := load_bytes p 4 4.
Definition sin6_addr (p : option positive) : st (dworld E) (list Z) := load_bytes p 8 16.

Definition ip4_text (bytes : list Z) : string := default EmptyString (inet_ntop4 bytes IPV4_SIZE).

Definition ip6_text (bytes : list Z) : string :=
  let s := inet_ntop6 bytes in
  if decide (String.length s < IPV6_SIZE)%nat then s else EmptyString.

Definition address_of (family : Z) (address : string) : INetAddr.t :=
  INetAddr.mk (INetAddr.type_ INetAddr.default) (to_u 8 family)
    (INetAddr.prefixlen_ INetAddr.default) address (INetAddr.netMask_ INetAddr.default)
    (INetAddr.hostName_ INetAddr.default).

Definition ProcessIPV4 (addr : addrinfo) (addrInfo : list INetAddr.t) : st (dworld E) (list INetAddr.t) :=
  bytes ← sin_addr (ai_addr addr) ;
  mret (addrInfo ++ [address_of (ai_family addr) (ip4_text bytes)]).

Definition ProcessIPV6 (addr : addrinfo) (addrInfo : list INetAddr.t) : st (dworld E) (list INetAddr.t) :=
  bytes ← sin6_addr (ai_addr addr) ;
  mret (addrInfo ++ [address_of (ai_family addr) (ip6_text bytes)]).

Definition InitAddrInfo (family flags protocol sockType : Z) : addrinfo :=
  mkAddrinfo flags family sockType protocol None None None.

Definition process_address (cur : addrinfo) (addrInfo : list INetAddr.t) : st (dworld E) (list INetAddr.t) :=
  if ai_family cur =? AF_INET then ProcessIPV4 cur addrInfo
  else if ai_family cur =? AF_INET6 then ProcessIPV6 cur addrInfo
  else mret addrInfo.

(** The code and [addrInfo]. *)
Definition GetAddressesByName (hostName : string) (addrInfo : list INetAddr.t)
    : st (dworld E) (Z * list INetAddr.t) :=
  if negb (IsDomainValid hostName) then mret (DNS_ERROR, addrInfo)
  else
    let hints := InitAddrInfo AF_INET AI_PASSIVE 0 SOCK_DGRAM in
    answer ← NetdResolver.GetAddrInfo hostName EmptyString hints 0 ;
    let '(ret, res) := answer in
    if negb (ret =? 0) then drop_unique res ;; mret (ret, addrInfo)
    else match res with
         | None => mret (DNS_ERROR, addrInfo)
         | Some resAddr =>
           addrInfo ← for_addrinfo process_address (Some resAddr) addrInfo ;
           FreeAddrInfo2 (Some resAddr) ;;
           mret (DNS_SUCCESS, addrInfo)
         end.

Definition describe (cur : addrinfo) (dnsAddrInfo : list DnsAddrInfo.t) : st (dworld E) (list DnsAddrInfo.t) :=
  addr ← (if ai_family cur =? AF_INET then bytes ← sin_addr (ai_addr cur) ; mret (ip4_text bytes)
          else mret (DnsAddrInfo.addr_ DnsAddrInfo.default)) ;
  mret (dnsAddrInfo ++ [DnsAddrInfo.mk (ai_flags cur) (ai_family cur) (ai_socktype cur) (ai_protocol cur)
    addr (DnsAddrInfo.canonName_ DnsAddrInfo.default)]).

(** The code and [dnsAddrInfo]; the hints may be a null pointer. *)
Definition GetAddrInfo (hostName server : string) (hints : option DnsAddrInfo.t)
    (dnsAddrInfo : list DnsAddrInfo.t) : st (dworld E) (Z * list DnsAddrInfo.t) :=
  if negb (IsDomainValid hostName) then mret (DNS_ERROR, dnsAddrInfo)
  else
    hints ← deref hints ;
    let hints2 := InitAddrInfo (DnsAddrInfo.family_ hints) (DnsAddrInfo.flags_ hints)
                    (DnsAddrInfo.protocol_ hints) (DnsAddrInfo.sockType_ hints) in
    answer ← NetdResolver.GetAddrInfo hostName server hints2 0 ;
    let '(ret, res) := answer in
    if ret <? 0 then drop_unique res ;; mret (ret, dnsAddrInfo)
    else match res with
         | None => mret (DNS_ERROR, dnsAddrInfo)
         | Some resAddr =>
           dnsAddrInfo ← for_addrinfo describe (Some resAddr) dnsAddrInfo ;
           mret (DNS_SUCCESS, dnsAddrInfo)
         end.

Definition CreateNetworkCache (netId : Z) : st (dworld E) Z :=
  on_dhost (NetdControllerOps.CreateNetworkCache netId).

Definition DestoryNetworkCache (netId : Z) : st (dworld E) Z :=
  on_dhost (NetdControllerOps.DestoryNetworkCache netId).

Definition FlushNetworkCache (netId : Z) : st (dworld E) Z :=
  on_dhost (NetdControllerOps.FlushNetworkCache netId).

Definition SetResolverConfig (netId baseTimeoutMsec retryCount : Z) (servers domains : list string)
    : st (dworld E) Z :=
  on_dhost (NetdControllerOps.SetResolverConfig netId baseTimeoutMsec retryCount servers domains).

Definition GetResolverInfo (netId : Z) (info : ResolverInfo) : st (dworld E) (Z * ResolverInfo) :=
  on_dhost (NetdResolver.GetResolverInfo netId info).

End Code.
End DnsResolverService.

(** ** A process that serves requests *)

Inductive dns_request :=
  | DOnStart
  | DOnStop
  | DGetAddressesByName (hostName : string)
  | DGetAddrInfo (hostName server : string) (hints : option DnsAddrInfo.t)
  | DCreateNetworkCache (netId : Z)
  | DDestoryNetworkCache (netId : Z)
  | DFlushNetworkCache (netId : Z)
  | DSetResolverConfig (netId baseTimeoutMsec retryCount : Z) (servers domains : list string)
  | DGetResolverInfo (netId : Z).

Inductive dns_reply :=
  | DRDone
  | DRCode (code : Z)
  | DRAddresses (code : Z) (addrInfo : list INetAddr.t)
  | DRInfos (code : Z) (dnsAddrInfo : list DnsAddrInfo.t)
  | DRResolver (code : Z) (info : ResolverInfo).

(** What the stub passes by reference. *)
Definition no_info : ResolverInfo := mkResolverInfo [] [] 0 0.

Definition dns_handle {E} `{Platform E} `{DnsPlatform E} (q : dns_request) : st (dworld E) dns_reply :=
  match q with
  | DOnStart => DnsResolverService.OnStart ;; mret DRDone
  | DOnStop => DnsResolverService.OnStop ;; mret DRDone
  | DGetAddressesByName hostName =>
    r ← DnsResolverService.GetAddressesByName hostName [] ; mret (DRAddresses r.1 r.2)
  | DGetAddrInfo hostName server hints =>
    r ← DnsResolverService.GetAddrInfo hostName server hints [] ; mret (DRInfos r.1 r.2)
  | DCreateNetworkCache netId => c ← DnsResolverService.CreateNetworkCache netId ; mret (DRCode c)
  | DDestoryNetworkCache netId => c ← DnsResolverService.DestoryNetworkCache netId ; mret (DRCode c)
  | DFlushNetworkCache netId => c ← DnsResolverService.FlushNetworkCache netId ; mret (DRCode c)
  | DSetResolverConfig netId baseTimeoutMsec retryCount servers domains =>
    c ← DnsResolverService.SetResolverConfig netId baseTimeoutMsec retryCount servers domains ; mret (DRCode c)
  | DGetResolverInfo netId =>
    r ← DnsResolverService.GetResolverInfo netId no_info ; mret (DRResolver r.1 r.2)
  end.
