(* ===== verification/DnsSpec.v ===== *)
(** * What the DNS resolver service promises

    The list that [getaddrinfo] hands out as a Rocq list of nodes, the blocks
    it occupies, and what the loops of the service do to it. *)

From S2P Require Import Prelude Parcel Parcelables Host CppStrings Dns.
Import DnsResolverService.

(** ** Lists in memory *)

(** A node with the blocks it owns: its address and its canonical name. *)
Record ainode := mkNode {
  n_loc : positive;
  n_flags : Z;
  n_family : Z;
  n_socktype : Z;
  n_protocol : Z;
  n_addr : option (positive * list Z);
  n_canon : option (positive * list Z);
}.

Definition node_struct (n : ainode) (next : option positive) : addrinfo :=
  mkAddrinfo (n_flags n) (n_family n) (n_socktype n) (n_protocol n) (fst <$> n_addr n)
    (fst <$> n_canon n) next.

Definition head_loc (ns : list ainode) : option positive := n_loc <$> head ns.

Definition bytes_block (p : positive * list Z) : positive * block := (p.1, BBytes p.2).

Definition node_data (n : ainode) : list (positive * block) :=
  bytes_block <$> (option_list (n_addr n) ++ option_list (n_canon n)).

Fixpoint ai_blocks (ns : list ainode) : list (positive * block) :=
  match ns with
  | [] => []
  | n :: ns' =>
    (n_loc n, BAddrinfo (node_struct n (head_loc ns'))) :: node_data n ++ ai_blocks ns'
  end.

(** The heap [m] with the list [ns] added to it. *)
Definition with_list (ns : list ainode) (m : gmap positive block) : gmap positive block :=
  list_to_map (ai_blocks ns) ∪ m.

(** The blocks of the list are distinct and were not in use. *)
Definition fresh_in (m : gmap positive block) (ns : list ainode) : Prop :=
  NoDup (ai_blocks ns).*1 ∧ ∀ l, l ∈ (ai_blocks ns).*1 → m !! l = None.

(** The address of a node is long enough for its family. *)
Definition node_ok (n : ainode) : Prop :=
  match n_addr n with
  | Some (_, bytes) =>
    Forall (in_u 8) bytes ∧ (n_family n = AF_INET → (8 ≤ length bytes)%nat) ∧
    (n_family n = AF_INET6 → (24 ≤ length bytes)%nat)
  | None => n_family n ≠ AF_INET ∧ n_family n ≠ AF_INET6
  end.

(** The documented behaviour of [getaddrinfo]: it makes a list, leaves the rest
    of the memory alone, and hands out a list only on success. Nothing is said
    of how its blocks are allocated. [inet_ntop] writes at most
    [INET6_ADDRSTRLEN] characters. *)
Class ResolverLaws (E : Type) `{DnsPlatform E} := {
  getaddrinfo_allocates : ∀ hostName hints netId e m, ∃ ret ns e',
    native_getaddrinfo hostName hints netId (e, m) = ((ret, head_loc ns), (e', with_list ns m)) ∧
    fresh_in m ns ∧ Forall node_ok ns ∧ (ret ≠ 0 → ns = []);
  inet_ntop6_fits : ∀ bytes, (String.length (inet_ntop6 bytes) < 46)%nat;
}.

(** Every block of the list is an allocation of its own. *)
Definition allocations {E} `{DnsPlatform E} (ns : list ainode) : bool := forallb own_allocation (ai_blocks ns).*1.

(** ** The answers *)

Definition dotted (bytes : list Z) : string :=
  match bytes with
  | [a; b; c; d] => (to_string a +:+ "." +:+ to_string b +:+ "." +:+ to_string c +:+ "." +:+ to_string d)%string
  | _ => EmptyString
  end.

Definition node_bytes (offset n : nat) (x : ainode) : list Z :=
  match n_addr x with Some (_, bytes) => take n (drop offset bytes) | None => [] end.

Section Answers.
Context {E : Type} `{DnsPlatform E}.

(** What a node is for [GetAddressesByName] and for [GetAddrInfo]. *)
Definition node_address (n : ainode) : list INetAddr.t :=
  if decide (n_family n = AF_INET) then
    [INetAddr.mk 0 (to_u 8 AF_INET) 0 (dotted (node_bytes 4 4 n)) "" ""]
  else if decide (n_family n = AF_INET6) then
    [INetAddr.mk 0 (to_u 8 AF_INET6) 0 (inet_ntop6 (node_bytes 8 16 n)) "" ""]
  else [].

Definition node_info (n : ainode) : DnsAddrInfo.t :=
  DnsAddrInfo.mk (n_flags n) (n_family n) (n_socktype n) (n_protocol n)
    (if decide (n_family n = AF_INET) then dotted (node_bytes 4 4 n) else "") "".

End Answers.

(** ** Running *)

Lemma run_none {S A B} (m : st S A) (k : A → st S B) s : m s = None → (m ≫= k) s = None.
Proof. intros Hm. unfold mbind, st_bind. by rewrite Hm. Qed.

Lemma run_bind {S A B} (m : st S A) (k : A → st S B) s a s' :
  m s = Some (a, s') → (m ≫= k) s = k a s'.
Proof. intros Hm. unfold mbind, st_bind. by rewrite Hm. Qed.

Section Memory.
Context {E : Type} `{DnsPlatform E}.
Implicit Type w : dworld E.

(** The blocks [bs] are in the memory [m]. *)
Definition holds (m : gmap positive block) (bs : list (positive * block)) : Prop :=
  Forall (λ p, m !! p.1 = Some p.2) bs.

Lemma run_load l b w : d_heap w !! l = Some b → load l w = Some (b, w).
Proof. intros Hl. unfold load, mbind, st_bind, gets, deref. by rewrite Hl. Qed.

Lemma run_load_addrinfo l ai w :
  d_heap w !! l = Some (BAddrinfo ai) → load_addrinfo l w = Some (ai, w).
Proof. intros Hl. unfold load_addrinfo. by rewrite (run_bind _ _ _ _ _ (run_load _ _ _ Hl)). Qed.

Lemma run_store_addrinfo l ai ai' w :
  d_heap w !! l = Some (BAddrinfo ai) →
  store_addrinfo l ai' w = Some (tt, set_heap (<[l := BAddrinfo ai']> (d_heap w)) w).
Proof. intros Hl. unfold store_addrinfo. by rewrite (run_bind _ _ _ _ _ (run_load_addrinfo _ _ _ Hl)). Qed.

Lemma run_free l b w :
  d_heap w !! l = Some b → own_allocation l = true → free l w = Some (tt, set_heap (delete l (d_heap w)) w).
Proof. intros Hl Ho. unfold free. by rewrite (run_bind _ _ _ _ _ (run_load _ _ _ Hl)), Ho. Qed.

Lemma free_part l w : own_allocation l = false → free l w = None.
Proof. intros Ho. unfold free, mbind, st_bind. destruct (load l w) as [[b w']|]; [|done]. by rewrite Ho. Qed.

Lemma run_load_bytes l bytes offset n w :
  d_heap w !! l = Some (BBytes bytes) → (offset + n ≤ length bytes)%nat →
  load_bytes (Some l) offset n w = Some (take n (drop offset bytes), w).
Proof.
  intros Hl Hn. unfold load_bytes. rewrite (run_bind _ _ w l w) by done.
  rewrite (run_bind _ _ _ _ _ (run_load _ _ _ Hl)). by rewrite decide_True.
Qed.

(** A loop whose body reads the nodes of the list and adds to an accumulator. *)
Lemma run_addrinfo_loop {A} (body : addrinfo → A → st (dworld E) A) (g : A → ainode → A) ns w :
  (∀ n next a, n ∈ ns → holds (d_heap w) (node_data n) →
     body (node_struct n next) a w = Some (g a n, w)) →
  holds (d_heap w) (ai_blocks ns) →
  ∀ fuel a, (length ns ≤ fuel)%nat →
  addrinfo_loop fuel body (head_loc ns) a w = Some (foldl g a ns, w).
Proof.
  intros Hb Hns. induction ns as [|n ns IH]; intros fuel a Hf; [by destruct fuel|].
  destruct fuel as [|fuel]; [simpl in Hf; lia|]. simpl in Hf |- *.
  apply Forall_cons in Hns as [Hn Hns]. apply Forall_app in Hns as [Hd Hns].
  rewrite (run_bind _ _ _ _ _ (run_load_addrinfo _ _ _ Hn)).
  rewrite (run_bind _ _ _ _ _ (Hb n (head_loc ns) a (list_elem_of_here _ _) Hd)).
  apply IH; [|done|lia]. intros n' next a' Hn' Hd'. apply Hb; [by right|done].
Qed.

(** ** The list is in memory *)

Lemma with_list_holds ns m : fresh_in m ns → holds (with_list ns m) (ai_blocks ns).
Proof.
  intros [Hnd _]. apply Forall_forall. intros [l b] Hl. unfold with_list. apply lookup_union_Some_l.
  simpl. by apply elem_of_list_to_map_1.
Qed.

Lemma with_list_other ns m l : l ∉ (ai_blocks ns).*1 → with_list ns m !! l = m !! l.
Proof. intros Hl. unfold with_list. rewrite lookup_union_r; [done|]. by apply not_elem_of_list_to_map_1. Qed.

Lemma with_list_nil m : with_list [] m = m.
Proof. unfold with_list. simpl. apply (left_id_L ∅ (∪)). Qed.

Lemma ai_blocks_length ns : (length ns ≤ length (ai_blocks ns))%nat.
Proof. induction ns as [|n ns IH]; simpl; [lia|]. rewrite length_app. lia. Qed.

Lemma with_list_size ns m : fresh_in m ns → size (with_list ns m) = (length (ai_blocks ns) + size m)%nat.
Proof.
  intros [Hnd Hm]. unfold with_list. rewrite map_size_disj_union.
  - by rewrite map_size_list_to_map.
  - apply map_disjoint_spec. intros l b b' Hl Hl'. rewrite Hm in Hl'; [done|].
    apply elem_of_list_to_map_2 in Hl. apply list_elem_of_fmap. by exists (l, b).
Qed.

Lemma with_list_fuel ns m : fresh_in m ns → (length ns ≤ size (with_list ns m))%nat.
Proof. intros Hf. rewrite with_list_size by done. pose proof (ai_blocks_length ns). lia. Qed.

End Memory.

(** ** Releasing the list *)

Section Free.
Context {E : Type} `{DnsPlatform E}.
Implicit Type w : dworld E.

Lemma set_heap_same w : set_heap (d_heap w) w = w.
Proof. by destruct w. Qed.

(** [m'] is [m] without the block [o] and with [b] in the block [l]. *)
Definition released (o : option positive) (l : positive) (b : block) (m m' : gmap positive block) : Prop :=
  m' !! l = Some b ∧ ∀ k, k ≠ l → m' !! k = if decide (o = Some k) then None else m !! k.

Definition owned (o : option positive) (l : positive) (m : gmap positive block) : Prop :=
  ∀ p, o = Some p → p ≠ l ∧ is_Some (m !! p).

(** [if (p != nullptr) { free(p); member = nullptr; }] *)
Lemma run_release o l a a' w :
  d_heap w !! l = Some (BAddrinfo a) → owned o l (d_heap w) → (o = None → a' = a) →
  (∀ p, o = Some p → own_allocation p = true) →
  ∃ m', released o l (BAddrinfo a') (d_heap w) m' ∧
    match o with Some p => free p ;; store_addrinfo l a' | None => mret tt end w = Some (tt, set_heap m' w).
Proof.
  intros Hl Ho Ha Hown. destruct o as [p|].
  - destruct (Ho p eq_refl) as [Hp [b Hb]]. specialize (Hown p eq_refl). exists (<[l := BAddrinfo a']> (delete p (d_heap w))). split.
    + split; [apply lookup_insert_eq|]. intros k Hk. rewrite lookup_insert_ne by done.
      destruct (decide (Some p = Some k)) as [[= ->]|Hpk]; [apply lookup_delete_eq|].
      apply lookup_delete_ne. congruence.
    + rewrite (run_bind _ _ _ _ _ (run_free _ _ _ Hb Hown)).
      rewrite (run_store_addrinfo l a a') by (simpl; by rewrite lookup_delete_ne). done.
  - exists (d_heap w). rewrite (Ha eq_refl). split; [done|]. by rewrite set_heap_same.
Qed.

Lemma released_owned o o' l b m m' :
  released o l b m m' → owned o' l m → (∀ p, o = Some p → o' = Some p → False) → owned o' l m'.
Proof.
  intros [_ Hm] Ho Hd p Hp. destruct (Ho p Hp) as [Hl Hs]. split; [done|]. rewrite Hm by done.
  rewrite decide_False; [done|]. intros Hop. by apply (Hd p).
Qed.

(** What a round needs of the memory, and what it leaves. *)
Definition node_locs (n : ainode) : list positive := n_loc n :: (node_data n).*1.

Lemma node_addr_loc n p : (fst <$> n_addr n) = Some p → p ∈ (node_data n).*1.
Proof. unfold node_data. destruct (n_addr n) as [[q bs]|]; [|done]. intros [= ->]. left. Qed.

Lemma node_canon_loc n p : (fst <$> n_canon n) = Some p → p ∈ (node_data n).*1.
Proof.
  unfold node_data. rewrite fmap_app, fmap_app, elem_of_app. destruct (n_canon n) as [[q bs]|]; [|done].
  intros [= ->]. right. left.
Qed.

Lemma node_data_loc n p :
  p ∈ (node_data n).*1 → (fst <$> n_addr n) = Some p ∨ (fst <$> n_canon n) = Some p.
Proof.
  unfold node_data. rewrite fmap_app, fmap_app, elem_of_app.
  intros [Hp|Hp]; [left; destruct (n_addr n)|right; destruct (n_canon n)]; simpl in *;
    try (by apply not_elem_of_nil in Hp); by apply list_elem_of_singleton in Hp as ->.
Qed.

Lemma node_disjoint n p :
  NoDup (node_locs n) → (fst <$> n_addr n) = Some p → (fst <$> n_canon n) = Some p → False.
Proof.
  intros [_ Hnd]%NoDup_cons. revert Hnd. unfold node_data.
  destruct (n_addr n) as [[q bs]|], (n_canon n) as [[q' bs']|]; simpl; try done.
  intros [Hq _]%NoDup_cons [= ->] [= ->]. apply Hq. left.
Qed.

Lemma node_owned n m o :
  NoDup (node_locs n) → holds m (node_data n) → (∀ p, o = Some p → p ∈ (node_data n).*1) →
  owned o (n_loc n) m.
Proof.
  intros [Hl _]%NoDup_cons Hd Ho p Hp. apply Ho in Hp. split; [by intros ->|].
  apply list_elem_of_fmap in Hp as ([q b] & -> & Hq). unfold holds in Hd. rewrite Forall_forall in Hd.
  exists b. by apply (Hd (q, b)).
Qed.

(** A member whose block [free] accepts. *)
Definition member_own (o : option positive) : bool := match o with Some p => own_allocation p | None => true end.

Lemma member_own_true o : member_own o = true → ∀ p, o = Some p → own_allocation p = true.
Proof. by intros Ho p ->. Qed.

Lemma release_part o l a w :
  member_own o = false → match o with Some p => free p ;; store_addrinfo l a | None => mret tt end w = None.
Proof. destruct o as [p|]; [|done]. intros Ho. by apply run_none, free_part. Qed.

Lemma lookup_without (l : list positive) (m : gmap positive block) k :
  filter (λ x, x.1 ∉ l) m !! k = if decide (k ∈ l) then None else m !! k.
Proof.
  destruct (decide (k ∈ l)) as [Hk|Hk].
  - apply map_lookup_filter_None. right. intros b _ Hn. by apply Hn.
  - destruct (m !! k) as [b|] eqn:Hm; [by apply map_lookup_filter_Some|]. apply map_lookup_filter_None. by left.
Qed.

(** The memory after both members and the node itself are released. *)
Lemma released_both n next m m1 m2 a1 a2 :
  released (ai_addr (node_struct n next)) (n_loc n) (BAddrinfo a1) m m1 →
  released (ai_canonname (node_struct n next)) (n_loc n) (BAddrinfo a2) m1 m2 →
  ∀ k, delete (n_loc n) m2 !! k = if decide (k ∈ node_locs n) then None else m !! k.
Proof.
  intros [_ Hm1] [_ Hm2] k. destruct (decide (k = n_loc n)) as [->|Hk].
  - rewrite lookup_delete_eq, decide_True; [done|left].
  - rewrite lookup_delete_ne by done. rewrite Hm2, Hm1 by done. destruct (decide (k ∈ node_locs n)) as [Hin|Hin].
    + apply elem_of_cons in Hin as [?|Hin]; [done|].
      apply node_data_loc in Hin as [Ha|Hc]; [|by rewrite decide_True].
      rewrite (decide_True (P:=ai_addr (node_struct n next) = Some k)) by done. by destruct (decide _).
    + rewrite !decide_False; [done| |]; intros Hp; apply Hin; right;
        [by apply node_addr_loc|by apply node_canon_loc].
Qed.

(** One round: it releases the blocks of the node, unless one of them is no
    allocation of its own. *)
Definition round_allocations (n : ainode) : bool := forallb own_allocation (node_locs n).

Lemma free_round n next w :
  NoDup (node_locs n) → d_heap w !! n_loc n = Some (BAddrinfo (node_struct n next)) →
  holds (d_heap w) (node_data n) →
  ∃ m', (∀ k, m' !! k = if decide (k ∈ node_locs n) then None else d_heap w !! k) ∧
    ∀ fuel, FreeAddrInfo2_loop (S fuel) (Some (n_loc n)) w =
      if round_allocations n then
        match next with
        | None => Some (tt, set_heap m' w)
        | Some l => FreeAddrInfo2_loop fuel (Some l) (set_heap m' w)
        end
      else None.
Proof.
  intros Hnd Hl Hd. set (l := n_loc n) in *. set (a := node_struct n next) in *.
  set (a1 := mkAddrinfo (ai_flags a) (ai_family a) (ai_socktype a) (ai_protocol a) None
               (ai_canonname a) (ai_next a)).
  set (a2 := mkAddrinfo (ai_flags a) (ai_family a) (ai_socktype a) (ai_protocol a) None
               None (ai_next a)).
  assert (Hall : round_allocations n = own_allocation l && (member_own (ai_addr a) && member_own (ai_canonname a))).
  { unfold round_allocations, node_locs, node_data, a, node_struct. cbn [forallb ai_addr ai_canonname]. f_equal.
    destruct (n_addr n) as [[p bs]|], (n_canon n) as [[p' bs']|]; cbn; by rewrite ?andb_true_r. }
  exists (filter (λ x, x.1 ∉ node_locs n) (d_heap w)). split; [apply lookup_without|]. intros fuel. rewrite Hall.
  cbn [FreeAddrInfo2_loop]. pose proof (run_load_addrinfo _ _ _ Hl) as L0.
  destruct (member_own (ai_addr a)) eqn:Oa.
  2:{ rewrite andb_false_r. apply run_none. unfold free_ai_addr. rewrite (run_bind _ _ _ _ _ L0). by apply release_part. }
  destruct (run_release (ai_addr a) l a a1 w Hl) as (m1 & Hm1 & R1).
  { by apply node_owned, node_addr_loc. }
  { unfold a1, a, node_struct. simpl. by intros ->. }
  { by apply member_own_true. }
  rewrite (run_bind _ _ w tt (set_heap m1 w)) by (unfold free_ai_addr; by rewrite (run_bind _ _ _ _ _ L0)).
  pose proof (run_load_addrinfo l a1 (set_heap m1 w) (proj1 Hm1)) as L1.
  destruct (member_own (ai_canonname a)) eqn:Oc.
  2:{ rewrite andb_false_r. apply run_none. unfold free_ai_canonname. rewrite (run_bind _ _ _ _ _ L1).
      by apply (release_part (ai_canonname a)). }
  destruct (run_release (ai_canonname a) l a1 a2 (set_heap m1 w)) as (m2 & Hm2 & R2).
  { apply Hm1. }
  { eapply released_owned; [exact Hm1|by apply node_owned, node_canon_loc|]. intros p. by apply node_disjoint. }
  { unfold a1, a2. simpl. by intros ->. }
  { by apply member_own_true. }
  rewrite andb_true_r, (run_bind _ _ _ tt (set_heap m2 w)) by (unfold free_ai_canonname; by rewrite (run_bind _ _ _ _ _ L1)).
  rewrite (run_bind _ _ _ _ _ (run_load_addrinfo l a2 (set_heap m2 w) (proj1 Hm2))).
  destruct (own_allocation l) eqn:Ol; [|by apply run_none, free_part].
  rewrite (run_bind _ _ _ _ _ (run_free l _ (set_heap m2 w) (proj1 Hm2) Ol)).
  replace (filter _ _) with (delete l m2); [by destruct next|]. apply map_eq. intros k. rewrite lookup_without.
  by apply (released_both n next (d_heap w) m1 m2 a1 a2).
Qed.

Lemma allocations_cons n ns : allocations (n :: ns) = round_allocations n && allocations ns.
Proof.
  unfold allocations, round_allocations, node_locs. cbn [ai_blocks]. rewrite fmap_cons, fmap_app.
  cbn [forallb fst]. by rewrite forallb_app, andb_assoc.
Qed.

(** The loop releases the blocks of the list, each once, and nothing else;
    unless one of them is no allocation of its own. *)
Lemma free_list ns w :
  NoDup (ai_blocks ns).*1 → holds (d_heap w) (ai_blocks ns) →
  ∃ m', (∀ k, m' !! k = if decide (k ∈ (ai_blocks ns).*1) then None else d_heap w !! k) ∧
    ∀ fuel, (length ns ≤ fuel)%nat →
      FreeAddrInfo2_loop fuel (head_loc ns) w = if allocations ns then Some (tt, set_heap m' w) else None.
Proof.
  revert w. induction ns as [|n ns IH]; intros w Hnd Hh.
  { exists (d_heap w). split; [intros k; rewrite decide_False; [done|by intros ?%elem_of_nil]|].
    intros fuel _. destruct fuel; by rewrite set_heap_same. }
  apply Forall_cons in Hh as [Hl [Hd Hh]%Forall_app]. cbn [ai_blocks] in Hnd.
  rewrite fmap_cons, fmap_app, app_comm_cons in Hnd.
  apply NoDup_app in Hnd as (Hnd1 & Hdis & Hnd2).
  destruct (free_round n (head_loc ns) w Hnd1 Hl Hd) as (m1 & Hm1 & R1).
  destruct (IH (set_heap m1 w)) as (m2 & Hm2 & R2); [done| |].
  { apply Forall_forall. intros [k b] Hk. simpl. rewrite Hm1. rewrite decide_False.
    - unfold holds in Hh. rewrite Forall_forall in Hh. by apply (Hh (k, b)).
    - intros Hin. apply (Hdis k Hin). apply list_elem_of_fmap. by exists (k, b). }
  exists m2. split.
  - intros k. rewrite Hm2. simpl. rewrite Hm1.
    rewrite fmap_app. change (n_loc n :: (node_data n).*1 ++ (ai_blocks ns).*1) with (node_locs n ++ (ai_blocks ns).*1).
    destruct (decide (k ∈ (ai_blocks ns).*1)) as [H2|H2]; [rewrite decide_True; [done|]; apply elem_of_app; by right|].
    destruct (decide (k ∈ node_locs n)) as [H1|H1].
    + rewrite decide_True; [done|]. apply elem_of_app. by left.
    + rewrite decide_False; [done|]. by intros [?|?]%elem_of_app.
  - intros [|fuel] Hf; [simpl in Hf; lia|]. simpl in Hf. change (head_loc (n :: ns)) with (Some (n_loc n)).
    rewrite R1, allocations_cons. destruct (round_allocations n); [|done]. cbn [andb]. destruct ns as [|n' ns].
    + exact (R2 O (Nat.le_refl _)).
    + apply (R2 fuel). lia.
Qed.

(** [FreeAddrInfo2] of a list gives back exactly its memory, if [free] accepts
    its blocks. *)
Lemma run_FreeAddrInfo2 ns m w :
  fresh_in m ns → d_heap w = with_list ns m →
  FreeAddrInfo2 (head_loc ns) w = if allocations ns then Some (tt, set_heap m w) else None.
Proof.
  intros Hf Hw. pose proof (with_list_holds ns m Hf) as Hh. rewrite <- Hw in Hh.
  destruct (free_list ns w (proj1 Hf) Hh) as (m' & Hm' & R).
  unfold FreeAddrInfo2. rewrite (run_bind _ _ w (d_heap w) w) by done.
  rewrite R by (rewrite Hw; by apply with_list_fuel). destruct (allocations ns); [|done]. f_equal. f_equal. f_equal.
  apply map_eq. intros k. rewrite Hm', Hw. destruct (decide _) as [Hk|Hk].
  - symmetry. by apply Hf.
  - by rewrite with_list_other.
Qed.

End Free.
