(* ===== verification/DnsCorrect.v ===== *)
(** * The DNS resolver service keeps its promises

    Every request returns, and what it answers is computed from the list that
    the resolver handed out. *)

From Stdlib Require Import Ascii.
From S2P Require Import Prelude Parcel Parcelables Host CppStrings Regex Dns DnsSpec.
Import DnsResolverService.

(** ** Texts of addresses *)

Lemma byte_text_length x : in_u 8 x → (String.length (to_string x) ≤ 3)%nat.
Proof.
  intros [Hl Hu]. change (2 ^ 8) with 256 in Hu.
  assert (Hall : forallb (λ n, (String.length (to_string (Z.of_nat n)) <=? 3)%nat) (seq 0 256) = true)
    by (vm_compute; done).
  rewrite forallb_forall in Hall. rewrite <- (Z2Nat.id x) by done.
  apply Nat.leb_le, (Hall (Z.to_nat x)), in_seq. lia.
Qed.

Lemma string_length_app s1 s2 : String.length (s1 +:+ s2) = (String.length s1 + String.length s2)%nat.
Proof. induction s1 as [|c s1 IH]; [done|]. simpl. by f_equal. Qed.

(** The buffer of [ProcessIPV4] is large enough. *)
Lemma ip4_text_dotted bytes : length bytes = 4%nat → Forall (in_u 8) bytes → ip4_text bytes = dotted bytes.
Proof.
  intros Hl Hb. destruct bytes as [|a [|b [|c [|d [|]]]]]; try done.
  apply Forall_cons in Hb as [Ha Hb]. apply Forall_cons in Hb as [Hb' Hb].
  apply Forall_cons in Hb as [Hc Hb]. apply Forall_cons in Hb as [Hd _].
  unfold ip4_text, inet_ntop4, dotted. rewrite decide_True; [done|].
  rewrite !string_length_app. simpl String.length.
  apply byte_text_length in Ha, Hb', Hc, Hd. unfold IPV4_SIZE. lia.
Qed.

Section Bodies.
Context {E : Type} `{Platform E} `{ResolverLaws E}.
Implicit Type w : dworld E.

Lemma ip6_text_all bytes : ip6_text bytes = inet_ntop6 bytes.
Proof.
  unfold ip6_text. rewrite decide_True; [done|]. pose proof (inet_ntop6_fits bytes). unfold IPV6_SIZE. lia.
Qed.

(** The bytes of an address that is long enough. *)
Lemma run_node_bytes n offset k w l bytes :
  n_addr n = Some (l, bytes) → holds (d_heap w) (node_data n) → (offset + k ≤ length bytes)%nat →
  load_bytes (fst <$> n_addr n) offset k w = Some (node_bytes offset k n, w).
Proof.
  intros Ha Hd Hk. unfold node_bytes. rewrite Ha. unfold holds, node_data in Hd. rewrite Ha in Hd.
  simpl in Hd |- *. apply Forall_cons in Hd as [Hl _]. by apply run_load_bytes.
Qed.

Lemma run_sin_addr n w :
  node_ok n → n_family n = AF_INET → holds (d_heap w) (node_data n) →
  sin_addr (fst <$> n_addr n) w = Some (node_bytes 4 4 n, w) ∧
  ip4_text (node_bytes 4 4 n) = dotted (node_bytes 4 4 n).
Proof.
  intros Hok Hf Hd. unfold node_ok in Hok. destruct (n_addr n) as [[l bytes]|] eqn:Ha; [|by destruct Hok].
  destruct Hok as (Hb & H4 & _). specialize (H4 Hf). split.
  - unfold sin_addr. rewrite <- Ha. by eapply run_node_bytes.
  - unfold node_bytes. rewrite Ha. apply ip4_text_dotted.
    + rewrite length_take, length_drop. lia.
    + by apply Forall_take, Forall_drop.
Qed.

Lemma run_sin6_addr n w :
  node_ok n → n_family n = AF_INET6 → holds (d_heap w) (node_data n) →
  sin6_addr (fst <$> n_addr n) w = Some (node_bytes 8 16 n, w).
Proof.
  intros Hok Hf Hd. unfold node_ok in Hok. destruct (n_addr n) as [[l bytes]|] eqn:Ha; [|by destruct Hok].
  destruct Hok as (_ & _ & H6). specialize (H6 Hf).
  unfold sin6_addr. rewrite <- Ha. by eapply run_node_bytes.
Qed.

Lemma run_process_address n next acc w :
  node_ok n → holds (d_heap w) (node_data n) →
  process_address (node_struct n next) acc w = Some (acc ++ node_address n, w).
Proof.
  intros Hok Hd. unfold process_address, node_address. simpl.
  destruct (Z.eqb_spec (n_family n) AF_INET) as [Ef|Hf].
  - rewrite decide_True by done. destruct (run_sin_addr n w Hok Ef Hd) as [R Ht].
    unfold ProcessIPV4. simpl. rewrite (run_bind _ _ _ _ _ R), Ht, Ef. done.
  - rewrite decide_False by done. destruct (Z.eqb_spec (n_family n) AF_INET6) as [Ef|Hf'].
    + rewrite decide_True by done. unfold ProcessIPV6. simpl.
      rewrite (run_bind _ _ _ _ _ (run_sin6_addr n w Hok Ef Hd)), ip6_text_all, Ef. done.
    + rewrite decide_False by done. by rewrite app_nil_r.
Qed.

Lemma run_describe n next acc w :
  node_ok n → holds (d_heap w) (node_data n) →
  describe (node_struct n next) acc w = Some (acc ++ [node_info n], w).
Proof.
  intros Hok Hd. unfold describe, node_info. simpl.
  destruct (Z.eqb_spec (n_family n) AF_INET) as [Ef|Hf].
  - rewrite decide_True by done. destruct (run_sin_addr n w Hok Ef Hd) as [R Ht].
    rewrite (run_bind _ _ w (dotted (node_bytes 4 4 n)) w); [done|].
    by rewrite (run_bind _ _ _ _ _ R), Ht.
  - rewrite decide_False by done. by rewrite (run_bind _ _ w EmptyString w).
Qed.

Lemma foldl_app_concat {A B} (g : B → list A) l acc :
  foldl (λ a x, a ++ g x) acc l = acc ++ concat (g <$> l).
Proof.
  revert acc. induction l as [|x l IH]; intros acc; simpl; [by rewrite app_nil_r|].
  by rewrite IH, app_assoc.
Qed.

Lemma concat_singletons {A B} (f : A → B) l : concat ((λ x, [f x]) <$> l) = f <$> l.
Proof. induction l as [|x l IH]; [done|]. rewrite !fmap_cons. simpl. by rewrite IH. Qed.

(** A loop over the whole list. *)
Lemma run_for_addrinfo {A} (body : addrinfo → list A → st (dworld E) (list A)) (g : ainode → list A) ns m acc w :
  fresh_in m ns → d_heap w = with_list ns m → Forall node_ok ns →
  (∀ n next acc, node_ok n → holds (d_heap w) (node_data n) →
     body (node_struct n next) acc w = Some (acc ++ g n, w)) →
  for_addrinfo body (head_loc ns) acc w = Some (acc ++ concat (g <$> ns), w).
Proof.
  intros Hf Hw Hok Hb. rewrite <- foldl_app_concat. unfold for_addrinfo.
  rewrite (run_bind _ _ w (d_heap w) w) by done. apply run_addrinfo_loop.
  - intros n next a Hn Hd. apply Hb; [|done]. rewrite Forall_forall in Hok. by apply Hok.
  - rewrite Hw. by apply with_list_holds.
  - rewrite Hw. by apply with_list_fuel.
Qed.

(** ** The controller *)

(** The process once [NetdController] exists. *)
Definition dns_ready w : dworld E :=
  match h_netd (d_host w) with
  | Some _ => w
  | None =>
    set_dhost (mkHost (Some (NetdController.mk true true true)) (native_init (h_env (d_host w))).2
                 (h_log (d_host w))) w
  end.

Lemma run_GetInstance w :
  netd_ok (h_netd (d_host w)) →
  on_dhost NetdControllerOps.GetInstance w = Some (NetdController.mk true true true, dns_ready w).
Proof.
  intros Hok. unfold on_dhost, NetdControllerOps.GetInstance, mbind, st_bind, gets, dns_ready.
  destruct w as [[o e l] m run reg]. simpl in *. destruct o as [c|].
  - by rewrite (Hok c eq_refl).
  - unfold NetdControllerOps.Init, query, set_netd, modify. simpl.
    unfold mbind, st_bind. simpl. by destruct (native_init e) as [[] e2].
Qed.

Lemma dns_ready_heap w : d_heap (dns_ready w) = d_heap w.
Proof. unfold dns_ready. by destruct (h_netd (d_host w)). Qed.

(** The process after a question to the resolver that left [e] and [m]. *)
Definition dns_after w (e : E) (m : gmap positive block) : dworld E :=
  set_heap m (set_dhost (mkHost (h_netd (d_host (dns_ready w))) e (h_log (d_host w))) w).

(** The resolver answers [ret] and the list [ns]. *)
Definition resolves w (hostName : string) (hints : addrinfo) (ret : Z) (ns : list ainode) (e : E) : Prop :=
  native_getaddrinfo (c_str hostName) hints 0 (h_env (d_host (dns_ready w)), d_heap w)
    = ((ret, head_loc ns), (e, with_list ns (d_heap w))) ∧
  fresh_in (d_heap w) ns ∧ Forall node_ok ns ∧ (ret ≠ 0 → ns = []).

Lemma run_resolver w hostName server hints :
  netd_ok (h_netd (d_host w)) →
  ∃ ret ns e, resolves w hostName hints ret ns e ∧
    NetdResolver.GetAddrInfo hostName server hints 0 w
    = Some ((ret, head_loc ns), dns_after w e (with_list ns (d_heap w))).
Proof.
  intros Hok.
  destruct (getaddrinfo_allocates (c_str hostName) hints 0 (h_env (d_host (dns_ready w))) (d_heap w))
    as (ret & ns & e & R & Hf & Hn & Hr).
  exists ret, ns, e. split; [done|]. unfold NetdResolver.GetAddrInfo.
  rewrite (run_bind _ _ _ _ _ (run_GetInstance w Hok)). simpl. unfold NetdResolver.resolve.
  rewrite dns_ready_heap. change (to_u 16 0) with 0. rewrite R. unfold dns_after, dns_ready.
  destruct w as [[[c|] e0 l] m run reg]; done.
Qed.

(** ** The two questions *)

Definition by_name_hints : addrinfo := InitAddrInfo AF_INET AI_PASSIVE 0 SOCK_DGRAM.

Definition info_hints (hints : DnsAddrInfo.t) : addrinfo :=
  InitAddrInfo (DnsAddrInfo.family_ hints) (DnsAddrInfo.flags_ hints) (DnsAddrInfo.protocol_ hints)
    (DnsAddrInfo.sockType_ hints).

(** The code for an answer [ret] with the list [ns]. *)
Definition answer_code_of (ret : Z) (ns : list ainode) : Z :=
  if decide (ret = 0) then match ns with [] => DNS_ERROR | _ => DNS_SUCCESS end else ret.

Lemma run_GetAddressesByName w hostName acc :
  netd_ok (h_netd (d_host w)) → IsDomainValid hostName = true →
  ∃ ret ns e, resolves w hostName by_name_hints ret ns e ∧
    GetAddressesByName hostName acc w
    = if allocations ns then
        Some ((answer_code_of ret ns, acc ++ concat (node_address <$> ns)), dns_after w e (d_heap w))
      else None.
Proof.
  intros Hok Hv. destruct (run_resolver w hostName EmptyString by_name_hints Hok) as (ret & ns & e & Hr & R).
  exists ret, ns, e. split; [done|]. destruct Hr as (_ & Hf & Hn & Hret).
  unfold GetAddressesByName. rewrite Hv. cbn [negb]. fold by_name_hints.
  rewrite (run_bind _ _ _ _ _ R). unfold answer_code_of.
  destruct (Z.eqb_spec ret 0) as [Er|Hr]; cbn [negb].
  - rewrite decide_True by done. destruct ns as [|n ns].
    { simpl. by rewrite with_list_nil, app_nil_r. }
    change (head_loc (n :: ns)) with (Some (n_loc n)). cbv beta iota zeta.
    change (Some (n_loc n)) with (head_loc (n :: ns)).
    rewrite (run_bind _ _ _ _ _ (run_for_addrinfo _ node_address (n :: ns) (d_heap w) acc
      (dns_after w e (with_list (n :: ns) (d_heap w))) Hf eq_refl Hn
      (λ n next acc, run_process_address n next acc _))).
    pose proof (run_FreeAddrInfo2 (n :: ns) (d_heap w) (dns_after w e (with_list (n :: ns) (d_heap w))) Hf eq_refl) as F.
    destruct (allocations (n :: ns)); [by rewrite (run_bind _ _ _ _ _ F)|by rewrite (run_none _ _ _ F)].
  - rewrite decide_False by done. rewrite (Hret Hr). simpl. by rewrite with_list_nil, app_nil_r.
Qed.

Lemma run_GetAddrInfo w hostName server hints acc :
  netd_ok (h_netd (d_host w)) → IsDomainValid hostName = true →
  ∃ ret ns e, resolves w hostName (info_hints hints) ret ns e ∧
    GetAddrInfo hostName server (Some hints) acc w
    = Some ((if decide (ret < 0) then ret else match ns with [] => DNS_ERROR | _ => DNS_SUCCESS end,
             acc ++ (node_info <$> ns)), dns_after w e (with_list ns (d_heap w))).
Proof.
  intros Hok Hv. destruct (run_resolver w hostName server (info_hints hints) Hok) as (ret & ns & e & Hr & R).
  exists ret, ns, e. split; [done|]. destruct Hr as (_ & Hf & Hn & Hret).
  unfold GetAddrInfo. rewrite Hv. cbn [negb]. rewrite (run_bind _ _ w hints w) by done.
  fold (info_hints hints). rewrite (run_bind _ _ _ _ _ R).
  destruct (Z.ltb_spec ret 0) as [Hr|Hr].
  - rewrite decide_True by done. rewrite (Hret ltac:(lia)). simpl. by rewrite app_nil_r.
  - rewrite decide_False by lia. destruct ns as [|n ns]; [simpl; by rewrite app_nil_r|].
    change (head_loc (n :: ns)) with (Some (n_loc n)). cbv beta iota zeta.
    change (Some (n_loc n)) with (head_loc (n :: ns)).
    rewrite (run_bind _ _ _ _ _ (run_for_addrinfo _ (λ n, [node_info n]) (n :: ns) (d_heap w) acc
      (dns_after w e (with_list (n :: ns) (d_heap w))) Hf eq_refl Hn
      (λ n next acc, run_describe n next acc _))).
    by rewrite concat_singletons.
Qed.

(** The same, of what the resolver leaves in memory: every new block is an
    allocation of its own. *)
Definition releasable w (hostName : string) (hints : addrinfo) : Prop :=
  ∀ l, l ∈ dom (native_getaddrinfo (c_str hostName) hints 0 (h_env (d_host (dns_ready w)), d_heap w)).2.2 →
    l ∉ dom (d_heap w) → own_allocation l = true.

Lemma resolves_releasable w hostName hints ret ns e :
  resolves w hostName hints ret ns e → releasable w hostName hints ↔ allocations ns = true.
Proof.
  intros (R & [_ Hf] & _). unfold releasable, allocations. rewrite R, forallb_forall. cbn [snd].
  unfold with_list. rewrite dom_union_L, dom_list_to_map_L. setoid_rewrite elem_of_union. setoid_rewrite elem_of_list_to_set.
  setoid_rewrite not_elem_of_dom. setoid_rewrite <- list_elem_of_In. split.
  - intros Hr l Hl. apply Hr; [by left|by apply Hf].
  - intros Hr l [Hl|Hl%elem_of_dom] Hn; [by apply Hr|]. rewrite Hn in Hl. by destruct Hl.
Qed.

End Bodies.
