(* ===== verification/DnsProps.v ===== *)
(** * Properties of the DNS resolver service

    Which names it accepts, what it answers, and what happens to the memory of
    the resolver's answer. *)

From Stdlib Require Import Ascii.
From S2P Require Import Prelude Parcel Parcelables Host CppStrings Regex Dns DnsSpec DnsCorrect.
Import DnsResolverService.

(** ** The names that are accepted *)

Definition all_of (c : ascii → bool) (s : list ascii) : Prop := Forall (λ x, c x = true) s.

(** A host part, a label and a top-level domain of two or three letters,
    which a country code of two letters may follow. *)
Definition domain_shape (s : list ascii) : Prop :=
  ∃ host label tld rest,
    s = host ++ "."%char :: label ++ "."%char :: tld ++ rest ∧
    host ≠ [] ∧ all_of is_host_char host ∧
    label ≠ [] ∧ all_of is_lower_digit label ∧
    (2 ≤ length tld ≤ 3)%nat ∧ all_of is_lower tld ∧
    (rest = [] ∨ ∃ country, rest = "."%char :: country ∧ length country = 2%nat ∧ all_of is_lower country).

Lemma matches_char x r s : matches (RSeq (RChar x) r) s ↔ ∃ s', s = x :: s' ∧ matches r s'.
Proof.
  rewrite matches_seq. split.
  - intros (s1 & s2 & -> & (y & -> & ->%Ascii.eqb_eq)%matches_class & Hr). by exists s2.
  - intros (s' & -> & Hr). exists [x], s'. split; [done|]. split; [|done].
    apply matches_class. exists x. split; [done|]. by apply Ascii.eqb_refl.
Qed.

Lemma matches_country s :
  matches (ROpt (RSeq (RChar ".") (RTimes 2 (RClass is_lower)))) s ↔
  s = [] ∨ ∃ country, s = "."%char :: country ∧ length country = 2%nat ∧ all_of is_lower country.
Proof. rewrite matches_opt, matches_char. by setoid_rewrite matches_times_class. Qed.

Lemma IsDomainValid_spec hostName :
  IsDomainValid hostName = true ↔ domain_shape (String.list_ascii_of_string hostName).
Proof.
  unfold IsDomainValid. destruct (String.eqb_spec hostName "") as [->|_].
  { split; [done|]. intros (host & label & tld & rest & Hs & _). by destruct host. }
  transitivity (regex_match hostName domainPattern = true); [by destruct (regex_match _ _)|].
  rewrite regex_match_spec. unfold domainPattern, domain_shape. split.
  - intros (host & s1 & -> & [Hh Hhc]%matches_plus_class & H1)%matches_seq.
    apply matches_char in H1 as (s2 & -> & H2).
    apply matches_seq in H2 as (label & s3 & -> & [Hl Hlc]%matches_plus_class & H3).
    apply matches_char in H3 as (s4 & -> & H4).
    apply matches_seq in H4 as (tld & rest & -> & [Ht Htc]%matches_between_class & Hr%matches_country).
    exists host, label, tld, rest. repeat split; try done; lia.
  - intros (host & label & tld & rest & -> & Hh & Hhc & Hl & Hlc & Ht & Htc & Hr).
    apply matches_seq. eexists _, _. split; [done|]. split; [by apply matches_plus_class|].
    apply matches_char. eexists. split; [done|].
    apply matches_seq. eexists _, _. split; [done|]. split; [by apply matches_plus_class|].
    apply matches_char. eexists. split; [done|].
    apply matches_seq. eexists _, _. split; [done|].
    split; [by apply matches_between_class|by apply matches_country].
Qed.

Definition dots (s : list ascii) : nat := length (filter (λ x, x = "."%char) s).

Lemma domain_shape_dots s : domain_shape s → (2 ≤ dots s)%nat.
Proof.
  intros (host & label & tld & rest & -> & _). unfold dots.
  rewrite filter_app, filter_cons_True, filter_app, filter_cons_True by done.
  rewrite length_app. simpl. rewrite length_app. simpl. lia.
Qed.

(** Every character of an accepted name is one of the host characters. *)
Lemma all_of_weaken (c d : ascii → bool) s : (∀ x, c x = true → d x = true) → all_of c s → all_of d s.
Proof. intros Hcd Hs. by eapply Forall_impl; [exact Hs|]. Qed.

Lemma lower_host_char x : is_lower x = true → is_host_char x = true.
Proof. unfold is_host_char. intros ->. by rewrite !orb_true_r. Qed.

Lemma lower_digit_host_char x : is_lower_digit x = true → is_host_char x = true.
Proof.
  unfold is_lower_digit. intros [H|H]%orb_true_iff; [|by apply lower_host_char].
  unfold is_host_char. by rewrite H.
Qed.

Lemma domain_shape_chars s : domain_shape s → all_of is_host_char s.
Proof.
  intros (host & label & tld & rest & -> & _ & Hh & _ & Hl & _ & Ht & Hr).
  apply (all_of_weaken _ is_host_char) in Hl; [|apply lower_digit_host_char].
  apply (all_of_weaken _ is_host_char) in Ht; [|apply lower_host_char].
  apply Forall_app. split; [done|]. constructor; [done|]. apply Forall_app. split; [done|].
  constructor; [done|]. apply Forall_app. split; [done|].
  destruct Hr as [->|(country & -> & _ & Hc)]; constructor; [done|].
  apply (all_of_weaken _ is_host_char) in Hc; [done|apply lower_host_char].
Qed.

Lemma c_str_host_chars s : all_of is_host_char (String.list_ascii_of_string s) → c_str s = s.
Proof.
  induction s as [|x s IH]; [done|]. simpl. intros [Hx Hs]%Forall_cons.
  destruct (N.eqb_spec (N_of_ascii x) 0) as [E|_]; [|by f_equal; apply IH].
  apply (f_equal ascii_of_N) in E. rewrite ascii_N_embedding in E. by subst x.
Qed.

(** ** A resolver to run examples on

    It knows one name with an IPv4 and an IPv6 address; the blocks of its
    answers are the first that are free. *)

Definition sample_bytes4 : list Z := [2; 0; 0; 80; 93; 184; 216; 34; 0; 0; 0; 0; 0; 0; 0; 0].
Definition sample_bytes6 : list Z := [10; 0; 0; 80; 0; 0; 0; 0; 32; 1; 13; 184; 0; 0; 0; 0; 0; 0; 0; 0; 0; 0; 0; 1; 0; 0; 0; 0].

(** Above every block in use. *)
Definition first_free (m : gmap positive block) : positive :=
  foldr (λ p l, Pos.max (Pos.succ p) l) 1%positive (map_to_list m).*1.

Definition sample_answer (b : positive) : list ainode :=
  [mkNode b 0 AF_INET SOCK_DGRAM 17 (Some ((b + 1)%positive, sample_bytes4)) (Some ((b + 2)%positive, [119; 119; 119; 0]));
   mkNode (b + 3) 0 AF_INET6 SOCK_DGRAM 17 (Some ((b + 4)%positive, sample_bytes6)) None].

#[global] Instance sample_resolver : DnsPlatform unit := {
  native_getaddrinfo hostName _ _ s :=
    let '(e, m) := s in
    if String.eqb hostName "www.example.com" then
      let ns := sample_answer (first_free m) in ((0, head_loc ns), (e, with_list ns m))
    else ((-2, None), (e, m));
  native_getResolverInfo _ _ _ e := ((0, mkResolverInfo ["8.8.8.8"%string] [] 5 2), e);
  inet_ntop6 _ := "2001:db8::1";
  own_allocation _ := true;
}.

Lemma first_free_above m l b : m !! l = Some b → (l < first_free m)%positive.
Proof.
  intros Hl. apply elem_of_map_to_list in Hl. unfold first_free.
  assert (Hin : l ∈ (map_to_list m).*1) by (apply list_elem_of_fmap; by exists (l, b)).
  induction (map_to_list m).*1 as [|p ps IH]; [by apply elem_of_nil in Hin|].
  simpl. apply elem_of_cons in Hin as [->|Hin]; [lia|]. specialize (IH Hin). lia.
Qed.

Lemma fresh_above m ns : NoDup (ai_blocks ns).*1 →
  (∀ l, l ∈ (ai_blocks ns).*1 → (first_free m ≤ l)%positive) → fresh_in m ns.
Proof.
  intros Hnd Hge. split; [done|]. intros l Hl. apply Hge in Hl.
  destruct (m !! l) as [b|] eqn:Hm; [|done]. apply first_free_above in Hm. lia.
Qed.

#[global] Instance sample_resolver_laws : ResolverLaws unit.
Proof.
  split; [|intros bytes; vm_compute; lia].
  intros hostName hints netId e m. simpl. destruct (String.eqb hostName "www.example.com").
  - exists 0, (sample_answer (first_free m)), e. split; [done|]. split; [|split; [|done]].
    + apply fresh_above; simpl.
      * repeat (apply NoDup_cons; split; [rewrite ?elem_of_cons, elem_of_nil; lia|]). apply NoDup_nil_2.
      * intros l. rewrite !elem_of_cons, elem_of_nil. lia.
    + repeat constructor; simpl; try lia; discriminate.
  - exists (-2), [], e. rewrite with_list_nil. split; [done|]. split; [|by split].
    split; [constructor|]. by intros l ?%elem_of_nil.
Qed.

Definition dns_start : dworld unit := construct tt.

(** ** The properties *)

Import SamplePlatform.

(** C27. [GetAddressesByName] on every branch: a name that is not valid is
    refused and nothing changes; otherwise the resolver is asked once, its
    error is passed on, and from its list every IPv4 and IPv6 address is
    appended in order, in text form. The list is released with [free], block by
    block, and not with [freeaddrinfo]: if each block is an allocation of its
    own, each is released once and the memory is what it was; if one is not,
    and the documentation of the resolver does not say that it is, the release
    is undefined. *)
Theorem dns_addresses {E} `{Platform E} `{ResolverLaws E} (w : dworld E) hostName acc :
  netd_ok (h_netd (d_host w)) →
  if IsDomainValid hostName then
    ∃ ret ns e, resolves w hostName by_name_hints ret ns e ∧
      GetAddressesByName hostName acc w
      = (if allocations ns then
           Some ((answer_code_of ret ns, acc ++ concat (node_address <$> ns)), dns_after w e (d_heap w))
         else None)
  else GetAddressesByName hostName acc w = Some ((DNS_ERROR, acc), w).
Proof.
  intros Hok. destruct (IsDomainValid hostName) eqn:Hv; [by apply run_GetAddressesByName|].
  unfold GetAddressesByName. by rewrite Hv.
Qed.

Lemma dns_addresses_witness :
  ∃ ret ns e, resolves dns_start "www.example.com" by_name_hints ret ns e ∧
    GetAddressesByName "www.example.com" [] dns_start
    = if allocations ns then Some ((answer_code_of ret ns, concat (node_address <$> ns)), dns_after dns_start e ∅)
      else None.
Proof. apply (dns_addresses dns_start "www.example.com" []). intros c. discriminate. Defined.

Example addresses_of_sample :
  (fst <$> GetAddressesByName "www.example.com" [] dns_start)
  = Some (0, [INetAddr.mk 0 2 0 "93.184.216.34" "" ""; INetAddr.mk 0 10 0 "2001:db8::1" "" ""]).
Proof. vm_compute. reflexivity. Qed.

(** C30. [GetAddrInfo] for a valid name: the answer has one entry for every node
    of the resolver's list, with an address for IPv4 only; the server that the
    client named makes no difference; and the list is never released: each
    such call leaves all its blocks behind. *)
Theorem dns_infos_leak {E} `{Platform E} `{ResolverLaws E} (w : dworld E) hostName server hints acc :
  netd_ok (h_netd (d_host w)) → IsDomainValid hostName = true →
  ∃ ret ns e w', resolves w hostName (info_hints hints) ret ns e ∧
    (∀ server', GetAddrInfo hostName server' (Some hints) acc w
       = GetAddrInfo hostName server (Some hints) acc w) ∧
    GetAddrInfo hostName server (Some hints) acc w
    = Some ((if decide (ret < 0) then ret else match ns with [] => DNS_ERROR | _ => DNS_SUCCESS end,
             acc ++ (node_info <$> ns)), w') ∧
    holds (d_heap w') (ai_blocks ns) ∧
    size (d_heap w') = (length (ai_blocks ns) + size (d_heap w))%nat.
Proof.
  intros Hok Hv. destruct (run_GetAddrInfo w hostName server hints acc Hok Hv) as (ret & ns & e & Hr & R).
  exists ret, ns, e, (dns_after w e (with_list ns (d_heap w))). split; [done|]. split; [done|]. split; [done|].
  destruct Hr as (_ & Hf & _). split; [by apply with_list_holds|by apply with_list_size].
Qed.

Lemma dns_infos_leak_witness :
  ∃ ret ns e w', resolves dns_start "www.example.com" (info_hints DnsAddrInfo.default) ret ns e ∧
    (∀ server', GetAddrInfo "www.example.com" server' (Some DnsAddrInfo.default) [] dns_start
       = GetAddrInfo "www.example.com" "" (Some DnsAddrInfo.default) [] dns_start) ∧
    GetAddrInfo "www.example.com" "" (Some DnsAddrInfo.default) [] dns_start
    = Some ((if decide (ret < 0) then ret else match ns with [] => DNS_ERROR | _ => DNS_SUCCESS end,
             node_info <$> ns), w') ∧
    holds (d_heap w') (ai_blocks ns) ∧
    size (d_heap w') = (length (ai_blocks ns) + 0)%nat.
Proof.
  apply (dns_infos_leak dns_start "www.example.com" "" DnsAddrInfo.default []).
  - intros c. discriminate.
  - vm_compute. reflexivity.
Defined.

Example infos_leave_five_blocks :
  (λ r, size (d_heap r.2)) <$> GetAddrInfo "www.example.com" "" (Some DnsAddrInfo.default) [] dns_start
  = Some 5%nat.
Proof. vm_compute. reflexivity. Qed.

(** The names that the service resolves are exactly those of this shape: a
    part of letters, digits, hyphens, underscores and dots, a dot, a label of
    lower-case letters and digits, a dot, a top-level domain of two or three
    lower-case letters, and perhaps a dot and two more. So a name with fewer
    than two dots is refused, and an accepted name reaches the resolver as it
    is. *)
Theorem domain_accepts hostName :
  (IsDomainValid hostName = true ↔ domain_shape (String.list_ascii_of_string hostName)) ∧
  ((dots (String.list_ascii_of_string hostName) < 2)%nat → IsDomainValid hostName = false) ∧
  (IsDomainValid hostName = true → c_str hostName = hostName).
Proof.
  split; [apply IsDomainValid_spec|]. split.
  - intros Hd. destruct (IsDomainValid hostName) eqn:Hv; [|done].
    apply IsDomainValid_spec, domain_shape_dots in Hv. lia.
  - intros Hv. by apply c_str_host_chars, domain_shape_chars, IsDomainValid_spec.
Qed.

Lemma domain_accepts_witness :
  (IsDomainValid "example.com" = true ↔ domain_shape (String.list_ascii_of_string "example.com")) ∧
  IsDomainValid "example.com" = false.
Proof.
  destruct (domain_accepts "example.com") as (Hi & Hd & _). split; [exact Hi|].
  apply Hd. vm_compute. apply Nat.lt_succ_diag_r.
Defined.

Example some_names :
  IsDomainValid <$> ["www.example.com"; "www.example.co.uk"; "..a.com"; "example.com"; "localhost";
    "www.example.info"; "WWW.EXAMPLE.COM"; "www.my-site.com"; "192.168.0.1"]%string
  = [true; true; true; false; false; false; false; false; false].
Proof. vm_compute. reflexivity. Qed.
