(* ===== verification/DnsIpc.v ===== *)
(** * The IPC layer of the DNS resolver service

    [dns_resolver_service_stub.cpp] and [dns_resolver_service_proxy.cpp]:
    seven requests; three of them carry lists. *)

From S2P Require Import Prelude Parcel Parcelables Ipc NetmanagerIpc Sends Host Dns.
From S2P Require Import DnsSpec DnsCorrect DnsProps.

(** [i_dns_resolver_service.h] *)
Definition CMD_GET_ADDR_BY_NAME : Z := 0.
Definition CMD_GET_ADDR_INFO : Z := 1.
Definition CMD_CRT_NETWORK_CACHE : Z := 2.
Definition CMD_DEL_NETWORK_CACHE : Z := 3.
Definition CMD_FLS_NETWORK_CACHE : Z := 4.
Definition CMD_SET_RESOLVER_CONFIG : Z := 5.
Definition CMD_GET_RESOLVER_INFO : Z := 6.
Definition dns_descriptor : string := "OHOS.NetManagerStandard.IDnsResolverService".

(** [int32_t vsize = l.size()] *)
Definition int32_size {A} (l : list A) : Z := to_i 32 (Z.of_nat (length l)).

Section Lists.
Context {P : Type} `{ParcelOps P}.

(** [WriteInt32(vsize)], then every string. *)
Definition write_strings (l : list string) : pm P unit :=
  WriteInt32 (int32_size l) ;; write_each WriteString l.

(** A loop of writes whose results nobody looks at. *)
Fixpoint write_each_any {A} (w : A → pm P unit) (l : list A) : pm P unit :=
  match l with
  | [] => mret tt
  | x :: l' => λ p, write_each_any w l' (w x p).2
  end.

(** [for (int32_t i = 0; i < size; ++i) { if (!ReadString(s)) return fail;
    l.push_back(s); }]: whether all were there, and those that were. *)
Fixpoint read_strings (n : nat) (l : list string) (p : P) : bool * list string * P :=
  match n with
  | O => (true, l, p)
  | S n' =>
    match ReadString p with
    | (Some s, p') => read_strings n' (l ++ [s]) p'
    | (None, p') => (false, l, p')
    end
  end.

End Lists.

Module DnsResolverServiceStub.
Section Code.
Context {E : Type} `{Platform E} `{DnsPlatform E} {P : Type} `{ParcelOps P} `{IpcPlatform P} `{ErrCodes}.

Definition OnGetAddressesByName : handler P (dworld E) :=
  reading ReadString NETMANAGER_ERR_READ_DATA_FAIL (λ hostName,
  calling (DnsResolverService.GetAddressesByName hostName []) (λ r,
  replying (WriteInt32 (int32_size r.2) ;; write_each INetAddr.Marshalling r.2 ;; WriteInt32 r.1))).

(** The hints are passed on without a test. *)
Definition OnGetAddrInfo : handler P (dworld E) :=
  reading ReadString NETMANAGER_ERR_READ_DATA_FAIL (λ hostname,
  reading ReadString NETMANAGER_ERR_READ_DATA_FAIL (λ server,
  reading_any DnsAddrInfo.Unmarshalling (λ hints,
  calling (DnsResolverService.GetAddrInfo hostname server hints []) (λ r,
  replying (WriteInt32 (int32_size r.2) ;; write_each_any DnsAddrInfo.Marshalling r.2 ;; WriteInt32 r.1))))).

Definition OnCreateNetworkCache : handler P (dworld E) :=
  reading ReadUint16 NETMANAGER_ERR_READ_DATA_FAIL (λ netId,
  calling (DnsResolverService.CreateNetworkCache netId) (λ ret, replying (WriteInt32 ret))).

Definition OnDestoryNetworkCache : handler P (dworld E) :=
  reading ReadUint16 NETMANAGER_ERR_READ_DATA_FAIL (λ netId,
  calling (DnsResolverService.DestoryNetworkCache netId) (λ ret, replying (WriteInt32 ret))).

Definition OnFlushNetworkCache : handler P (dworld E) :=
  reading ReadUint16 NETMANAGER_ERR_READ_DATA_FAIL (λ netId,
  calling (DnsResolverService.FlushNetworkCache netId) (λ ret, replying (WriteInt32 ret))).

Definition OnSetResolverConfig : handler P (dworld E) :=
  reading ReadUint16 NETMANAGER_ERR_READ_DATA_FAIL (λ netId,
  reading ReadUint16 NETMANAGER_ERR_READ_DATA_FAIL (λ baseTimeoutMsec,
  reading ReadUint8 NETMANAGER_ERR_READ_DATA_FAIL (λ retryCount,
  reading ReadInt32 NETMANAGER_ERR_READ_DATA_FAIL (λ size,
  reading (read_list ReadString size) NETMANAGER_ERR_READ_DATA_FAIL (λ servers,
  reading ReadInt32 NETMANAGER_ERR_READ_DATA_FAIL (λ size,
  reading (read_list ReadString size) NETMANAGER_ERR_READ_DATA_FAIL (λ domains,
  calling (DnsResolverService.SetResolverConfig netId baseTimeoutMsec retryCount servers domains) (λ ret,
  replying (WriteInt32 ret))))))))).

Definition OnGetResolverInfo : handler P (dworld E) :=
  reading ReadUint16 NETMANAGER_ERR_READ_DATA_FAIL (λ netId,
  calling (DnsResolverService.GetResolverInfo netId no_info) (λ r,
  replying (write_strings (ri_servers r.2) ;; write_strings (ri_domains r.2) ;;
            WriteUint16 (ri_baseTimeoutMsec r.2) ;; WriteUint8 (ri_retryCount r.2) ;; WriteInt32 r.1))).

Definition memberFuncMap_ (code : Z) : option (handler P (dworld E)) :=
  if code =? CMD_GET_ADDR_BY_NAME then Some OnGetAddressesByName
  else if code =? CMD_GET_ADDR_INFO then Some OnGetAddrInfo
  else if code =? CMD_CRT_NETWORK_CACHE then Some OnCreateNetworkCache
  else if code =? CMD_DEL_NETWORK_CACHE then Some OnDestoryNetworkCache
  else if code =? CMD_FLS_NETWORK_CACHE then Some OnFlushNetworkCache
  else if code =? CMD_SET_RESOLVER_CONFIG then Some OnSetResolverConfig
  else if code =? CMD_GET_RESOLVER_INFO then Some OnGetResolverInfo
  else None.

Definition OnRemoteRequest : Z → handler P (dworld E) := netmanager_request dns_descriptor memberFuncMap_.

End Code.
End DnsResolverServiceStub.

(** The proxy. What a caller passes by reference is an argument, and its
    contents after the call are part of the result. *)
Module DnsResolverServiceProxy.
Section Code.
Context {S : Type} {P : Type} `{ParcelOps P} `{ErrCodes}.
Implicit Type r : remote P S.

Definition WriteInterfaceToken : pm P unit := Ipc.WriteInterfaceToken dns_descriptor.

(** Every address is dereferenced. *)
Fixpoint read_addresses (n : nat) (addrInfo : list INetAddr.t) (reply : P) : st S (Z * list INetAddr.t) :=
  match n with
  | O => mret (read_int32 reply, addrInfo)
  | Datatypes.S n' =>
    let '(addr, reply') := INetAddr.Unmarshalling reply in
    addr ← deref addr ; read_addresses n' (addrInfo ++ [addr]) reply'
  end.

Definition GetAddressesByName r (hostName : string) (addrInfo : list INetAddr.t) : st S (Z * list INetAddr.t) :=
  if String.eqb hostName "" then mret (NETMANAGER_ERR_STRING_EMPTY, addrInfo)
  else
    writing_or WriteInterfaceToken (NETMANAGER_ERR_WRITE_DESCRIPTOR_TOKEN_FAIL, addrInfo)
    (writing_or (WriteString hostName) (NETMANAGER_ERR_WRITE_DATA_FAIL, addrInfo)
    (sending_then r (NETMANAGER_ERR_IPC_CONNECT_STUB_FAIL, addrInfo) CMD_GET_ADDR_BY_NAME (λ reply,
      match ReadInt32 reply with
      | (Some vsize, reply') => read_addresses (Z.to_nat vsize) addrInfo reply'
      | (None, _) => mret (NETMANAGER_ERR_READ_REPLY_FAIL, addrInfo)
      end))) parcel_new.

Fixpoint read_infos (n : nat) (dnsAddrInfo : list DnsAddrInfo.t) (reply : P) : Z * list DnsAddrInfo.t :=
  match n with
  | O => (read_int32 reply, dnsAddrInfo)
  | Datatypes.S n' =>
    match DnsAddrInfo.Unmarshalling reply with
    | (Some d, reply') => read_infos n' (dnsAddrInfo ++ [d]) reply'
    | (None, _) => (NETMANAGER_ERR_LOCAL_PTR_NULL, dnsAddrInfo)
    end
  end.

Definition GetAddrInfo r (hostName server : string) (hints : option DnsAddrInfo.t)
    (dnsAddrInfo : list DnsAddrInfo.t) : st S (Z * list DnsAddrInfo.t) :=
  if String.eqb hostName "" then mret (NETMANAGER_ERR_STRING_EMPTY, dnsAddrInfo)
  else
    writing_or WriteInterfaceToken (NETMANAGER_ERR_WRITE_DESCRIPTOR_TOKEN_FAIL, dnsAddrInfo)
    (writing_or (WriteString hostName) (NETMANAGER_ERR_WRITE_DATA_FAIL, dnsAddrInfo)
    (writing_or (WriteString server) (NETMANAGER_ERR_WRITE_DATA_FAIL, dnsAddrInfo) (λ data,
      match hints with
      | None => ub
      | Some hints =>
        writing_or (DnsAddrInfo.Marshalling hints) (NETMANAGER_ERR_WRITE_DATA_FAIL, dnsAddrInfo)
        (sending_or r (NETMANAGER_ERR_IPC_CONNECT_STUB_FAIL, dnsAddrInfo) CMD_GET_ADDR_INFO (λ reply,
          match ReadInt32 reply with
          | (Some vsize, reply') => read_infos (Z.to_nat vsize) dnsAddrInfo reply'
          | (None, _) => (NETMANAGER_ERR_READ_REPLY_FAIL, dnsAddrInfo)
          end)) data
      end))) parcel_new.

(** The three requests on a cache differ in their code. *)
Definition cache_request r (code netId : Z) : st S Z :=
  writing_or WriteInterfaceToken NETMANAGER_ERR_WRITE_DESCRIPTOR_TOKEN_FAIL
  (writing_or (WriteUint16 netId) NETMANAGER_ERR_WRITE_DATA_FAIL
  (sending_or r NETMANAGER_ERR_IPC_CONNECT_STUB_FAIL code read_int32)) parcel_new.

Definition CreateNetworkCache r (netId : Z) : st S Z := cache_request r CMD_CRT_NETWORK_CACHE netId.
Definition DestoryNetworkCache r (netId : Z) : st S Z := cache_request r CMD_DEL_NETWORK_CACHE netId.
Definition FlushNetworkCache r (netId : Z) : st S Z := cache_request r CMD_FLS_NETWORK_CACHE netId.

Definition SetResolverConfig r (netId baseTimeoutMsec retryCount : Z) (servers domains : list string) : st S Z :=
  writing_or WriteInterfaceToken NETMANAGER_ERR_WRITE_DESCRIPTOR_TOKEN_FAIL
  (writing_or (WriteUint16 netId) NETMANAGER_ERR_WRITE_DATA_FAIL
  (writing_or (WriteUint16 baseTimeoutMsec) NETMANAGER_ERR_WRITE_DATA_FAIL
  (writing_or (WriteUint8 retryCount) NETMANAGER_ERR_WRITE_DATA_FAIL
  (writing_or (write_strings servers) NETMANAGER_ERR_WRITE_DATA_FAIL
  (writing_or (write_strings domains) NETMANAGER_ERR_WRITE_DATA_FAIL
  (sending_or r NETMANAGER_ERR_IPC_CONNECT_STUB_FAIL CMD_SET_RESOLVER_CONFIG read_int32)))))) parcel_new.

(** The number of strings and the strings, appended to [l]. *)
Definition read_string_list (l : list string) (reply : P) : bool * list string * P :=
  match ReadInt32 reply with
  | (Some size, reply') => read_strings (Z.to_nat size) l reply'
  | (None, reply') => (false, l, reply')
  end.

(** The rest of the reply, from [baseTimeoutMsec] on. *)
Definition read_resolver_params (servers domains : list string) (info : ResolverInfo) (reply : P)
    : Z * ResolverInfo :=
  match ReadUint16 reply with
  | (None, _) =>
    (NETMANAGER_ERR_READ_REPLY_FAIL,
     mkResolverInfo servers domains (ri_baseTimeoutMsec info) (ri_retryCount info))
  | (Some baseTimeoutMsec, reply') =>
    match ReadUint8 reply' with
    | (None, _) =>
      (NETMANAGER_ERR_READ_REPLY_FAIL, mkResolverInfo servers domains baseTimeoutMsec (ri_retryCount info))
    | (Some retryCount, reply'') =>
      (read_int32 reply'', mkResolverInfo servers domains baseTimeoutMsec retryCount)
    end
  end.

Definition read_resolver_info (info : ResolverInfo) (reply : P) : Z * ResolverInfo :=
  let '(ok, servers, reply') := read_string_list (ri_servers info) reply in
  if negb ok then
    (NETMANAGER_ERR_READ_REPLY_FAIL,
     mkResolverInfo servers (ri_domains info) (ri_baseTimeoutMsec info) (ri_retryCount info))
  else
    let '(ok, domains, reply'') := read_string_list (ri_domains info) reply' in
    if negb ok then
      (NETMANAGER_ERR_READ_REPLY_FAIL,
       mkResolverInfo servers domains (ri_baseTimeoutMsec info) (ri_retryCount info))
    else read_resolver_params servers domains info reply''.

Definition GetResolverInfo r (netId : Z) (info : ResolverInfo) : st S (Z * ResolverInfo) :=
  writing_or WriteInterfaceToken (NETMANAGER_ERR_WRITE_DESCRIPTOR_TOKEN_FAIL, info)
  (writing_or (WriteUint16 netId) (NETMANAGER_ERR_WRITE_DATA_FAIL, info)
  (sending_or r (NETMANAGER_ERR_IPC_CONNECT_STUB_FAIL, info) CMD_GET_RESOLVER_INFO
    (read_resolver_info info))) parcel_new.

End Code.
End DnsResolverServiceProxy.

(** ** Properties of the IPC layer of the DNS resolver service

    A call through the proxy and the stub is the call of the service; a
    message without hints is not refused. *)

Section Messages.
Context {P : Type} `{ParcelLaws P} `{!RoomyParcel P}.

(** The requests of a client; what it sends must fit the format. *)
Definition dns_sendable (q : dns_request) : Prop :=
  match q with
  | DGetAddressesByName hostName => hostName ≠ ""%string
  | DGetAddrInfo hostName _ (Some hints) => hostName ≠ ""%string ∧ DnsAddrInfo.fits hints
  | DCreateNetworkCache _ | DDestoryNetworkCache _ | DFlushNetworkCache _ | DGetResolverInfo _ => True
  | DSetResolverConfig _ _ _ servers domains =>
    Z.of_nat (length servers) < 2 ^ 31 ∧ Z.of_nat (length domains) < 2 ^ 31
  | _ => False
  end.

Definition names_items (l : list string) : list pitem :=
  PItem KInt32 (int32_size l) :: (PItem KString <$> l).

Definition dns_body (q : dns_request) : list pitem :=
  match q with
  | DGetAddressesByName hostName => [PItem KString hostName]
  | DGetAddrInfo hostName server (Some hints) =>
    PItem KString hostName :: PItem KString server :: DnsAddrInfo.wire hints
  | DCreateNetworkCache netId | DDestoryNetworkCache netId | DFlushNetworkCache netId
  | DGetResolverInfo netId => [PItem KUint16 netId]
  | DSetResolverConfig netId baseTimeoutMsec retryCount servers domains =>
    PItem KUint16 netId :: PItem KUint16 baseTimeoutMsec :: PItem KUint8 retryCount ::
    names_items servers ++ names_items domains
  | _ => []
  end.

Definition dns_message (q : dns_request) : list pitem :=
  PItem KInterfaceToken dns_descriptor :: dns_body q.

Definition dns_command (q : dns_request) : Z :=
  match q with
  | DGetAddrInfo _ _ _ => CMD_GET_ADDR_INFO
  | DCreateNetworkCache _ => CMD_CRT_NETWORK_CACHE
  | DDestoryNetworkCache _ => CMD_DEL_NETWORK_CACHE
  | DFlushNetworkCache _ => CMD_FLS_NETWORK_CACHE
  | DSetResolverConfig _ _ _ _ _ => CMD_SET_RESOLVER_CONFIG
  | DGetResolverInfo _ => CMD_GET_RESOLVER_INFO
  | _ => CMD_GET_ADDR_BY_NAME
  end.

(** The method of the proxy for a request, with empty vectors. *)
Definition dns_proxy_call {S} `{ErrCodes} (r : remote P S) (q : dns_request) : st S dns_reply :=
  match q with
  | DGetAddressesByName hostName =>
    a ← DnsResolverServiceProxy.GetAddressesByName r hostName [] ; mret (DRAddresses a.1 a.2)
  | DGetAddrInfo hostName server hints =>
    a ← DnsResolverServiceProxy.GetAddrInfo r hostName server hints [] ; mret (DRInfos a.1 a.2)
  | DCreateNetworkCache netId => c ← DnsResolverServiceProxy.CreateNetworkCache r netId ; mret (DRCode c)
  | DDestoryNetworkCache netId => c ← DnsResolverServiceProxy.DestoryNetworkCache r netId ; mret (DRCode c)
  | DFlushNetworkCache netId => c ← DnsResolverServiceProxy.FlushNetworkCache r netId ; mret (DRCode c)
  | DSetResolverConfig netId baseTimeoutMsec retryCount servers domains =>
    c ← DnsResolverServiceProxy.SetResolverConfig r netId baseTimeoutMsec retryCount servers domains ;
    mret (DRCode c)
  | DGetResolverInfo netId =>
    a ← DnsResolverServiceProxy.GetResolverInfo r netId no_info ; mret (DRResolver a.1 a.2)
  | DOnStart | DOnStop => mret DRDone
  end.

(** What travels back, and the replies that fit the format. *)
Definition dns_reply_items (r : dns_reply) : list pitem :=
  match r with
  | DRDone => []
  | DRCode c => [PItem KInt32 c]
  | DRAddresses c l => PItem KInt32 (int32_size l) :: concat (INetAddr.wire <$> l) ++ [PItem KInt32 c]
  | DRInfos c l => PItem KInt32 (int32_size l) :: concat (DnsAddrInfo.wire <$> l) ++ [PItem KInt32 c]
  | DRResolver c info =>
    names_items (ri_servers info) ++ names_items (ri_domains info) ++
    [PItem KUint16 (ri_baseTimeoutMsec info); PItem KUint8 (ri_retryCount info); PItem KInt32 c]
  end.

Definition short {A} (l : list A) : Prop := Z.of_nat (length l) < 2 ^ 31.

Definition dns_reply_fits (r : dns_reply) : Prop :=
  match r with
  | DRAddresses _ l => short l
  | DRInfos _ l => short l ∧ Forall DnsAddrInfo.fits l
  | DRResolver _ info => short (ri_servers info) ∧ short (ri_domains info)
  | _ => True
  end.

Definition dns_reply_of (q : dns_request) (r : dns_reply) : Prop :=
  match q, r with
  | DGetAddressesByName _, DRAddresses _ _ | DGetAddrInfo _ _ _, DRInfos _ _
  | DGetResolverInfo _, DRResolver _ _ => True
  | DCreateNetworkCache _, DRCode _ | DDestoryNetworkCache _, DRCode _ | DFlushNetworkCache _, DRCode _
  | DSetResolverConfig _ _ _ _ _, DRCode _ => True
  | _, _ => False
  end.

(** *** Lists in messages *)

Lemma int32_size_short {A} (l : list A) : short l → Z.to_nat (int32_size l) = length l.
Proof.
  intros Hl. unfold short in Hl. unfold int32_size. rewrite to_i_small; [apply Nat2Z.id|done|].
  unfold in_i. lia.
Qed.

Lemma sends_write_strings l : sends (P:=P) (write_strings l) (names_items l).
Proof. apply sends_bind_cons, sends_names. Qed.

Lemma sends_each_any {A} (w : A → pm P unit) (f : A → list pitem) l :
  (∀ x, sends (w x) (f x)) → sends (write_each_any w l) (concat (f <$> l)).
Proof.
  intros Hw. induction l as [|x l IH]; [apply sends_ret|]. intros p q Hp. simpl.
  destruct (Hw x p q Hp) as (p1 & -> & Hp1). rewrite app_assoc. by apply IH.
Qed.

Lemma reads_names l : short l → reads (P:=P) (read_list ReadString (int32_size l)) l (PItem KString <$> l).
Proof.
  intros Hl. unfold read_list. rewrite int32_size_short by done.
  rewrite <- (concat_singletons (PItem KString) l). apply reads_times, Forall_true.
  intros x. apply reads_Read.
Qed.

Lemma read_strings_items (l acc : list string) (p : P) q :
  unread p ((PItem KString <$> l) ++ q) →
  ∃ p', read_strings (length l) acc p = (true, acc ++ l, p') ∧ unread p' q.
Proof.
  revert acc p. induction l as [|x l IH]; intros acc p Hp; [exists p; by rewrite app_nil_r|].
  rewrite fmap_cons in Hp. destruct (unread_read _ _ _ _ Hp) as (p1 & Hr & Hp1). simpl.
  unfold ReadString, Read. rewrite Hr. rewrite (cons_middle x acc l), app_assoc. by apply IH.
Qed.

Lemma read_string_list_items l acc (p : P) q :
  short l → unread p (names_items l ++ q) →
  ∃ p', DnsResolverServiceProxy.read_string_list acc p = (true, acc ++ l, p') ∧ unread p' q.
Proof.
  intros Hl Hp. destruct (unread_read _ _ _ _ Hp) as (p1 & Hr & Hp1).
  unfold DnsResolverServiceProxy.read_string_list, ReadInt32, Read. rewrite Hr, int32_size_short by done.
  by apply read_strings_items.
Qed.

Lemma read_addresses_items {S} l acc c (p : P) (s : S) :
  unread p (concat (INetAddr.wire <$> l) ++ [PItem KInt32 c]) →
  DnsResolverServiceProxy.read_addresses (length l) acc p s = Some ((c, acc ++ l), s).
Proof.
  revert acc p. induction l as [|x l IH]; intros acc p Hp.
  - simpl. by rewrite (read_int32_reads p c []), app_nil_r.
  - rewrite fmap_cons in Hp. cbn [concat] in Hp. rewrite <- app_assoc in Hp.
    destruct (reads_INetAddr x _ _ Hp) as (p1 & Hr & Hp1).
    cbn [length DnsResolverServiceProxy.read_addresses]. rewrite Hr.
    rewrite (run_bind _ _ s x s) by done. rewrite (cons_middle x acc l), app_assoc. by apply IH.
Qed.

Lemma read_infos_items `{ErrCodes} l acc c (p : P) :
  Forall DnsAddrInfo.fits l →
  unread p (concat (DnsAddrInfo.wire <$> l) ++ [PItem KInt32 c]) →
  DnsResolverServiceProxy.read_infos (length l) acc p = (c, acc ++ l).
Proof.
  intros Hl. revert acc p. induction Hl as [|x l Hx _ IH]; intros acc p Hp.
  - simpl. by rewrite (read_int32_reads p c []), app_nil_r.
  - rewrite fmap_cons in Hp. cbn [concat] in Hp. rewrite <- app_assoc in Hp.
    destruct (reads_DnsAddrInfo x Hx _ _ Hp) as (p1 & Hr & Hp1).
    cbn [length DnsResolverServiceProxy.read_infos]. rewrite Hr.
    rewrite (cons_middle x acc l), app_assoc. by apply IH.
Qed.

Lemma read_resolver_info_items `{ErrCodes} c info (p : P) :
  dns_reply_fits (DRResolver c info) → unread p (dns_reply_items (DRResolver c info)) →
  DnsResolverServiceProxy.read_resolver_info no_info p = (c, info).
Proof.
  intros [Hs Hd] Hp. destruct info as [servers domains base retry]. simpl in *.
  unfold DnsResolverServiceProxy.read_resolver_info. simpl.
  destruct (read_string_list_items servers [] p _ Hs Hp) as (p1 & -> & Hp1).
  destruct (read_string_list_items domains [] p1 _ Hd Hp1) as (p2 & -> & Hp2). simpl.
  destruct (unread_read _ _ _ _ Hp2) as (p3 & Hr3 & Hp3).
  destruct (unread_read _ _ _ _ Hp3) as (p4 & Hr4 & Hp4).
  unfold DnsResolverServiceProxy.read_resolver_params, ReadUint16, ReadUint8, Read.
  by rewrite Hr3, Hr4, (read_int32_reads _ _ _ Hp4).
Qed.

End Messages.

(** *** Through the proxy *)

Section Proxy.
Context {P : Type} `{ParcelLaws P} `{!RoomyParcel P} {S : Type} `{ErrCodes}.

(** The answer [x] of the stub is a reply of the right kind, intact. *)
Definition replies (q : dns_request) (Q : dns_reply → S → Prop) (x : Z * P) (s : S) : Prop :=
  x.1 = 0 ∧ ∃ r, dns_reply_of q r ∧ dns_reply_fits r ∧ unread x.2 (dns_reply_items r) ∧ Q r s.

Lemma replies_code q (Q : dns_reply → S → Prop) x s :
  (∀ r, dns_reply_of q r → ∃ c, r = DRCode c) → replies q Q x s →
  x.1 = 0 ∧ Q (DRCode (read_int32 x.2)) s.
Proof.
  intros Hq (Hx & r & Hr & _ & Hu & HQ). destruct (Hq r Hr) as [c ->]. split; [done|].
  by rewrite (read_int32_reads _ _ _ Hu).
Qed.

Lemma replies_addresses hostName Q x s :
  replies (DGetAddressesByName hostName) Q x s →
  x.1 = 0 ∧ ∃ c l v p', ReadInt32 x.2 = (Some v, p') ∧
    DnsResolverServiceProxy.read_addresses (Z.to_nat v) [] p' s = Some ((c, l), s) ∧ Q (DRAddresses c l) s.
Proof.
  intros (Hx & r & Hr & Hf & Hu & HQ). destruct r as [|c|c l|c l|c i]; try done. split; [done|].
  destruct (unread_read _ _ _ _ Hu) as (p' & Hv & Hp'). exists c, l, (int32_size l), p'.
  split; [done|]. split; [|done]. rewrite int32_size_short by done. by apply read_addresses_items.
Qed.

Lemma replies_infos hostName server hints Q x s :
  replies (DGetAddrInfo hostName server hints) Q x s →
  x.1 = 0 ∧ ∃ c l v p', ReadInt32 x.2 = (Some v, p') ∧
    DnsResolverServiceProxy.read_infos (Z.to_nat v) [] p' = (c, l) ∧ Q (DRInfos c l) s.
Proof.
  intros (Hx & r & Hr & Hf & Hu & HQ). destruct r as [|c|c l|c l|c i]; try done. split; [done|].
  destruct Hf as [Hs Hf]. destruct (unread_read _ _ _ _ Hu) as (p' & Hv & Hp').
  exists c, l, (int32_size l), p'. split; [done|]. split; [|done].
  rewrite int32_size_short by done. by apply read_infos_items.
Qed.

Lemma replies_resolver netId Q x s :
  replies (DGetResolverInfo netId) Q x s →
  x.1 = 0 ∧ ∃ c i, DnsResolverServiceProxy.read_resolver_info no_info x.2 = (c, i) ∧ Q (DRResolver c i) s.
Proof.
  intros (Hx & r & Hr & Hf & Hu & HQ). destruct r as [|c|c l|c l|c i]; try done. split; [done|].
  exists c, i. split; [|done]. by apply read_resolver_info_items.
Qed.

(** The writes of a method, and the request that it sends. *)
Ltac send_writes :=
  repeat (eapply writing_or_sends;
    [solve [apply sends_Write | apply sends_write_strings | apply sends_DnsAddrInfo]
    |first [eassumption|apply unread_new]|]; intros ? ?);
  cbn [app] in *.

Ltac answers_code := intros [|c| | |] Hr; try done; by exists c.

Lemma cache_request_sends f code netId (Q : Z → S → Prop) s :
  (∀ p, unread p [PItem KInterfaceToken dns_descriptor; PItem KUint16 netId] →
     wp (f code p parcel_new) (λ x s', x.1 = 0 ∧ Q (read_int32 x.2) s') s) →
  wp (DnsResolverServiceProxy.cache_request (P:=P) (Some f) code netId) Q s.
Proof.
  intros Hf. unfold DnsResolverServiceProxy.cache_request. send_writes. apply sending_or_wp.
  eapply wp_mono; [by apply Hf|]. intros x s' [-> HQ]. done.
Qed.

Lemma dns_proxy_sends q f Q s :
  dns_sendable q →
  (∀ p, unread p (dns_message q) → wp (f (dns_command q) p parcel_new) (replies q Q) s) →
  wp (dns_proxy_call (P:=P) (Some f) q) Q s.
Proof.
  intros Hq Hf. destruct q as [| |h|h sv [hi|]|n|n|n|n b t sv d|n]; try done; simpl in Hq; apply wp_bind.
  - unfold DnsResolverServiceProxy.GetAddressesByName. destruct (String.eqb_spec h ""); [done|].
    send_writes. apply sending_then_wp. eapply wp_mono; [by apply Hf|].
    intros x s' (Hx & c & l & v & rest & Hv & Hr & HQ)%replies_addresses. rewrite Hx. simpl. rewrite Hv.
    exists (c, l), s'. split; [done|]. by apply wp_ret.
  - destruct Hq as [Hne _]. unfold DnsResolverServiceProxy.GetAddrInfo. destruct (String.eqb_spec h ""); [done|].
    send_writes. apply sending_or_wp. eapply wp_mono; [by apply Hf|].
    intros x s' (Hx & c & l & v & rest & Hv & Hr & HQ)%replies_infos. rewrite Hx. simpl. rewrite Hv, Hr. by apply wp_ret.
  - apply cache_request_sends. intros p Hp. eapply wp_mono; [by apply Hf|].
    intros x s' [Hx HQ]%replies_code; [split; [done|]; by apply wp_ret|]. answers_code.
  - apply cache_request_sends. intros p Hp. eapply wp_mono; [by apply Hf|].
    intros x s' [Hx HQ]%replies_code; [split; [done|]; by apply wp_ret|]. answers_code.
  - apply cache_request_sends. intros p Hp. eapply wp_mono; [by apply Hf|].
    intros x s' [Hx HQ]%replies_code; [split; [done|]; by apply wp_ret|]. answers_code.
  - unfold DnsResolverServiceProxy.SetResolverConfig. send_writes. apply sending_or_wp.
    eapply wp_mono; [apply Hf; unfold dns_message; simpl; by rewrite <- ?app_assoc in *|].
    intros x s' [-> HQ]%replies_code; [by apply wp_ret|]. answers_code.
  - unfold DnsResolverServiceProxy.GetResolverInfo. send_writes. apply sending_or_wp.
    eapply wp_mono; [by apply Hf|].
    intros x s' (-> & c & i & Hr & HQ)%replies_resolver. simpl. rewrite Hr. by apply wp_ret.
Qed.

End Proxy.

(** *** Through the stub *)

Section Stub.
Context {E P : Type} `{Platform E} `{DnsPlatform E} `{ParcelLaws P} `{!RoomyParcel P} `{IpcPlatform P} `{ErrCodes}.
Implicit Type w : dworld E.

Definition dns_stub : remote P (dworld E) := Some DnsResolverServiceStub.OnRemoteRequest.

(** The last step of every handler: the call and the reply. *)
Lemma serves_reply {A} (m : st (dworld E) A) a (g : A → pm P unit) l p r w w' :
  m w = Some (a, w') → sends (g a) l → unread r [] →
  wp (calling m (λ x, replying (g x)) p r) (λ x w1, w1 = w' ∧ x.1 = 0 ∧ unread x.2 l) w.
Proof. intros Hm Hg Hr. eapply calling_runs; [exact Hm|]. by eapply replying_wp. Qed.

Lemma dns_stub_serves q w r w' p reply :
  dns_sendable q → dns_handle q w = Some (r, w') → unread p (dns_message q) → unread reply [] →
  wp (DnsResolverServiceStub.OnRemoteRequest (dns_command q) p reply) (λ x w1,
    w1 = w' ∧ x.1 = 0 ∧ unread x.2 (dns_reply_items r)) w.
Proof.
  intros Hq Hh Hp Hr. unfold dns_message in Hp.
  destruct q as [| |h|h sv [hi|]|n|n|n|n b t sv d|n]; try done; cbn [dns_handle] in Hh;
    apply handled in Hh as (a & Hm & ->);
    (eapply netmanager_request_ok; [reflexivity|exact Hp|]; intros p1 Hp1); cbn [dns_body dns_sendable] in *.
  - unfold DnsResolverServiceStub.OnGetAddressesByName. read_next. eapply serves_reply; [exact Hm| |done].
    apply sends_bind_cons, sends_bind; [apply sends_each, sends_INetAddr|apply sends_Write].
  - unfold DnsResolverServiceStub.OnGetAddrInfo. do 2 read_next.
    eapply (reading_any_reads _ hi _ _ _ _ []); [by apply reads_DnsAddrInfo, Hq|by rewrite app_nil_r|].
    intros p3 _. eapply serves_reply; [exact Hm| |done].
    apply sends_bind_cons, sends_bind; [apply sends_each_any, sends_DnsAddrInfo|apply sends_Write].
  - unfold DnsResolverServiceStub.OnCreateNetworkCache. read_next. eapply serves_reply; [exact Hm|apply sends_Write|done].
  - unfold DnsResolverServiceStub.OnDestoryNetworkCache. read_next. eapply serves_reply; [exact Hm|apply sends_Write|done].
  - unfold DnsResolverServiceStub.OnFlushNetworkCache. read_next. eapply serves_reply; [exact Hm|apply sends_Write|done].
  - destruct Hq as [Hs Hd]. unfold DnsResolverServiceStub.OnSetResolverConfig, names_items in *. do 4 read_next.
    eapply reading_reads; [by apply reads_names|eassumption|]. intros p2 Hp2. read_next.
    eapply (reading_reads _ d _ _ _ _ _ []); [by apply reads_names|by rewrite app_nil_r|]. intros p3 _.
    eapply serves_reply; [exact Hm|apply sends_Write|done].
  - unfold DnsResolverServiceStub.OnGetResolverInfo. read_next. eapply serves_reply; [exact Hm| |done].
    apply sends_bind; [apply sends_write_strings|]. apply sends_bind; [apply sends_write_strings|].
    do 2 apply sends_bind_cons. apply sends_Write.
Qed.

Lemma dns_handle_reply q w r w' : dns_sendable q → dns_handle q w = Some (r, w') → dns_reply_of q r.
Proof.
  intros Hq Hh. destruct q as [| |h|h sv [hi|]|n|n|n|n b t sv d|n]; try done; cbn [dns_handle] in Hh;
    by apply handled in Hh as (a & Hm & ->).
Qed.

End Stub.

(** *** Which messages the stub survives *)

Section Survives.
Context {E P : Type} `{Platform E} `{ResolverLaws E} `{ParcelOps P} `{IpcPlatform P} `{ErrCodes}.
Implicit Type w : dworld E.

Definition dns_ok w : Prop := netd_ok (h_netd (d_host w)).

(** [m] returns, to a process that is in order. *)
Definition returns {A} (m : st (dworld E) A) : Prop := ∀ w, dns_ok w → wp m (λ _, dns_ok) w.

(** The same for a handler, from whatever parcels. *)
Definition hreturns (f : handler P (dworld E)) : Prop := ∀ p r, returns (f p r).

Lemma ready_ok w : dns_ok w → dns_ok (dns_ready w).
Proof.
  unfold dns_ok, dns_ready. destruct (h_netd (d_host w)) as [c|] eqn:Ec; [by rewrite Ec|].
  simpl. by intros _ c [= <-].
Qed.

Lemma after_ok w e m : dns_ok w → dns_ok (dns_after w e m).
Proof. intros Hw. unfold dns_after, dns_ok. simpl. by apply ready_ok. Qed.

Lemma returns_on_dhost {A} (m : st (host E) A) evs : emits m evs → returns (on_dhost m).
Proof.
  intros Hm w Hw. destruct (Hm (d_host w) Hw) as (a & h & R & _ & Hh).
  exists a, (set_dhost h w). split; [|done]. unfold on_dhost. by rewrite R.
Qed.

(** [GetAddressesByName] does not, when the list of the resolver cannot be
    released with [free]. *)
Lemma GetAddressesByName_returns hostName acc w :
  dns_ok w →
  DnsResolverService.IsDomainValid hostName = true ∧ ¬ releasable w hostName by_name_hints ∧
    DnsResolverService.GetAddressesByName hostName acc w = None ∨
  (DnsResolverService.IsDomainValid hostName = true → releasable w hostName by_name_hints) ∧
    wp (DnsResolverService.GetAddressesByName hostName acc) (λ _, dns_ok) w.
Proof.
  intros Hw. destruct (DnsResolverService.IsDomainValid hostName) eqn:Hv.
  - destruct (run_GetAddressesByName w hostName acc Hw Hv) as (ret & ns & e & Hr & R).
    apply resolves_releasable in Hr. destruct (allocations ns) eqn:Ha; [right|left].
    + split; [intros _; by apply Hr|]. eexists _, _. split; [exact R|]. by apply after_ok.
    + split; [done|]. split; [|done]. rewrite Hr. done.
  - right. split; [done|]. unfold DnsResolverService.GetAddressesByName. rewrite Hv. by apply wp_ret.
Qed.

Lemma returns_GetAddrInfo hostName server hints acc :
  returns (DnsResolverService.GetAddrInfo hostName server (Some hints) acc).
Proof.
  intros w Hw. destruct (DnsResolverService.IsDomainValid hostName) eqn:Hv.
  - destruct (run_GetAddrInfo w hostName server hints acc Hw Hv) as (ret & ns & e & _ & R).
    eexists _, _. split; [exact R|]. by apply after_ok.
  - unfold DnsResolverService.GetAddrInfo. rewrite Hv. by apply wp_ret.
Qed.

Lemma returns_GetResolverInfo netId info : returns (DnsResolverService.GetResolverInfo netId info).
Proof.
  intros w Hw. unfold DnsResolverService.GetResolverInfo, on_dhost, wp.
  destruct (wp_GetInstance (λ _ h, h_netd h = Some (NetdController.mk true true true)) (d_host w) Hw)
    as (c & h & R & Hc); [by intros|].
  unfold NetdResolver.GetResolverInfo. rewrite (run_bind _ _ _ _ _ R). unfold query.
  destruct (NetdController.dnsResolvService_ c).
  - destruct (native_getResolverInfo _ _ _ _) as [a e]. exists a. eexists. split; [done|].
    unfold dns_ok. simpl. rewrite Hc. by intros ? [= <-].
  - eexists _, _. split; [done|]. unfold dns_ok. simpl. rewrite Hc. by intros ? [= <-].
Qed.

Lemma hreturns_reading {A} (m : pm P A) fail k : (∀ a, hreturns (k a)) → hreturns (reading m fail k).
Proof.
  intros Hk p r w Hw. unfold reading. destruct (m p) as [[a|] p']; [by apply Hk|by apply wp_ret].
Qed.

Lemma hreturns_calling {A} (m : st (dworld E) A) k :
  returns m → (∀ a, hreturns (k a)) → hreturns (calling m k).
Proof.
  intros Hm Hk p r w Hw. apply wp_bind. eapply wp_mono; [by apply Hm|]. intros a w' Hw'. by apply Hk.
Qed.

Lemma hreturns_replying m : hreturns (replying m).
Proof. intros p r w Hw. unfold replying. destruct (m r) as [[]]; by apply wp_ret. Qed.

(** Every handler but those of the two questions. *)
Lemma handlers_return code f :
  code ≠ CMD_GET_ADDR_INFO → code ≠ CMD_GET_ADDR_BY_NAME → DnsResolverServiceStub.memberFuncMap_ code = Some f → hreturns f.
Proof.
  intros Hc Hn. unfold DnsResolverServiceStub.memberFuncMap_.
  destruct (Z.eqb_spec code CMD_GET_ADDR_INFO) as [|_]; [done|].
  destruct (Z.eqb_spec code CMD_GET_ADDR_BY_NAME) as [|_]; [done|].
  repeat destruct (_ =? _); intros [= <-]; repeat (apply hreturns_reading; intros ?);
    (apply hreturns_calling; [|intros; apply hreturns_replying]).
  5: apply returns_GetResolverInfo.
  all: eapply returns_on_dhost, emits_call_dns.
Qed.

(** A message for [GetAddrInfo] with a valid name and without hints. *)
Definition no_hints (code : Z) (data : P) : Prop :=
  code = CMD_GET_ADDR_INFO ∧ (read_token data).1 = dns_descriptor ∧
  ∃ hostName p1 server p2, ReadString (read_token data).2 = (Some hostName, p1) ∧
    ReadString p1 = (Some server, p2) ∧ (DnsAddrInfo.Unmarshalling p2).1 = None ∧
    DnsResolverService.IsDomainValid hostName = true.

(** A message for [GetAddressesByName] with a valid name for which the resolver
    hands out a list that [free] does not release. *)
Definition unfit_list (code : Z) (data : P) w : Prop :=
  code = CMD_GET_ADDR_BY_NAME ∧ (read_token data).1 = dns_descriptor ∧
  ∃ hostName, (ReadString (read_token data).2).1 = Some hostName ∧
    DnsResolverService.IsDomainValid hostName = true ∧ ¬ releasable w hostName by_name_hints.

Lemma no_hints_crashes code data reply w :
  no_hints code data → DnsResolverServiceStub.OnRemoteRequest code data reply w = None.
Proof.
  intros (-> & Ht & hostName & p1 & server & p2 & R1 & R2 & R3 & Hv).
  unfold DnsResolverServiceStub.OnRemoteRequest, netmanager_request.
  destruct (read_token data) as [t p0]. cbn [fst snd] in Ht, R1. subst t. rewrite String.eqb_refl. cbn.
  unfold DnsResolverServiceStub.OnGetAddrInfo, reading at 1. rewrite R1. unfold reading. rewrite R2.
  unfold reading_any. destruct (DnsAddrInfo.Unmarshalling p2) as [o p3]. simpl in R3. subst o.
  unfold calling, DnsResolverService.GetAddrInfo. by rewrite Hv.
Qed.

Lemma OnGetAddressesByName_returns p r w :
  dns_ok w →
  (∃ hostName, (ReadString p).1 = Some hostName ∧ DnsResolverService.IsDomainValid hostName = true ∧
     ¬ releasable w hostName by_name_hints) ∧ DnsResolverServiceStub.OnGetAddressesByName p r w = None ∨
  (¬ ∃ hostName, (ReadString p).1 = Some hostName ∧ DnsResolverService.IsDomainValid hostName = true ∧
     ¬ releasable w hostName by_name_hints) ∧ wp (DnsResolverServiceStub.OnGetAddressesByName p r) (λ _, dns_ok) w.
Proof.
  intros Hw. unfold DnsResolverServiceStub.OnGetAddressesByName, reading.
  destruct (ReadString p) as [[hostName|] p1]; cbn [fst]; [|right; split; [by intros (h & ? & _)|by apply wp_ret] ].
  destruct (GetAddressesByName_returns hostName [] w Hw) as [(Hv & Hn & R)|[Hn R] ]; [left|right].
  - split; [by exists hostName|]. unfold calling. by apply run_none.
  - split; [intros (h & [= <-] & Hv & Hx); by apply Hx, Hn|]. apply wp_bind. eapply wp_mono; [exact R|].
    intros a w' Hw'. by apply hreturns_replying.
Qed.

Lemma OnGetAddrInfo_returns p r w :
  dns_ok w →
  (∃ hostName p1 server p2, ReadString p = (Some hostName, p1) ∧ ReadString p1 = (Some server, p2) ∧
     (DnsAddrInfo.Unmarshalling p2).1 = None ∧ DnsResolverService.IsDomainValid hostName = true) ∨
  wp (DnsResolverServiceStub.OnGetAddrInfo p r) (λ _, dns_ok) w.
Proof.
  intros Hw. unfold DnsResolverServiceStub.OnGetAddrInfo, reading.
  destruct (ReadString p) as [[hostName|] p1]; [|right; by apply wp_ret].
  destruct (ReadString p1) as [[server|] p2] eqn:R2; [|right; by apply wp_ret].
  unfold reading_any. destruct (DnsAddrInfo.Unmarshalling p2) as [[hints|] p3] eqn:R3.
  - right. apply hreturns_calling; [apply returns_GetAddrInfo|intros; apply hreturns_replying|done].
  - destruct (DnsResolverService.IsDomainValid hostName) eqn:Hv.
    + left. exists hostName, p1, server, p2. by rewrite R3.
    + right. apply wp_bind. unfold DnsResolverService.GetAddrInfo. rewrite Hv.
      apply wp_ret, hreturns_replying. done.
Qed.

Lemma stub_returns code data reply w :
  dns_ok w →
  (no_hints code data ∨ unfit_list code data w) ∧ DnsResolverServiceStub.OnRemoteRequest code data reply w = None ∨
  wp (DnsResolverServiceStub.OnRemoteRequest code data reply) (λ _, dns_ok) w.
Proof.
  intros Hw. unfold no_hints, unfit_list. destruct (decide (code = CMD_GET_ADDR_BY_NAME)) as [->|Hb].
  - unfold DnsResolverServiceStub.OnRemoteRequest, netmanager_request. destruct (read_token data) as [t p0] eqn:Et. cbn [fst snd].
    destruct (String.eqb_spec dns_descriptor t) as [<-|_]; [|right; by apply wp_ret]. cbn.
    destruct (OnGetAddressesByName_returns p0 reply w Hw) as [[Hn R]|[_ R] ]; [|by right]. left. split; [|exact R]. by right.
  - assert (Hr : no_hints code data ∨ wp (DnsResolverServiceStub.OnRemoteRequest code data reply) (λ _, dns_ok) w).
    { unfold DnsResolverServiceStub.OnRemoteRequest, netmanager_request, no_hints. destruct (read_token data) as [t p0] eqn:Et. cbn [fst snd].
      destruct (String.eqb_spec dns_descriptor t) as [<-|_]; [|right; by apply wp_ret]. cbn [negb].
      destruct (decide (code = CMD_GET_ADDR_INFO)) as [->|Hc].
      - destruct (OnGetAddrInfo_returns p0 reply w Hw) as [Hn|Hr]; [by left|by right].
      - right. destruct (DnsResolverServiceStub.memberFuncMap_ code) as [f|] eqn:Hf; [|by apply wp_ret].
        by apply (handlers_return code f). }
    destruct Hr as [Hn|Hr]; [left|by right]. split; [by left|by apply no_hints_crashes].
Qed.

(** A list that [free] does not release is the end of the process. *)
Lemma unfit_list_crashes code data reply w :
  dns_ok w → unfit_list code data w → DnsResolverServiceStub.OnRemoteRequest code data reply w = None.
Proof.
  intros Hw (-> & Ht & Hn). unfold DnsResolverServiceStub.OnRemoteRequest, netmanager_request.
  destruct (read_token data) as [t p0]. cbn [fst snd] in Ht, Hn. subst t. rewrite String.eqb_refl. cbn.
  destruct (OnGetAddressesByName_returns p0 reply w Hw) as [[_ R]|[Hx _] ]; [exact R|by destruct Hx].
Qed.

End Survives.

(** *** The properties *)

Import Unbounded SamplePlatform.

#[local] Instance dns_codes : ErrCodes := {| COMMON_ERR_OFFSET := 2097152 |}.

(** Transparency: a request that a client makes through the proxy of the
    DNS resolver service, with empty vectors and parcels that do not fail, has
    exactly the effect and the answer of the call of the service, the lists of
    addresses, servers and domains included. *)
Theorem dns_ipc_transparent {E P} `{Platform E} `{DnsPlatform E} `{ParcelLaws P} `{!RoomyParcel P}
    `{IpcPlatform P} `{ErrCodes} q (w : dworld E) r w' :
  dns_sendable q → dns_reply_fits r → dns_handle q w = Some (r, w') →
  dns_proxy_call (P:=P) dns_stub q w = Some (r, w').
Proof.
  intros Hq Hf Hh.
  assert (Hwp : wp (dns_proxy_call (P:=P) dns_stub q) (λ r1 w1, r1 = r ∧ w1 = w') w).
  { apply dns_proxy_sends; [done|]. intros p Hp.
    eapply wp_mono; [apply (dns_stub_serves q w r w'); [done..|apply unread_new]|].
    intros x w1 (-> & Hx & Hu). split; [done|]. exists r. split; [by eapply dns_handle_reply|done]. }
  destruct Hwp as (r1 & w1 & -> & -> & ->). done.
Qed.

Lemma dns_ipc_transparent_witness :
  ∃ w', dns_proxy_call (P:=buffer) dns_stub (DGetAddressesByName "www.example.com") dns_start
  = Some (DRAddresses 0 [INetAddr.mk 0 2 0 "93.184.216.34" "" ""; INetAddr.mk 0 10 0 "2001:db8::1" "" ""], w').
Proof.
  eexists. apply (dns_ipc_transparent (P:=buffer) (DGetAddressesByName "www.example.com") dns_start).
  - discriminate.
  - vm_compute. reflexivity.
  - vm_compute. reflexivity.
Defined.

(** C29. The stub survives every message, with any code, in parcels that hold
    anything, but two. It follows a null pointer exactly when [GetAddrInfo] is
    asked with a valid name and hints that are not there, whatever the resolver
    is; and, when the resolver hands out lists with blocks that are not
    allocations of their own, the request for such a list by
    [GetAddressesByName] is undefined, so that with a resolver that does not
    the first message is the only one. *)
Theorem dns_stub_survives {E P} `{Platform E} `{ResolverLaws E} `{ParcelOps P} `{IpcPlatform P} `{ErrCodes}
    code (data reply : P) (w : dworld E) :
  netd_ok (h_netd (d_host w)) →
  (DnsResolverServiceStub.OnRemoteRequest code data reply w = None ↔ no_hints code data ∨ unfit_list code data w) ∧
  ((∀ l, own_allocation l = true) →
     DnsResolverServiceStub.OnRemoteRequest code data reply w = None ↔ no_hints code data) ∧
  (∀ x w', DnsResolverServiceStub.OnRemoteRequest code data reply w = Some (x, w') →
     netd_ok (h_netd (d_host w'))).
Proof.
  intros Hw. assert (Hiff : DnsResolverServiceStub.OnRemoteRequest code data reply w = None ↔
    no_hints code data ∨ unfit_list code data w).
  { split; [|intros [Hn|Hn]; [by apply no_hints_crashes|by apply unfit_list_crashes] ]. intros R.
    destruct (stub_returns code data reply w Hw) as [[Hn _]|(x & w' & R' & _)]; [exact Hn|congruence]. }
  split; [exact Hiff|]. split.
  - intros Hall. rewrite Hiff. split; [|by left]. intros [Hn|(_ & _ & h & _ & _ & Hn)]; [done|]. by destruct Hn; intros l _ _.
  - intros x1 w1 R1. destruct (stub_returns code data reply w Hw) as [[_ R]|(x & w' & R & Hw')]; [congruence|].
    rewrite R in R1. by injection R1 as <- <-.
Qed.

(** A message that ends after the server. *)
Definition cut_message : buffer :=
  mkBuffer [PItem KInterfaceToken dns_descriptor; PItem KString "www.example.com"%string; PItem KString ""%string].

Lemma dns_stub_survives_witness :
  DnsResolverServiceStub.OnRemoteRequest CMD_GET_ADDR_INFO cut_message parcel_new dns_start = None.
Proof.
  refine (proj2 (proj1 (dns_stub_survives CMD_GET_ADDR_INFO cut_message parcel_new dns_start _)) _).
  - intros c. discriminate.
  - left. split; [reflexivity|]. split; [reflexivity|].
    eexists _, _, _, _. split; [reflexivity|]. split; [reflexivity|]. split; [reflexivity|].
    vm_compute. reflexivity.
Defined.
