(* ===== verification/Client.v ===== *)
(** * The client libraries

    [net_conn_client.cpp], [net_policy_client.cpp], [dns_resolver_client.cpp] and
    [ethernet_client.cpp] under [frameworks/innerkitsimpl]. Each keeps the
    object of its service, gets it from the system ability manager when it has
    none, gives it up when its death is announced, and forwards every method.

    An object of another process is a number, its identity; what stands behind
    it is an interface: a record of the methods of [INetConnService] and so on,
    of which the proxies are one implementation and the services themselves
    another. *)

From S2P Require Import Prelude Parcel Parcelables Ipc Host NetIds ConnState.
From S2P Require Import ConnService ConnIpc Policy PolicyIpc Ethernet NetmanagerIpc EthernetIpc.
From S2P Require Import Dns DnsIpc.

(** ** The interfaces *)

Record INetConnService (S : Type) := mkINetConnService {
  nc_SystemReady : st S Z;
  nc_RegisterNetSupplier : Z → string → Z → st S Z;
  nc_UnregisterNetSupplier : Z → st S Z;
  nc_RegisterNetConnCallback : option INetConnCallback → st S Z;
  nc_RegisterNetConnCallbackBySpecifier : option NetSpecifier.t → option INetConnCallback → st S Z;
  nc_UnregisterNetConnCallback : option INetConnCallback → st S Z;
  nc_UnregisterNetConnCallbackBySpecifier : option NetSpecifier.t → option INetConnCallback → st S Z;
  nc_UpdateNetSupplierInfo : Z → option NetSupplierInfo.t → st S Z;
  nc_UpdateNetCapabilities : Z → Z → st S Z;
  nc_UpdateNetLinkInfo : Z → option NetLinkInfo.t → st S Z;
}.
Arguments mkINetConnService {S}.
Arguments nc_SystemReady {S}.
Arguments nc_RegisterNetSupplier {S}.
Arguments nc_UnregisterNetSupplier {S}.
Arguments nc_RegisterNetConnCallback {S}.
Arguments nc_RegisterNetConnCallbackBySpecifier {S}.
Arguments nc_UnregisterNetConnCallback {S}.
Arguments nc_UnregisterNetConnCallbackBySpecifier {S}.
Arguments nc_UpdateNetSupplierInfo {S}.
Arguments nc_UpdateNetCapabilities {S}.
Arguments nc_UpdateNetLinkInfo {S}.

Record INetPolicyService (S : Type) := mkINetPolicyService {
  np_SetUidPolicy : Z → Z → st S Z;
  np_GetUidPolicy : Z → st S Z;
  np_GetUids : Z → st S (list Z);
  np_IsUidNetAccess : Z → bool → st S bool;
  np_IsUidNetAccessIface : Z → string → st S bool;
}.
Arguments mkINetPolicyService {S}.
Arguments np_SetUidPolicy {S}.
Arguments np_GetUidPolicy {S}.
Arguments np_GetUids {S}.
Arguments np_IsUidNetAccess {S}.
Arguments np_IsUidNetAccessIface {S}.

Record IDnsResolverService (S : Type) := mkIDnsResolverService {
  dr_GetAddressesByName : string → list INetAddr.t → st S (Z * list INetAddr.t);
  dr_GetAddrInfo : string → string → option DnsAddrInfo.t → list DnsAddrInfo.t →
    st S (Z * list DnsAddrInfo.t);
  dr_CreateNetworkCache : Z → st S Z;
  dr_DestoryNetworkCache : Z → st S Z;
  dr_FlushNetworkCache : Z → st S Z;
  dr_SetResolverConfig : Z → Z → Z → list string → list string → st S Z;
  dr_GetResolverInfo : Z → ResolverInfo → st S (Z * ResolverInfo);
}.
Arguments mkIDnsResolverService {S}.
Arguments dr_GetAddressesByName {S}.
Arguments dr_GetAddrInfo {S}.
Arguments dr_CreateNetworkCache {S}.
Arguments dr_DestoryNetworkCache {S}.
Arguments dr_FlushNetworkCache {S}.
Arguments dr_SetResolverConfig {S}.
Arguments dr_GetResolverInfo {S}.

Record IEthernetService (S : Type) := mkIEthernetService {
  es_SetIfaceConfig : string → option InterfaceConfiguration.t → st S Z;
  es_GetIfaceConfig : string → st S (option InterfaceConfiguration.t);
  es_IsActivate : string → st S Z;
  es_GetActivateInterfaces : st S (list string);
}.
Arguments mkIEthernetService {S}.
Arguments es_SetIfaceConfig {S}.
Arguments es_GetIfaceConfig {S}.
Arguments es_IsActivate {S}.
Arguments es_GetActivateInterfaces {S}.

(** The proxies implement them. *)
Section Proxies.
Context {S P : Type} `{ParcelOps P} `{IpcPlatform P} `{ErrCodes} (r : remote P S).

Definition net_conn_proxy : INetConnService S :=
  mkINetConnService (NetConnServiceProxy.SystemReady r) (NetConnServiceProxy.RegisterNetSupplier r)
    (NetConnServiceProxy.UnregisterNetSupplier r) (NetConnServiceProxy.RegisterNetConnCallback r)
    (NetConnServiceProxy.RegisterNetConnCallbackBySpecifier r)
    (NetConnServiceProxy.UnregisterNetConnCallback r)
    (NetConnServiceProxy.UnregisterNetConnCallbackBySpecifier r)
    (NetConnServiceProxy.UpdateNetSupplierInfo r) (NetConnServiceProxy.UpdateNetCapabilities r)
    (NetConnServiceProxy.UpdateNetLinkInfo r).

Definition net_policy_proxy : INetPolicyService S :=
  mkINetPolicyService (NetPolicyServiceProxy.SetUidPolicy r) (NetPolicyServiceProxy.GetUidPolicy r)
    (NetPolicyServiceProxy.GetUids r) (NetPolicyServiceProxy.IsUidNetAccess r)
    (NetPolicyServiceProxy.IsUidNetAccessIface r).

Definition dns_resolver_proxy : IDnsResolverService S :=
  mkIDnsResolverService (DnsResolverServiceProxy.GetAddressesByName r) (DnsResolverServiceProxy.GetAddrInfo r)
    (DnsResolverServiceProxy.CreateNetworkCache r) (DnsResolverServiceProxy.DestoryNetworkCache r)
    (DnsResolverServiceProxy.FlushNetworkCache r) (DnsResolverServiceProxy.SetResolverConfig r)
    (DnsResolverServiceProxy.GetResolverInfo r).

Definition ethernet_proxy : IEthernetService S :=
  mkIEthernetService (EthernetServiceProxy.SetIfaceConfig r) (EthernetServiceProxy.GetIfaceConfig r)
    (EthernetServiceProxy.IsActivate r) (EthernetServiceProxy.GetActivateInterfaces r).

End Proxies.

(** ** The system

    The system ability manager and the operations of [IRemoteObject].
    [promote] is that of a [wptr], [cast] the test of [iface_cast] for null. *)
Class RemoteObjects (S : Type) := {
  GetSystemAbilityManager : S → bool * S;
  CheckSystemAbility : Z → S → option nat * S;
  IsProxyObject : nat → bool;
  AddDeathRecipient : nat → nat → S → bool * S;
  RemoveDeathRecipient : nat → option nat → S → bool * S;
  cast : string → nat → S → bool * S;
  promote : nat → S → option nat * S;
}.

(** [system_ability_definition.h] *)
Class SystemAbilities := {
  COMM_NET_CONN_MANAGER_SYS_ABILITY_ID : Z;
  COMM_NET_POLICY_MANAGER_SYS_ABILITY_ID : Z;
  COMM_DNS_MANAGER_SYS_ABILITY_ID : Z;
  COMM_ETHERNET_MANAGER_SYS_ABILITY_ID : Z;
}.

(** A client in the system: the members [<X>Service_] and [deathRecipient_], the
    number of recipients it has made, which names the next one, and two logs,
    the newest entry first: [c_added], the recipients that an object has
    accepted, the calls of [AddDeathRecipient] that answered yes, and
    [c_removed], the recipients that the client has given to
    [RemoveDeathRecipient], with the object, whatever that answered. The code
    reads neither log. *)
Record cworld (S : Type) := mkCworld {
  c_system : S;
  service_ : option nat;
  deathRecipient_ : option nat;
  c_made : nat;
  c_added : list (nat * nat);
  c_removed : list (nat * nat);
}.
Arguments mkCworld {S}.
Arguments c_system {S}.
Arguments service_ {S}.
Arguments deathRecipient_ {S}.
Arguments c_made {S}.
Arguments c_added {S}.
Arguments c_removed {S}.

(** After the constructor. *)
Definition client_construct {S} (s : S) : cworld S := mkCworld s None None 0 [] [].

(** ** What the four clients share *)

Module RemoteClient.
Section Code.
Context {S : Type} `{RemoteObjects S}.
Implicit Type c : cworld S.

Definition on_system {A} (m : st S A) : st (cworld S) A := λ c,
  match m (c_system c) with
  | Some (a, s) => Some (a, mkCworld s (service_ c) (deathRecipient_ c) (c_made c) (c_added c) (c_removed c))
  | None => None
  end.

Definition ask {A} (f : S → A * S) : st (cworld S) A := on_system (λ s, Some (f s)).

Definition set_service (o : option nat) : st (cworld S) unit :=
  modify (λ c, mkCworld (c_system c) o (deathRecipient_ c) (c_made c) (c_added c) (c_removed c)).

(** [deathRecipient_ = (std::make_unique<...>( *this)).release();] *)
Definition new_recipient : st (cworld S) nat :=
  d ← gets c_made ;
  modify (λ c, mkCworld (c_system c) (service_ c) (Some d) (c_made c + 1) (c_added c) (c_removed c)) ;;
  mret d.

Definition add_recipient (remote d : nat) : st (cworld S) bool :=
  ok ← ask (AddDeathRecipient remote d) ;
  modify (λ c, mkCworld (c_system c) (service_ c) (deathRecipient_ c) (c_made c)
            (if ok : bool then (remote, d) :: c_added c else c_added c) (c_removed c)) ;;
  mret ok.

Definition remove_recipient (remote : nat) (d : option nat) : st (cworld S) unit :=
  ask (RemoveDeathRecipient remote d) ;;
  modify (λ c, mkCworld (c_system c) (service_ c) (deathRecipient_ c) (c_made c) (c_added c)
            (from_option (λ d, (remote, d) :: c_removed c) (c_removed c) d)).

(** [GetProxy] for the ability [id] and the interface [descriptor]. *)
Definition GetProxy (id : Z) (descriptor : string) : st (cworld S) (option nat) :=
  service ← gets service_ ;
  match service with
  | Some remote => mret (Some remote)
  | None =>
    sam ← ask GetSystemAbilityManager ;
    if negb sam then mret None
    else
      remote ← ask (CheckSystemAbility id) ;
      match remote with
      | None => mret None
      | Some remote =>
        d ← new_recipient ;
        ok ← (if IsProxyObject remote then add_recipient remote d else mret true) ;
        if negb ok then mret None
        else
          ok ← ask (cast descriptor remote) ;
          let service := if ok : bool then Some remote else None in
          set_service service ;; mret service
      end
  end.

(** [remote] is the [wptr] of the notice. *)
Definition OnRemoteDied (remote : option nat) : st (cworld S) unit :=
  match remote with
  | None => mret tt
  | Some remote =>
    service ← gets service_ ;
    match service with
    | None => mret tt
    | Some local =>
      p ← ask (promote remote) ;
      if decide (Some local = p) then
        d ← gets deathRecipient_ ;
        remove_recipient local d ;;
        set_service None
      else mret tt
    end
  end.

(** [proxy = GetProxy(); if (proxy == nullptr) return null; return proxy->m();] *)
Definition forward {A} (GetProxy : st (cworld S) (option nat)) (null : A) (m : nat → st S A) : st (cworld S) A :=
  proxy ← GetProxy ;
  match proxy with
  | None => mret null
  | Some proxy => on_system (m proxy)
  end.

End Code.
End RemoteClient.
