(* ===== verification/Clients.v ===== *)
(** * The four clients

    Their methods, each the one of the interface behind the object that
    [GetProxy] returns, or its own answer when there is none. *)

From S2P Require Import Prelude Parcel Parcelables Ipc Host NetIds ConnState.
From S2P Require Import ConnService ConnIpc Policy PolicyIpc Ethernet NetmanagerIpc EthernetIpc.
From S2P Require Import Dns DnsIpc Client.
Import RemoteClient.

(** ** net_conn_client.cpp *)

Module NetConnClient.
Section Code.
Context {S P : Type} `{RemoteObjects S} `{SystemAbilities} `{IpcPlatform P}.
Context (object : nat → INetConnService S).

Definition GetProxy : st (cworld S) (option nat) :=
  RemoteClient.GetProxy COMM_NET_CONN_MANAGER_SYS_ABILITY_ID descriptor.

Definition OnRemoteDied : option nat → st (cworld S) unit := RemoteClient.OnRemoteDied.

Definition SystemReady : st (cworld S) Z :=
  forward GetProxy IPC_PROXY_ERR (λ proxy, nc_SystemReady (object proxy)).

Definition RegisterNetSupplier (netType : Z) (ident : string) (netCapabilities : Z) : st (cworld S) Z :=
  forward GetProxy IPC_PROXY_ERR (λ proxy, nc_RegisterNetSupplier (object proxy) netType ident netCapabilities).

Definition UnregisterNetSupplier (supplierId : Z) : st (cworld S) Z :=
  forward GetProxy IPC_PROXY_ERR (λ proxy, nc_UnregisterNetSupplier (object proxy) supplierId).

Definition RegisterNetConnCallback (callback : option INetConnCallback) : st (cworld S) Z :=
  forward GetProxy IPC_PROXY_ERR (λ proxy, nc_RegisterNetConnCallback (object proxy) callback).

Definition RegisterNetConnCallbackBySpecifier (netSpecifier : option NetSpecifier.t)
    (callback : option INetConnCallback) : st (cworld S) Z :=
  forward GetProxy IPC_PROXY_ERR (λ proxy,
    nc_RegisterNetConnCallbackBySpecifier (object proxy) netSpecifier callback).

Definition UnregisterNetConnCallback (callback : option INetConnCallback) : st (cworld S) Z :=
  forward GetProxy IPC_PROXY_ERR (λ proxy, nc_UnregisterNetConnCallback (object proxy) callback).

Definition UnregisterNetConnCallbackBySpecifier (netSpecifier : option NetSpecifier.t)
    (callback : option INetConnCallback) : st (cworld S) Z :=
  forward GetProxy IPC_PROXY_ERR (λ proxy,
    nc_UnregisterNetConnCallbackBySpecifier (object proxy) netSpecifier callback).

Definition UpdateNetSupplierInfo (supplierId : Z) (netSupplierInfo : option NetSupplierInfo.t) : st (cworld S) Z :=
  forward GetProxy IPC_PROXY_ERR (λ proxy, nc_UpdateNetSupplierInfo (object proxy) supplierId netSupplierInfo).

Definition UpdateNetCapabilities (supplierId netCapabilities : Z) : st (cworld S) Z :=
  forward GetProxy IPC_PROXY_ERR (λ proxy, nc_UpdateNetCapabilities (object proxy) supplierId netCapabilities).

Definition UpdateNetLinkInfo (supplierId : Z) (netLinkInfo : option NetLinkInfo.t) : st (cworld S) Z :=
  forward GetProxy IPC_PROXY_ERR (λ proxy, nc_UpdateNetLinkInfo (object proxy) supplierId netLinkInfo).

End Code.
End NetConnClient.

(** ** net_policy_client.cpp *)

Module NetPolicyClient.
Section Code.
Context {S : Type} `{RemoteObjects S} `{SystemAbilities}.
Context (object : nat → INetPolicyService S).

Definition GetProxy : st (cworld S) (option nat) :=
  RemoteClient.GetProxy COMM_NET_POLICY_MANAGER_SYS_ABILITY_ID policy_descriptor.

Definition OnRemoteDied : option nat → st (cworld S) unit := RemoteClient.OnRemoteDied.

Definition SetUidPolicy (uid policy : Z) : st (cworld S) Z :=
  forward GetProxy ERR_INTERNAL_ERROR (λ proxy, np_SetUidPolicy (object proxy) uid policy).

Definition GetUidPolicy (uid : Z) : st (cworld S) Z :=
  forward GetProxy NET_POLICY_NONE (λ proxy, np_GetUidPolicy (object proxy) uid).

Definition GetUids (policy : Z) : st (cworld S) (list Z) :=
  forward GetProxy [] (λ proxy, np_GetUids (object proxy) policy).

Definition IsUidNetAccess (uid : Z) (metered : bool) : st (cworld S) bool :=
  forward GetProxy false (λ proxy, np_IsUidNetAccess (object proxy) uid metered).

Definition IsUidNetAccessIface (uid : Z) (ifaceName : string) : st (cworld S) bool :=
  forward GetProxy false (λ proxy, np_IsUidNetAccessIface (object proxy) uid ifaceName).

End Code.
End NetPolicyClient.

(** ** dns_resolver_client.cpp

    A parameter that is filled by the callee is an argument and a result. *)

Module DnsResolverClient.
Section Code.
Context {S P : Type} `{RemoteObjects S} `{SystemAbilities} `{IpcPlatform P}.
Context (object : nat → IDnsResolverService S).

Definition GetProxy : st (cworld S) (option nat) :=
  RemoteClient.GetProxy COMM_DNS_MANAGER_SYS_ABILITY_ID dns_descriptor.

Definition OnRemoteDied : option nat → st (cworld S) unit := RemoteClient.OnRemoteDied.

Definition GetAddressesByName (hostName : string) (addrInfo : list INetAddr.t)
    : st (cworld S) (Z * list INetAddr.t) :=
  forward GetProxy (IPC_PROXY_ERR, addrInfo) (λ proxy, dr_GetAddressesByName (object proxy) hostName addrInfo).

Definition GetAddrInfo (hostName server : string) (hints : option DnsAddrInfo.t)
    (dnsAddrInfo : list DnsAddrInfo.t) : st (cworld S) (Z * list DnsAddrInfo.t) :=
  forward GetProxy (IPC_PROXY_ERR, dnsAddrInfo) (λ proxy,
    dr_GetAddrInfo (object proxy) hostName server hints dnsAddrInfo).

Definition CreateNetworkCache (netId : Z) : st (cworld S) Z :=
  forward GetProxy IPC_PROXY_ERR (λ proxy, dr_CreateNetworkCache (object proxy) netId).

Definition DestoryNetworkCache (netId : Z) : st (cworld S) Z :=
  forward GetProxy IPC_PROXY_ERR (λ proxy, dr_DestoryNetworkCache (object proxy) netId).

Definition FlushNetworkCache (netId : Z) : st (cworld S) Z :=
  forward GetProxy IPC_PROXY_ERR (λ proxy, dr_FlushNetworkCache (object proxy) netId).

Definition SetResolverConfig (netId baseTimeoutMsec retryCount : Z) (servers domains : list string)
    : st (cworld S) Z :=
  forward GetProxy IPC_PROXY_ERR (λ proxy,
    dr_SetResolverConfig (object proxy) netId baseTimeoutMsec retryCount servers domains).

Definition GetResolverInfo (netId : Z) (info : ResolverInfo) : st (cworld S) (Z * ResolverInfo) :=
  forward GetProxy (IPC_PROXY_ERR, info) (λ proxy, dr_GetResolverInfo (object proxy) netId info).

End Code.
End DnsResolverClient.

(** ** ethernet_client.cpp *)

Module EthernetClient.
Section Code.
Context {S P : Type} `{RemoteObjects S} `{SystemAbilities} `{IpcPlatform P}.
Context (object : nat → IEthernetService S).

Definition GetProxy : st (cworld S) (option nat) :=
  RemoteClient.GetProxy COMM_ETHERNET_MANAGER_SYS_ABILITY_ID eth_descriptor.

Definition OnRemoteDied : option nat → st (cworld S) unit := RemoteClient.OnRemoteDied.

Definition SetIfaceConfig (iface : string) (ic : option InterfaceConfiguration.t) : st (cworld S) Z :=
  forward GetProxy IPC_PROXY_ERR (λ proxy, es_SetIfaceConfig (object proxy) iface ic).

Definition GetIfaceConfig (iface : string) : st (cworld S) (option InterfaceConfiguration.t) :=
  forward GetProxy None (λ proxy, es_GetIfaceConfig (object proxy) iface).

Definition IsActivate (iface : string) : st (cworld S) Z :=
  forward GetProxy IPC_PROXY_ERR (λ proxy, es_IsActivate (object proxy) iface).

Definition GetActivateInterfaces : st (cworld S) (list string) :=
  forward GetProxy [] (λ proxy, es_GetActivateInterfaces (object proxy)).

End Code.
End EthernetClient.
