(* ===== verification/ClientSpec.v ===== *)
(** * What a client does

    [GetProxy], a notice of death and a forwarded call as updates of the state;
    the states that calls, notices and the rest of the system lead to, and
    their invariant. *)

From S2P Require Import Prelude Parcel Client.
Import RemoteClient.

Section Client.
Context {S : Type} `{RemoteObjects S}.
Implicit Type c : cworld S.

Definition set_system (s : S) c : cworld S :=
  mkCworld s (service_ c) (deathRecipient_ c) (c_made c) (c_added c) (c_removed c).

(** ** The operations *)

Lemma wp_on_system {A} (m : st S A) (Q : A → cworld S → Prop) c :
  wp m (λ a s, Q a (set_system s c)) (c_system c) → wp (on_system m) Q c.
Proof. intros (a & s & Hm & HQ). eexists _, _. split; [unfold on_system; by rewrite Hm|exact HQ]. Qed.

Lemma wp_ask {A} (f : S → A * S) (Q : A → cworld S → Prop) c :
  (∀ a s, f (c_system c) = (a, s) → Q a (set_system s c)) → wp (ask f) Q c.
Proof. intros HQ. apply wp_on_system. destruct (f (c_system c)) as [a s] eqn:Ef. eexists _, _. split; [by rewrite Ef|by apply HQ]. Qed.

(** [GetProxy] on every branch: an object that is kept is returned without
    asking anybody; otherwise a new recipient may have been made, it is added
    to an object of another process, and the object is kept exactly when it is
    returned. *)
Lemma wp_GetProxy id descriptor (Q : option nat → cworld S → Prop) c :
  (∀ h, service_ c = Some h → Q (Some h) c) →
  (service_ c = None → ∀ s d made, (d, made) = (deathRecipient_ c, c_made c) ∨ (d, made) = (Some (c_made c), (c_made c + 1)%nat) →
     Q None (mkCworld s None d made (c_added c) (c_removed c))) →
  (service_ c = None → ∀ s h, IsProxyObject h = true →
     (∃ s0, (cast descriptor h s0).1 = false) →
     Q None (mkCworld s None (Some (c_made c)) (c_made c + 1) ((h, c_made c) :: c_added c) (c_removed c))) →
  (service_ c = None → ∀ s h,
     Q (Some h) (mkCworld s (Some h) (Some (c_made c)) (c_made c + 1)
       (if IsProxyObject h then (h, c_made c) :: c_added c else c_added c) (c_removed c))) →
  wp (GetProxy id descriptor) Q c.
Proof.
  intros Hkept Hno Hleft Hyes. apply wp_bind, wp_gets. destruct (service_ c) as [h|] eqn:Hs; [by apply wp_ret, Hkept|].
  assert (Hn : ∀ s1 d made, (d, made) = (deathRecipient_ c, c_made c) ∨ (d, made) = (Some (c_made c), (c_made c + 1)%nat) →
    wp (mret None) Q (mkCworld s1 None d made (c_added c) (c_removed c))) by (intros; apply wp_ret; by apply Hno).
  apply wp_bind, wp_ask. intros sam s1 _. unfold set_system. rewrite Hs. destruct sam; cbn [negb]; [|apply Hn; by left].
  apply wp_bind, wp_ask. intros o s2 _. unfold set_system. cbn [service_ deathRecipient_ c_made c_added c_removed].
  destruct o as [h|]; [|apply Hn; by left].
  apply wp_bind, wp_bind, wp_gets, wp_bind, wp_modify, wp_ret. cbn [c_system service_ deathRecipient_ c_made c_added c_removed].
  assert (Hcast : ∀ added s3, added = (if IsProxyObject h then (h, c_made c) :: c_added c else c_added c) →
    wp (ok ← ask (cast descriptor h) ; let service := if ok : bool then Some h else None in
        set_service service ;; mret service) Q (mkCworld s3 None (Some (c_made c)) (c_made c + 1) added (c_removed c))).
  { intros added s3 Hadded. apply wp_bind, wp_ask. cbn [c_system]. intros ok s4 Hok. unfold set_system.
    cbn [service_ deathRecipient_ c_made c_added c_removed]. cbv zeta. apply wp_bind, wp_modify, wp_ret.
    cbn [c_system service_ deathRecipient_ c_made c_added c_removed]. destruct ok; [rewrite Hadded; by apply Hyes|].
    destruct (IsProxyObject h) eqn:Hp; rewrite Hadded.
    - apply Hleft; [done..|]. exists s3. by rewrite Hok.
    - apply Hno; [done|]. by right. }
  destruct (IsProxyObject h) eqn:Hp.
  - apply wp_bind, wp_bind, wp_ask. cbn [c_system]. intros ok s3 _. apply wp_bind, wp_modify, wp_ret.
    cbn [c_system service_ deathRecipient_ c_made c_added c_removed set_system]. destruct ok; cbn [negb]; [by apply Hcast|].
    apply Hn. by right.
  - apply wp_bind, wp_ret. cbn [negb]. by apply Hcast.
Qed.

(** A notice: the object is given up when the notice is about it, and
    otherwise nothing changes. *)
Lemma wp_OnRemoteDied remote (Q : unit → cworld S → Prop) c :
  (∀ s, Q tt (set_system s c)) → Q tt c →
  (∀ s h r, service_ c = Some h → remote = Some r → (promote r (c_system c)).1 = Some h →
     Q tt (mkCworld s None (deathRecipient_ c) (c_made c) (c_added c)
       (from_option (λ d, (h, d) :: c_removed c) (c_removed c) (deathRecipient_ c)))) →
  wp (OnRemoteDied remote) Q c.
Proof.
  intros Hsame Hnone Hdied. destruct remote as [r|]; [|by apply wp_ret].
  apply wp_bind, wp_gets. destruct (service_ c) as [h|] eqn:Hs; [|by apply wp_ret].
  apply wp_bind, wp_ask. intros p s Hp. destruct (decide (Some h = p)) as [<-|Hne].
  - apply wp_bind, wp_gets. apply wp_bind, wp_bind, wp_ask. intros ok s1 _. apply wp_modify, wp_modify.
    cbn [c_system service_ deathRecipient_ c_made c_added c_removed set_system]. apply (Hdied s1 h r); [done..|]. by rewrite Hp.
  - apply wp_ret, Hsame.
Qed.

(** A call: the object first, and then its method on the system. *)
Lemma forward_none {A} gp (null : A) m c c1 : gp c = Some (None, c1) → forward gp null m c = Some (null, c1).
Proof. intros Hg. unfold forward, mbind, st_bind. by rewrite Hg. Qed.

Lemma forward_some {A} gp (null : A) m c c1 h a s :
  gp c = Some (Some h, c1) → m h (c_system c1) = Some (a, s) →
  forward gp null m c = Some (a, set_system s c1).
Proof. intros Hg Hm. unfold forward, mbind, st_bind. rewrite Hg. unfold on_system. by rewrite Hm. Qed.

(** ** The states of a client *)

Inductive client_reachable (id : Z) (descriptor : string) (s : S) : cworld S → Prop :=
  | cr_construct : client_reachable id descriptor s (client_construct s)
  | cr_call c A (null : A) m a c' :
      client_reachable id descriptor s c → forward (GetProxy id descriptor) null m c = Some (a, c') →
      client_reachable id descriptor s c'
  | cr_proxy c o c' :
      client_reachable id descriptor s c → GetProxy id descriptor c = Some (o, c') →
      client_reachable id descriptor s c'
  | cr_died c remote c' :
      client_reachable id descriptor s c → OnRemoteDied remote c = Some (tt, c') →
      client_reachable id descriptor s c'
  | cr_system c s' : client_reachable id descriptor s c → client_reachable id descriptor s (set_system s' c).

(** The recipient of the object that is kept. *)
Definition own_recipient c : list (nat * nat) :=
  match service_ c, deathRecipient_ c with
  | Some h, Some d => if IsProxyObject h then [(h, d)] else []
  | _, _ => []
  end.

(** The recipients that the client has taken from objects of other processes. *)
Definition released c : list (nat * nat) := filter (λ x, IsProxyObject x.1 = true) (c_removed c).

(** Recipients are numbered as they are made. The current one, of the object
    that is kept, and those that were released are different recipients that
    had been added to their objects. *)
Record client_inv c : Prop := mkClientInv {
  ci_recipient : is_Some (service_ c) → is_Some (deathRecipient_ c);
  ci_made : ∀ d, deathRecipient_ c = Some d → (d < c_made c)%nat;
  ci_below : ∀ x, x ∈ c_added c → (x.2 < c_made c)%nat;
  ci_distinct : NoDup (c_added c).*2;
  ci_own : own_recipient c ++ released c `sublist_of` c_added c;
}.

Lemma inv_client_construct s : client_inv (client_construct s).
Proof.
  split; cbn; [by intros []|done|by intros x ?%elem_of_nil|constructor|done].
Qed.

Lemma inv_set_system s c : client_inv c → client_inv (set_system s c).
Proof. by intros []. Qed.

Lemma own_recipient_none c : service_ c = None → own_recipient c = [].
Proof. intros Hs. unfold own_recipient. by rewrite Hs. Qed.

Lemma inv_GetProxy id descriptor c : client_inv c → wp (GetProxy id descriptor) (λ _, client_inv) c.
Proof.
  intros [Hr Hm Hb Hd Ho].
  assert (Hadd : service_ c = None → ∀ h s o, o = Some h ∨ o = None → IsProxyObject h = true →
    client_inv (mkCworld s o (Some (c_made c)) (c_made c + 1) ((h, c_made c) :: c_added c) (c_removed c))).
  { intros Hs h s o Hoh Hp. rewrite (own_recipient_none c Hs) in Ho. split; cbn.
    - by eexists.
    - intros d [= <-]. lia.
    - intros x [->|Hx]%elem_of_cons; cbn; [lia|]. specialize (Hb x Hx). lia.
    - constructor; [|done]. intros (x & Hx & Hin)%list_elem_of_fmap. specialize (Hb x Hin). lia.
    - unfold own_recipient, released. cbn. destruct Hoh as [->| ->]; [rewrite Hp|]; by constructor. }
  assert (Hsame : service_ c = None → ∀ s o d made, (o = None ∨ ∃ h, o = Some h ∧ IsProxyObject h = false) →
    (o = None ∨ is_Some d) → (c_made c ≤ made)%nat → (∀ x, d = Some x → (x < made)%nat) →
    client_inv (mkCworld s o d made (c_added c) (c_removed c))).
  { intros Hs s o d made Hoh Hod Hle Hdm. rewrite (own_recipient_none c Hs) in Ho. split; cbn.
    - intros [h ->]. by destruct Hod.
    - done.
    - intros x Hx. specialize (Hb x Hx). lia.
    - done.
    - unfold own_recipient, released. cbn. destruct Hoh as [->|(h & -> & Hp)]; [done|]. destruct d; [|done]. by rewrite Hp. }
  apply wp_GetProxy.
  - intros h Hh. by split.
  - intros Hs s d made [[= -> ->]|[= -> ->]]; apply Hsame; auto; try lia. intros x [= <-]. lia.
  - intros Hs s h Hp _. apply Hadd; auto.
  - intros Hs s h. destruct (IsProxyObject h) eqn:Hp; [by apply Hadd; auto|].
    apply Hsame; eauto; [lia|]. intros x [= <-]. lia.
Qed.

(** Giving the object up moves its recipient from the kept one to the released
    ones. *)
Lemma released_died s c h :
  service_ c = Some h → is_Some (deathRecipient_ c) →
  released (mkCworld s None (deathRecipient_ c) (c_made c) (c_added c)
    (from_option (λ d, (h, d) :: c_removed c) (c_removed c) (deathRecipient_ c))) = own_recipient c ++ released c.
Proof.
  intros Hs [d Hd]. unfold released, own_recipient. cbn [c_removed]. rewrite Hs, Hd. cbn [from_option option_fmap].
  destruct (IsProxyObject h) eqn:Hp; [by rewrite filter_cons_True|]. rewrite filter_cons_False; [done|]. cbn. by rewrite Hp.
Qed.

Lemma inv_OnRemoteDied remote c : client_inv c → wp (OnRemoteDied remote) (λ _, client_inv) c.
Proof.
  intros Hc. apply wp_OnRemoteDied; [intros s; by apply inv_set_system|done|].
  intros s h r Hs _ _. pose proof Hc as [Hr Hm Hb Hd Ho]. split; [by intros []|done..|].
  rewrite released_died; [exact Ho|done|by apply Hr].
Qed.

(** Nothing else is added while [iface_cast] succeeds. *)
Definition casts_succeed (descriptor : string) : Prop := ∀ h s, (cast descriptor h s).1 = true.

Definition tidy c : Prop := client_inv c ∧ c_added c = own_recipient c ++ released c.

Lemma tidy_GetProxy id descriptor c :
  casts_succeed descriptor → tidy c → wp (GetProxy id descriptor) (λ _, tidy) c.
Proof.
  intros Hcast [Hc Ht]. apply (wp_and _ (λ _, client_inv)); [by apply inv_GetProxy|].
  assert (Hs : service_ c = None → c_added c = released c) by (intros Hs; by rewrite Ht, own_recipient_none).
  apply wp_GetProxy; unfold own_recipient; cbn.
  - done.
  - intros Hn s d made _. by apply Hs.
  - intros _ s h _ [s0 Hf]. by rewrite Hcast in Hf.
  - intros Hn s h. rewrite (Hs Hn). by destruct (IsProxyObject h).
Qed.

Lemma tidy_OnRemoteDied remote c : tidy c → wp (OnRemoteDied remote) (λ _, tidy) c.
Proof.
  intros [Hc Ht]. apply (wp_and _ (λ _, client_inv)); [by apply inv_OnRemoteDied|].
  apply wp_OnRemoteDied; [done..|]. intros s h r Hs _ _. rewrite released_died; [exact Ht|done|].
  by apply (ci_recipient c Hc).
Qed.

Lemma forward_run {A} gp (null : A) m c a c' :
  forward gp null m c = Some (a, c') → ∃ o c1 s, gp c = Some (o, c1) ∧ c' = set_system s c1.
Proof.
  unfold forward, mbind, st_bind. destruct (gp c) as [[[h|] c1]|]; [| |done].
  - unfold on_system. destruct (m h (c_system c1)) as [[x s]|]; [|done]. intros [= <- <-]. eauto.
  - intros [= <- <-]. exists None, c1, (c_system c1). by destruct c1.
Qed.

(** What the three operations keep, every reachable state has. *)
Lemma client_reachable_ind_inv (I : cworld S → Prop) id descriptor s c :
  I (client_construct s) → (∀ c, I c → wp (GetProxy id descriptor) (λ _, I) c) →
  (∀ remote c, I c → wp (OnRemoteDied remote) (λ _, I) c) → (∀ s c, I c → I (set_system s c)) →
  client_reachable id descriptor s c → I c.
Proof.
  intros Hc Hg Hd Hs. induction 1 as [|c A null m a c' _ IH Hf|c o c' _ IH Hp|c remote c' _ IH Hr|c s' _ IH]; [done|..].
  - destruct (forward_run _ _ _ _ _ _ Hf) as (o & c1 & s' & Hp & ->). apply Hs. exact (wp_run _ _ _ _ _ (Hg c IH) Hp).
  - exact (wp_run _ _ _ _ _ (Hg c IH) Hp).
  - exact (wp_run _ _ _ _ _ (Hd remote c IH) Hr).
  - by apply Hs.
Qed.

(** ** Without an object

    What can happen to a client that finds no object: the system changes, a
    call finds none and returns, a notice comes. *)
Inductive vain_step (id : Z) (descriptor : string) : cworld S → cworld S → Prop :=
  | vs_system c s : vain_step id descriptor c (set_system s c)
  | vs_call c A (null : A) m c' :
      GetProxy id descriptor c = Some (None, c') → forward (GetProxy id descriptor) null m c = Some (null, c') →
      vain_step id descriptor c c'
  | vs_died c remote c' : OnRemoteDied remote c = Some (tt, c') → vain_step id descriptor c c'.

Lemma GetProxy_none id descriptor c : wp (GetProxy id descriptor) (λ o c', o = service_ c') c.
Proof. apply wp_GetProxy; cbn; [by intros h ->|done..]. Qed.

Lemma OnRemoteDied_without remote c :
  service_ c = None → wp (OnRemoteDied remote) (λ _ c', service_ c' = None) c.
Proof. intros Hs. apply wp_OnRemoteDied; [by intros s|done|congruence]. Qed.

Lemma vain_without id descriptor c c' :
  rtc (vain_step id descriptor) c c' → service_ c = None → service_ c' = None.
Proof.
  induction 1 as [c|c c1 c' Hv _ IH]; [done|]. intros Hs. apply IH. destruct Hv as [c s|c A null m c1 Hg _|c remote c1 Hd].
  - exact Hs.
  - symmetry. exact (wp_run _ _ _ _ _ (GetProxy_none id descriptor c) Hg).
  - exact (wp_run _ _ _ _ _ (OnRemoteDied_without remote c Hs) Hd).
Qed.

End Client.
