(* ===== verification/ClientProps.v ===== *)
(** * Properties of the client libraries

    A request through a client, the proxy and the stub is the call of the
    service; a client hears of the death of the object that it keeps, and finds
    the next one. *)

From S2P Require Import Prelude Parcel Parcelables CppStrings Files Ipc Host NetIds.
From S2P Require Import ConnState ConnService ConnSpec ConnProps ConnIpc.
From S2P Require Import Policy PolicySpec PolicyCorrect PolicyProps PolicyIpc.
From S2P Require Import Ethernet EthernetCorrect EthernetProps NetmanagerIpc EthernetIpc.
From S2P Require Import Dns DnsSpec DnsProps DnsIpc.
From S2P Require Import Client Clients ClientSpec.
Import RemoteClient.

(** ** The method of a client for a request *)

Section Calls.
Context {S P : Type} `{RemoteObjects S} `{SystemAbilities} `{IpcPlatform P}.

Definition conn_client_call (object : nat → INetConnService S) (q : request) : st (cworld S) Z :=
  match q with
  | ReqRegisterNetSupplier t i c => NetConnClient.RegisterNetSupplier (P:=P) object t i c
  | ReqUnregisterNetSupplier id => NetConnClient.UnregisterNetSupplier (P:=P) object id
  | ReqRegisterNetConnCallback cb => NetConnClient.RegisterNetConnCallback (P:=P) object cb
  | ReqUnregisterNetConnCallback cb => NetConnClient.UnregisterNetConnCallback (P:=P) object cb
  | ReqRegisterBySpecifier sp cb => NetConnClient.RegisterNetConnCallbackBySpecifier (P:=P) object sp cb
  | ReqUnregisterBySpecifier sp cb => NetConnClient.UnregisterNetConnCallbackBySpecifier (P:=P) object sp cb
  | ReqUpdateNetCapabilities id c => NetConnClient.UpdateNetCapabilities (P:=P) object id c
  | ReqUpdateNetSupplierInfo id i => NetConnClient.UpdateNetSupplierInfo (P:=P) object id i
  | ReqUpdateNetLinkInfo id i => NetConnClient.UpdateNetLinkInfo (P:=P) object id i
  | _ => NetConnClient.SystemReady (P:=P) object
  end.

Definition policy_client_call (object : nat → INetPolicyService S) (q : policy_request)
    : st (cworld S) policy_reply :=
  match q with
  | PSetUidPolicy u p => c ← NetPolicyClient.SetUidPolicy object u p ; mret (RCode c)
  | PGetUidPolicy u => p ← NetPolicyClient.GetUidPolicy object u ; mret (RPolicy p)
  | PGetUids p => l ← NetPolicyClient.GetUids object p ; mret (RUids l)
  | PIsUidNetAccess u b => a ← NetPolicyClient.IsUidNetAccess object u b ; mret (RAccess a)
  | PIsUidNetAccessIface u i => a ← NetPolicyClient.IsUidNetAccessIface object u i ; mret (RAccess a)
  end.

Definition eth_client_call (object : nat → IEthernetService S) (q : eth_request) : st (cworld S) eth_reply :=
  match q with
  | ESetIfaceConfig iface ic => c ← EthernetClient.SetIfaceConfig (P:=P) object iface ic ; mret (ERCode c)
  | EGetIfaceConfig iface => c ← EthernetClient.GetIfaceConfig object iface ; mret (ERConfig c)
  | EIsActivate iface => c ← EthernetClient.IsActivate (P:=P) object iface ; mret (ERCode c)
  | EGetActivateInterfaces => l ← EthernetClient.GetActivateInterfaces object ; mret (ERNames l)
  | _ => mret ERDone
  end.

Definition dns_client_call (object : nat → IDnsResolverService S) (q : dns_request) : st (cworld S) dns_reply :=
  match q with
  | DGetAddressesByName hostName =>
    a ← DnsResolverClient.GetAddressesByName (P:=P) object hostName [] ; mret (DRAddresses a.1 a.2)
  | DGetAddrInfo hostName server hints =>
    a ← DnsResolverClient.GetAddrInfo (P:=P) object hostName server hints [] ; mret (DRInfos a.1 a.2)
  | DCreateNetworkCache netId => c ← DnsResolverClient.CreateNetworkCache (P:=P) object netId ; mret (DRCode c)
  | DDestoryNetworkCache netId => c ← DnsResolverClient.DestoryNetworkCache (P:=P) object netId ; mret (DRCode c)
  | DFlushNetworkCache netId => c ← DnsResolverClient.FlushNetworkCache (P:=P) object netId ; mret (DRCode c)
  | DSetResolverConfig netId baseTimeoutMsec retryCount servers domains =>
    c ← DnsResolverClient.SetResolverConfig (P:=P) object netId baseTimeoutMsec retryCount servers domains ;
    mret (DRCode c)
  | DGetResolverInfo netId =>
    a ← DnsResolverClient.GetResolverInfo (P:=P) object netId no_info ; mret (DRResolver a.1 a.2)
  | DOnStart | DOnStop => mret DRDone
  end.

(** The answers without an object. *)
Definition eth_null (q : eth_request) : eth_reply :=
  match q with
  | EGetIfaceConfig _ => ERConfig None
  | EGetActivateInterfaces => ERNames []
  | _ => ERCode (IPC_PROXY_ERR (P:=P))
  end.

Definition dns_null (q : dns_request) : dns_reply :=
  match q with
  | DGetAddressesByName _ => DRAddresses (IPC_PROXY_ERR (P:=P)) []
  | DGetAddrInfo _ _ _ => DRInfos (IPC_PROXY_ERR (P:=P)) []
  | DGetResolverInfo _ => DRResolver (IPC_PROXY_ERR (P:=P)) no_info
  | _ => DRCode (IPC_PROXY_ERR (P:=P))
  end.

End Calls.

(** A forwarded call whose result is converted. *)
Lemma forward_map {S A B} `{RemoteObjects S} gp (null : A) (m : nat → st S A) (g : A → B) (c : cworld S) :
  (a ← forward gp null m ; mret (g a)) c = forward gp (g null) (λ h, a ← m h ; mret (g a)) c.
Proof.
  unfold forward, mbind, st_bind. destruct (gp c) as [[[h|] c1]|]; [|done|done].
  unfold on_system. by destruct (m h (c_system c1)) as [[a s]|].
Qed.

(** The method of an interface for a request; that of a proxy is what the
    properties of the IPC layers call. *)
Section Interfaces.
Context {S : Type}.

Definition conn_on (i : INetConnService S) (q : request) : st S Z :=
  match q with
  | ReqRegisterNetSupplier t id c => nc_RegisterNetSupplier i t id c
  | ReqUnregisterNetSupplier id => nc_UnregisterNetSupplier i id
  | ReqRegisterNetConnCallback cb => nc_RegisterNetConnCallback i cb
  | ReqUnregisterNetConnCallback cb => nc_UnregisterNetConnCallback i cb
  | ReqRegisterBySpecifier sp cb => nc_RegisterNetConnCallbackBySpecifier i sp cb
  | ReqUnregisterBySpecifier sp cb => nc_UnregisterNetConnCallbackBySpecifier i sp cb
  | ReqUpdateNetCapabilities id c => nc_UpdateNetCapabilities i id c
  | ReqUpdateNetSupplierInfo id inf => nc_UpdateNetSupplierInfo i id inf
  | ReqUpdateNetLinkInfo id inf => nc_UpdateNetLinkInfo i id inf
  | _ => nc_SystemReady i
  end.

Definition policy_on (i : INetPolicyService S) (q : policy_request) : st S policy_reply :=
  match q with
  | PSetUidPolicy u p => c ← np_SetUidPolicy i u p ; mret (RCode c)
  | PGetUidPolicy u => p ← np_GetUidPolicy i u ; mret (RPolicy p)
  | PGetUids p => l ← np_GetUids i p ; mret (RUids l)
  | PIsUidNetAccess u b => a ← np_IsUidNetAccess i u b ; mret (RAccess a)
  | PIsUidNetAccessIface u f => a ← np_IsUidNetAccessIface i u f ; mret (RAccess a)
  end.

Definition eth_on (i : IEthernetService S) (q : eth_request) : st S eth_reply :=
  match q with
  | ESetIfaceConfig iface ic => c ← es_SetIfaceConfig i iface ic ; mret (ERCode c)
  | EGetIfaceConfig iface => c ← es_GetIfaceConfig i iface ; mret (ERConfig c)
  | EIsActivate iface => c ← es_IsActivate i iface ; mret (ERCode c)
  | EGetActivateInterfaces => l ← es_GetActivateInterfaces i ; mret (ERNames l)
  | _ => mret ERDone
  end.

Definition dns_on (i : IDnsResolverService S) (q : dns_request) : st S dns_reply :=
  match q with
  | DGetAddressesByName hostName => a ← dr_GetAddressesByName i hostName [] ; mret (DRAddresses a.1 a.2)
  | DGetAddrInfo hostName server hints => a ← dr_GetAddrInfo i hostName server hints [] ; mret (DRInfos a.1 a.2)
  | DCreateNetworkCache netId => c ← dr_CreateNetworkCache i netId ; mret (DRCode c)
  | DDestoryNetworkCache netId => c ← dr_DestoryNetworkCache i netId ; mret (DRCode c)
  | DFlushNetworkCache netId => c ← dr_FlushNetworkCache i netId ; mret (DRCode c)
  | DSetResolverConfig netId baseTimeoutMsec retryCount servers domains =>
    c ← dr_SetResolverConfig i netId baseTimeoutMsec retryCount servers domains ; mret (DRCode c)
  | DGetResolverInfo netId => a ← dr_GetResolverInfo i netId no_info ; mret (DRResolver a.1 a.2)
  | DOnStart | DOnStop => mret DRDone
  end.

End Interfaces.

Section Forward.
Context {S P : Type} `{RemoteObjects S} `{SystemAbilities} `{ParcelOps P} `{IpcPlatform P} `{ErrCodes}.
Implicit Type c : cworld S.

Ltac forwards := first [reflexivity | etransitivity; [apply forward_map|]; reflexivity].

Lemma conn_client_forwards object q c :
  conn_client_call (P:=P) object q c =
    forward NetConnClient.GetProxy (IPC_PROXY_ERR (P:=P)) (λ h, conn_on (object h) q) c.
Proof. by destruct q. Qed.

Lemma policy_client_forwards object q c :
  policy_client_call object q c =
    forward NetPolicyClient.GetProxy (default_reply q) (λ h, policy_on (object h) q) c.
Proof. destruct q; forwards. Qed.

Lemma eth_client_forwards object q c :
  eth_sendable q → eth_client_call (P:=P) object q c =
    forward EthernetClient.GetProxy (eth_null (P:=P) q) (λ h, eth_on (object h) q) c.
Proof. intros Hq. destruct q; try done; forwards. Qed.

Lemma dns_client_forwards object q c :
  dns_sendable q → dns_client_call (P:=P) object q c =
    forward DnsResolverClient.GetProxy (dns_null (P:=P) q) (λ h, dns_on (object h) q) c.
Proof. intros Hq. destruct q; try done; forwards. Qed.

(** The answer of a forwarded call. *)
Definition client_answer {A} (null a : A) (s : S) (o : option nat) c : option (A * cworld S) :=
  match o with Some _ => Some (a, set_system s c) | None => Some (null, c) end.

Lemma forward_answer {A} gp (null : A) (m : nat → st S A) c o c1 a s :
  gp c = Some (o, c1) → (∀ h, o = Some h → m h (c_system c1) = Some (a, s)) →
  forward gp null m c = client_answer null a s o c1.
Proof. intros Hg Hm. destruct o as [h|]; [by eapply forward_some, Hm|by apply forward_none]. Qed.

End Forward.

(** ** A system to run examples on

    The manager knows one object, a proxy that can be watched. *)

Definition sample_objects {S} : RemoteObjects S := {|
  GetSystemAbilityManager s := (true, s);
  CheckSystemAbility _ s := (Some 7%nat, s);
  IsProxyObject _ := true;
  AddDeathRecipient _ _ s := (true, s);
  RemoveDeathRecipient _ _ s := (true, s);
  cast _ _ s := (true, s);
  promote r s := (Some r, s);
|}.

#[local] Instance sample_ids : SystemAbilities := {|
  COMM_NET_CONN_MANAGER_SYS_ABILITY_ID := 1151;
  COMM_NET_POLICY_MANAGER_SYS_ABILITY_ID := 1152;
  COMM_DNS_MANAGER_SYS_ABILITY_ID := 1153;
  COMM_ETHERNET_MANAGER_SYS_ABILITY_ID := 1154;
|}.

#[local] Instance sample_error_codes : ErrCodes := {| COMMON_ERR_OFFSET := 2097152 |}.

Import SampleJson SampleDisk SamplePlatform Unbounded.

#[local] Existing Instance every_object.
#[local] Instance world_objects : RemoteObjects (world unit) := sample_objects.
#[local] Instance pworld_objects : RemoteObjects (pworld disk unit) := sample_objects.
#[local] Instance eworld_objects : RemoteObjects (eworld unit) := sample_objects.
#[local] Instance dworld_objects : RemoteObjects (dworld unit) := sample_objects.
#[local] Instance unit_objects : RemoteObjects unit := sample_objects.

(** The state of a client that has one object, with its one recipient. *)
Definition one_object {S} (s : S) : cworld S := mkCworld s (Some 7%nat) (Some 0%nat) 1 [(7%nat, 0%nat)] [].

(** ** From the client to the service *)

(** C7. A request to the connection service from end to end: through the client
    library, the proxy and the stub it has exactly the effect of the call of
    the service and returns its code, converted as the stub does, for an object
    that the client had and for one that it has just obtained; without an
    object the client answers with an error of its own and calls nothing. *)
Theorem conn_client_transparent {E P} `{Platform E} `{RemoteObjects (world E)} `{SystemAbilities}
    `{ParcelLaws P} `{!RoomyParcel P} `{IpcPlatform P} `{CallbackCast} object q c o c1 ret w' :
  (∀ cb, iface_cast (cb_object cb) = Some cb) → sendable q →
  NetConnClient.GetProxy c = Some (o, c1) → (∀ h, o = Some h → object h = net_conn_proxy (stub (P:=P))) →
  handle q (c_system c1) = Some (ret, w') →
  conn_client_call (P:=P) object q c =
    client_answer (IPC_PROXY_ERR (P:=P)) (client_code q ret) w' o c1.
Proof.
  intros Hcast Hq Hg Ho Hh. rewrite conn_client_forwards. eapply forward_answer; [exact Hg|].
  intros h ->. rewrite (Ho h eq_refl). by apply (conn_ipc_transparent (P:=P) q).
Qed.

Lemma conn_client_transparent_witness :
  ∃ w', handle cellular_request (world_init tt) = Some (1003, w') ∧
    conn_client_call (P:=buffer) (λ _, net_conn_proxy stub) cellular_request (client_construct (world_init tt))
    = Some (1003, one_object w').
Proof.
  exists (after [cellular_request]). split; [vm_compute; reflexivity|].
  rewrite (conn_client_transparent (P:=buffer) (λ _, net_conn_proxy stub) cellular_request
    (client_construct (world_init tt)) (Some 7%nat) (one_object (world_init tt)) 1003 (after [cellular_request])).
  - reflexivity.
  - exact every_object_casts.
  - done.
  - reflexivity.
  - done.
  - vm_compute. reflexivity.
Defined.

(** C36. A request to the policy service from end to end: through the client
    library, the proxy and the stub, with parcels that have room, it has exactly
    the effect and the answer of the call of the service, for an object that the
    client had and for one that it has just obtained. Without an object a change
    is answered with an internal error, a query with no policy or no uids, and
    access is refused. *)
Theorem policy_client_transparent {F E J P} `{FileSystem F} `{JsonCpp J} `{Platform E}
    `{RemoteObjects (pworld F E)} `{SystemAbilities} `{ParcelLaws P} `{!RoomyParcel P} `{IpcPlatform P}
    object q c o c1 r w' :
  well_typed q → NetPolicyClient.GetProxy c = Some (o, c1) →
  (∀ h, o = Some h → object h = net_policy_proxy (policy_stub (J:=J) (P:=P))) →
  policy_handle (J:=J) q (c_system c1) = Some (r, w') →
  policy_client_call object q c = client_answer (default_reply q) r w' o c1.
Proof.
  intros Hq Hg Ho Hh. rewrite policy_client_forwards. eapply forward_answer; [exact Hg|].
  intros h ->. rewrite (Ho h eq_refl). transitivity (policy_call (policy_stub (J:=J) (P:=P)) q (c_system c1)).
  - by destruct q.
  - by apply (policy_ipc_transparent (J:=J) q).
Qed.

Lemma policy_client_transparent_witness :
  policy_client_call (λ _, net_policy_proxy (policy_stub (J:=J) (P:=buffer))) (PGetUids 64) (client_construct sample_world)
  = Some (RUids [10003], one_object sample_world).
Proof.
  rewrite (policy_client_transparent (J:=J) (P:=buffer)
    (λ _, net_policy_proxy (policy_stub (J:=J))) (PGetUids 64) (client_construct sample_world) (Some 7%nat)
    (one_object sample_world) (RUids [10003]) sample_world).
  - reflexivity.
  - split; [discriminate|reflexivity].
  - reflexivity.
  - done.
  - vm_compute. reflexivity.
Defined.

(** A request to the ethernet service from end to end. Without an object a
    query for a configuration finds none, and for the interfaces an empty
    list. *)
Lemma eth_client_transparent {E P} `{EthPlatform E} `{RemoteObjects (eworld E)} `{SystemAbilities}
    `{ParcelLaws P} `{!RoomyParcel P} `{IpcPlatform P} `{ErrCodes} object q c o c1 r w' :
  eth_sendable q → eth_reply_fits r → EthernetClient.GetProxy c = Some (o, c1) →
  (∀ h, o = Some h → object h = ethernet_proxy (eth_stub (P:=P))) →
  eth_handle q (c_system c1) = Some (r, w') →
  eth_client_call (P:=P) object q c = client_answer (eth_null (P:=P) q) r w' o c1.
Proof.
  intros Hq Hf Hg Ho Hh. rewrite eth_client_forwards by done. eapply forward_answer; [exact Hg|].
  intros h ->. rewrite (Ho h eq_refl). transitivity (eth_proxy_call (P:=P) eth_stub q (c_system c1)).
  - by destruct q.
  - by apply (eth_ipc_transparent q).
Qed.

Lemma eth_client_transparent_witness :
  eth_client_call (P:=buffer) (λ _, ethernet_proxy eth_stub) (EGetIfaceConfig "eth0")
    (client_construct (eth_after with_dhcp))
  = Some (ERConfig (Some dhcp_config), one_object (eth_after with_dhcp)).
Proof.
  rewrite (eth_client_transparent (P:=buffer) (λ _, ethernet_proxy eth_stub) (EGetIfaceConfig "eth0")
    (client_construct (eth_after with_dhcp)) (Some 7%nat) (one_object (eth_after with_dhcp))
    (ERConfig (Some dhcp_config)) (eth_after with_dhcp)).
  - reflexivity.
  - exact I.
  - vm_compute. repeat split; discriminate.
  - reflexivity.
  - done.
  - vm_compute. reflexivity.
Defined.

(** C28. A request to the DNS resolver service from end to end. Without an
    object the parameters to be filled stay empty. *)
Theorem dns_client_transparent {E P} `{Platform E} `{DnsPlatform E} `{RemoteObjects (dworld E)}
    `{SystemAbilities} `{ParcelLaws P} `{!RoomyParcel P} `{IpcPlatform P} `{ErrCodes} object q c o c1 r w' :
  dns_sendable q → dns_reply_fits r → DnsResolverClient.GetProxy c = Some (o, c1) →
  (∀ h, o = Some h → object h = dns_resolver_proxy (dns_stub (P:=P))) →
  dns_handle q (c_system c1) = Some (r, w') →
  dns_client_call (P:=P) object q c = client_answer (dns_null (P:=P) q) r w' o c1.
Proof.
  intros Hq Hf Hg Ho Hh. rewrite dns_client_forwards by done. eapply forward_answer; [exact Hg|].
  intros h ->. rewrite (Ho h eq_refl). transitivity (dns_proxy_call (P:=P) dns_stub q (c_system c1)).
  - by destruct q.
  - by apply (dns_ipc_transparent q).
Qed.

Lemma dns_client_transparent_witness :
  ∃ w', dns_client_call (P:=buffer) (λ _, dns_resolver_proxy dns_stub) (DCreateNetworkCache 3)
    (client_construct dns_start) = Some (DRCode 0, one_object w').
Proof.
  eexists. erewrite (dns_client_transparent (P:=buffer) (λ _, dns_resolver_proxy dns_stub)
    (DCreateNetworkCache 3) (client_construct dns_start) (Some 7%nat) (one_object dns_start)).
  - reflexivity.
  - vm_compute. split; congruence.
  - shelve.
  - reflexivity.
  - done.
  - vm_compute. reflexivity.
  Unshelve. vm_compute. split; congruence.
Defined.

(** ** Deaths *)

(** C11. A client that keeps an object of another process has its current
    recipient added to it, and has not taken it back, and so hears of its death;
    no recipient is added twice; each recipient that the client took from such
    an object had been added to it and was taken back once; and while
    [iface_cast] succeeds, that is every recipient ever added: the current one
    and those that were taken back, whatever calls, notices and changes of the
    system came before and whatever [RemoveDeathRecipient] answered. *)
Theorem client_watches {S} `{RemoteObjects S} id descriptor (s : S) c :
  client_reachable id descriptor s c →
  (∀ h, service_ c = Some h → IsProxyObject h = true →
     ∃ d, deathRecipient_ c = Some d ∧ (h, d) ∈ c_added c ∧ (h, d) ∉ c_removed c) ∧
  NoDup (c_added c).*2 ∧ released c `sublist_of` c_added c ∧
  (casts_succeed descriptor → c_added c = own_recipient c ++ released c).
Proof.
  intros Hr. assert (Hi : client_inv c).
  { eapply client_reachable_ind_inv; [apply inv_client_construct|apply inv_GetProxy|apply inv_OnRemoteDied| |exact Hr].
    apply inv_set_system. }
  pose proof (ci_own c Hi) as Ho. split; [|split; [apply Hi|split]].
  - intros h Hs Hp. destruct (ci_recipient c Hi ltac:(by eexists)) as [d Hd]. exists d. split; [done|].
    unfold own_recipient in Ho. rewrite Hs, Hd, Hp in Ho. split.
    + eapply elem_of_sublist; [|exact Ho]. apply elem_of_app. left. by apply list_elem_of_singleton.
    + intros Hin. pose proof (sublist_NoDup _ _ (ci_distinct c Hi) (fmap_sublist snd _ _ Ho)) as [Hn _]%NoDup_cons.
      apply Hn, list_elem_of_fmap. exists (h, d). split; [done|]. by apply list_elem_of_filter.
  - etransitivity; [apply sublist_inserts_l; reflexivity|exact Ho].
  - intros Hcast. apply (client_reachable_ind_inv tidy id descriptor s); [|by intros; apply tidy_GetProxy|
      apply tidy_OnRemoteDied|intros s' c' [Hc Ht]; split; [by apply inv_set_system|exact Ht]|done].
    split; [apply inv_client_construct|done].
Qed.

Lemma client_watches_witness :
  ∃ c c1, GetProxy 1 "I" (client_construct tt) = Some (Some 7%nat, c) ∧ c_added c = own_recipient c ∧
    OnRemoteDied (Some 7%nat) c = Some (tt, c1) ∧ c_added c1 = own_recipient c1 ++ [(7%nat, 0%nat)].
Proof.
  exists (one_object tt), (mkCworld tt None (Some 0%nat) 1 [(7%nat, 0%nat)] [(7%nat, 0%nat)]).
  split; [reflexivity|]. split; [reflexivity|]. split; [reflexivity|].
  destruct (client_watches 1 "I" tt (mkCworld tt None (Some 0%nat) 1 [(7%nat, 0%nat)] [(7%nat, 0%nat)])) as (_ & _ & _ & Hc).
  - apply (cr_died 1 "I" tt (one_object tt) (Some 7%nat)); [|reflexivity].
    apply (cr_proxy 1 "I" tt (client_construct tt) (Some 7%nat)); [constructor|reflexivity].
  - apply Hc. intros h []. reflexivity.
Defined.

(** Looked up from the state [s], the object is there, can be watched, and is of
    the interface. *)
Definition available {S} `{RemoteObjects S} (id : Z) (descriptor : string) (h : nat) (s s' : S) : Prop :=
  ∃ s1 s2 s3, GetSystemAbilityManager s = (true, s1) ∧ CheckSystemAbility id s1 = (Some h, s2) ∧
    (∀ d, (if IsProxyObject h then AddDeathRecipient h d s2 else (true, s2)) = (true, s3)) ∧
    cast descriptor h s3 = (true, s').

Lemma GetProxy_available {S} `{RemoteObjects S} id descriptor h (s' : S) c :
  service_ c = None → available id descriptor h (c_system c) s' →
  wp (GetProxy id descriptor) (λ o c', o = Some h ∧ c_system c' = s' ∧ service_ c' = Some h) c.
Proof.
  intros Hs (s1 & s2 & s3 & H1 & H2 & H3 & H4). unfold GetProxy. apply wp_bind, wp_gets. rewrite Hs.
  apply wp_bind, wp_ask. rewrite H1. intros ? ? [= <- <-]. cbn [negb].
  apply wp_bind, wp_ask. cbn. rewrite H2. intros ? ? [= <- <-].
  apply wp_bind, wp_bind, wp_gets, wp_bind, wp_modify, wp_ret. cbn. specialize (H3 (c_made c)).
  assert (Hend : ∀ c3, c_system c3 = s3 → wp (ok ← ask (cast descriptor h) ; let service := if ok : bool then Some h else None in
    set_service service ;; mret service) (λ o c', o = Some h ∧ c_system c' = s' ∧ service_ c' = Some h) c3).
  { intros c3 Hc3. apply wp_bind, wp_ask. rewrite Hc3, H4. intros ? ? [= <- <-]. by apply wp_bind, wp_modify, wp_ret. }
  destruct (IsProxyObject h).
  - apply wp_bind, wp_bind, wp_ask. cbn. rewrite H3. intros ? ? [= <- <-]. apply wp_bind, wp_modify, wp_ret. by apply Hend.
  - injection H3 as ->. apply wp_bind, wp_ret. by apply Hend.
Qed.

(** C10. Recovery. A notice about an object that is not the one the client keeps
    changes nothing. When the death of that one is announced, the client gives
    it up and takes its recipient back. From then on, as long as the system
    changes, calls find no object and notices come, it keeps none; a call that
    finds none answers with the client's own value and calls nothing; and the
    first call at which a new object can be had, after whatever was in vain, is
    a call of the new object, which is then kept. *)
Theorem client_recovers {S A} `{RemoteObjects S} id descriptor (s0 : S) c h (null : A) m :
  client_reachable id descriptor s0 c → service_ c = Some h →
  (∀ r, (promote r (c_system c)).1 ≠ Some h →
     wp (OnRemoteDied (Some r)) (λ _ c1, c1 = set_system (c_system c1) c) c) ∧
  ((promote h (c_system c)).1 = Some h →
   wp (OnRemoteDied (Some h)) (λ _ c1,
     service_ c1 = None ∧ (∃ d, deathRecipient_ c = Some d ∧ c_removed c1 = (h, d) :: c_removed c) ∧
     ∀ c2, rtc (vain_step id descriptor) c1 c2 →
       service_ c2 = None ∧
       wp (GetProxy id descriptor) (λ o c3, o = None → forward (GetProxy id descriptor) null m c2 = Some (null, c3)) c2 ∧
       ∀ h' s' a s'', available id descriptor h' (c_system c2) s' → m h' s' = Some (a, s'') →
         wp (forward (GetProxy id descriptor) null m) (λ a' c3,
           a' = a ∧ c_system c3 = s'' ∧ service_ c3 = Some h') c2) c).
Proof.
  intros Hr Hs. assert (Hi : client_inv c).
  { eapply client_reachable_ind_inv; [apply inv_client_construct|apply inv_GetProxy|apply inv_OnRemoteDied| |exact Hr].
    apply inv_set_system. }
  split.
  { intros r Hne. apply wp_OnRemoteDied; [reflexivity|by destruct c|]. intros s h1 r1 Hs1 [= <-] Hp. congruence. }
  intros Hp. destruct (ci_recipient c Hi ltac:(by eexists)) as [d Hd].
  unfold OnRemoteDied. apply wp_bind, wp_gets. rewrite Hs. apply wp_bind, wp_ask. intros p s1 Hp1.
  rewrite Hp1 in Hp. cbn in Hp. subst p. rewrite decide_True by done.
  apply wp_bind, wp_gets, wp_bind, wp_bind, wp_ask. intros ok s2 _. apply wp_modify, wp_modify. cbn. rewrite Hd.
  split; [done|]. split; [by exists d|]. intros c2 Hv.
  pose proof (vain_without _ _ _ _ Hv eq_refl) as Hs2. split; [done|]. split.
  - destruct (GetProxy_none id descriptor c2) as (o & c3 & Hg & _). exists o, c3. split; [done|]. intros ->. by apply forward_none.
  - intros h' s' a s'' Ha Hm. unfold forward. apply wp_bind.
    eapply wp_mono; [by apply GetProxy_available|]. intros o c3 (-> & <- & Hs3). apply wp_on_system. by exists a, s''.
Qed.

Lemma client_recovers_witness :
  wp (OnRemoteDied (Some 7%nat)) (λ _ c1,
    wp (forward (GetProxy 1 "I") 0 (λ h s, Some (Z.of_nat h, s))) (λ a c2, a = 7 ∧ service_ c2 = Some 7%nat) c1)
    (one_object tt).
Proof.
  destruct (client_recovers (A:=Z) 1 "I" tt (one_object tt) 7%nat 0 (λ h s, Some (Z.of_nat h, s)))
    as [_ Hr].
  - apply (cr_proxy 1 "I" tt (client_construct tt) (Some 7%nat)); [constructor|reflexivity].
  - reflexivity.
  - eapply wp_mono; [exact (Hr eq_refl)|]. intros x [[] sv d made added removed] (_ & _ & Hc).
    destruct (Hc _ (rtc_refl _ _)) as (_ & _ & Hc2).
    eapply wp_mono; [apply (Hc2 7%nat tt 7 tt); [|reflexivity]|].
    + exists tt, tt, tt. done.
    + intros a c2 (-> & _ & ->). done.
Defined.

(** An object that is not of the interface costs a recipient each time: it was
    added to the object before the test, and nothing removes it. *)
Theorem failed_cast_leaks {S} `{RemoteObjects S} id descriptor (c : cworld S) h :
  (∀ s, (GetSystemAbilityManager s).1 = true) → (∀ s, (CheckSystemAbility id s).1 = Some h) →
  IsProxyObject h = true → (∀ d s, (AddDeathRecipient h d s).1 = true) → (∀ s, (cast descriptor h s).1 = false) →
  service_ c = None →
  wp (GetProxy id descriptor) (λ o c1,
    o = None ∧ service_ c1 = None ∧ c_added c1 = (h, c_made c) :: c_added c) c.
Proof.
  intros Hm Hc Hp Ha Hf Hs. unfold GetProxy. apply wp_bind, wp_gets. rewrite Hs.
  apply wp_bind, wp_ask. intros sam s1 E1. specialize (Hm (c_system c)). rewrite E1 in Hm. cbn in Hm. subst sam. cbn [negb].
  apply wp_bind, wp_ask. cbn. intros o s2 E2. specialize (Hc s1). rewrite E2 in Hc. cbn in Hc. subst o.
  apply wp_bind, wp_bind, wp_gets, wp_bind, wp_modify, wp_ret. cbn. rewrite Hp.
  apply wp_bind, wp_bind, wp_ask. cbn. intros ok s3 E3. specialize (Ha (c_made c) s2). rewrite E3 in Ha. cbn in Ha. subst ok.
  apply wp_bind, wp_modify, wp_ret. cbn. apply wp_bind, wp_ask. cbn. intros ok s4 E4. specialize (Hf s3).
  rewrite E4 in Hf. cbn in Hf. subst ok. apply wp_bind, wp_modify, wp_ret. done.
Qed.
