(* ===== verification/EthernetConn.v ===== *)
(** * The ethernet service and the connection service together

    What the ethernet service relies on, as the interface [RegistryLaws]: its
    suppliers stay registered. Against it, every interface of the table is a
    supplier. The connection service implements the interface, behind the
    client library, the proxy and the stub, with other clients in between. *)

From S2P Require Import Prelude Parcel Parcelables Ipc Host NetIds ConnState ConnService.
From S2P Require Import ConnInv ConnSpec ConnCorrect ConnIpc.
From S2P Require Import Ethernet EthernetSpec EthernetInv EthernetCorrect.
From S2P Require Import Client Clients ClientSpec ClientProps.
Import DevInterface DevInterfaceState RemoteClient.

(** ** What is relied on *)

(** The counts of link information are 32 bits wide in a message. *)
Definition fits_event (ev : eth_event) : Prop :=
  match ev with EthLinkInfo _ i => NetLinkInfo.fits i | _ => True end.

(** Suppliers are of the type Ethernet, and none is given up. *)
Definition lasting (ev : eth_event) : Prop :=
  match ev with
  | EthRegister netType _ _ => netType = NetSpecifier.NET_TYPE_ETHERNET
  | EthUnregister _ => False
  | _ => True
  end.

(** What can be asked of a registry: whether it still works, whether it has
    room, and whether an id is that of an Ethernet supplier of this name. *)
Class SupplierRegistry (E : Type) := {
  sr_ok : E → Prop;
  sr_bounded : E → Prop;
  sr_knows : E → Z → string → Prop;
}.

(** It goes on working; and if it has room after a step it had room before, and
    has forgotten nobody. *)
Definition sr_evolves {E} `{SupplierRegistry E} (e e' : E) : Prop :=
  sr_ok e → sr_ok e' ∧ (sr_bounded e' → sr_bounded e ∧ ∀ id i, sr_knows e id i → sr_knows e' id i).

Class RegistryLaws (E : Type) `{EthPlatform E} `{SupplierRegistry E} := {
  sr_call ev e : lasting ev → fits_event ev → sr_evolves e (eth_call ev e).2;
  sr_register i caps e : let '(id, e') := eth_call (EthRegister NetSpecifier.NET_TYPE_ETHERNET i caps) e in
    sr_ok e → sr_bounded e' → MINIMUM_SUPPLIER_ID < id ∧ sr_knows e' id i;
  sr_GetHWaddr i e : sr_evolves e (eth_GetHWaddr i e).2;
  sr_GetLinkInfo e : sr_evolves e (eth_GetLinkInfo e).2;
  sr_Publish e : sr_evolves e (eth_Publish e).2;
}.

Section Moves.
Context {E : Type} `{RegistryLaws E}.
Implicit Type w : eworld E.

#[export] Instance sr_evolves_pre : PreOrder (sr_evolves (E := E)).
Proof.
  split; [by intros e|]. intros e1 e2 e3 H12 H23 Hok. destruct (H12 Hok) as [Hok2 K12].
  destruct (H23 Hok2) as [Hok3 K23]. split; [done|]. intros Hb. destruct (K23 Hb) as [Hb2 M23].
  destruct (K12 Hb2) as [Hb1 M12]. auto.
Qed.

(** What every piece of the service does to the registry and to the log. *)
Definition moved w w' : Prop :=
  (∃ evs, e_log w' = e_log w ++ evs) ∧ (Forall fits_event (e_log w') → sr_evolves (e_env w) (e_env w')).

#[export] Instance moved_pre : PreOrder moved.
Proof.
  split.
  - intros w. split; [exists []; by rewrite app_nil_r|reflexivity].
  - intros w1 w2 w3 [[l1 L1] M1] [[l2 L2] M2]. split; [exists (l1 ++ l2); by rewrite L2, L1, app_assoc|].
    intros Hf. trans (e_env w2); [|by apply M2]. apply M1. rewrite L2 in Hf. by apply Forall_app in Hf as [? _].
Qed.

Lemma moved_fits w w' : moved w w' → Forall fits_event (e_log w') → Forall fits_event (e_log w).
Proof. intros [[evs Hl] _] Hf. rewrite Hl in Hf. by apply Forall_app in Hf as [? _]. Qed.

Definition moves {A} (p : st (eworld E) A) : Prop := ∀ w a w', p w = Some (a, w') → moved w w'.

Lemma moves_ret {A} (a : A) : moves (mret a).
Proof. by intros w a' w' [= <- <-]. Qed.

Lemma moves_bind {A B} (p : st (eworld E) A) (k : A → st (eworld E) B) :
  moves p → (∀ a, moves (k a)) → moves (p ≫= k).
Proof.
  intros Hp Hk w b w' Hr. unfold mbind, st_bind in Hr. destruct (p w) as [[a w1]|] eqn:Ep; [|done].
  trans w1; [by eapply Hp|by eapply Hk].
Qed.

Lemma moves_gets {A} (f : eworld E → A) : moves (gets f).
Proof. by intros w a w' [= <- <-]. Qed.

Lemma moves_deref {A} (o : option A) : moves (deref o).
Proof. intros w a w' Hr. destruct o; [|done]. by injection Hr as <- <-. Qed.

Lemma moves_modify f :
  (∀ w, e_env (f w) = e_env w ∧ e_log (f w) = e_log w) → moves (modify f).
Proof.
  intros Hf w a w' [= <- <-]. destruct (Hf w) as [He Hl]. split; [exists []; by rewrite Hl, app_nil_r|].
  intros _. by rewrite He.
Qed.

Lemma moves_ext {A} ev (f : E → A * E) :
  (∀ e, fits_event ev → sr_evolves e (f e).2) → moves (eth_ext ev f).
Proof.
  intros Hf w a w' Hr. unfold eth_ext in Hr. specialize (Hf (e_env w)).
  destruct (f (e_env w)) as [x e]. injection Hr as <- <-. split; [by exists [ev]|].
  cbn. intros [_ Hl]%Forall_app. apply Hf. by apply Forall_inv in Hl.
Qed.

Lemma moves_do ev : lasting ev → moves (eth_do ev).
Proof. intros Hl. apply moves_ext. intros e Hf. by apply sr_call. Qed.

Lemma moves_query {A} (f : E → A * E) : (∀ e, sr_evolves e (f e).2) → moves (eth_query f).
Proof.
  intros Hf w a w' Hr. unfold eth_query in Hr. specialize (Hf (e_env w)).
  destruct (f (e_env w)) as [x e]. injection Hr as <- <-. split; [exists []; by rewrite app_nil_r|]. by intros _.
Qed.

Lemma moves_for_each {A} (f : A → st (eworld E) unit) l : (∀ x, moves (f x)) → moves (for_each f l).
Proof. intros Hf. induction l as [|x l IH]; [apply moves_ret|]. apply moves_bind; [apply Hf|done]. Qed.

(** A program that returns [Q] also moves. *)
Lemma wp_moves {A} (p : st (eworld E) A) (Q : A → eworld E → Prop) w :
  moves p → wp p Q w → wp p (λ a w', Q a w' ∧ moved w w') w.
Proof. intros Hp (a & w' & Hr & HQ). exists a, w'. split; [done|]. split; [done|]. by eapply Hp. Qed.

End Moves.

Create HintDb moves.

#[export] Hint Resolve moves_ret moves_bind moves_gets moves_deref moves_do moves_query moves_for_each : moves.
#[export] Hint Resolve sr_GetHWaddr sr_GetLinkInfo : moves.

(** Through the text of a program: its branches, and then its steps. *)
Ltac moving :=
  repeat match goal with
  | |- moves (match ?x with _ => _ end) => destruct x
  | |- moves (_ ≫= _) => apply moves_bind; [|intros ?]
  | |- moves (for_each _ _) => apply moves_for_each; intros ?
  | |- moves (let '_ := _ in _) => cbv zeta
  | |- moves (modify _) => apply moves_modify; by intros []
  | |- moves _ => solve [eauto with moves | apply moves_do; exact I | apply moves_do; reflexivity]
  end.

(** ** The operations *)

Section Operations.
Context {E : Type} `{RegistryLaws E}.
Implicit Types (w : eworld E) (d : t).

Lemma moves_register d : moves (RemoteRegisterNetSupplier d).
Proof. unfold RemoteRegisterNetSupplier. moving. Qed.

Lemma moves_announce d : moves (RemoteUpdateNetSupplierInfo d).
Proof. unfold RemoteUpdateNetSupplierInfo, UpdateSupplierAvailable. moving. Qed.

Lemma moves_report d : moves (RemoteUpdateNetLinkInfo d).
Proof. unfold RemoteUpdateNetLinkInfo. moving. Qed.

Hint Resolve moves_register moves_announce moves_report : moves.

Lemma moves_SetIfcfg c d : moves (SetIfcfg c d).
Proof. unfold SetIfcfg, UpdateLinkInfo, SetIpAddr. cbv zeta. moving. Qed.

Lemma moves_find_dev iface : moves (EthernetManagement.find_dev iface).
Proof. unfold EthernetManagement.find_dev. moving. Qed.

Lemma moves_put_dev iface d : moves (EthernetManagement.put_dev iface d).
Proof. unfold EthernetManagement.put_dev. moving. Qed.

Hint Resolve moves_SetIfcfg moves_find_dev moves_put_dev : moves.

Lemma moves_found_dev iface : moves (EthernetManagement.found_dev iface).
Proof. unfold EthernetManagement.found_dev. moving. Qed.

Lemma moves_UpdateInterfaceState dev up lowerUp : moves (EthernetManagement.UpdateInterfaceState dev up lowerUp).
Proof. unfold EthernetManagement.UpdateInterfaceState, EthernetManagement.dhcp_available. cbv zeta. moving. Qed.

Lemma moves_init_dev it : moves (EthernetManagement.init_dev it).
Proof. unfold EthernetManagement.init_dev. cbv zeta. moving. Qed.

Hint Resolve moves_found_dev moves_UpdateInterfaceState moves_init_dev : moves.

Lemma moves_handle q : moves (eth_handle q).
Proof.
  destruct q; cbn [eth_handle]; (apply moves_bind; [|intros; apply moves_ret]).
  - unfold EthernetService.OnStart, EthernetService.Init, EthernetManagement.Init, EthernetManagement.RegisterNlk.
    moving. apply moves_ext. intros e _. apply sr_Publish.
  - unfold EthernetService.OnStop. moving.
  - unfold EthernetService.SetIfaceConfig, EthernetManagement.UpdateDevInterfaceState. moving.
  - unfold EthernetService.GetIfaceConfig, EthernetManagement.GetDevInterfaceCfg. moving.
  - unfold EthernetService.IsActivate, EthernetManagement.IsActivate. moving.
  - unfold EthernetService.GetActivateInterfaces, EthernetManagement.GetActivateInterfaces. moving.
  - unfold ProcessIfInfo, EthernetManagement.Handle. moving.
  - unfold EthernetManagement.OnSuccess, EthernetManagement.UpdateDevInterfaceLinkInfo. cbv zeta. moving.
Qed.

End Operations.

(** ** Every interface is a supplier *)

Section Enrolled.
Context {E : Type} `{RegistryLaws E}.
Implicit Types (w : eworld E) (d : t).

Definition enrolled (e : E) iface d : Prop :=
  connLinkState_ d ≠ UNREGISTERED ∧ sr_knows e (netSupplier_ d) iface ∧ devName_ d = iface.

(** Of every interface of the table, while there is room. *)
Definition all_enrolled w : Prop :=
  Forall fits_event (e_log w) → sr_ok (e_env w) ∧ (sr_bounded (e_env w) →
    ∀ m iface d, ethManagement_ w = Some m → devs_ m !! iface = Some (Some d) → enrolled (e_env w) iface d).

(** An object that stays the supplier it was. *)
Definition stays d d' : Prop :=
  (connLinkState_ d ≠ UNREGISTERED → connLinkState_ d' ≠ UNREGISTERED) ∧ netSupplier_ d' = netSupplier_ d ∧ devName_ d' = devName_ d.

(** The table has new objects only in place of old ones. *)
Definition same_table w w' : Prop :=
  ∀ m' iface d', ethManagement_ w' = Some m' → devs_ m' !! iface = Some (Some d') →
    ∃ m d, ethManagement_ w = Some m ∧ devs_ m !! iface = Some (Some d) ∧ stays d d'.

#[export] Instance stays_pre : PreOrder stays.
Proof. split; [done|]. intros d1 d2 d3 (? & ? & ?) (? & ? & ?). split_and!; [auto|congruence..]. Qed.

#[export] Instance same_table_pre : PreOrder same_table.
Proof.
  split; [intros w m' iface d' Hm' Hd'; by exists m', d'|]. intros w1 w2 w3 H12 H23 m3 iface d3 Hm3 Hd3.
  destruct (H23 _ _ _ Hm3 Hd3) as (m2 & d2 & Hm2 & Hd2 & S23). destruct (H12 _ _ _ Hm2 Hd2) as (m1 & d1 & ? & ? & S12).
  exists m1, d1. split_and!; [done..|]. by trans d2.
Qed.

Lemma same_table_eq w w' : ethManagement_ w' = ethManagement_ w → same_table w w'.
Proof. intros Hm m' iface d' Hm' Hd'. exists m', d'. split_and!; [by rewrite <- Hm|done|done]. Qed.

Lemma same_table_updates evs iface d d' m w w' :
  updates evs iface d' w w' → ethManagement_ w = Some m → devs_ m !! iface = Some (Some d) → stays d d' →
  same_table w w'.
Proof.
  intros (_ & _ & m0 & Hm0 & Hm1) Hm Hd Hs m' j d1 Hm' Hd1. rewrite Hm in Hm0. injection Hm0 as <-.
  rewrite Hm' in Hm1. injection Hm1 as ->. cbn in Hd1. destruct (decide (j = iface)) as [->|Hne].
  - rewrite lookup_insert_eq in Hd1. injection Hd1 as <-. by exists m, d.
  - rewrite lookup_insert_ne in Hd1 by done. by exists m, d1.
Qed.

Lemma enrolled_moved w w' : all_enrolled w → moved w w' → same_table w w' → all_enrolled w'.
Proof.
  intros Hw [[evs Hl] Hm] Ht Hf. destruct (Hm Hf) as [Hok' Hb].
  { rewrite Hl in Hf. apply Forall_app in Hf as [Hf _]. by apply Hw. }
  split; [done|]. intros Hbd m iface d Hmg Hd. destruct (Hb Hbd) as [Hbd0 Hk].
  destruct (Ht _ _ _ Hmg Hd) as (m0 & d0 & Hm0 & Hd0 & Hst & Hid & Hname). rewrite Hl in Hf. apply Forall_app in Hf as [Hf _].
  destruct (proj2 (Hw Hf) Hbd0 _ _ _ Hm0 Hd0) as (Hc & Hkn & Hn). split; [by apply Hst|]. rewrite Hid, Hname. split; [by apply Hk|done].
Qed.

Lemma same_announced d : stays d (announced d).
Proof. unfold announced. destruct (decide _) as [Hu|Hu]; [done|]. split; [|done]. intros _. cbn. by destruct (up_and_running d). Qed.

Lemma same_configured c d : stays d (configured c d).
Proof. unfold configured. by destruct (is_static c). Qed.

Lemma same_link_event up lowerUp d : stays d (after_link_event up lowerUp d).
Proof.
  unfold after_link_event. set (d1 := SetLowerUp lowerUp (SetLinkUp up d)). assert (Hd1 : stays d d1) by done.
  cbv zeta. destruct lowerUp; destruct (_ && _); (trans d1; [done|]); try apply same_announced.
  trans (SetDhcpReqState false d1); [done|apply same_announced].
Qed.

Lemma enroll_Handle info w : eth_inv w → wp (EthernetManagement.Handle info) (λ _, same_table w) w.
Proof.
  intros [_ (m & Hm & Hd & Ht)]. unfold EthernetManagement.Handle.
  destruct (devs_ m !! iface_ info) as [p|] eqn:Ep.
  - destruct (Ht (iface_ info)) as (He & _). rewrite Ep in He. destruct He as (d & -> & Hok).
    eapply wp_UpdateInterfaceState; [exact Hm|done|exact Ep|apply Hok|]. intros w' Hw' _ _.
    eapply same_table_updates; [exact Hw'|exact Hm|exact Ep|apply same_link_event].
  - apply wp_bind. eapply wp_find_dev; [exact Hm|]. rewrite Ep. by apply wp_ret.
Qed.

Lemma enroll_SetIfaceConfig iface c w :
  eth_inv w → wp (EthernetManagement.UpdateDevInterfaceState iface (Some c)) (λ _, same_table w) w.
Proof.
  intros Hw. pose proof Hw as [_ (m & Hm & Hd & Ht)]. apply wp_bind.
  eapply wp_found_dev; [exact Hm|]. destruct (mjoin (devs_ m !! iface)) as [d|] eqn:Ej; [|by apply wp_ret].
  destruct (inv_found w m iface d Hw Hm Ej) as (Hok & Hi & _).
  destruct (linkUp_ d); cbn [negb]; [|by apply wp_ret].
  apply wp_bind, wp_SetIfcfg. intros w1 C1. apply wp_bind. eapply wp_put_dev; [by eexists|exact C1|].
  intros w2 C2 _ _. apply wp_ret. eapply same_table_updates; [exact C2|exact Hm|exact Hi|apply same_configured].
Qed.

Lemma enroll_OnSuccess iface r w : eth_inv w → wp (EthernetManagement.OnSuccess iface r) (λ _, same_table w) w.
Proof.
  intros Hw. pose proof Hw as [_ (m & Hm & Hd & Ht)]. apply wp_bind, wp_bind.
  eapply wp_found_dev; [exact Hm|].
  destruct (mjoin (devs_ m !! iface)) as [d|] eqn:Ej; [|by apply wp_ret, wp_ret].
  destruct (inv_found w m iface d Hw Hm Ej) as (Hok & Hi & _).
  destruct (linkUp_ d); cbn [negb]; [|by apply wp_ret, wp_ret].
  apply wp_bind, wp_report. intros _ w1 C1. apply wp_bind. eapply wp_put_dev; [by eexists|exact C1|].
  intros w2 C2 _ _. apply wp_ret, wp_ret. by eapply same_table_updates; [exact C2|exact Hm|exact Hi|].
Qed.

Lemma wp_then {A} (p : st (eworld E) A) (Q Q' : A → eworld E → Prop) w :
  moves p → wp p Q w → (∀ a w', Q a w' → moved w w' → Q' a w') → wp p Q' w.
Proof. intros Hp HQ HQ'. eapply wp_mono; [by apply (wp_moves p Q w)|]. intros a w' []. by apply HQ'. Qed.

(** A registration: its reply is the id of a supplier of that name. *)
Definition enrols w w' iface d : Prop :=
  sr_ok (e_env w) → sr_bounded (e_env w') → enrolled (e_env w') iface d.

Lemma wp_enroll d (Q : Z * t → eworld E → Prop) w :
  connLinkState_ d = UNREGISTERED →
  (∀ s id w' evs, calls evs w w' → moved w w' → enrols w w' (devName_ d) (with_conn s id d) →
     Q (id, with_conn s id d) w') →
  wp (RemoteRegisterNetSupplier d) Q w.
Proof.
  intros Hd HQ. destruct (eth_call (EthRegister NetSpecifier.NET_TYPE_ETHERNET (devName_ d) (netCapabilities_ d)) (e_env w)) as [id e] eqn:Ec.
  assert (Hrun : RemoteRegisterNetSupplier d w = Some ((id, with_conn (if MINIMUM_SUPPLIER_ID <? id then REGISTERED else UNREGISTERED) id d),
    mkEworld e (e_log w ++ [EthRegister NetSpecifier.NET_TYPE_ETHERNET (devName_ d) (netCapabilities_ d)]) (ethManagement_ w)
      (nlkHandles_ w) (e_registerToService_ w) (e_running_ w))).
  { unfold RemoteRegisterNetSupplier, eth_do, eth_ext, mbind, st_bind. rewrite decide_True, Ec by done. by rewrite Hd. }
  eexists _, _. split; [exact Hrun|]. eapply HQ.
  - by split_and!.
  - by eapply moves_register.
  - intros Hok Hb. cbn in *. pose proof (sr_register (devName_ d) (netCapabilities_ d) (e_env w)) as Hr. rewrite Ec in Hr.
    destruct (Hr Hok Hb) as [Hid Hk]. apply Z.ltb_lt in Hid. rewrite Hid. by split_and!.
Qed.

(** The new object takes the place of nothing. *)
Lemma enrolled_insert w0 w' evs m iface d :
  all_enrolled w0 → ethManagement_ w0 = Some m → moved w0 w' → updates evs iface d w0 w' →
  (sr_ok (e_env w0) → Forall fits_event (e_log w') → sr_bounded (e_env w') → enrolled (e_env w') iface d) →
  all_enrolled w'.
Proof.
  intros Hw Hm Hmv (Hl & _ & m0 & Hm0 & Hm') Hd Hf. pose proof Hf as Hf0. rewrite Hl in Hf0. apply Forall_app in Hf0 as [Hf0 _].
  destruct (Hw Hf0) as [Hok He]. destruct (proj2 Hmv Hf Hok) as [Hok' Hk]. split; [done|].
  intros Hb m1 j d1 Hm1 Hd1. destruct (Hk Hb) as [Hb0 Hkn]. rewrite Hm in Hm0. injection Hm0 as <-.
  rewrite Hm' in Hm1. injection Hm1 as <-. cbn in Hd1. destruct (decide (j = iface)) as [->|Hne].
  - rewrite lookup_insert_eq in Hd1. injection Hd1 as <-. by apply Hd.
  - rewrite lookup_insert_ne in Hd1 by done. destruct (He Hb0 m j d1 Hm Hd1) as (Hc & Hkj & Hn). split_and!; [done|by apply Hkn|done].
Qed.

Lemma enroll_init_dev it w : eth_inv w → all_enrolled w → wp (EthernetManagement.init_dev it) (λ _, all_enrolled) w.
Proof.
  intros [_ (m & Hm & Hd & Ht)] Hw.
  eapply (wp_then _ (λ _ w', moved w w' → all_enrolled w')); [apply moves_init_dev| |by auto].
  unfold EthernetManagement.init_dev. cbv zeta.
  destruct (String.eqb_spec (iface_ it) ""); [by apply wp_ret|]. apply wp_bind.
  eapply wp_then; [apply moves_SetIfcfg|apply (wp_SetIfcfg _ _ (λ d w', d = configured EthernetManagement.static_default construct ∧ ∃ evs, calls evs w w')); by eauto|].
  intros ? w1 [-> [l1 C1]] M1. apply wp_bind.
  eapply wp_then; [apply moves_query, sr_GetHWaddr|apply (wp_eth_query _ (λ _ w', calls [] w1 w')); by eauto|].
  cbv beta. intros hw w2 C2 M2. apply wp_bind, wp_enroll; [done|]. intros s id w3 l3 C3 M3 Hen. cbn [snd devName_ SetLowerUp SetLinkUp SetDevHWaddr SetDevName] in Hen |- *.
  set (d := with_conn s id _) in *. pose proof (calls_trans _ _ _ _ _ C1 (calls_trans _ _ _ _ _ C2 C3)) as C.
  assert (M : moved w w2) by by trans w1.
  assert (Hend : ∀ evs d' w4, calls evs w3 w4 → moved w3 w4 → stays d d' →
    wp (fit ← EthernetManagement.find_dev (iface_ it) ;
        match fit with Some _ => mret tt | None => EthernetManagement.put_dev (iface_ it) d' end)
      (λ _ w', moved w w' → all_enrolled w') w4).
  { intros evs d' w4 C4 M4 (Hst & Hid & Hname). pose proof (calls_trans _ _ _ _ _ C C4) as C'. apply wp_bind.
    eapply wp_find_dev; [by rewrite (proj1 (proj2 C'))|]. destruct (devs_ m !! iface_ it) as [p|].
    { apply wp_ret. intros Hmv. eapply enrolled_moved; [exact Hw|done|]. apply same_table_eq, C'. }
    eapply wp_then; [apply moves_put_dev|eapply (wp_put_dev _ _ _ (λ _ w', ∃ evs, updates evs (iface_ it) d' w w')); [by eexists|exact C'|by eauto]|].
    intros _ w5 [l5 U5] M5 Hmv. eapply enrolled_insert; [exact Hw|exact Hm|exact Hmv|exact U5|].
    intros Hok Hf Hb. assert (M35 : moved w3 w5) by by trans w4.
    pose proof (moved_fits _ _ M35 Hf) as Hf3. pose proof (moved_fits _ _ M3 Hf3) as Hf2.
    destruct (proj2 M Hf2 Hok) as [Hok2 _]. destruct (proj2 M3 Hf3 Hok2) as [Hok3 _].
    destruct (proj2 M35 Hf Hok3) as [_ Hk]. destruct (Hk Hb) as [Hb3 Hkn]. destruct (Hen Hok2 Hb3) as (Hc & Hkd & _).
    split; [by apply Hst|]. rewrite Hid, Hname. split; [by apply Hkn|done]. }
  apply wp_bind. destruct (_ && _).
  - apply wp_bind. eapply wp_then; [apply moves_announce|apply (wp_announce _ (λ r w', r.2 = announced d ∧ ∃ evs, calls evs w3 w')); [by eexists|by eauto]|].
    intros r w4 [Hr [l4 C4]] M4. apply wp_ret. eapply Hend; [exact C4|exact M4|]. rewrite Hr. apply same_announced.
  - apply wp_ret. by eapply Hend; [apply calls_nil| |].
Qed.

Lemma enroll_each l w : eth_inv w → all_enrolled w → wp (for_each EthernetManagement.init_dev l) (λ _, all_enrolled) w.
Proof.
  intros Hi Hw. eapply (wp_mono _ (λ _ w', eth_inv w' ∧ all_enrolled w')); [|by intros _ ? []].
  apply (wp_for_each _ l (λ _ w', eth_inv w' ∧ all_enrolled w')); [done| |done].
  intros x l' w1 [Hi1 Hw1]. apply (wp_and _ (λ _, eth_inv)); [by apply ok_init_dev|by apply enroll_init_dev].
Qed.

Lemma moves_Init : moves EthernetService.Init.
Proof. unfold EthernetService.Init. moving. apply moves_ext. intros e _. apply sr_Publish. Qed.

Lemma enroll_OnStart w : eth_inv w → all_enrolled w → wp EthernetService.OnStart (λ _, all_enrolled) w.
Proof.
  intros Hi Hw. unfold EthernetService.OnStart. apply wp_bind, wp_gets. unfold id.
  destruct (e_running_ w); [by apply wp_ret|]. apply wp_bind.
  eapply wp_then; [apply moves_Init|by apply ok_Init|]. intros ok w1 [Hi1 T1] M1.
  assert (Hw1 : all_enrolled w1) by (eapply enrolled_moved; [exact Hw|done|by apply same_table_eq]).
  destruct ok; cbn [negb]; [|by apply wp_ret]. apply wp_bind.
  eapply wp_then; [by apply moves_do|apply (wp_eth_do _ (λ _ w', calls [EthNlkInit] w1 w')); by intros|]. cbv beta. intros _ w2 C2 M2.
  assert (Hi2 : eth_inv w2) by (eapply inv_calls; [exact Hi1|exact C2|by repeat constructor]).
  assert (Hw2 : all_enrolled w2) by (eapply enrolled_moved; [exact Hw1|done|apply same_table_eq, C2]).
  apply wp_bind, wp_gets, wp_bind. destruct (ethManagement_ w2) as [m|]; [|by apply wp_ret, wp_modify].
  apply wp_bind. unfold EthernetManagement.Init. apply wp_bind.
  eapply wp_then; [apply moves_query, sr_GetLinkInfo|apply (wp_eth_query _ (λ _ w', calls [] w2 w')); by intros|]. cbv beta. intros l w3 C3 M3.
  assert (Hi3 : eth_inv w3) by (eapply inv_calls; [exact Hi2|exact C3|done]).
  assert (Hw3 : all_enrolled w3) by (eapply enrolled_moved; [exact Hw2|done|apply same_table_eq, C3]).
  eapply (wp_mono _ (λ _, all_enrolled)).
  - destruct (_ <=? 0); [by apply wp_ret|]. by apply enroll_each.
  - intros _ w4 Hw4. unfold EthernetManagement.RegisterNlk. by apply wp_modify, wp_modify.
Qed.

(** Every request keeps the interfaces registered. *)
Lemma enroll_table q w : eth_inv w → q ≠ EOnStart → eth_enabled q → wp (eth_handle q) (λ _, same_table w) w.
Proof.
  intros Hw Hs Hq. pose proof Hw as [_ (mg & Hmg & _)].
  assert (Hquery : ∀ A (p : st (eworld E) A), wp p (λ _ w', w' = w) w → wp p (λ _, same_table w) w).
  { intros A p Hp. eapply wp_mono; [exact Hp|]. by intros _ w' ->. }
  destruct q as [| |iface [c|]|iface|iface| |info|iface r]; try done; cbn [eth_handle];
    (apply wp_bind; eapply (wp_mono _ (λ _, same_table w)); [|by intros; apply wp_ret]).
  - by apply wp_modify, same_table_eq.
  - unfold EthernetService.SetIfaceConfig. apply wp_bind, wp_gets. rewrite Hmg. by apply enroll_SetIfaceConfig.
  - apply Hquery, wp_bind, wp_gets. rewrite Hmg. apply wp_bind.
    eapply wp_found_dev; [exact Hmg|]. by destruct (mjoin _); apply wp_ret.
  - apply Hquery, wp_bind, wp_gets. rewrite Hmg. apply wp_bind.
    eapply wp_found_dev; [exact Hmg|]. by destruct (mjoin _); apply wp_ret.
  - apply Hquery, wp_bind, wp_gets. rewrite Hmg. apply wp_bind, wp_gets, wp_bind.
    eapply wp_deref; [exact Hmg|]. by apply wp_ret.
  - unfold ProcessIfInfo. apply wp_bind, wp_gets.
    eapply (wp_mono _ (λ _ w', eth_inv w' ∧ same_table w w')); [|by intros _ ? []].
    apply (wp_for_each _ _ (λ _ w', eth_inv w' ∧ same_table w w')); [by split| |done].
    intros _ l' w1 [Hi1 T1]. apply (wp_and _ (λ _, eth_inv)); [by apply ok_Handle|].
    eapply wp_mono; [by apply enroll_Handle|]. cbv beta. intros _ w2 T2. by trans w1.
  - by apply enroll_OnSuccess.
Qed.

Lemma enroll_reachable e w : sr_ok e → eth_reachable e w → all_enrolled w.
Proof.
  intros Hok. induction 1 as [|w q r w' Hw IH Hq Hh].
  { intros _. split; [done|]. intros _ m iface d [= <-] Hd. cbn in Hd. by rewrite lookup_empty in Hd. }
  pose proof (eth_reachable_inv e w Hw) as Hi.
  assert (Hcase : q = EOnStart ∨ q ≠ EOnStart) by (destruct q; auto). destruct Hcase as [->|Hs].
  - refine (wp_run _ (λ _, all_enrolled) _ _ _ _ Hh). cbn [eth_handle]. apply wp_bind.
    eapply wp_mono; [by apply enroll_OnStart|]. cbv beta. intros _ w1 Hw1. by apply wp_ret.
  - eapply enrolled_moved; [exact IH|by eapply moves_handle|]. exact (wp_run _ _ _ _ _ (enroll_table q w Hi Hs Hq) Hh).
Qed.

End Enrolled.
