(* ===== verification/EthernetConnProps.v ===== *)
(** * Every interface is a supplier of the connection service

    The calls of the ethernet service to the connection service, made through
    the client library, the proxy and the stub while other clients are served,
    keep the promises of [RegistryLaws]. *)

From S2P Require Import Prelude Parcel Parcelables Ipc Host NetIds ConnState ConnService.
From S2P Require Import ConnInv ConnSpec ConnCorrect ConnProps ConnIpc.
From S2P Require Import Ethernet EthernetSpec EthernetInv EthernetCorrect EthernetProps.
From S2P Require Import Client Clients ClientSpec ClientProps EthernetConn.
Import NetSpecifier NetConnServiceOps RemoteClient.

(** ** The registry keeps its entries *)

(** The same supplier. *)
Definition same_entry (x y : entry) : Prop := e_id y = e_id x ∧ e_type y = e_type x ∧ e_ident y = e_ident x.

Definition no_removal (q : request) : Prop := ∀ id, q ≠ ReqUnregisterNetSupplier id.

Lemma spec_entries q n reg x :
  no_removal q → x ∈ reg → (n ≤ (spec q (n, reg)).2.1)%nat ∧ ∃ y, y ∈ (spec q (n, reg)).2.2 ∧ same_entry x y.
Proof.
  intros Hq Hx. assert (Hsame : ∃ y, y ∈ reg ∧ same_entry x y) by by exists x.
  destruct q as [| | |t i c|id|[cb|]|[sp|] [cb|]|[cb|]|[sp|] [cb|]|id c|id [inf|]|id [inf|]|]; try by split.
  - cbn [spec]. destruct (_ || _); [by split|]. destruct (find_first _ _); [by split|].
    split; [cbn; lia|]. exists x. split; [|done]. apply elem_of_app. by left.
  - by destruct (Hq id).
  - cbn [spec]. destruct (find_first (has_id id) reg); [|by split]. split; [done|].
    eexists. split; [apply (list_elem_of_fmap_2 _ _ _ Hx)|]. cbv beta. by destruct (has_id id x).
Qed.

Section Registry.
Context {E : Type} `{Platform E}.
Implicit Type w : world E.

Lemma request_entries q w ret w' :
  no_removal q → inv w → request_ok q w ret w' → few w' →
  few w ∧ ∀ x, x ∈ registry w → ∃ y, y ∈ registry w' ∧ same_entry x y.
Proof.
  intros Hq Hi (Hi' & _ & Hr) Hb. destruct (Hr Hb) as [Ha _]. unfold abstract in Ha.
  assert (Hle : (w_nsuppliers w ≤ w_nsuppliers w')%nat).
  { pose proof (f_equal fst Ha) as Hn. cbn [fst] in Hn. rewrite Hn.
    destruct q as [| | |t i c|id|[cb|]|[sp|] [cb|]|[cb|]|[sp|] [cb|]|id c|id [inf|]|id [inf|]|]; cbn [spec fst snd];
      repeat case_match; cbn; lia. }
  split; [unfold few in *; pose proof (inv_count _ _ Hi); pose proof (inv_count _ _ Hi'); lia|].
  intros x Hx. pose proof (f_equal snd Ha) as Hreg. cbn [snd] in Hreg. rewrite Hreg. by apply spec_entries.
Qed.

(** An entry is found by its id. *)
Lemma find_registered w x :
  inv w → few w → x ∈ registry w → find_first (has_id (e_id x)) (registry w) = Some x ∧ 1000 < e_id x < 2 ^ 32.
Proof.
  intros Hi Hb (l & Hl & Hx)%list_elem_of_omap. destruct (entry_valid w l Hi Hl) as (s & y & Hs & Hy & Eid & _).
  rewrite Hx in Hy. injection Hy as <-. rewrite find_by_id, Eid by done.
  assert (Hid : ∀ k, k ∈ netSupplier_ (w_conn w) → has_supplierId w (NetSupplier.supplierId_ s) k = true ↔ k = l)
    by (intros k Hk; by apply id_identifies).
  destruct (find_first_exists _ _ _ Hl (proj2 (Hid l Hl) eq_refl)) as [k Hk]. rewrite Hk.
  apply find_first_Some in Hk as [Hin ->%Hid]; [|done]. split; [by rewrite <- Hx|].
  rewrite (supplier_id_small w l s Hb Hi Hs). destruct (inv_supplier _ _ Hi _ _ Hs) as [Hlt _ _ _].
  rewrite (inv_count _ _ Hi) in Hlt. unfold few in Hb. lia.
Qed.

End Registry.

(** ** The connection service behind the ethernet service *)

(** The request of a call, if it is one to the connection service. *)
Definition conn_request (ev : eth_event) : option request :=
  match ev with
  | EthRegister netType ident netCapabilities => Some (ReqRegisterNetSupplier netType ident netCapabilities)
  | EthUnregister supplierId => Some (ReqUnregisterNetSupplier supplierId)
  | EthSupplierInfo supplierId info => Some (ReqUpdateNetSupplierInfo supplierId (Some info))
  | EthLinkInfo supplierId info => Some (ReqUpdateNetLinkInfo supplierId (Some info))
  | _ => None
  end.

(** The connection service, seen by its client in the process of the ethernet
    service, until it does something undefined; and everything else. *)
Definition conn_env (F K : Type) : Type := option (cworld (world F)) * K.

Section Platform.
Context {F K P : Type} `{Platform F} `{EthPlatform K} `{RemoteObjects (world F)} `{SystemAbilities}.
Context `{ParcelOps P} `{IpcPlatform P} `{CallbackCast}.
Context (object : nat → INetConnService (world F)) (others : K → list request * K).

(** What the connection service does for others, and then for the caller. *)
Definition conn_serve (qs : list request) (q : request) : st (cworld (world F)) Z :=
  on_system (for_each (λ q, handle q ;; mret tt) qs) ;; conn_client_call (P:=P) object q.

Definition conn_eth_call (ev : eth_event) (x : conn_env F K) : Z * conn_env F K :=
  match conn_request ev with
  | None => let '(z, k) := eth_call ev x.2 in (z, (x.1, k))
  | Some q =>
    let '(qs, k) := others x.2 in
    match x.1 ≫= conn_serve qs q with
    | Some (z, n) => (z, (Some n, k))
    | None => (0, (None, k))
    end
  end.

Definition beside {A} (f : K → A * K) (x : conn_env F K) : A * conn_env F K :=
  let '(a, k) := f x.2 in (a, (x.1, k)).

Definition conn_platform : EthPlatform (conn_env F K) := {|
  eth_call := conn_eth_call;
  eth_GetHWaddr name := beside (eth_GetHWaddr name);
  eth_GetLinkInfo := beside eth_GetLinkInfo;
  eth_Publish := beside eth_Publish;
  eth_registerLocalResult := eth_registerLocalResult (E := K);
|}.

End Platform.

Section Registration.
Context {F K P : Type} `{Platform F} `{EthPlatform K} `{RemoteObjects (world F)} `{SystemAbilities}.
Context `{ParcelLaws P} `{!RoomyParcel P} `{IpcPlatform P} `{CallbackCast}.
Context (object : nat → INetConnService (world F)) (others : K → list request * K) (h : nat).
Hypothesis casts : ∀ c, iface_cast (cb_object c) = Some c.
Hypothesis object_law : object h = net_conn_proxy (stub (P:=P)).
Hypothesis others_law : ∀ k, Forall no_removal (others k).1.
Implicit Type n : cworld (world F).

(** The client has the object, and the service is well. *)
Definition conn_well n : Prop := service_ n = Some h ∧ inv (c_system n).

Definition known n id i : Prop :=
  ∃ x, x ∈ registry (c_system n) ∧ e_id x = id ∧ e_type x = NET_TYPE_ETHERNET ∧ e_ident x = i.

#[local] Instance conn_registry : SupplierRegistry (conn_env F K) := {|
  sr_ok x := ∃ n, x.1 = Some n ∧ conn_well n;
  sr_bounded x := ∀ n, x.1 = Some n → few (c_system n);
  sr_knows x id i := ∃ n, x.1 = Some n ∧ known n id i;
|}.

#[local] Instance platform : EthPlatform (conn_env F K) := conn_platform (P:=P) object others.

(** What serving requests does to the service. *)
Definition advances n n' : Prop :=
  conn_well n' ∧ (few (c_system n') → few (c_system n) ∧
    ∀ x, x ∈ registry (c_system n) → ∃ y, y ∈ registry (c_system n') ∧ same_entry x y).

Lemma advances_trans n1 n2 n3 : advances n1 n2 → advances n2 n3 → advances n1 n3.
Proof.
  intros [_ A12] [W3 A23]. split; [done|]. intros Hb. destruct (A23 Hb) as [Hb2 K23]. destruct (A12 Hb2) as [Hb1 K12].
  split; [done|]. intros x Hx. destruct (K12 x Hx) as (y & Hy & ? & ? & ?). destruct (K23 y Hy) as (z & Hz & ? & ? & ?).
  exists z. split; [done|]. split_and!; congruence.
Qed.

Lemma advances_known n n' id i : advances n n' → few (c_system n') → known n id i → known n' id i.
Proof.
  intros [_ A] Hb (x & Hx & <- & Ht & <-). destruct (proj2 (A Hb) x Hx) as (y & Hy & ? & ? & ?).
  exists y. split_and!; congruence.
Qed.

Lemma wp_others qs n :
  conn_well n → Forall no_removal qs → wp (on_system (for_each (λ q, handle q ;; mret tt) qs)) (λ _, advances n) n.
Proof.
  intros Hn Hqs. apply wp_on_system. apply (wp_for_each _ _ (λ l s, Forall no_removal l ∧ advances n (set_system s n))).
  - split; [done|]. split; [done|]. cbn. intros Hb. split; [exact Hb|]. intros x Hx. by exists x.
  - intros q l s [Hl Hs]. apply Forall_cons in Hl as [Hq Hl]. apply wp_bind.
    destruct (proj1 Hs) as [Hh Hi]. eapply wp_mono; [by apply (handle_ok q s)|]. intros ret s' Hr. apply wp_ret.
    split; [done|]. eapply advances_trans; [exact Hs|]. split; [split; [done|apply Hr]|]. intros Hb. by eapply request_entries.
  - by intros s [_ Hs].
Qed.

(** A call through the client is the request of the service. *)
Lemma conn_call_run q n ret s :
  conn_well n → sendable q → handle q (c_system n) = Some (ret, s) →
  conn_client_call (P:=P) object q n = Some (client_code q ret, set_system s n).
Proof.
  intros [Hs _] Hq Hh. rewrite conn_client_forwards. apply (forward_answer _ _ _ n (Some h) n (client_code q ret) s).
  - unfold NetConnClient.GetProxy, GetProxy, mbind, st_bind, gets. by rewrite Hs.
  - intros h' [= <-]. rewrite object_law. transitivity (proxy_call (P:=P) stub q (c_system n)); [by destruct q|].
    by apply conn_ipc_transparent.
Qed.

Lemma wp_conn_call q n (Q : Z → cworld (world F) → Prop) :
  conn_well n → sendable q →
  (∀ ret s, request_ok q (c_system n) ret s → Q (client_code q ret) (set_system s n)) →
  wp (conn_client_call (P:=P) object q) Q n.
Proof.
  intros Hn Hq HQ. destruct (handle_ok q (c_system n) (proj2 Hn)) as (ret & s & Hh & Hr).
  exists (client_code q ret), (set_system s n). split; [by apply conn_call_run|by apply HQ].
Qed.

(** An update under an id that the registry has. *)
Lemma update_accepted q n id :
  conn_well n → is_Some (find_first (has_id id) (registry (c_system n))) →
  (∃ i, q = ReqUpdateNetSupplierInfo id (Some i)) ∨ (∃ i, NetLinkInfo.fits i ∧ q = ReqUpdateNetLinkInfo id (Some i)) →
  wp (conn_client_call (P:=P) object q) (λ z _, z = ERR_NONE) n.
Proof.
  intros Hn [x Hx] Hq.
  assert (Hret : wp (handle q) (λ ret _, client_code q ret = ERR_NONE) (c_system n) ∧ sendable q).
  { destruct Hq as [[i ->]|(i & Hi & ->)]; (split; [|done]); cbn [handle client_code];
      (eapply wp_mono; [first [apply keeps_supplier_info | apply keeps_link_info]; apply Hn|]);
      intros ret s [_ ->]; by rewrite Hx. }
  destruct Hret as [(ret & s & Hh & Hc) Hs]. exists (client_code q ret), (set_system s n). split; [|done].
  by apply conn_call_run.
Qed.

Lemma wp_conn_serve qs q n (Q : Z → cworld (world F) → Prop) :
  conn_well n → Forall no_removal qs → no_removal q → sendable q →
  (∀ n1 ret s, advances n n1 → conn_well n1 → request_ok q (c_system n1) ret s → advances n (set_system s n1) →
     Q (client_code q ret) (set_system s n1)) →
  wp (conn_serve (P:=P) object qs q) Q n.
Proof.
  intros Hn Hqs Hq Hsend HQ. apply wp_bind. eapply wp_mono; [by apply wp_others|]. cbv beta. intros _ n1 A1. pose proof (proj1 A1) as W1.
  apply wp_conn_call; [done..|]. intros ret s Hr. apply HQ; [done..|]. eapply advances_trans; [exact A1|].
  destruct W1 as [S1 I1]. split; [split; [done|apply Hr]|]. intros Hb. by eapply request_entries.
Qed.

(** The reply to a registration is the id of an entry of that name. *)
Lemma register_known i caps n ret s :
  conn_well n → request_ok (ReqRegisterNetSupplier NET_TYPE_ETHERNET i caps) (c_system n) ret s → few s →
  MINIMUM_SUPPLIER_ID < ret ∧ known (set_system s n) ret i.
Proof.
  intros _ (Hi & _ & Hr) Hb. destruct (Hr Hb) as [Ha Hz]. unfold abstract in Ha.
  pose proof (f_equal snd Ha) as Hreg. cbn in Hreg, Hz.
  enough (∃ x, x ∈ registry s ∧ e_id x = ret ∧ e_type x = NET_TYPE_ETHERNET ∧ e_ident x = i) as (x & Hx & <- & Hx').
  { split; [apply (find_registered s x Hi Hb Hx)|]. by exists x. }
  destruct (find_first (has_key _ i) _) as [x|] eqn:Ef; cbn in Hreg, Hz; rewrite Hreg, (Hz _ eq_refl).
  - apply find_first_Some in Ef as [Hx Hk]. apply andb_prop in Hk as [Ht%Z.eqb_eq Hn%String.eqb_eq]. by exists x.
  - eexists. split; [apply elem_of_app; right; by left|]. done.
Qed.

Lemma platform_call_ok ev (x : conn_env F K) : lasting ev → fits_event ev → sr_evolves x (eth_call ev x).2.
Proof.
  intros Hev Hf (n & Hn & Wn). destruct x as [o k]. cbn in Hn. subst o. cbn. unfold conn_eth_call. cbn [fst snd].
  destruct (conn_request ev) as [q|] eqn:Eq.
  - destruct (others k) as [qs k'] eqn:Eo. pose proof (others_law k) as Hqs. rewrite Eo in Hqs.
    assert (Hq : no_removal q ∧ sendable q) by (destruct ev; try done; by injection Eq as <-).
    destruct (wp_conn_serve qs q n (λ _, advances n) Wn Hqs) as (z & n' & Hr & A); [by apply Hq..|done|].
    cbn. rewrite Hr. cbn. split; [exists n'; split; [done|apply A]|]. intros Hb. specialize (Hb n' eq_refl).
    split; [intros n0 [= <-]; by apply A|]. intros id i (n0 & [= <-] & Hk). exists n'. split; [done|by eapply advances_known].
  - destruct (eth_call ev k) as [z k']. cbn. split; [by exists n|]. done.
Qed.

#[local] Instance conn_laws : RegistryLaws (conn_env F K).
Proof.
  split.
  - apply platform_call_ok.
  - intros i caps [o k]. cbn. unfold conn_eth_call. cbn. destruct (others k) as [qs k'] eqn:Eo.
    pose proof (others_law k) as Hqs. rewrite Eo in Hqs. destruct (o ≫= _) as [[z n']|] eqn:Er.
    + intros (n & Hn & Wn) Hb. cbn in Hn. subst o. cbn in Er. specialize (Hb n' eq_refl).
      enough (Hwp : wp (conn_serve (P:=P) object qs (ReqRegisterNetSupplier NET_TYPE_ETHERNET i caps))
        (λ z n', few (c_system n') → MINIMUM_SUPPLIER_ID < z ∧ known n' z i) n).
      { destruct (wp_run _ _ _ _ _ Hwp Er Hb). split; [done|]. by exists n'. }
      apply wp_conn_serve; [done|done|by intros id|done|]. intros n1 ret s _ W1 Hr _ Hs.
      destruct (register_known i caps n1 ret s W1 Hr Hs) as [Hret Hk]. cbn.
      assert (Hcode : (ret =? ERR_NO_NETWORK) || (ret =? ERR_NO_SUPPLIER) = false)
        by (unfold MINIMUM_SUPPLIER_ID, ERR_NO_NETWORK, ERR_NO_SUPPLIER in *; lia).
      by rewrite Hcode.
    + intros (n & Hn & Wn) _. cbn in Hn. subst o. cbn in Er. exfalso.
      destruct (wp_conn_serve qs (ReqRegisterNetSupplier NET_TYPE_ETHERNET i caps) n (λ _ _, True) Wn Hqs)
        as (z & n' & Hr & _); [by intros id|done|done|]. unfold mbind, option_bind in Er. congruence.
  - intros i [o k]. cbn. unfold beside. cbn. by destruct (eth_GetHWaddr i k).
  - intros [o k]. cbn. unfold beside. cbn. by destruct (eth_GetLinkInfo k).
  - intros [o k]. cbn. unfold beside. cbn. by destruct (eth_Publish k).
Qed.

End Registration.

(** ** The property *)

(** C16. Across the two services, under these conditions: each service handles its
    requests one at a time; the connection service is alive throughout, and the
    client of the ethernet service has its object; other clients may register
    suppliers and update them before each call, but no client ever removes a
    supplier; and at most 64512 have been registered, so that ids have not
    repeated. Then, started on a connection service in any reachable state, the
    ethernet service never makes it do something undefined, and in every state
    that link events, DHCP results and clients lead to every interface of the
    table is registered: the id it keeps is the id of the one supplier of the
    type Ethernet with its name, different from that of any other interface, and
    what the interface sends under that id is accepted. *)
Theorem eth_suppliers {F K P} `{Platform F} `{EthPlatform K} `{RemoteObjects (world F)} `{SystemAbilities}
    `{ParcelLaws P} `{!RoomyParcel P} `{IpcPlatform P} `{CallbackCast}
    (object : nat → INetConnService (world F)) (others : K → list request * K) h e n (k : K) w :
  (∀ c, iface_cast (cb_object c) = Some c) → object h = net_conn_proxy (stub (P:=P)) →
  (∀ k, Forall no_removal (others k).1) → service_ n = Some h → reachable e (c_system n) →
  eth_reachable (H := conn_platform (P:=P) object others) (Some n, k) w → Forall fits_event (e_log w) →
  ∃ n', (e_env w).1 = Some n' ∧ (Z.of_nat (w_nnetworks (c_system n')) <= 64512 →
    ∀ m iface d, ethManagement_ w = Some m → devs_ m !! iface = Some (Some d) →
      DevInterface.connLinkState_ d ≠ UNREGISTERED ∧
      (∃ x, find_first (has_id (DevInterface.netSupplier_ d)) (registry (c_system n')) = Some x ∧
         e_type x = NET_TYPE_ETHERNET ∧ e_ident x = iface) ∧
      (∀ q, (∃ i, q = ReqUpdateNetSupplierInfo (to_u 32 (DevInterface.netSupplier_ d)) (Some i)) ∨
            (∃ i, NetLinkInfo.fits i ∧ q = ReqUpdateNetLinkInfo (to_u 32 (DevInterface.netSupplier_ d)) (Some i)) →
         wp (conn_client_call (P:=P) object q) (λ z _, z = ERR_NONE) n')).
Proof.
  intros Hcast Hobject Hothers Hs [Hi _]%reachable_ok Hw Hf.
  set (laws := conn_laws (P:=P) object others h Hcast Hobject Hothers).
  destruct (enroll_reachable (H1 := laws) (Some n, k) w) as [(n' & Hn' & Wn) Ht]; [by exists n|exact Hw|exact Hf|].
  exists n'. split; [done|]. intros Hb m iface d Hm Hd. destruct (Ht) with (m := m) (iface := iface) (d := d) as (Hc & Hk & _); [|done..|].
  { intros n0 Hn0. cbn in Hn0. rewrite Hn' in Hn0. by injection Hn0 as <-. }
  split; [done|]. destruct Hk as (n0 & Hn0 & x & Hx & Hid & Hx'). rewrite Hn' in Hn0. injection Hn0 as <-.
  destruct (find_registered (c_system n') x (proj2 Wn) Hb Hx) as [Hfind Hrange]. rewrite Hid in Hfind, Hrange.
  split; [by exists x|]. intros q Hq. rewrite to_u_small in Hq by (unfold in_u; lia).
  apply (update_accepted object h Hcast Hobject q n' (DevInterface.netSupplier_ d) Wn); [by rewrite Hfind|done].
Qed.

(** ** The witness

    Another client registers a cellular supplier before each call. *)

Import SamplePlatform Unbounded.
#[local] Existing Instances sample_ids every_object world_objects.

#[local] Abbreviation sample_conn :=
  (conn_platform (F := unit) (K := unit) (P := buffer) (λ _, net_conn_proxy stub) (λ k, ([cellular_request], k))).

Definition sample_both : eworld (conn_env unit unit) :=
  match eth_handle (H := sample_conn) EOnStart (EthernetService.construct (Some (one_object (world_init tt)), tt)) with
  | Some (_, w) => w
  | None => EthernetService.construct (None, tt)
  end.

Definition sample_dev : DevInterface.t :=
  match m ← ethManagement_ sample_both ; mjoin (devs_ m !! "eth0"%string) with
  | Some d => d
  | None => DevInterface.construct
  end.

Lemma sample_both_run :
  eth_handle (H := sample_conn) EOnStart (EthernetService.construct (Some (one_object (world_init tt)), tt)) = Some (ERDone, sample_both).
Proof.
  unfold sample_both. destruct (eth_handle (H := sample_conn) EOnStart _) as [[r w]|] eqn:Eh; [|vm_compute in Eh; discriminate].
  do 2 f_equal. vm_compute in Eh. by injection Eh as <-.
Qed.

Lemma sample_both_reachable :
  eth_reachable (H := sample_conn) (Some (one_object (world_init tt)), tt) sample_both.
Proof. refine (eth_reach_step (H := sample_conn) _ _ EOnStart ERDone _ _ _ sample_both_run); [constructor|exact I]. Qed.

Lemma sample_both_fits : Forall fits_event (e_log sample_both).
Proof.
  assert (Hl : forallb (λ ev, match ev with EthLinkInfo _ _ => false | _ => true end) (e_log sample_both) = true) by (vm_compute; reflexivity).
  apply Forall_forall. intros ev Hin%list_elem_of_In. rewrite forallb_forall in Hl. specialize (Hl ev Hin).
  clear - Hl. destruct ev; [exact I|exact I|exact I|discriminate Hl|exact I..].
Qed.

Lemma sample_dev_found : ∃ m, ethManagement_ sample_both = Some m ∧ devs_ m !! "eth0"%string = Some (Some sample_dev).
Proof. eexists. vm_compute. split; reflexivity. Qed.

Lemma sample_others (k : unit) : Forall no_removal ([cellular_request], k).1.
Proof. by repeat constructor. Qed.

Lemma eth_suppliers_witness :
  ∃ n' x, (e_env sample_both).1 = Some n' ∧ DevInterface.netSupplier_ sample_dev = 1004 ∧
    find_first (has_id 1004) (registry (c_system n')) = Some x ∧ e_type x = NET_TYPE_ETHERNET ∧ e_ident x = "eth0"%string.
Proof.
  destruct (eth_suppliers (P := buffer) (λ _, net_conn_proxy stub) (λ k, ([cellular_request], k)) 7%nat tt
    (one_object (world_init tt)) tt sample_both every_object_casts eq_refl sample_others eq_refl (reach_init tt)
    sample_both_reachable sample_both_fits) as (n' & Hn' & Hd).
  destruct sample_dev_found as (m & Hm & Hdev).
  destruct (Hd) with (m := m) (iface := "eth0"%string) (d := sample_dev) as (_ & (x & Hx & Ht & Hi) & _); [|done..|].
  - replace n' with (from_option id n' ((e_env sample_both).1)) by by rewrite Hn'. vm_compute. discriminate.
  - exists n', x. split; [done|]. split; [by vm_compute|]. by split_and!.
Defined.
