(* ===== verification/EthernetNetd.v ===== *)
(** * From a configuration to netd

    A static configuration on its way: the ethernet service, the client library,
    the proxy, the stub, the connection service, and the calls of netd. *)

From S2P Require Import Prelude Parcel Parcelables Ipc Host NetIds ConnState ConnNetwork.
From S2P Require Import ConnService ConnInv ConnSpec ConnUpdate ConnCorrect ConnProps ConnLink ConnIpc.
From S2P Require Import Ethernet EthernetSpec EthernetInv EthernetCorrect EthernetProps.
From S2P Require Import Client Clients ClientSpec ClientProps EthernetConn EthernetConnProps.
Import NetSpecifier NetConnServiceOps RemoteClient.

(** ** The platform after a number of calls *)

Section Traced.
Context {E : Type} `{EthPlatform E}.

Definition after_calls (evs : list eth_event) (e : E) : E := foldl (λ e ev, (eth_call ev e).2) e evs.

Lemma bind_some {S A B} (p : st S A) (k : A → st S B) s a s' : p s = Some (a, s') → (p ≫= k) s = k a s'.
Proof. intros Hp. unfold mbind, st_bind. by rewrite Hp. Qed.

(** The log says how the platform has come to its state. *)
Definition traced {A} (p : st (eworld E) A) : Prop := ∀ w a w', p w = Some (a, w') →
  ∃ evs, e_log w' = e_log w ++ evs ∧ e_env w' = after_calls evs (e_env w).

Lemma traced_ret {A} (a : A) : traced (mret a).
Proof. intros w a' w' [= <- <-]. exists []. by rewrite app_nil_r. Qed.

Lemma traced_bind {A B} (p : st (eworld E) A) (k : A → st (eworld E) B) :
  traced p → (∀ a, traced (k a)) → traced (p ≫= k).
Proof.
  intros Hp Hk w b w' Hr. unfold mbind, st_bind in Hr. destruct (p w) as [[a w1]|] eqn:Ep; [|done].
  destruct (Hp _ _ _ Ep) as (l1 & L1 & E1). destruct (Hk _ _ _ _ Hr) as (l2 & L2 & E2).
  exists (l1 ++ l2). split; [by rewrite L2, L1, app_assoc|]. unfold after_calls in *. by rewrite foldl_app, <- E1.
Qed.

Lemma traced_gets {A} (f : eworld E → A) : traced (gets f).
Proof. intros w a w' [= <- <-]. exists []. by rewrite app_nil_r. Qed.

Lemma traced_deref {A} (o : option A) : traced (deref o).
Proof. intros w a w' Hr. destruct o; [|done]. injection Hr as <- <-. exists []. by rewrite app_nil_r. Qed.

Lemma traced_modify f : (∀ w, e_env (f w) = e_env w ∧ e_log (f w) = e_log w) → traced (modify f).
Proof. intros Hf w a w' [= <- <-]. destruct (Hf w) as [He Hl]. exists []. by rewrite Hl, app_nil_r. Qed.

Lemma traced_do ev : traced (eth_do ev).
Proof.
  intros w a w' Hr. unfold eth_do, eth_ext in Hr. destruct (eth_call ev (e_env w)) as [z e] eqn:Ec.
  injection Hr as <- <-. exists [ev]. split; [done|]. cbn. by rewrite Ec.
Qed.

Ltac tracing :=
  repeat match goal with
  | |- traced (match ?x with _ => _ end) => destruct x
  | |- traced (_ ≫= _) => apply traced_bind; [|intros ?]
  | |- traced (modify _) => apply traced_modify; by intros []
  | |- traced _ => first [apply traced_ret | apply traced_gets | apply traced_deref | apply traced_do]
  end.

Lemma traced_SetIfaceConfig iface ic : traced (EthernetService.SetIfaceConfig iface ic).
Proof.
  unfold EthernetService.SetIfaceConfig, EthernetManagement.UpdateDevInterfaceState, EthernetManagement.found_dev,
    EthernetManagement.find_dev, EthernetManagement.put_dev, DevInterfaceState.SetIfcfg, DevInterfaceState.UpdateLinkInfo,
    DevInterfaceState.SetIpAddr, DevInterfaceState.RemoteUpdateNetLinkInfo. cbv zeta. tracing.
Qed.

(** An accepted configuration, and what the platform is asked for it. *)
Lemma run_configure_calls iface c m d (w : eworld E) :
  ethManagement_ w = Some m → devs_ m !! iface = Some (Some d) → DevInterface.linkUp_ d = true →
  ∃ w', EthernetService.SetIfaceConfig iface (Some c) w = Some (ETHERNET_SUCCESS, w') ∧
    e_env w' = after_calls (configuration_calls c d) (e_env w).
Proof.
  intros Hm Hd Hup. destruct (run_configure iface c m d w Hm Hd Hup) as (w' & Hr & Hl & _).
  exists w'. split; [done|]. destruct (traced_SetIfaceConfig _ _ _ _ _ Hr) as (evs & Hl' & He).
  rewrite Hl in Hl'. by apply app_inv_head in Hl' as <-.
Qed.

End Traced.

(** ** The update of a supplier that is known *)

Section Update.
Context {F K P : Type} `{Platform F} `{EthPlatform K} `{RemoteObjects (world F)} `{SystemAbilities}.
Context `{ParcelLaws P} `{!RoomyParcel P} `{IpcPlatform P} `{CallbackCast}.
Context (object : nat → INetConnService (world F)) (others : K → list request * K) (h : nat).
Hypothesis casts : ∀ c, iface_cast (cb_object c) = Some c.
Hypothesis object_law : object h = net_conn_proxy (stub (P:=P)).
Hypothesis others_law : ∀ k, Forall no_removal (others k).1.
Implicit Type n : cworld (world F).

(** [n1] is [n] after the requests [qs] of other clients; from [n1] to [n'] the network of the supplier [id] gets [i], with the calls
    that follow from what it had. *)
Definition served qs n n1 : Prop := on_system (for_each (λ q, handle q ;; mret tt) qs) n = Some (tt, n1).

Definition link_updated id i n1 n' : Prop := ∃ l nw,
  find_first (has_supplierId (c_system n1) id) (netSupplier_ (w_conn (c_system n1))) = Some l ∧
  w_networks (c_system n1) !! l = Some nw ∧
  w_networks (c_system n') !! l = Some (NetworkOps.with_linkinfo i nw) ∧
  h_log (w_host (c_system n')) = h_log (w_host (c_system n1)) ++ link_calls (Network.netId_ nw) (Network.netLinkInfo_ nw) i.

Lemma conn_link_update n k id i iface :
  conn_well h n → NetLinkInfo.fits i →
  ∃ n1 n' z, served (others k).1 n n1 ∧ (conn_eth_call (P:=P) object others (EthLinkInfo id i) (Some n, k)).2.1 = Some n' ∧
    conn_client_call (P:=P) object (ReqUpdateNetLinkInfo id (Some i)) n1 = Some (z, n') ∧
    (few (c_system n') → few (c_system n) ∧ (known n id iface → z = ERR_NONE ∧ link_updated id i n1 n')).
Proof.
  intros Hn Hi. unfold conn_eth_call. cbn [conn_request fst snd].
  pose proof (others_law k) as Hqs. destruct (others k) as [qs k'] eqn:Eo. cbn [fst] in Hqs.
  destruct (wp_others h qs n Hn Hqs) as ([] & n1 & Hr1 & A1). pose proof (proj1 A1) as [S1 I1].
  set (q := ReqUpdateNetLinkInfo id (Some i)).
  destruct (handle_ok q (c_system n1) I1) as (z & s & Hh & Hr).
  pose proof (conn_call_run object h casts object_law q n1 z s (proj1 A1) Hi Hh) as Hcall.
  assert (Hserve : conn_serve (P:=P) object qs q n = Some (client_code q z, set_system s n1))
    by (etransitivity; [exact (bind_some _ _ _ _ _ Hr1)|exact Hcall]).
  exists n1, (set_system s n1), z. split; [exact Hr1|]. cbn [mbind option_bind]. rewrite Hserve.
  split; [done|]. split; [exact Hcall|]. cbn [c_system set_system]. intros Hb.
  destruct (request_entries q (c_system n1) z s) as [Hb1 _]; [by intros x|done..|].
  split; [by apply (proj2 A1 Hb1)|]. intros Hk. destruct (advances_known h n n1 id iface A1 Hb1 Hk) as (x & Hx & <- & _).
  destruct (find_registered (c_system n1) x I1 Hb1 Hx) as [Hf _]. rewrite find_by_id in Hf by done.
  destruct (find_first (has_supplierId (c_system n1) (e_id x)) _) as [l|] eqn:El; [|done].
  destruct (found_supplier (c_system n1) (e_id x) l I1 El) as (_ & p & nw & _ & Hnw & _).
  destruct (wp_run _ _ _ _ _ (run_UpdateNetLinkInfo (c_system n1) (e_id x) i l nw I1 El Hnw) Hh) as (-> & Hl & Hnet & _).
  split; [done|]. exists l, nw. split_and!; [done..| |done]. cbn. by rewrite Hnet, lookup_insert_eq.
Qed.

Lemma after_static_calls ifName ip id i n k :
  after_calls (H := conn_platform (P:=P) object others) [EthSetIpAddr ifName ip; EthLinkInfo id i] (Some n, k) =
  (conn_eth_call (P:=P) object others (EthLinkInfo id i) (Some n, (eth_call (EthSetIpAddr ifName ip) k).2)).2.
Proof.
  change (after_calls _ _) with (conn_eth_call (P:=P) object others (EthLinkInfo id i)
    (conn_eth_call (P:=P) object others (EthSetIpAddr ifName ip) (Some n, k)).2).2.
  do 2 f_equal. unfold conn_eth_call. cbn. by destruct (eth_call (EthSetIpAddr ifName ip) k).
Qed.

End Update.

(** The calls of a static configuration of an interface that is available. *)
Lemma static_calls c d :
  InterfaceConfiguration.mode_ c = InterfaceConfiguration.STATIC → DevInterface.connLinkState_ d = LINK_AVAILABLE →
  configuration_calls c d = [EthSetIpAddr (DevInterface.devName_ d)
      (INetAddr.address_ (StaticConfiguration.ipAddr_ (InterfaceConfiguration.ipStatic_ c)));
    EthLinkInfo (to_u 32 (DevInterface.netSupplier_ d)) (static_link c d)].
Proof.
  intros Hs Ha. unfold configuration_calls, configured, is_static. rewrite Hs, decide_True by done. cbn [Z.eqb InterfaceConfiguration.STATIC].
  unfold link_report. cbn [DevInterface.connLinkState_ DevInterface.linkInfo_ DevInterface.with_link DevInterface.with_ifcfg].
  by rewrite Ha, decide_False.
Qed.

(** The one route of a static configuration. *)
Definition static_route (c : InterfaceConfiguration.t) (d : DevInterface.t) : Route.t :=
  Route.mk (DevInterface.devName_ d) (StaticConfiguration.route_ (InterfaceConfiguration.ipStatic_ c))
    (StaticConfiguration.gate_ (InterfaceConfiguration.ipStatic_ c)).

(** The calls of netd for it, when the network had [old]: an interface that
    another client had named goes, the route is added unless the network has it,
    every other route goes, and the servers are those of the configuration. *)
Definition static_netd_calls (netId : Z) (old : NetLinkInfo.t) (c : InterfaceConfiguration.t) (d : DevInterface.t) : list event :=
  let s := InterfaceConfiguration.ipStatic_ c in let new := static_link c d in
  (if decide (NetLinkInfo.ifaceName_ old = ""%string) then [] else [EvNetd (NdNetworkRemoveInterface netId (NetLinkInfo.ifaceName_ old))]) ++
  (if decide (static_route c d ∈ NetLinkInfo.routeList_ old) then []
   else [EvNetd (NdNetworkAddRoute netId (DevInterface.devName_ d) (INetAddr.address_ (StaticConfiguration.route_ s))
           (INetAddr.address_ (StaticConfiguration.gate_ s)))]) ++
  (remove_route netId <$> filter (λ r, r ≠ static_route c d) (NetLinkInfo.routeList_ old)) ++
  [EvNetd (NdSetResolverConfig (to_u 16 netId) 0 1 (INetAddr.address_ <$> StaticConfiguration.dnsServers_ s)
     (INetAddr.hostName_ <$> StaticConfiguration.dnsServers_ s))] ++
  (if decide (NetLinkInfo.mtu_ new = NetLinkInfo.mtu_ old) then []
   else [EvNetd (NdInterfaceSetMtu "" (NetLinkInfo.mtu_ new))]).

Lemma static_link_calls netId old c d :
  NetLinkInfo.ifaceName_ (static_link c d) = ""%string →
  link_calls netId old (static_link c d) = static_netd_calls netId old c d.
Proof.
  intros Hname. unfold link_calls, static_netd_calls. cbv zeta. rewrite Hname.
  change (NetLinkInfo.routeList_ (static_link c d)) with [static_route c d]. f_equal; [by repeat case_decide; simplify_eq|].
  f_equal.
  - unfold routes_beyond. rewrite filter_cons. by repeat case_decide.
  - f_equal. f_equal. unfold routes_beyond. apply list_filter_iff. intros r. by rewrite list_elem_of_singleton.
Qed.

(** ** The property *)

(** C17. A static configuration from end to end, under the conditions of the
    property above: each service handles its requests one at a time, the
    connection service is alive, nobody removes a supplier, and at most 64512
    have been registered. When the ethernet service is given a static
    configuration for an interface that is up and available, it answers with
    success; the connection service, through client, proxy and stub, accepts as
    the information of that supplier exactly the configured one and stores it;
    and the calls of netd that this makes are, whatever netd answers, exactly:
    the removal of the interface that the network had by name, if any, the
    addition of the route of the configuration under the name of the interface,
    unless the network had that route, the removal of every other route that it
    had, the servers, and the MTU if it was another. *)
Theorem eth_static_reaches_netd {F K P} `{Platform F} `{EthPlatform K} `{RemoteObjects (world F)} `{SystemAbilities}
    `{ParcelLaws P} `{!RoomyParcel P} `{IpcPlatform P} `{CallbackCast}
    (object : nat → INetConnService (world F)) (others : K → list request * K) h e n (k : K) w m iface d c :
  (∀ c, iface_cast (cb_object c) = Some c) → object h = net_conn_proxy (stub (P:=P)) →
  (∀ k, Forall no_removal (others k).1) → service_ n = Some h → reachable e (c_system n) →
  eth_reachable (H := conn_platform (P:=P) object others) (Some n, k) w → Forall fits_event (e_log w) →
  ethManagement_ w = Some m → devs_ m !! iface = Some (Some d) →
  DevInterface.linkUp_ d = true → DevInterface.connLinkState_ d = LINK_AVAILABLE →
  InterfaceConfiguration.mode_ c = InterfaceConfiguration.STATIC → NetLinkInfo.fits (static_link c d) →
  ∃ w' n0 k0 n1 n', EthernetService.SetIfaceConfig (H := conn_platform (P:=P) object others) iface (Some c) w
      = Some (ETHERNET_SUCCESS, w') ∧
    e_env w = (Some n0, k0) ∧ (e_env w').1 = Some n' ∧
    served (others (eth_call (EthSetIpAddr (DevInterface.devName_ d)
      (INetAddr.address_ (StaticConfiguration.ipAddr_ (InterfaceConfiguration.ipStatic_ c)))) k0).2).1 n0 n1 ∧
    (Z.of_nat (w_nnetworks (c_system n')) <= 64512 → DevInterface.devName_ d = iface ∧ ∃ l nw,
       conn_client_call (P:=P) object (ReqUpdateNetLinkInfo (DevInterface.netSupplier_ d) (Some (static_link c d))) n1
         = Some (ERR_NONE, n') ∧
       find_first (has_supplierId (c_system n1) (DevInterface.netSupplier_ d)) (netSupplier_ (w_conn (c_system n1))) = Some l ∧
       w_networks (c_system n1) !! l = Some nw ∧
       w_networks (c_system n') !! l = Some (NetworkOps.with_linkinfo (static_link c d) nw) ∧
       h_log (w_host (c_system n')) = h_log (w_host (c_system n1)) ++
         static_netd_calls (Network.netId_ nw) (Network.netLinkInfo_ nw) c d).
Proof.
  intros Hcast Hobject Hothers Hs [Hi _]%reachable_ok Hw Hf Hm Hd Hup Hav Hstatic Hfits.
  set (laws := conn_laws (P:=P) object others h Hcast Hobject Hothers).
  destruct (enroll_reachable (H1 := laws) (Some n, k) w) as [(n0 & Hn0 & Wn) Ht]; [by exists n|exact Hw|exact Hf|].
  destruct (run_configure_calls (H := conn_platform (P:=P) object others) iface c m d w Hm Hd Hup) as (w' & Hr & He).
  destruct (eth_reachable_inv (H := conn_platform (P:=P) object others) (Some n, k) w Hw) as [_ (m0 & Hm0 & _ & Hok)].
  rewrite Hm in Hm0. injection Hm0 as <-. destruct (Hok iface) as [He0 _]. rewrite Hd in He0. destruct He0 as (d0 & [= <-] & Hd0).
  destruct (e_env w) as [o k0] eqn:Ee. cbn in Hn0. subst o. destruct Wn as [S0 I0].
  rewrite static_calls in He by done. rewrite after_static_calls in He. set (k1 := snd (eth_call _ k0)) in He.
  destruct (conn_link_update (P:=P) object others h Hcast Hobject Hothers n0 k1 (to_u 32 (DevInterface.netSupplier_ d))
    (static_link c d) iface) as (n1 & n' & z & Hserved & Hrun & Hcall & Hlink); [by split|done|].
  exists w', n0, k0, n1, n'. split; [exact Hr|]. split; [done|]. split; [by rewrite He|].
  split; [exact Hserved|]. intros Hb. destruct (Hlink Hb) as [Hb0 Hupd].
  destruct (Ht) with (m := m) (iface := iface) (d := d) as (_ & Hk & Hname); [by intros x [= <-]|done|done|].
  destruct Hk as (x0 & [= <-] & Hk). pose proof Hk as (x & Hx & Hid & _).
  destruct (find_registered (c_system n0) x I0 Hb0 Hx) as [_ Hrange]. rewrite Hid in Hrange.
  rewrite to_u_small in Hupd, Hcall by (unfold in_u; lia). destruct (Hupd Hk) as (-> & l & nw & Hl & Hnw & Hnw' & Hlog).
  split; [done|]. exists l, nw. split_and!; [exact Hcall|done..|]. rewrite Hlog, static_link_calls; [done|]. exact (dok_link _ Hd0).
Qed.

(** ** The witness *)

Import SamplePlatform Unbounded.
#[local] Existing Instances sample_ids every_object world_objects.

Definition gateway_config : InterfaceConfiguration.t :=
  InterfaceConfiguration.mk InterfaceConfiguration.STATIC
    (StaticConfiguration.mk (addr "192.168.0.2") (addr "0.0.0.0") (addr "192.168.0.1") INetAddr.default [] "").

#[local] Abbreviation sample_conn :=
  (conn_platform (F := unit) (K := unit) (P := buffer) (λ _, net_conn_proxy stub) (λ k, ([cellular_request], k))).

Definition sample_configured : eworld (conn_env unit unit) :=
  match EthernetService.SetIfaceConfig (H := sample_conn) "eth0" (Some gateway_config) sample_both with
  | Some (_, w) => w
  | None => sample_both
  end.

(** The network of the supplier when the configuration arrives. *)
Definition sample_network : option Network.t :=
  n0 ← (e_env sample_both).1 ;
  r ← on_system (for_each (λ q, handle q ;; mret tt) [cellular_request]) n0 ;
  l ← find_first (has_supplierId (c_system r.2) 1004) (netSupplier_ (w_conn (c_system r.2))) ;
  w_networks (c_system r.2) !! l.

Lemma sample_network_fresh : ∃ nw, sample_network = Some nw ∧ Network.netId_ nw = 1 ∧ Network.netLinkInfo_ nw = NetLinkInfo.default.
Proof. eexists. vm_compute. by split_and!. Qed.

Lemma eth_static_reaches_netd_witness :
  ∃ w' (n1 n' : cworld (world unit)), EthernetService.SetIfaceConfig (H := sample_conn) "eth0" (Some gateway_config) sample_both = Some (ETHERNET_SUCCESS, w') ∧
    h_log (w_host (c_system n')) = h_log (w_host (c_system n1)) ++
      [EvNetd (NdNetworkAddRoute 1 "eth0" "0.0.0.0" "192.168.0.1"); EvNetd (NdSetResolverConfig 1 0 1 [] [])].
Proof.
  destruct sample_dev_found as (m & Hm & Hdev). assert (Hid : DevInterface.netSupplier_ sample_dev = 1004) by (vm_compute; reflexivity).
  destruct (eth_static_reaches_netd (P := buffer) (λ _, net_conn_proxy stub) (λ k, ([cellular_request], k)) 7%nat tt
    (one_object (world_init tt)) tt sample_both m "eth0" sample_dev gateway_config every_object_casts eq_refl sample_others eq_refl
    (reach_init tt) sample_both_reachable sample_both_fits Hm Hdev) as (w' & n0 & k0 & n1 & n' & Hr & He & Hn' & Hs & Hpost);
    [vm_compute; reflexivity|vm_compute; reflexivity|reflexivity|vm_compute; by split_and!|].
  assert (Hw' : w' = sample_configured) by (unfold sample_configured; by rewrite Hr).
  destruct Hpost as (_ & l & nw & _ & Hl & Hnw & _ & Hlog).
  { replace n' with (from_option id n' ((e_env sample_configured).1)) by by rewrite <- Hw', Hn'. vm_compute. discriminate. }
  exists w', n1, n'. split; [exact Hr|]. rewrite Hlog. f_equal.
  destruct sample_network_fresh as (nw' & Hnet & Hnetid & Hinfo).
  assert (nw' = nw) as ->.
  { unfold sample_network in Hnet. rewrite He in Hnet. cbn [fst mbind option_bind] in Hnet. unfold served in Hs. cbn [fst] in Hs.
    rewrite Hs in Hnet. cbn [mbind option_bind snd] in Hnet. rewrite Hid in Hl. rewrite Hl in Hnet. cbn [mbind option_bind] in Hnet. rewrite Hnw in Hnet. by injection Hnet as ->. }
  rewrite Hnetid, Hinfo. vm_compute. reflexivity.
Defined.
