(* ===== verification/Timer.v ===== *)
(** * The timer

    [services/common/include/timer.h]. The methods of one thread of control and
    the threads that they start run step by step, in any order: a step is one
    access to a shared member, or the end of a sleep or of a task. A call of
    [wait] gives the mutex back, and may end without a notification. *)

From S2P Require Import Prelude.

(** ** The threads *)

(** The thread of [Start]: where it is. *)
Inductive wpc := WCheck | WSleep | WTask | WLock | WSet | WNotify | WUnlock.

(** The thread of [StartOnce]. *)
Inductive opc := OCheck | OSleep | OTask.

(** The calling thread: between two calls, in [Start], or in [Stop]; the flag
    says that [Stop] is called by the destructor. *)
Inductive cpc :=
  | CIdle
  | CStartSet
  | CStartSpawn
  | CStopSet (destroy : bool)
  | CStopLock (destroy : bool)
  | CStopTest (destroy : bool)
  | CStopWait (destroy : bool)
  | CStopWake (destroy : bool)
  | CStopCheck (destroy : bool)
  | CStopUnlock (destroy : bool).

(** The members, the mutex being held or not; the threads; and how often a task
    has been run by the thread of [Start] and by those of [StartOnce]. *)
Record timer := mkTimer {
  stopStatus_ : bool;
  tryStopFlag_ : bool;
  mutex_ : bool;
  workers : list wpc;
  onces : list opc;
  ctl : cpc;
  destroyed : bool;
  runs : nat;
  once_runs : nat;
}.

Definition set_ctl (c : cpc) (t : timer) : timer :=
  mkTimer (stopStatus_ t) (tryStopFlag_ t) (mutex_ t) (workers t) (onces t) c (destroyed t) (runs t) (once_runs t).
Definition set_stop (b : bool) (t : timer) : timer :=
  mkTimer b (tryStopFlag_ t) (mutex_ t) (workers t) (onces t) (ctl t) (destroyed t) (runs t) (once_runs t).
Definition set_try (b : bool) (t : timer) : timer :=
  mkTimer (stopStatus_ t) b (mutex_ t) (workers t) (onces t) (ctl t) (destroyed t) (runs t) (once_runs t).
Definition set_mutex (b : bool) (t : timer) : timer :=
  mkTimer (stopStatus_ t) (tryStopFlag_ t) b (workers t) (onces t) (ctl t) (destroyed t) (runs t) (once_runs t).
Definition set_workers (l : list wpc) (t : timer) : timer :=
  mkTimer (stopStatus_ t) (tryStopFlag_ t) (mutex_ t) l (onces t) (ctl t) (destroyed t) (runs t) (once_runs t).
Definition set_onces (l : list opc) (t : timer) : timer :=
  mkTimer (stopStatus_ t) (tryStopFlag_ t) (mutex_ t) (workers t) l (ctl t) (destroyed t) (runs t) (once_runs t).
Definition set_destroyed (b : bool) (t : timer) : timer :=
  mkTimer (stopStatus_ t) (tryStopFlag_ t) (mutex_ t) (workers t) (onces t) (ctl t) b (runs t) (once_runs t).
Definition count_run (t : timer) : timer :=
  mkTimer (stopStatus_ t) (tryStopFlag_ t) (mutex_ t) (workers t) (onces t) (ctl t) (destroyed t) (S (runs t)) (once_runs t).
Definition count_once (t : timer) : timer :=
  mkTimer (stopStatus_ t) (tryStopFlag_ t) (mutex_ t) (workers t) (onces t) (ctl t) (destroyed t) (runs t) (S (once_runs t)).

Module Timer.

(** [Timer()], and [Timer(const Timer &timer)]: the two flags, no thread. *)
Definition construct : timer := mkTimer true false false [] [] CIdle false 0 0.

Definition copy (t : timer) : timer :=
  mkTimer (stopStatus_ t) (tryStopFlag_ t) false [] [] CIdle false 0 0.

(** The first step of a call. *)
Definition Start (t : timer) : timer := if stopStatus_ t then set_ctl CStartSet t else t.

Definition StartOnce (t : timer) : timer := set_onces (onces t ++ [OCheck]) t.

Definition Stop (destroy : bool) (t : timer) : timer :=
  if stopStatus_ t || tryStopFlag_ t then set_destroyed destroy t else set_ctl (CStopSet destroy) t.

Inductive timer_op := OpStart | OpStartOnce | OpStop | OpDestroy.

Definition call (op : timer_op) (t : timer) : timer :=
  match op with
  | OpStart => Start t
  | OpStartOnce => StartOnce t
  | OpStop => Stop false t
  | OpDestroy => Stop true t
  end.

(** The next step of the call that is running; [None] when it is blocked. *)
Definition continue (t : timer) : option timer :=
  match ctl t with
  | CIdle => None
  | CStartSet => Some (set_ctl CStartSpawn (set_stop false t))
  | CStartSpawn => Some (set_ctl CIdle (set_workers (workers t ++ [WCheck]) t))
  | CStopSet d => Some (set_ctl (CStopLock d) (set_try true t))
  | CStopLock d | CStopWake d =>
    if mutex_ t then None else Some (set_ctl (CStopTest d) (set_mutex true t))
  | CStopTest d =>
    if stopStatus_ t then Some (set_ctl (CStopCheck d) t)
    else Some (set_ctl (CStopWait d) (set_mutex false t))
  | CStopWait _ => None
  | CStopCheck d => Some (set_ctl (CStopUnlock d) (if stopStatus_ t then set_try false t else t))
  | CStopUnlock d => Some (set_destroyed d (set_ctl CIdle (set_mutex false t)))
  end.

(** [timerCond_.notify_one()] *)
Definition notify (t : timer) : timer :=
  match ctl t with CStopWait d => set_ctl (CStopWake d) t | _ => t end.

(** The next step of the [i]-th thread of [Start]. *)
Definition worker_step (i : nat) (t : timer) : option timer :=
  w ← workers t !! i ;
  let goto w' t := set_workers (<[i := w']> (workers t)) t in
  match w with
  | WCheck => Some (goto (if tryStopFlag_ t then WLock else WSleep) t)
  | WSleep => Some (goto WTask t)
  | WTask => Some (goto WCheck (count_run t))
  | WLock => if mutex_ t then None else Some (goto WSet (set_mutex true t))
  | WSet => Some (goto WNotify (set_stop true t))
  | WNotify => Some (goto WUnlock (notify t))
  | WUnlock => Some (set_workers (delete i (workers t)) (set_mutex false t))
  end.

(** The next step of the [i]-th thread of [StartOnce]. *)
Definition once_step (i : nat) (t : timer) : option timer :=
  o ← onces t !! i ;
  match o with
  | OCheck =>
    Some (set_onces (if tryStopFlag_ t then delete i (onces t) else <[i := OSleep]> (onces t)) t)
  | OSleep => Some (set_onces (<[i := OTask]> (onces t)) t)
  | OTask => Some (count_once (set_onces (delete i (onces t)) t))
  end.

(** One step of the program. *)
Inductive action := ACall (op : timer_op) | AContinue | AWorker (i : nat) | AOnce (i : nat) | ASpurious.

Definition step (a : action) (t : timer) : option timer :=
  match a with
  | ACall op => match ctl t with CIdle => if destroyed t then None else Some (call op t) | _ => None end
  | AContinue => continue t
  | AWorker i => worker_step i t
  | AOnce i => once_step i t
  | ASpurious => match ctl t with CStopWait d => Some (set_ctl (CStopWake d) t) | _ => None end
  end.

(** A step that reads or writes a member of the object. *)
Definition touches (a : action) (t : timer) : bool :=
  match a with
  | AWorker i =>
    match workers t !! i with Some (WCheck | WLock | WSet | WNotify | WUnlock) => true | _ => false end
  | AOnce i => match onces t !! i with Some OCheck => true | _ => false end
  | _ => false
  end.

Fixpoint run (as_ : list action) (t : timer) : option timer :=
  match as_ with
  | [] => Some t
  | a :: as_ => t' ← step a t ; run as_ t'
  end.

Inductive reachable : timer → Prop :=
  | reach_construct : reachable construct
  | reach_step a t t' : reachable t → step a t = Some t' → reachable t'.

End Timer.
