(* ===== verification/TimerProps.v ===== *)
(** * Properties of the timer

    [Stop] returns, and then no thread of [Start] is left; a copy of a running
    timer can never be stopped, and a thread of [StartOnce] may outlive its
    timer. *)

From S2P Require Import Prelude Timer.
Import Timer.

(** ** The invariant *)

Definition looping (w : wpc) : bool := match w with WCheck | WSleep | WTask => true | _ => false end.

(** The thread of [Start] once a stop is requested: it has not taken the mutex,
    it holds it, or it is gone. *)
Definition before_lock (t : timer) : bool :=
  negb (stopStatus_ t) && match workers t with [w] => looping w || match w with WLock => true | _ => false end | _ => false end.

Definition holding (t : timer) : bool :=
  mutex_ t && match workers t with
              | [WSet] => negb (stopStatus_ t)
              | [WNotify] | [WUnlock] => stopStatus_ t
              | _ => false
              end.

Definition gone (t : timer) : bool := stopStatus_ t && match workers t with [] => true | _ => false end.

(** What the members and the thread are at each point of the caller. *)
Definition timer_ok (t : timer) : bool :=
  match ctl t with
  | CIdle =>
    negb (tryStopFlag_ t) && negb (mutex_ t) &&
    (gone t || negb (destroyed t) && negb (stopStatus_ t) && match workers t with [w] => looping w | _ => false end)
  | CStartSet => negb (tryStopFlag_ t) && negb (mutex_ t) && gone t
  | CStartSpawn =>
    negb (tryStopFlag_ t) && negb (mutex_ t) && negb (stopStatus_ t) && match workers t with [] => true | _ => false end
  | CStopSet _ =>
    negb (tryStopFlag_ t) && negb (mutex_ t) && negb (stopStatus_ t) && match workers t with [w] => looping w | _ => false end
  | CStopLock _ | CStopWake _ =>
    tryStopFlag_ t && (holding t || negb (mutex_ t) && (before_lock t || gone t))
  | CStopWait _ =>
    tryStopFlag_ t && (negb (mutex_ t) && before_lock t || holding t && match workers t with [WUnlock] => false | _ => true end)
  | CStopTest _ => tryStopFlag_ t && mutex_ t && (before_lock t || gone t)
  | CStopCheck _ => tryStopFlag_ t && mutex_ t && gone t
  | CStopUnlock _ => negb (tryStopFlag_ t) && mutex_ t && gone t
  end && (negb (destroyed t) || match ctl t with CIdle => true | _ => false end).

(** Every combination of flags and points: what is left is computed. *)
Ltac by_cases := repeat match goal with
  | b : bool |- _ => destruct b
  | c : cpc |- _ => destruct c
  | w : wpc |- _ => destruct w
  end; try discriminate; try reflexivity.

Lemma once_step_ok i t t' : timer_ok t = true → once_step i t = Some t' → timer_ok t' = true.
Proof.
  intros Ht. unfold once_step. destruct (onces t !! i) as [[]|]; [..|done]; intros [= <-]; exact Ht.
Qed.

(** There is at most one thread of [Start]. *)
Lemma one_worker t : timer_ok t = true → workers t = [] ∨ ∃ w, workers t = [w].
Proof.
  destruct t as [stop try mutex [|w [|w2 ws]] os c de r o]; [by left|by right; exists w|].
  unfold timer_ok, before_lock, holding, gone. cbn. by_cases.
Qed.

Lemma worker_step_ok i t t' : timer_ok t = true → worker_step i t = Some t' → timer_ok t' = true.
Proof.
  intros Ht. destruct (one_worker t Ht) as [Hw|[w Hw]]; unfold worker_step; rewrite Hw; [by destruct i|].
  destruct i as [|i]; [|by destruct i]. destruct t as [stop try mutex ws os c de r o]. cbn in *. subst ws.
  unfold timer_ok, before_lock, holding, gone in *. cbn in Ht.
  by_cases; intros [= <-]; reflexivity.
Qed.

Lemma continue_ok t t' : timer_ok t = true → continue t = Some t' → timer_ok t' = true.
Proof.
  intros Ht. destruct (one_worker t Ht) as [Hw|[w Hw]];
    destruct t as [stop try mutex ws os c de r o]; cbn in *; subst ws;
    unfold timer_ok, before_lock, holding, gone in *; cbn in *; by_cases; intros [= <-]; reflexivity.
Qed.

Lemma call_ok op t : ctl t = CIdle → destroyed t = false → timer_ok t = true → timer_ok (call op t) = true.
Proof.
  intros Hc Hd Ht. destruct (one_worker t Ht) as [Hw|[w Hw]];
    destruct t as [stop try mutex ws os c de r o]; cbn in *; subst ws c de; destruct op; cbn in *; try exact Ht;
    unfold Start, Stop; cbn; unfold timer_ok, before_lock, holding, gone in *; cbn in *; by_cases.
Qed.

Lemma step_ok a t t' : timer_ok t = true → step a t = Some t' → timer_ok t' = true.
Proof.
  intros Ht. destruct a as [op| |i|i|]; cbn [step].
  - destruct (ctl t) eqn:Hc; try done. destruct (destroyed t) eqn:Hd; [done|]. intros [= <-]. by apply call_ok.
  - by apply continue_ok.
  - by apply worker_step_ok.
  - by apply once_step_ok.
  - destruct (one_worker t Ht) as [Hw|[w Hw]];
      destruct t as [stop try mutex ws os c de r o]; cbn in *; subst ws;
      unfold timer_ok, before_lock, holding, gone in *; cbn in *; by_cases; intros [= <-]; reflexivity.
Qed.

Lemma reachable_timer_ok t : reachable t → timer_ok t = true.
Proof. induction 1 as [|a t t' _ IH Hs]; [done|]. by eapply step_ok. Qed.

(** ** How far a stop is from its end *)

Definition worker_weight (w : wpc) : nat :=
  match w with WSleep => 7 | WTask => 6 | WCheck => 5 | WLock => 4 | WSet => 3 | WNotify => 2 | WUnlock => 1 end.

Definition once_weight (o : opc) : nat := match o with OCheck => 3 | OSleep => 2 | OTask => 1 end.

Definition ctl_weight (stop : bool) (c : cpc) : nat :=
  match c with
  | CStopLock _ => 7
  | CStopTest _ => if stop then 3 else 6
  | CStopWait _ => 5
  | CStopWake _ => if stop then 4 else 7
  | CStopCheck _ => 2
  | CStopUnlock _ => 1
  | _ => 0
  end.

Definition weight (t : timer) : nat :=
  ctl_weight (stopStatus_ t) (ctl t) + sum_list_with worker_weight (workers t) + sum_list_with once_weight (onces t).

(** The stop has been requested, and has not returned. *)
Definition in_stop (t : timer) : bool :=
  match ctl t with
  | CStopLock _ | CStopTest _ | CStopWait _ | CStopWake _ | CStopCheck _ | CStopUnlock _ => true
  | _ => false
  end.

Definition is_spurious (a : action) : nat := match a with ASpurious => 1 | _ => 0 end.

Definition spurious (l : list action) : nat := sum_list_with is_spurious l.

Lemma sum_delete {A} (f : A → nat) (l : list A) i x :
  l !! i = Some x → (sum_list_with f (delete i l) + f x = sum_list_with f l)%nat.
Proof.
  revert i. induction l as [|z l IH]; intros [|i] Hl; simpl in *; [done|done|injection Hl as ->; lia|].
  specialize (IH i Hl). lia.
Qed.

(** What a step in a stop does to the weight, and to the count of the tasks and
    the threads that can still run one. *)
Definition may_run (t : timer) : nat :=
  match workers t with [WSleep] | [WTask] => 1 | _ => 0 end.

Definition descends (a : action) (t t' : timer) : Prop :=
  (weight t' < weight t + 3 * is_spurious a)%nat ∧ (runs t' + may_run t' ≤ runs t + may_run t)%nat.


Lemma once_descends i t t' : once_step i t = Some t' → descends (AOnce i) t t'.
Proof.
  unfold once_step, descends, weight. destruct (onces t !! i) as [o|] eqn:Ho; [|done]. cbn [mbind option_bind].
  pose proof (sum_delete once_weight _ _ _ Ho) as Hd.
  pose proof (λ y, sum_insert once_weight _ _ _ y Ho) as Hi. pose proof (Hi OSleep). pose proof (Hi OTask).
  destruct o; cbn [once_weight] in *; [destruct (tryStopFlag_ t)|..]; intros [= <-]; unfold may_run; cbn; lia.
Qed.

Lemma worker_descends i t t' :
  timer_ok t = true → in_stop t = true → worker_step i t = Some t' → descends (AWorker i) t t'.
Proof.
  intros Ht Hin. destruct (one_worker t Ht) as [Hw|[w Hw]]; unfold worker_step; rewrite Hw; [by destruct i|].
  destruct i as [|i]; [|by destruct i]. destruct t as [stop try mutex ws os c de r o]. cbn in *. subst ws.
  unfold timer_ok, before_lock, holding, gone, in_stop, descends, weight, may_run in *. cbn in Ht, Hin.
  by_cases; intros [= <-]; cbn; lia.
Qed.

Lemma continue_descends t t' :
  timer_ok t = true → in_stop t = true → continue t = Some t' → descends AContinue t t'.
Proof.
  intros Ht Hin. destruct (one_worker t Ht) as [Hw|[w Hw]];
    destruct t as [stop try mutex ws os c de r o]; cbn in *; subst ws;
    unfold timer_ok, before_lock, holding, gone, in_stop, descends, weight, may_run in *; cbn in *;
    by_cases; intros [= <-]; cbn; lia.
Qed.

Lemma step_descends a t t' :
  timer_ok t = true → in_stop t = true → step a t = Some t' → descends a t t'.
Proof.
  intros Ht Hin. destruct a as [op| |i|i|]; cbn [step].
  - unfold in_stop in Hin. by destruct (ctl t).
  - by apply continue_descends.
  - by apply worker_descends.
  - apply once_descends.
  - unfold descends, weight, may_run. destruct (ctl t); try done. intros [= <-]. cbn.
    destruct (stopStatus_ t); lia.
Qed.

(** Somebody can always go on. *)
Lemma in_stop_steps t :
  timer_ok t = true → in_stop t = true → ∃ a t', a ≠ ASpurious ∧ is_Some (step a t) ∧ step a t = Some t'.
Proof.
  intros Ht Hin. assert (He : is_Some (continue t) ∨ is_Some (worker_step 0 t)).
  { destruct (one_worker t Ht) as [Hw|[w Hw]];
      destruct t as [stop try mutex ws os c de r o]; cbn in *; subst ws;
      unfold timer_ok, before_lock, holding, gone, in_stop in *; cbn in *;
      by_cases; first [left; by eexists|right; by eexists]. }
  destruct He as [[t' He]|[t' He]].
  - exists AContinue, t'. cbn [step]. rewrite He. eauto.
  - exists (AWorker 0), t'. cbn [step]. rewrite He. eauto.
Qed.

(** The steps from one state to another, the stop going on before each. *)
Inductive stopping : list action → timer → timer → Prop :=
  | stopping_nil t : stopping [] t t
  | stopping_cons a l t t1 t2 :
      in_stop t = true → step a t = Some t1 → stopping l t1 t2 → stopping (a :: l) t t2.

(** The same, computed. *)
Fixpoint stop_run (l : list action) (t : timer) : option timer :=
  match l with
  | [] => Some t
  | a :: l => if in_stop t then t' ← step a t ; stop_run l t' else None
  end.

Lemma stop_run_stopping l t t' : stop_run l t = Some t' → stopping l t t'.
Proof.
  revert t. induction l as [|a l IH]; intros t; cbn [stop_run]; [intros [= ->]; constructor|].
  destruct (in_stop t) eqn:Hin; [|done]. destruct (step a t) as [t1|] eqn:Es; [|done]. cbn [mbind option_bind].
  intros Hl. eapply stopping_cons; [exact Hin|exact Es|by apply IH].
Qed.

Lemma stopping_ok l t t' : timer_ok t = true → stopping l t t' → timer_ok t' = true.
Proof. intros Ht. induction 1 as [|a l t t1 t2 _ Hs _ IH]; [done|]. apply IH. by eapply step_ok. Qed.

Lemma stopping_descends l t t' :
  timer_ok t = true → stopping l t t' →
  (length l + weight t' ≤ weight t + 3 * spurious l)%nat ∧ (runs t' + may_run t' ≤ runs t + may_run t)%nat.
Proof.
  intros Ht. induction 1 as [|a l t t1 t2 Hin Hs _ IH]; [cbn; lia|].
  destruct (step_descends a t t1 Ht Hin Hs) as [Hw Hr].
  destruct IH as [IHw IHr]; [by eapply step_ok|]. unfold spurious in *. cbn [length sum_list_with]. lia.
Qed.

Lemma once_weights l : (sum_list_with once_weight l ≤ 3 * length l)%nat.
Proof. induction l as [|o l IH]; cbn [sum_list_with length]; [lia|]. destruct o; cbn [once_weight]; lia. Qed.

Lemma weight_bound t :
  timer_ok t = true → in_stop t = true → (weight t ≤ 14 + 3 * length (onces t))%nat ∧ (may_run t ≤ 1)%nat.
Proof.
  intros Ht Hin. pose proof (once_weights (onces t)) as Ho. unfold weight, may_run.
  assert (Hc : (ctl_weight (stopStatus_ t) (ctl t) ≤ 7)%nat)
    by (destruct (ctl t); cbn [ctl_weight]; try destruct (stopStatus_ t); lia).
  destruct (one_worker t Ht) as [->|[w ->]]; [|destruct w]; cbn [sum_list_with worker_weight]; lia.
Qed.

(** A stop that goes on to its end returns with the thread gone. *)
Definition stopped (t : timer) : Prop :=
  ctl t = CIdle ∧ stopStatus_ t = true ∧ tryStopFlag_ t = false ∧ workers t = [].

Lemma step_leaves a t t' :
  timer_ok t = true → in_stop t = true → step a t = Some t' → in_stop t' = false → stopped t'.
Proof.
  intros Ht Hin Hs Hout. pose proof (step_ok a t t' Ht Hs) as Ht'.
  assert (Hc : ∃ d, ctl t = CStopUnlock d ∧ a = AContinue).
  { destruct a as [op| |i|i|]; cbn [step] in Hs.
    - unfold in_stop in Hin. by destruct (ctl t).
    - unfold continue in Hs. unfold in_stop in Hin, Hout. destruct (ctl t) eqn:Hc; try done; try (by eexists);
        repeat case_match; simplify_eq; cbn in *; done.
    - unfold worker_step in Hs. destruct (workers t !! i) as [w|]; [|done]. cbn [mbind option_bind] in Hs.
      unfold in_stop in *. destruct w; repeat case_match; simplify_eq; unfold notify in *; cbn in *;
        repeat case_match; simplify_eq; cbn in *; congruence.
    - unfold once_step in Hs. destruct (onces t !! i) as [o|]; [|done]. cbn [mbind option_bind] in Hs.
      unfold in_stop in *. destruct o; simplify_eq; cbn in *; congruence.
    - unfold in_stop in *. destruct (ctl t); simplify_eq; cbn in *; congruence. }
  destruct Hc as (d & Hc & ->). cbn [step] in Hs. unfold continue in Hs. rewrite Hc in Hs. injection Hs as <-.
  destruct t as [stop try mutex ws os c de r o]. cbn in *. subst c. unfold timer_ok, gone, stopped in *. cbn in *.
  destruct ws; by_cases; done.
Qed.

Lemma stopping_leaves l t t' :
  timer_ok t = true → in_stop t = true → stopping l t t' → in_stop t' = false → stopped t'.
Proof.
  intros Ht Hin Hl. revert Ht Hin. induction Hl as [t|a l t t1 t2 _ Hs Hl IH]; intros Ht Hin Hout; [congruence|].
  destruct (in_stop t1) eqn:Hin1; [apply IH; [by eapply step_ok|done..]|].
  inversion Hl; subst; [|congruence]. by eapply (step_leaves a t).
Qed.

Lemma stop_returned t :
  timer_ok t = true → ctl t = CIdle → stopStatus_ t = true → workers t = [] ∧ tryStopFlag_ t = false.
Proof.
  intros Ht Hc Hs. destruct (one_worker t Ht) as [Hw|[w Hw]]; rewrite Hw;
    destruct t as [stop try mutex ws os c de r o]; cbn in *; subst ws c stop;
    unfold timer_ok, before_lock, holding, gone in *; cbn in *; by_cases.
  all: done.
Qed.

(** ** The properties *)

(** C35. Termination of [Stop]. However the threads are scheduled, from the
    moment the stop is requested there are at most fourteen steps, three for
    each thread of [StartOnce] and three for each spurious wakeup, until it
    returns, and before it has returned some thread can go on; the repeated
    task is run once more at most. When it has returned, the timer is stopped,
    its thread is gone, and the timer can be started again. *)
Theorem timer_stop_terminates l t t' :
  reachable t → in_stop t = true → stopping l t t' →
  (length l ≤ 14 + 3 * length (onces t) + 3 * spurious l)%nat ∧
  (runs t' ≤ runs t + 1)%nat ∧
  (in_stop t' = true → ∃ a t'', a ≠ ASpurious ∧ step a t' = Some t'') ∧
  (in_stop t' = false → ctl t' = CIdle ∧ stopStatus_ t' = true ∧ tryStopFlag_ t' = false ∧ workers t' = []).
Proof.
  intros Ht%reachable_timer_ok Hin Hl. destruct (stopping_descends l t t' Ht Hl) as [Hw Hr].
  destruct (weight_bound t Ht Hin) as [Hb Hm]. pose proof (stopping_ok l t t' Ht Hl) as Ht'.
  split; [lia|]. split; [lia|]. split; [|by apply (stopping_leaves l t)].
  intros Hin'. destruct (in_stop_steps t' Ht' Hin') as (a & t'' & Ha & _ & Hs). by exists a, t''.
Qed.

(** Started, in its first sleep, and the stop requested. *)
Definition stop_requested : timer :=
  mkTimer false true false [WSleep] [] (CStopLock false) false 0 0.

Definition stop_schedule : list action :=
  [AContinue; AContinue; ASpurious; AContinue; AContinue; AWorker 0; AWorker 0; AWorker 0; AWorker 0; AWorker 0;
   AWorker 0; AWorker 0; AContinue; AContinue; AContinue; AContinue].

Lemma stop_requested_reachable : reachable stop_requested.
Proof.
  assert (Hr : ∀ l t t', reachable t → run l t = Some t' → reachable t').
  { induction l as [|a l IH]; intros t t' Ht; cbn [run]; [by intros [= <-]|].
    destruct (step a t) as [t1|] eqn:Es; [|done]. cbn [mbind option_bind]. apply IH. by eapply reach_step. }
  apply (Hr [ACall OpStart; AContinue; AContinue; AWorker 0; ACall OpStop; AContinue] construct);
    [constructor|vm_compute; reflexivity].
Qed.

Lemma timer_stop_terminates_witness :
  ∃ t', stopping stop_schedule stop_requested t' ∧ ctl t' = CIdle ∧ workers t' = [] ∧ runs t' = 1%nat.
Proof.
  assert (Hs : stopping stop_schedule stop_requested (mkTimer true false false [] [] CIdle false 1 0)).
  { apply stop_run_stopping. vm_compute. reflexivity. }
  eexists. split; [exact Hs|]. split; [reflexivity|]. split; [|reflexivity].
  destruct (timer_stop_terminates _ _ _ stop_requested_reachable eq_refl Hs) as (_ & _ & _ & Hw).
  by apply Hw.
Defined.

(** The repeated task and the destructor. In every reachable state there is
    at most one thread of [Start]; there is none when the timer is stopped and
    no call is running; and once the timer is destroyed no such thread is left
    that could use it. *)
Theorem timer_one_thread t :
  reachable t →
  (length (workers t) ≤ 1)%nat ∧
  (ctl t = CIdle → stopStatus_ t = true → workers t = []) ∧
  (destroyed t = true → workers t = [] ∧ ∀ i, touches (AWorker i) t = false).
Proof.
  intros Ht%reachable_timer_ok. split.
  { destruct (one_worker t Ht) as [->|[w ->]]; cbn; lia. }
  split; [intros Hc Hs; by apply stop_returned|]. intros Hd.
  assert (Hw : workers t = []).
  { apply stop_returned; [done|..]; destruct (one_worker t Ht) as [Hw|[w Hw]];
      destruct t as [stop try mutex ws os c de r o]; cbn in *; subst ws de;
      unfold timer_ok, before_lock, holding, gone in *; cbn in *; by_cases. }
  split; [done|]. intros i. cbn [touches]. by rewrite Hw.
Qed.

Lemma timer_one_thread_witness : (length (workers stop_requested) ≤ 1)%nat.
Proof. exact (proj1 (timer_one_thread stop_requested stop_requested_reachable)). Defined.

(** The thread of [StartOnce] is not waited for: it may read a member of a timer
    that is destroyed, and it runs its task after a stop. *)
Theorem once_outlives_timer :
  ∃ t, run [ACall OpStartOnce; ACall OpDestroy] construct = Some t ∧ destroyed t = true ∧
    touches (AOnce 0) t = true.
Proof. eexists. split; [reflexivity|]. by split. Qed.

Theorem once_runs_after_stop :
  ∃ t, run [ACall OpStartOnce; AOnce 0; ACall OpStop; AOnce 0; AOnce 0] construct = Some t ∧ once_runs t = 1%nat.
Proof. eexists. split; [reflexivity|]. done. Qed.

(** A copy of a timer that runs has the flags and no thread: a stop of the copy,
    which its destructor is, never returns. *)
Definition hanging (t : timer) : bool :=
  negb (stopStatus_ t) && match workers t with [] => true | _ => false end &&
  match ctl t with CStopSet _ | CStopLock _ | CStopTest _ | CStopWait _ | CStopWake _ => true | _ => false end.

Lemma step_hangs a t t' : hanging t = true → step a t = Some t' → hanging t' = true.
Proof.
  intros Hh. destruct a as [op| |i|i|]; cbn [step].
  - unfold hanging in Hh. destruct (ctl t); try done. by rewrite andb_false_r in Hh.
  - destruct t as [stop try mutex ws os c de r o]. unfold hanging in *. cbn in *.
    destruct stop, ws; try done. destruct c; try done; try destruct mutex; try done; by intros [= <-].
  - unfold worker_step, hanging in *. destruct (workers t); [done|]. by rewrite andb_false_r in Hh.
  - unfold once_step. destruct (onces t !! i) as [[]|]; [..|done]; intros [= <-]; exact Hh.
  - unfold hanging in *. destruct (ctl t) eqn:Hc; try done. intros [= <-]. cbn. by rewrite andb_true_r in *.
Qed.

Theorem copied_timer_never_stops op t l t' :
  stopStatus_ t = false → tryStopFlag_ t = false → op = OpStop ∨ op = OpDestroy →
  run (ACall op :: l) (copy t) = Some t' → ctl t' ≠ CIdle.
Proof.
  intros Hs Ht Hop Hr. assert (Hh : ∃ t1, hanging t1 = true ∧ run l t1 = Some t').
  { cbn [run step copy ctl destroyed mbind option_bind] in Hr. eexists. split; [|exact Hr].
    destruct Hop as [->| ->]; cbn [call]; unfold Stop, copy; cbn; by rewrite Hs, Ht. }
  destruct Hh as (t1 & Hh & Hr1). clear Hr. revert t1 Hh Hr1. induction l as [|a l IH]; intros t1 Hh; cbn [run].
  - intros [= ->]. intros Hc. unfold hanging in Hh. rewrite Hc in Hh. by rewrite andb_false_r in Hh.
  - destruct (step a t1) as [t2|] eqn:Es; [|done]. apply IH. by eapply step_hangs.
Qed.
