(* ===== verification/BlockingQueue.v ===== *)
(** * The blocking queue of the native daemon

    [prebuilts/librarys/netd/include/common/include/blocking_queue.h]: a ring of
    [capacity + 1] cells, a mutex and two condition variables. Any number of
    threads push and pop; a step is one statement of a method, with the mutex
    held or not as in the code, a call of [wait] gives the mutex back, and may
    end without a notification. *)

From S2P Require Import Prelude.

Section Queue.
Context {T : Type}.

(** ** The ring *)

(** The members that hold the elements; the indices are [unsigned int]. *)
Record blocking_queue := mkQueue {
  start_ : Z;
  end_ : Z;
  capacity_ : Z;
  vt_ : list T;
}.

(** The constructor; the cells hold [T()]. *)
Definition construct (dflt : T) (capacity : Z) : blocking_queue :=
  mkQueue 0 0 capacity (replicate (Z.to_nat (to_u 32 (capacity + 1))) dflt).

Definition isEmpty (q : blocking_queue) : bool := end_ q =? start_ q.

(** [a % b] of [unsigned int]; a division by zero is undefined. *)
Definition umod (a b : Z) : option Z := if b =? 0 then None else Some (a mod b).

Definition isFull (q : blocking_queue) : option bool :=
  d ← umod (to_u 32 (to_u 32 (start_ q + capacity_ q) - end_ q)) (to_u 32 (capacity_ q + 1)) ;
  Some (d =? 0).

(** [this->vt_[this->end_++] = e;] an index outside of the vector is undefined. *)
Definition store (e : T) (q : blocking_queue) : option blocking_queue :=
  _ ← vt_ q !! Z.to_nat (end_ q) ;
  Some (mkQueue (start_ q) (to_u 32 (end_ q + 1)) (capacity_ q) (<[Z.to_nat (end_ q) := e]> (vt_ q))).

(** [this->end_ %= (this->capacity_ + 1);] *)
Definition wrap_end (q : blocking_queue) : option blocking_queue :=
  e ← umod (end_ q) (to_u 32 (capacity_ q + 1)) ;
  Some (mkQueue (start_ q) e (capacity_ q) (vt_ q)).

(** [auto res = this->vt_[this->start_++];] *)
Definition take_first (q : blocking_queue) : option (T * blocking_queue) :=
  res ← vt_ q !! Z.to_nat (start_ q) ;
  Some (res, mkQueue (to_u 32 (start_ q + 1)) (end_ q) (capacity_ q) (vt_ q)).

(** [this->start_ %= (this->capacity_ + 1);] *)
Definition wrap_start (q : blocking_queue) : option blocking_queue :=
  s ← umod (start_ q) (to_u 32 (capacity_ q + 1)) ;
  Some (mkQueue s (end_ q) (capacity_ q) (vt_ q)).

(** ** The threads *)

Inductive op := Push (e : T) | Pop.

(** Where a thread is in the method it runs: about to take the mutex, at the
    test of the loop, in [wait], notified and about to take the mutex again, at
    the access to the cell, at the reduction of the index, at the notification,
    at the return. After the access of [pop] it has the element. *)
Inductive pc :=
  | Lock
  | Test
  | Wait
  | Wake
  | Access
  | Wrap (res : option T)
  | Notify (res : option T)
  | Return (res : option T).

(** A thread: the calls it still has to make, the running one first, where it is
    in that one, and what its calls of [pop] have returned. *)
Record thread := mkThread {
  todo : list op;
  at_ : pc;
  got : list T;
}.

(** The mutex with the thread that holds it. *)
Record world := mkWorld {
  queue : blocking_queue;
  mutex_ : option nat;
  threads : list thread;
}.

(** What a step adds to the history of the queue. *)
Inductive event := EvPush (i : nat) (e : T) | EvPop (i : nat) (v : T).

Inductive outcome := Blocked | Undefined | Next (w : world) (tr : list event).

Definition with_queue (q : blocking_queue) (w : world) : world := mkWorld q (mutex_ w) (threads w).
Definition with_mutex (m : option nat) (w : world) : world := mkWorld (queue w) m (threads w).
Definition with_threads (l : list thread) (w : world) : world := mkWorld (queue w) (mutex_ w) l.

Definition move (p : pc) (t : thread) : thread := mkThread (todo t) p (got t).

Definition goto (i : nat) (p : pc) (w : world) : world := with_threads (alter (move p) i (threads w)) w.

(** The end of the call: the mutex is given back by the destructor of [lock]. *)
Definition finish_call (res : option T) (t : thread) : thread :=
  mkThread (tail (todo t)) Lock (got t ++ option_list res).

Definition return_ (i : nat) (res : option T) (w : world) : world :=
  with_mutex None (with_threads (alter (finish_call res) i (threads w)) w).

(** [std::unique_lock<std::mutex> lock(this->mutex_);] *)
Definition acquire (i : nat) (w : world) : outcome :=
  match mutex_ w with
  | Some _ => Blocked
  | None => Next (goto i Test (with_mutex (Some i) w)) []
  end.

(** A condition variable, by the calls that wait on it. *)
Inductive cond := notFull_ | notEmpty_.

Definition waits_on (c : cond) (t : thread) : bool :=
  match at_ t, todo t, c with
  | Wait, Push _ :: _, notFull_ => true
  | Wait, Pop :: _, notEmpty_ => true
  | _, _, _ => false
  end.

(** [c.notify_one()] wakes the thread that the platform chooses among those that
    wait, if there is one. *)
Definition notify_one (c : cond) (choice : option nat) (w : world) : option world :=
  match choice with
  | Some j =>
    t ← threads w !! j ;
    if waits_on c t then Some (goto j Wake w) else None
  | None => if existsb (waits_on c) (threads w) then None else Some w
  end.

(** ** The methods *)

(** The step of thread [i] in [push(e)]. *)
Definition push (i : nat) (e : T) (p : pc) (choice : option nat) (w : world) : outcome :=
  match p with
  | Lock | Wake => acquire i w
  | Test =>
    match isFull (queue w) with
    | None => Undefined
    | Some true => Next (goto i Wait (with_mutex None w)) []
    | Some false => Next (goto i Access w) []
    end
  | Wait => Blocked
  | Access =>
    match store e (queue w) with
    | None => Undefined
    | Some q => Next (goto i (Wrap None) (with_queue q w)) [EvPush i e]
    end
  | Wrap res =>
    match wrap_end (queue w) with
    | None => Undefined
    | Some q => Next (goto i (Notify res) (with_queue q w)) []
    end
  | Notify res =>
    match notify_one notEmpty_ choice w with
    | None => Blocked
    | Some w => Next (goto i (Return res) w) []
    end
  | Return res => Next (return_ i res w) []
  end.

(** The step of thread [i] in [pop()]. *)
Definition pop (i : nat) (p : pc) (choice : option nat) (w : world) : outcome :=
  match p with
  | Lock | Wake => acquire i w
  | Test =>
    if isEmpty (queue w) then Next (goto i Wait (with_mutex None w)) []
    else Next (goto i Access w) []
  | Wait => Blocked
  | Access =>
    match take_first (queue w) with
    | None => Undefined
    | Some (res, q) => Next (goto i (Wrap (Some res)) (with_queue q w)) [EvPop i res]
    end
  | Wrap res =>
    match wrap_start (queue w) with
    | None => Undefined
    | Some q => Next (goto i (Notify res) (with_queue q w)) []
    end
  | Notify res =>
    match notify_one notFull_ choice w with
    | None => Blocked
    | Some w => Next (goto i (Return res) w) []
    end
  | Return res => Next (return_ i res w) []
  end.

(** ** The program *)

(** A step of a thread, with the choice of its notification, or the end of a
    [wait] that nobody asked for. *)
Inductive action := Step (i : nat) (choice : option nat) | Spurious (i : nat).

Definition step (a : action) (w : world) : outcome :=
  match a with
  | Step i choice =>
    match threads w !! i with
    | None => Blocked
    | Some t =>
      match todo t with
      | [] => Blocked
      | Push e :: _ => push i e (at_ t) choice w
      | Pop :: _ => pop i (at_ t) choice w
      end
    end
  | Spurious i =>
    match threads w !! i with
    | None => Blocked
    | Some t =>
      match at_ t with
      | Wait => Next (goto i Wake w) []
      | _ => Blocked
      end
    end
  end.

(** A sequence of steps, with the history of the queue. *)
Fixpoint run (l : list action) (w : world) : outcome :=
  match l with
  | [] => Next w []
  | a :: l =>
    match step a w with
    | Next w' tr =>
      match run l w' with
      | Next w'' tr' => Next w'' (tr ++ tr')
      | o => o
      end
    | o => o
    end
  end.

(** Threads that are to make the calls of [ps], and a queue nobody has used. *)
Definition program (dflt : T) (capacity : Z) (ps : list (list op)) : world :=
  mkWorld (construct dflt capacity) None ((λ p, mkThread p Lock []) <$> ps).

(** ** The specification: a list with a bound *)

Definition spec_step (capacity : Z) (ev : event) (l : list T) : list T → Prop :=
  λ l', match ev with
  | EvPush _ e => Z.of_nat (length l) < capacity ∧ l' = l ++ [e]
  | EvPop _ v => l = v :: l'
  end.

Inductive spec_run (capacity : Z) : list event → list T → list T → Prop :=
  | spec_nil l : spec_run capacity [] l l
  | spec_cons ev tr l l' l'' :
      spec_step capacity ev l l' → spec_run capacity tr l' l'' → spec_run capacity (ev :: tr) l l''.

(** The elements of the ring, the oldest first. *)
Definition contents (q : blocking_queue) : list T :=
  let n := capacity_ q + 1 in
  omap (λ k, vt_ q !! Z.to_nat ((start_ q + Z.of_nat k) mod n))
       (seq 0 (Z.to_nat ((end_ q - start_ q) mod n))).

(** The part of a thread in a history: its calls, and what they popped. *)
Definition calls_of (i : nat) (tr : list event) : list op :=
  omap (λ ev, match ev with
              | EvPush j e => if decide (i = j) then Some (Push e) else None
              | EvPop j _ => if decide (i = j) then Some Pop else None
              end) tr.

Definition popped_by (i : nat) (tr : list event) : list T :=
  omap (λ ev, match ev with
              | EvPush _ _ => None
              | EvPop j v => if decide (i = j) then Some v else None
              end) tr.

(** Everything pushed and popped, by any thread. *)
Definition pushed (tr : list event) : list T :=
  omap (λ ev, match ev with EvPush _ e => Some e | EvPop _ _ => None end) tr.

Definition popped (tr : list event) : list T :=
  omap (λ ev, match ev with EvPush _ _ => None | EvPop _ v => Some v end) tr.

(** The calls of a thread that have not accessed the ring yet, and the elements
    it has taken. *)
Definition remaining (t : thread) : list op :=
  match at_ t with Wrap _ | Notify _ | Return _ => tail (todo t) | _ => todo t end.

Definition taken (t : thread) : list T :=
  got t ++ match at_ t with Wrap r | Notify r | Return r => option_list r | _ => [] end.

End Queue.
Arguments op : clear implicits.
Arguments pc : clear implicits.
Arguments thread : clear implicits.
Arguments world : clear implicits.
Arguments event : clear implicits.
Arguments outcome : clear implicits.
Arguments blocking_queue : clear implicits.
