(* ===== verification/BlockingQueueProps.v ===== *)
(** * Properties of the blocking queue

    Any number of threads on one queue: the ring is a list with a bound, first
    in first out, and no notification is lost. *)

From S2P Require Import Prelude BlockingQueue.

Lemma omap_map {A B C} (f : B → option C) (g : A → B) l : omap f (map g l) = omap (λ x, f (g x)) l.
Proof. induction l as [|x l IH]; [done|]. cbn. by rewrite IH. Qed.

Lemma omap_pointwise {A B} (f g : A → option B) (l : list A) : (∀ x, f x = g x) → omap f l = omap g l.
Proof. intros Hfg. induction l as [|x l IH]; [done|]. cbn. by rewrite Hfg, IH. Qed.

Section Ring.
Context {T : Type}.
Implicit Types (q : blocking_queue T) (l : list T) (cap : Z).

(** ** The ring *)

(** The ring holds a list. An index may be at [capacity + 1], before it is
    reduced. *)
Record ring cap q l : Prop := {
  ring_capacity : capacity_ q = cap;
  ring_cells : length (vt_ q) = Z.to_nat (cap + 1);
  ring_start : 0 <= start_ q <= cap + 1;
  ring_end : 0 <= end_ q <= cap + 1;
  ring_count : (end_ q - start_ q) mod (cap + 1) = Z.of_nat (length l);
  ring_at k v : l !! k = Some v → vt_ q !! Z.to_nat ((start_ q + Z.of_nat k) mod (cap + 1)) = Some v;
}.

Lemma ring_bound cap q l : 0 <= cap → ring cap q l → Z.of_nat (length l) <= cap.
Proof. intros Hc Hr. pose proof (Z.mod_pos_bound (end_ q - start_ q) (cap + 1) ltac:(lia)). rewrite <- (ring_count _ _ _ Hr). lia. Qed.

Lemma ring_construct cap dflt : 0 <= cap < 2 ^ 31 → ring cap (construct dflt cap) [].
Proof.
  intros Hc. unfold construct. rewrite to_u_small by (unfold in_u; lia).
  split; cbn; try lia; [by rewrite length_replicate|by apply Z.mod_0_l; lia|done].
Qed.

Lemma ring_contents cap q l : 0 <= cap → ring cap q l → contents q = l.
Proof.
  intros Hc Hr. unfold contents. rewrite (ring_capacity _ _ _ Hr), (ring_count _ _ _ Hr), Nat2Z.id.
  pose proof (ring_at _ _ _ Hr) as Hl. clear Hr. revert Hl. generalize (start_ q) as s, (vt_ q) as c. clear q.
  induction l as [|v l IH]; intros s c Hl; [done|]. cbn [length seq omap list_omap].
  rewrite (Hl 0%nat v) by done. f_equal. rewrite <- seq_shift.
  transitivity (omap (λ k, c !! Z.to_nat ((s + 1 + Z.of_nat k) mod (cap + 1))) (seq 0 (length l))).
  - rewrite omap_map. apply omap_pointwise. intros k. do 3 f_equal. lia.
  - apply IH. intros k w Hk. rewrite <- (Hl (S k) w Hk). do 3 f_equal. lia.
Qed.

Lemma isEmpty_ring cap q l :
  0 <= cap → ring cap q l → start_ q <= cap → end_ q <= cap → isEmpty q = bool_decide (l = []).
Proof.
  intros Hc Hr Hs He. unfold isEmpty. pose proof (ring_count _ _ _ Hr) as Hn.
  destruct (ring_start _ _ _ Hr), (ring_end _ _ _ Hr). destruct (Z.eqb_spec (end_ q) (start_ q)) as [Heq|Hne].
  - rewrite bool_decide_true; [done|]. rewrite Heq, Z.sub_diag, Z.mod_0_l in Hn by lia. apply length_zero_iff_nil. lia.
  - rewrite bool_decide_false; [done|]. intros ->. cbn in Hn. apply Z.mod_divide in Hn as [k Hk]; [|lia].
    destruct (Z.lt_trichotomy k 0) as [|[|]]; nia.
Qed.

Lemma isFull_ring cap q l :
  0 <= cap < 2 ^ 31 → ring cap q l → start_ q <= cap → end_ q <= cap →
  isFull q = Some (bool_decide (Z.of_nat (length l) = cap)).
Proof.
  intros Hc Hr Hs He. pose proof (ring_count _ _ _ Hr) as Hn. pose proof (ring_bound cap _ _ ltac:(lia) Hr).
  destruct (ring_start _ _ _ Hr), (ring_end _ _ _ Hr). unfold isFull. rewrite (ring_capacity _ _ _ Hr).
  rewrite (to_u_small 32 (cap + 1)), (to_u_small 32 (start_ q + cap)), (to_u_small 32 (_ - _)) by (unfold in_u; lia).
  unfold umod. destruct (Z.eqb_spec (cap + 1) 0); [lia|]. cbn. do 2 f_equal.
  assert (Hm : (start_ q + cap - end_ q) mod (cap + 1) = cap - Z.of_nat (length l)).
  { symmetry. pose proof (Z.div_mod (end_ q - start_ q) (cap + 1) ltac:(lia)) as Hd.
    apply Z.mod_unique with (- ((end_ q - start_ q) / (cap + 1))); lia. }
  rewrite Hm. destruct (Z.eqb_spec (cap - Z.of_nat (length l)) 0); [rewrite bool_decide_true|rewrite bool_decide_false]; lia || done.
Qed.

Lemma store_ring cap q l e :
  0 <= cap < 2 ^ 31 → ring cap q l → end_ q <= cap → Z.of_nat (length l) < cap →
  ∃ q', store e q = Some q' ∧ ring cap q' (l ++ [e]) ∧ start_ q' = start_ q.
Proof.
  intros Hc Hr He Hl. destruct (ring_start _ _ _ Hr), (ring_end _ _ _ Hr). pose proof (ring_count _ _ _ Hr) as Hn.
  pose proof (ring_cells _ _ _ Hr) as Hv. unfold store.
  destruct (lookup_lt_is_Some_2 (vt_ q) (Z.to_nat (end_ q))) as [x Hx]; [lia|]. rewrite Hx. cbn.
  rewrite to_u_small by (unfold in_u; lia). eexists. split; [done|]. split; [|done].
  pose proof (Z.div_mod (end_ q - start_ q) (cap + 1) ltac:(lia)) as Hd.
  assert (Hend : (start_ q + Z.of_nat (length l)) mod (cap + 1) = end_ q).
  { symmetry. apply Z.mod_unique with (- ((end_ q - start_ q) / (cap + 1))); lia. }
  split; cbn [capacity_ vt_ start_ end_]; try lia; [by eapply ring_capacity|by rewrite length_insert|..].
  - rewrite length_app, Nat2Z.inj_add. cbn. symmetry.
    apply Z.mod_unique with ((end_ q - start_ q) / (cap + 1)); lia.
  - intros k v Hk. apply lookup_app_Some in Hk as [Hk|[Hk1 Hk2]].
    + rewrite list_lookup_insert_ne; [by apply (ring_at _ _ _ Hr)|]. apply lookup_lt_Some in Hk. intros Heq.
      apply (f_equal Z.of_nat) in Heq. rewrite !Z2Nat.id in Heq by (lia || apply Z.mod_pos_bound; lia).
      rewrite <- Hend in Heq. pose proof (Z.div_mod (start_ q + Z.of_nat k) (cap + 1) ltac:(lia)).
      pose proof (Z.div_mod (start_ q + Z.of_nat (length l)) (cap + 1) ltac:(lia)).
      assert (Hm : Z.of_nat (length l) - Z.of_nat k = (cap + 1) *
        ((start_ q + Z.of_nat (length l)) / (cap + 1) - (start_ q + Z.of_nat k) / (cap + 1))) by lia.
      revert Hm. generalize ((start_ q + Z.of_nat (length l)) / (cap + 1) - (start_ q + Z.of_nat k) / (cap + 1)) as d.
      intros d Hm. destruct (Z.lt_trichotomy d 0) as [|[|]]; nia.
    + apply list_lookup_singleton_Some in Hk2 as [Hk2 ->]. replace k with (length l) by lia. rewrite Hend.
      apply list_lookup_insert_eq. lia.
Qed.

Lemma wrap_end_ring cap q l :
  0 <= cap < 2 ^ 31 → ring cap q l →
  ∃ q', wrap_end q = Some q' ∧ ring cap q' l ∧ end_ q' <= cap ∧ start_ q' = start_ q.
Proof.
  intros Hc Hr. unfold wrap_end, umod. rewrite (ring_capacity _ _ _ Hr), to_u_small by (unfold in_u; lia).
  destruct (Z.eqb_spec (cap + 1) 0); [lia|]. cbn. eexists. split; [done|].
  pose proof (Z.mod_pos_bound (end_ q) (cap + 1) ltac:(lia)). split; [|cbn; lia].
  destruct Hr. split; cbn; try lia; try done. by rewrite Zminus_mod_idemp_l.
Qed.

Lemma take_first_ring cap q v l :
  0 <= cap < 2 ^ 31 → ring cap q (v :: l) → start_ q <= cap →
  ∃ q', take_first q = Some (v, q') ∧ ring cap q' l ∧ end_ q' = end_ q.
Proof.
  intros Hc Hr Hs. destruct (ring_start _ _ _ Hr), (ring_end _ _ _ Hr). pose proof (ring_count _ _ _ Hr) as Hn.
  pose proof (ring_at _ _ _ Hr 0 v eq_refl) as Hv. rewrite Z.add_0_r, Z.mod_small in Hv by lia.
  unfold take_first. rewrite Hv. cbn. rewrite to_u_small by (unfold in_u; lia).
  eexists. split; [done|]. split; [|done]. pose proof (ring_bound cap _ _ ltac:(lia) Hr) as Hb. cbn [length] in *.
  split; cbn [capacity_ vt_ start_ end_]; try lia; [by eapply ring_capacity|by eapply ring_cells|..].
  - pose proof (Z.div_mod (end_ q - start_ q) (cap + 1) ltac:(lia)). symmetry.
    apply Z.mod_unique with ((end_ q - start_ q) / (cap + 1)); lia.
  - intros k w Hk. rewrite <- (ring_at _ _ _ Hr (S k) w Hk). do 3 f_equal. lia.
Qed.

Lemma wrap_start_ring cap q l :
  0 <= cap < 2 ^ 31 → ring cap q l →
  ∃ q', wrap_start q = Some q' ∧ ring cap q' l ∧ start_ q' <= cap ∧ end_ q' = end_ q.
Proof.
  intros Hc Hr. unfold wrap_start, umod. rewrite (ring_capacity _ _ _ Hr), to_u_small by (unfold in_u; lia).
  destruct (Z.eqb_spec (cap + 1) 0); [lia|]. cbn. eexists. split; [done|].
  pose proof (Z.mod_pos_bound (start_ q) (cap + 1) ltac:(lia)). split; [|cbn; lia].
  destruct Hr. split; cbn; try lia; try done; [by rewrite Zminus_mod_idemp_r|].
  intros k v Hk. rewrite Zplus_mod_idemp_l. auto.
Qed.

End Ring.

(** ** The invariant *)

Section Threads.
Context {T : Type} (cap : Z).
Implicit Types (q : blocking_queue T) (l : list T) (t : thread T) (w : world T).

(** The indices are reduced. *)
Definition wrapped q : Prop := start_ q <= cap ∧ end_ q <= cap.

(** The points at which a thread holds the mutex. *)
Definition critical (p : pc T) : bool :=
  match p with Test | Access | Wrap _ | Notify _ | Return _ => true | Lock | Wait | Wake => false end.

(** What is known at each point. *)
Definition point_ok q l t : Prop :=
  match todo t, at_ t with
  | [], Lock | _ :: _, (Lock | Wait | Wake) => True
  | _ :: _, Test | Push _ :: _, (Notify None | Return None) | Pop :: _, (Notify (Some _) | Return (Some _)) => wrapped q
  | Push _ :: _, Access => wrapped q ∧ Z.of_nat (length l) < cap
  | Pop :: _, Access => wrapped q ∧ l ≠ []
  | Push _ :: _, Wrap None => start_ q <= cap
  | Pop :: _, Wrap (Some _) => end_ q <= cap
  | _, _ => False
  end.

Record queue_inv w l : Prop := {
  inv_ring : ring cap (queue w) l;
  inv_free : mutex_ w = None → wrapped (queue w);
  inv_point i t : threads w !! i = Some t → point_ok (queue w) l t;
  inv_mutex i t : threads w !! i = Some t → critical (at_ t) = bool_decide (mutex_ w = Some i);
  inv_owner i : mutex_ w = Some i → is_Some (threads w !! i);
}.

Lemma point_ok_outside q q' l l' t : critical (at_ t) = false → point_ok q l t → point_ok q' l' t.
Proof. unfold point_ok. destruct (todo t), (at_ t); done. Qed.

(** One thread moves while no other holds the mutex. *)
Lemma inv_update w l i t f q' l' m' :
  queue_inv w l → threads w !! i = Some t → (mutex_ w = None ∨ mutex_ w = Some i) →
  ring cap q' l' → point_ok q' l' (f t) →
  m' = (if critical (at_ (f t)) then Some i else None) → (m' = None → wrapped q') →
  queue_inv (mkWorld q' m' (alter f i (threads w))) l'.
Proof.
  intros Hw Hi Hm Hr Hp Hm' Hq. split; cbn [queue mutex_ threads]; [done|done|..].
  - intros j u Hj. destruct (decide (i = j)) as [<-|Hne].
    + rewrite list_lookup_alter_eq, Hi in Hj. by injection Hj as <-.
    + rewrite list_lookup_alter_ne in Hj by done. eapply point_ok_outside; [|by eapply inv_point].
      rewrite (inv_mutex _ _ Hw j u Hj). apply bool_decide_false. naive_solver.
  - intros j u Hj. destruct (decide (i = j)) as [<-|Hne].
    + rewrite list_lookup_alter_eq, Hi in Hj. injection Hj as <-. rewrite Hm'.
      destruct (critical (at_ (f t))); [by rewrite bool_decide_true|by rewrite bool_decide_false].
    + rewrite list_lookup_alter_ne in Hj by done. rewrite (inv_mutex _ _ Hw j u Hj).
      apply bool_decide_ext. rewrite Hm'. destruct (critical (at_ (f t))); naive_solver.
  - intros j ->. destruct (critical (at_ (f t))); [|done]. injection Hm' as ->.
    rewrite list_lookup_alter_eq, Hi. eauto.
Qed.

(** A thread that waits is woken. *)
Lemma inv_wake w l i t :
  queue_inv w l → threads w !! i = Some t → at_ t = Wait → queue_inv (goto i Wake w) l.
Proof.
  intros Hw Hi Ha. unfold goto, with_threads. split; cbn [queue mutex_ threads]; [apply Hw|apply Hw|..].
  - intros j u Hj. destruct (decide (i = j)) as [<-|Hne]; [|rewrite list_lookup_alter_ne in Hj by done; by eapply inv_point].
    rewrite list_lookup_alter_eq, Hi in Hj. injection Hj as <-. pose proof (inv_point _ _ Hw i t Hi) as Hp.
    unfold point_ok in *. rewrite Ha in Hp. cbn. by destruct (todo t).
  - intros j u Hj. destruct (decide (i = j)) as [<-|Hne]; [|rewrite list_lookup_alter_ne in Hj by done; by eapply inv_mutex].
    rewrite list_lookup_alter_eq, Hi in Hj. injection Hj as <-. rewrite <- (inv_mutex _ _ Hw i t Hi), Ha. done.
  - intros j Hj. destruct (inv_owner _ _ Hw j Hj) as [u Hu]. destruct (decide (i = j)) as [<-|Hne].
    + rewrite list_lookup_alter_eq, Hi. eauto.
    + rewrite list_lookup_alter_ne by done. eauto.
Qed.

Lemma waits_on_wait c t : waits_on c t = true → at_ t = Wait.
Proof. unfold waits_on. by destruct (at_ t). Qed.

(** A notification leaves everything but the woken thread, which is another. *)
Lemma notify_one_inv c choice w w' l i t :
  queue_inv w l → threads w !! i = Some t → at_ t ≠ Wait → notify_one c choice w = Some w' →
  queue_inv w' l ∧ threads w' !! i = Some t ∧ queue w' = queue w ∧ mutex_ w' = mutex_ w.
Proof.
  intros Hw Hi Ha. unfold notify_one. destruct choice as [j|].
  - destruct (threads w !! j) as [u|] eqn:Hj; [|done]. cbn. destruct (waits_on c u) eqn:Hu; [|done]. intros [= <-].
    apply waits_on_wait in Hu. split; [by eapply inv_wake|]. split; [|done]. unfold goto, with_threads. cbn.
    rewrite list_lookup_alter_ne; [done|]. intros <-. by simplify_eq.
  - destruct (existsb _ _); [done|]. by intros [= <-].
Qed.

Lemma acquire_inv i w l t :
  queue_inv w l → threads w !! i = Some t → todo t ≠ [] →
  match acquire i w with Blocked => True | Undefined => False | Next w' tr => tr = [] ∧ queue_inv w' l end.
Proof.
  intros Hw Hi Ht. unfold acquire. destruct (mutex_ w) eqn:Hm; [done|]. split; [done|].
  unfold goto, with_threads, with_mutex. cbn.
  apply inv_update with l t; [done|done|by left|apply Hw| |done|done].
  unfold point_ok. cbn. destruct (todo t) as [|[] ]; [done|by apply (inv_free _ _ Hw)..].
Qed.

(** What a step of a method promises. *)
Definition step_ok l (o : outcome T) : Prop :=
  match o with
  | Blocked => True
  | Undefined => False
  | Next w' tr => ∃ l', spec_run cap tr l l' ∧ queue_inv w' l'
  end.

Lemma acquire_step_ok i w l t : queue_inv w l → threads w !! i = Some t → todo t ≠ [] → step_ok l (acquire i w).
Proof.
  intros Hw Hi Ht. pose proof (acquire_inv i w l t Hw Hi Ht) as Ha. destruct (acquire i w) as [| |w' tr]; [done|done|].
  destruct Ha as [-> Ha]. exists l. split; [constructor|done].
Qed.

(** A point at which thread [i] holds the mutex. *)
Lemma holds w l i t : queue_inv w l → threads w !! i = Some t → critical (at_ t) = true → mutex_ w = Some i.
Proof. intros Hw Hi Hc. rewrite (inv_mutex _ _ Hw i t Hi) in Hc. by apply bool_decide_eq_true in Hc. Qed.

Lemma spec_one ev (l l' : list T) : spec_step cap ev l l' → spec_run cap [ev] l l'.
Proof. intros Hs. econstructor; [exact Hs|constructor]. Qed.

(** The step of thread [i] to the point [p]. *)
Lemma move_ok tr w w1 l i t p l' :
  queue_inv w l → threads w !! i = Some t → mutex_ w = Some i → threads w1 = threads w →
  spec_run cap tr l l' → ring cap (queue w1) l' → point_ok (queue w1) l' (move p t) →
  mutex_ w1 = (if critical p then Some i else None) → (mutex_ w1 = None → wrapped (queue w1)) →
  step_ok l (Next (goto i p w1) tr).
Proof.
  intros Hw Hi Hm Ht Hs Hr Hp Hm' Hq. exists l'. split; [done|]. unfold goto, with_threads. rewrite Ht.
  apply inv_update with l t; by try right.
Qed.

Lemma return_ok w l i t res :
  queue_inv w l → threads w !! i = Some t → mutex_ w = Some i → wrapped (queue w) →
  step_ok l (Next (return_ i res w) []).
Proof.
  intros Hw Hi Hm Hq. exists l. split; [constructor|]. unfold return_, with_threads, with_mutex. cbn.
  apply inv_update with l t; [done|done|by right|apply Hw| |done|done].
  unfold point_ok, finish_call. cbn. destruct (tail (todo t)) as [|[] ]; done.
Qed.

Lemma notify_ok c choice w l i t res :
  queue_inv w l → threads w !! i = Some t → mutex_ w = Some i → at_ t = Notify res → wrapped (queue w) →
  point_ok (queue w) l (move (Return res) t) →
  step_ok l (match notify_one c choice w with None => Blocked | Some w' => Next (goto i (Return res) w') [] end).
Proof.
  intros Hw Hi Hm Ha Hq Hp. destruct (notify_one c choice w) as [w'|] eqn:Hn; [|done].
  destruct (notify_one_inv c choice w w' l i t Hw Hi) as (Hw' & Hi' & Hq' & Hm'); [by rewrite Ha|done|].
  exists l. split; [constructor|]. rewrite Hm in Hm'. destruct w' as [q' m' th']. cbn in *. subst q' m'.
  unfold goto, with_threads. cbn. eapply inv_update with (w := mkWorld _ _ _); [exact Hw'|exact Hi'|by right|apply Hw|done|done|done].
Qed.

Context (Hcap : 0 <= cap < 2 ^ 31).

Lemma push_ok i e rest choice w l t :
  queue_inv w l → threads w !! i = Some t → todo t = Push e :: rest → step_ok l (push i e (at_ t) choice w).
Proof.
  intros Hw Hi Ht. pose proof (inv_point _ _ Hw i t Hi) as Hp. pose proof (inv_ring _ _ Hw) as Hr.
  pose proof (holds w l i t Hw Hi) as Hm. unfold point_ok in Hp. rewrite Ht in Hp.
  destruct (at_ t) as [| | | | |[|]|[|]|[|]] eqn:Ha; cbn [push]; try done; specialize (Hm eq_refl) || clear Hm.
  - eapply acquire_step_ok; [done..|]. by rewrite Ht.
  - destruct Hp as [Hs He]. rewrite (isFull_ring cap _ l) by done. case_bool_decide as Hf.
    + eapply move_ok with (l' := l); [done..|constructor|done| |done|first [done|by cbn; rewrite Hm] ]. unfold point_ok. cbn. by rewrite Ht.
    + eapply move_ok with (l' := l); [done..|constructor|done| |done|first [done|by cbn; rewrite Hm] ]. unfold point_ok. cbn. rewrite Ht.
      pose proof (ring_bound cap _ _ ltac:(lia) Hr). split; [done|lia].
  - eapply acquire_step_ok; [done..|]. by rewrite Ht.
  - destruct Hp as [[Hs He] Hl]. destruct (store_ring cap _ l e Hcap Hr He Hl) as (q' & -> & Hr' & Hs').
    eapply move_ok with (l' := l ++ [e]); [done..|by apply spec_one|done| |done|by cbn; rewrite Hm]. unfold point_ok. cbn. by rewrite Ht, Hs'.
  - destruct (wrap_end_ring cap _ l Hcap Hr) as (q' & -> & Hr' & He' & Hs').
    eapply move_ok with (l' := l); [done..|constructor|done| |done|first [done|by cbn; rewrite Hm] ]. unfold point_ok, wrapped. cbn. by rewrite Ht, Hs'.
  - eapply notify_ok; try done. unfold point_ok. cbn. by rewrite Ht.
  - by eapply return_ok.
Qed.

Lemma pop_ok i rest choice w l t :
  queue_inv w l → threads w !! i = Some t → todo t = Pop :: rest → step_ok l (pop i (at_ t) choice w).
Proof.
  intros Hw Hi Ht. pose proof (inv_point _ _ Hw i t Hi) as Hp. pose proof (inv_ring _ _ Hw) as Hr.
  pose proof (holds w l i t Hw Hi) as Hm. unfold point_ok in Hp. rewrite Ht in Hp.
  destruct (at_ t) as [| | | | |[|]|[|]|[|]] eqn:Ha; cbn [pop]; try done; specialize (Hm eq_refl) || clear Hm.
  - eapply acquire_step_ok; [done..|]. by rewrite Ht.
  - destruct Hp as [Hs He]. rewrite (isEmpty_ring cap _ l) by (done || lia). case_bool_decide as Hf.
    + eapply move_ok with (l' := l); [done..|constructor|done| |done|first [done|by cbn; rewrite Hm] ]. unfold point_ok. cbn. by rewrite Ht.
    + eapply move_ok with (l' := l); [done..|constructor|done| |done|first [done|by cbn; rewrite Hm] ]. unfold point_ok. cbn. by rewrite Ht.
  - eapply acquire_step_ok; [done..|]. by rewrite Ht.
  - destruct Hp as [[Hs He] Hl]. destruct l as [|v l]; [done|].
    destruct (take_first_ring cap _ v l Hcap Hr Hs) as (q' & -> & Hr' & He').
    eapply move_ok with (l' := l); [done..|by apply spec_one|done| |done|by cbn; rewrite Hm]. unfold point_ok. cbn. by rewrite Ht, He'.
  - destruct (wrap_start_ring cap _ l Hcap Hr) as (q' & -> & Hr' & Hs' & He').
    eapply move_ok with (l' := l); [done..|constructor|done| |done|first [done|by cbn; rewrite Hm] ]. unfold point_ok, wrapped. cbn. by rewrite Ht, He'.
  - eapply notify_ok; try done. unfold point_ok. cbn. by rewrite Ht.
  - by eapply return_ok.
Qed.

Lemma step_inv a w l : queue_inv w l → step_ok l (step a w).
Proof.
  intros Hw. destruct a as [i choice|i]; cbn [step]; destruct (threads w !! i) as [t|] eqn:Hi; try done.
  - destruct (todo t) as [|[e|] rest] eqn:Ht; [done|by eapply push_ok|by eapply pop_ok].
  - destruct (at_ t) eqn:Ha; try done. exists l. split; [constructor|]. by eapply inv_wake.
Qed.

Lemma spec_run_app tr tr' (l l' l'' : list T) : spec_run cap tr l l' → spec_run cap tr' l' l'' → spec_run cap (tr ++ tr') l l''.
Proof. induction 1; [done|]. intros. econstructor; [done|]. eauto. Qed.

Lemma run_inv acts w l : queue_inv w l → step_ok l (run acts w).
Proof.
  revert w l. induction acts as [|a acts IH]; intros w l Hw; cbn [run]; [exists l; split; [constructor|done]|].
  pose proof (step_inv a w l Hw) as Hs. destruct (step a w) as [| |w1 tr1]; [done|done|].
  destruct Hs as (l1 & Hs1 & Hw1). pose proof (IH w1 l1 Hw1) as Hr. destruct (run acts w1) as [| |w2 tr2]; [done|done|].
  destruct Hr as (l2 & Hs2 & Hw2). exists l2. split; [|done]. by eapply spec_run_app.
Qed.

Lemma program_inv dflt ps : queue_inv (program dflt cap ps) [].
Proof.
  unfold program. split; cbn [queue mutex_ threads]; [by apply ring_construct|cbn; unfold wrapped; cbn; lia|..|done].
  - intros i t Hi. apply list_lookup_fmap_Some in Hi as (p & -> & _). unfold point_ok. cbn. by destruct p as [|[] ].
  - intros i t Hi. apply list_lookup_fmap_Some in Hi as (p & -> & _). done.
Qed.

(** The elements of a history. *)
Lemma spec_run_fifo tr (l l' : list T) : spec_run cap tr l l' → l ++ pushed tr = popped tr ++ l'.
Proof.
  induction 1 as [l|ev tr l l1 l2 Hs _ IH]; [cbn; by rewrite app_nil_r|]. destruct ev as [i e|i v]; cbn in Hs.
  - destruct Hs as [_ ->]. change (l ++ e :: pushed tr = popped tr ++ l2). by rewrite <- IH, <- app_assoc.
  - subst l. change ((v :: l1) ++ pushed tr = v :: popped tr ++ l2). by rewrite <- IH.
Qed.

End Threads.

(** ** Threads and the history *)

Section History.
Context {T : Type}.
Implicit Types (t : thread T) (w : world T) (tr : list (event T)).

(** The calls of thread [i] in a history are those it has left behind, in the
    order of its program, and what they popped is what it has taken. *)
Definition follows (i : nat) tr t t' : Prop :=
  remaining t = calls_of i tr ++ remaining t' ∧ taken t' = taken t ++ popped_by i tr.

Lemma follows_nil i t t' : remaining t' = remaining t → taken t' = taken t → follows i [] t t'.
Proof. intros Hr Ht. split; [done|]. by rewrite Ht, app_nil_r. Qed.

Lemma calls_of_app i tr tr' : calls_of i (tr ++ tr') = calls_of i tr ++ calls_of i tr'.
Proof. apply omap_app. Qed.

Lemma popped_by_app i tr tr' : popped_by i (tr ++ tr') = popped_by i tr ++ popped_by i tr'.
Proof. apply omap_app. Qed.

Lemma follows_trans i tr tr' t1 t2 t3 : follows i tr t1 t2 → follows i tr' t2 t3 → follows i (tr ++ tr') t1 t3.
Proof.
  intros [Hr Ht] [Hr' Ht']. split; [by rewrite calls_of_app, <- app_assoc, <- Hr'|].
  by rewrite popped_by_app, app_assoc, <- Ht.
Qed.

(** The thread of an event. *)
Definition by_thread (j : nat) (ev : event T) : Prop := match ev with EvPush k _ | EvPop k _ => k = j end.

Lemma follows_other i j tr t : i ≠ j → Forall (by_thread j) tr → follows i tr t t.
Proof.
  intros Hij Htr. unfold follows. enough (calls_of i tr = [] ∧ popped_by i tr = []) as [-> ->] by by rewrite app_nil_r.
  induction Htr as [|ev tr Hev _ [IHc IHp]]; [done|]. unfold calls_of, popped_by in *.
  destruct ev as [k e|k v]; cbn in Hev |- *; subst k; by rewrite ?decide_False by done.
Qed.

(** The running call of a thread waits on [c], should it wait, and notifies the
    other. *)
Definition calls (c : cond) t : Prop :=
  match todo t, c with Push _ :: _, notFull_ | Pop :: _, notEmpty_ => True | _, _ => False end.

Definition other (c : cond) : cond := match c with notFull_ => notEmpty_ | notEmpty_ => notFull_ end.

(** The test of a loop on a ring. *)
Definition blocked (c : cond) (q : blocking_queue T) : Prop :=
  match c with notFull_ => isFull q = Some true | notEmpty_ => isEmpty q = true end.

(** The steps of thread [j] that change no other thread. *)
Inductive local (w : world T) (j : nat) (u : thread T) : list (event T) → thread T → Prop :=
  | local_lock c : at_ u = Lock ∨ at_ u = Wake → calls c u → local w j u [] (move Test u)
  | local_wait c : at_ u = Test → calls c u → blocked c (queue w) → local w j u [] (move Wait u)
  | local_pass c : at_ u = Test → calls c u → local w j u [] (move Access u)
  | local_store e rest : at_ u = Access → todo u = Push e :: rest → local w j u [EvPush j e] (move (Wrap None) u)
  | local_take v rest : at_ u = Access → todo u = Pop :: rest → local w j u [EvPop j v] (move (Wrap (Some v)) u)
  | local_wrap c res : at_ u = Wrap res → calls c u → local w j u [] (move (Notify res) u)
  | local_nobody c res :
      at_ u = Notify res → calls c u → existsb (waits_on (other c)) (threads w) = false → local w j u [] (move (Return res) u)
  | local_return c res : at_ u = Return res → calls c u → local w j u [] (finish_call res u).

(** The steps of the program, on its threads. *)
Inductive turn (w : world T) : action → list (event T) → list (thread T) → Prop :=
  | turn_local j u tr u' choice :
      threads w !! j = Some u → local w j u tr u' → turn w (Step j choice) tr (<[j := u']> (threads w))
  | turn_notify j u k v c res :
      threads w !! j = Some u → at_ u = Notify res → calls c u →
      threads w !! k = Some v → waits_on (other c) v = true → k ≠ j →
      turn w (Step j (Some k)) [] (<[j := move (Return res) u]> (<[k := move Wake v]> (threads w)))
  | turn_spurious k v :
      threads w !! k = Some v → at_ v = Wait → turn w (Spurious k) [] (<[k := move Wake v]> (threads w)).

Lemma alter_insert {A} (f : A → A) j (l : list A) u : l !! j = Some u → alter f j l = <[j := f u]> l.
Proof.
  intros Hj. apply list_eq. intros i. destruct (decide (j = i)) as [<-|Hij].
  - rewrite list_lookup_alter_eq, Hj, list_lookup_insert_eq; [done|by eapply lookup_lt_Some].
  - by rewrite list_lookup_alter_ne, list_lookup_insert_ne.
Qed.

Lemma goto_threads j u p (w w1 : world T) :
  threads w !! j = Some u → threads w1 = threads w → threads (goto j p w1) = <[j := move p u]> (threads w).
Proof. intros Hj Hw. unfold goto, with_threads. cbn. rewrite Hw. by apply alter_insert. Qed.

Lemma acquire_turn j u c w w' tr choice :
  threads w !! j = Some u → at_ u = Lock ∨ at_ u = Wake → calls c u → acquire j w = Next w' tr →
  turn w (Step j choice) tr (threads w').
Proof.
  intros Hj Hu Hc. unfold acquire. destruct (mutex_ w); [done|]. intros [= <- <-].
  rewrite (goto_threads j u Test w) by done. econstructor; [done|]. by econstructor.
Qed.

Lemma notify_turn j u c res w w' tr choice :
  threads w !! j = Some u → at_ u = Notify res → calls c u →
  match notify_one (other c) choice w with None => Blocked | Some w1 => Next (goto j (Return res) w1) [] end = Next w' tr →
  turn w (Step j choice) tr (threads w').
Proof.
  intros Hj Hu Hc. unfold notify_one. destruct choice as [k|].
  - destruct (threads w !! k) as [v|] eqn:Hk; [|done]. cbn. destruct (waits_on (other c) v) eqn:Hv; [|done]. intros [= <- <-].
    assert (Hkj : k ≠ j) by (intros ->; apply waits_on_wait in Hv; congruence).
    unfold goto, with_threads. cbn. rewrite (alter_insert _ k _ v), (alter_insert _ j _ u) by (by rewrite ?list_lookup_insert_ne).
    by econstructor.
  - destruct (existsb _ _) eqn:He; [done|]. intros [= <- <-]. rewrite (goto_threads j u (Return res) w) by done.
    econstructor; [done|]. by econstructor.
Qed.

(** A step that moves thread [j] to a point. *)
Ltac goes Hj u := intros [= <- <-]; rewrite (goto_threads _ u _ _ _ Hj) by done; eapply turn_local; [exact Hj|].

Lemma step_turn a w w' tr : step a w = Next w' tr → turn w a tr (threads w').
Proof.
  destruct a as [j choice|k]; cbn [step].
  - destruct (threads w !! j) as [u|] eqn:Hj; [|done]. destruct (todo u) as [|[e|] rest] eqn:Hu; [done|..].
    + assert (Hc : calls notFull_ u) by (unfold calls; by rewrite Hu).
      destruct (at_ u) as [| | | | |r|r|r] eqn:Ha; cbn [push]; try done; try (eapply acquire_turn; by eauto).
      * destruct (isFull (queue w)) as [[]|] eqn:Hf; [..|done]; goes Hj u; [by apply local_wait with notFull_|by eapply local_pass].
      * destruct (store e (queue w)); [|done]. goes Hj u. by eapply local_store.
      * destruct (wrap_end (queue w)); [|done]. goes Hj u. by eapply local_wrap.
      * by eapply (notify_turn j u notFull_).
      * intros [= <- <-]. cbn. rewrite (alter_insert _ j _ u) by done. eapply turn_local; [done|]. by eapply local_return.
    + assert (Hc : calls notEmpty_ u) by (unfold calls; by rewrite Hu).
      destruct (at_ u) as [| | | | |r|r|r] eqn:Ha; cbn [pop]; try done; try (eapply acquire_turn; by eauto).
      * destruct (isEmpty (queue w)) eqn:Hf; goes Hj u; [by apply local_wait with notEmpty_|by eapply local_pass].
      * destruct (take_first (queue w)) as [[v q]|]; [|done]. goes Hj u. by eapply local_take.
      * destruct (wrap_start (queue w)); [|done]. goes Hj u. by eapply local_wrap.
      * by eapply (notify_turn j u notEmpty_).
      * intros [= <- <-]. cbn. rewrite (alter_insert _ j _ u) by done. eapply turn_local; [done|]. by eapply local_return.
  - destruct (threads w !! k) as [v|] eqn:Hk; [|done]. destruct (at_ v) eqn:Ha; try done. intros [= <- <-].
    rewrite (goto_threads k v Wake w) by done. by constructor.
Qed.

Lemma local_follows w j u tr u' : local w j u tr u' → Forall (by_thread j) tr ∧ follows j tr u u'.
Proof.
  destruct 1 as [c [Ha|Ha] Hc|c Ha Hc|c Ha Hc|e rest Ha Hu|v rest Ha Hu|c res Ha Hc|c res Ha Hc|c res Ha Hc];
    (split; [by repeat constructor|]); split; unfold remaining, taken, calls_of, popped_by; cbn; rewrite Ha, ?Hu, ?decide_True by done;
    rewrite ?app_nil_r; done.
Qed.

Lemma wake_follows k v : at_ v = Wait → follows k [] v (move Wake v).
Proof. intros Ha. apply follows_nil; unfold remaining, taken; cbn; by rewrite Ha. Qed.

Lemma insert_follows j u u' tr (l : list (thread T)) i t :
  l !! j = Some u → follows j tr u u' → Forall (by_thread j) tr → l !! i = Some t →
  ∃ t', <[j := u']> l !! i = Some t' ∧ follows i tr t t'.
Proof.
  intros Hj Hf Htr Hi. destruct (decide (j = i)) as [->|Hij].
  - exists u'. rewrite list_lookup_insert_eq by by eapply lookup_lt_Some. by simplify_eq.
  - exists t. rewrite list_lookup_insert_ne by done. split; [done|]. by apply follows_other with j.
Qed.

Lemma turn_follows w a tr l i t :
  turn w a tr l → threads w !! i = Some t → ∃ t', l !! i = Some t' ∧ follows i tr t t'.
Proof.
  intros Ht Hi. destruct Ht as [j u tr u' choice Hj Hl|j u k v c res Hj Ha Hc Hk Hv Hkj|k v Hk Hv].
  - destruct (local_follows _ _ _ _ _ Hl). by eapply insert_follows.
  - apply waits_on_wait in Hv.
    destruct (insert_follows k v (move Wake v) [] (threads w) i t) as (t1 & Hi1 & Hf1); [done|by apply wake_follows|done..|].
    destruct (insert_follows j u (move (Return res) u) [] (<[k := move Wake v]> (threads w)) i t1) as (t2 & Hi2 & Hf2);
      [by rewrite list_lookup_insert_ne|apply follows_nil; unfold remaining, taken; cbn; by rewrite Ha|done..|].
    exists t2. split; [done|]. exact (follows_trans i [] [] t t1 t2 Hf1 Hf2).
  - eapply insert_follows; [done|by apply wake_follows|done..].
Qed.

Lemma run_follows acts w w' tr i t :
  run acts w = Next w' tr → threads w !! i = Some t → ∃ t', threads w' !! i = Some t' ∧ follows i tr t t'.
Proof.
  revert w tr t. induction acts as [|a acts IH]; intros w tr t; cbn [run].
  - intros [= -> <-] Hi. exists t. split; [done|by apply follows_nil].
  - destruct (step a w) as [| |w1 tr1] eqn:Hs; [done|done|]. destruct (run acts w1) as [| |w2 tr2] eqn:Hr; [done|done|].
    intros [= <- <-] Hi. destruct (turn_follows _ _ _ _ _ _ (step_turn _ _ _ _ Hs) Hi) as (t1 & Hi1 & Hf1).
    destruct (IH w1 tr2 t1 Hr Hi1) as (t2 & Hi2 & Hf2). exists t2. split; [done|]. by eapply follows_trans.
Qed.

Lemma turn_length w a tr l : turn w a tr l → length l = length (threads w).
Proof. by destruct 1; rewrite !length_insert. Qed.

Lemma run_length acts w w' tr : run acts w = Next w' tr → length (threads w') = length (threads w).
Proof.
  revert w tr. induction acts as [|a acts IH]; intros w tr; cbn [run]; [by intros [= -> _]|].
  destruct (step a w) as [| |w1 tr1] eqn:Hs; [done|done|]. destruct (run acts w1) as [| |w2 tr2] eqn:Hr; [done|done|].
  intros [= <- _]. rewrite (IH w1 tr2 Hr). eapply turn_length. by apply step_turn in Hs.
Qed.

(** Every thread of the end was there at the start. *)
Lemma run_back acts w w' tr i t' :
  run acts w = Next w' tr → threads w' !! i = Some t' → ∃ t, threads w !! i = Some t ∧ follows i tr t t'.
Proof.
  intros Hr Hi. destruct (lookup_lt_is_Some_2 (threads w) i) as [t Ht].
  { rewrite <- (run_length _ _ _ _ Hr). by eapply lookup_lt_Some. }
  destruct (run_follows _ _ _ _ i t Hr Ht) as (t1 & Hi1 & Hf). exists t. by simplify_eq.
Qed.

End History.

(** C25. On a queue of a capacity below 2^31, however the statements of any
    threads interleave, no index leaves the vector and nothing is divided by
    zero. What the threads push and pop happens on a list of at most [capacity]
    elements, first in first out: everything popped and then what the ring holds
    is everything pushed, in order. Every thread makes the calls of its program
    in order, and its calls of [pop] return the elements that it took. *)
Theorem queue_fifo {T} (dflt : T) cap ps acts (Hcap : 0 <= cap < 2 ^ 31) :
  match run acts (program dflt cap ps) with
  | Blocked => True
  | Undefined => False
  | Next w tr =>
    let l := contents (queue w) in
    spec_run cap tr [] l ∧ pushed tr = popped tr ++ l ∧ Z.of_nat (length l) <= cap ∧
    ∀ i p, ps !! i = Some p →
      ∃ t, threads w !! i = Some t ∧ p = calls_of i tr ++ remaining t ∧ taken t = popped_by i tr
  end.
Proof.
  pose proof (run_inv cap Hcap acts _ [] (program_inv cap Hcap dflt ps)) as Hr.
  destruct (run acts (program dflt cap ps)) as [| |w tr] eqn:Hs; [done|done|]. destruct Hr as (l & Hl & Hw). cbn.
  pose proof (inv_ring _ _ _ Hw) as Hq. rewrite (ring_contents cap _ l) by (lia || done).
  split; [done|]. split; [by apply spec_run_fifo in Hl|]. split; [by eapply ring_bound; [lia|]|].
  intros i p Hp. destruct (run_follows _ _ _ _ i (mkThread p Lock []) Hs) as (t & Ht & Hf & Hg);
    [cbn; by rewrite list_lookup_fmap, Hp|].
  exists t. split; [done|]. split; [exact Hf|exact Hg].
Qed.

(** A producer and a consumer on a queue of one element. *)
Definition two_threads : list (list (op Z)) := [[Push 1; Push 2]; [Pop; Pop]].

Definition one_by_one : list action :=
  [Step 1 None; Step 1 None] ++ replicate 4 (Step 0 None) ++ [Step 0 (Some 1%nat); Step 0 None; Step 0 None; Step 0 None]
  ++ [Step 1 None; Step 1 None; Step 1 None; Step 1 None; Step 1 (Some 0%nat); Step 1 None; Step 0 None].

Lemma queue_fifo_witness :
  0 <= 1 < 2 ^ 31 ∧
  ∃ w, run one_by_one (program 0 1 two_threads) = Next w [EvPush 0 1; EvPop 1 1] ∧
  (let l := contents (queue w) in
   spec_run 1 [EvPush 0 1; EvPop 1 1] [] l ∧ pushed [EvPush 0 1; EvPop 1 1] = popped [EvPush 0 1; EvPop 1 1] ++ l).
Proof.
  split; [lia|]. pose proof (queue_fifo 0 1 two_threads one_by_one ltac:(lia)) as Hf.
  destruct (run one_by_one (program 0 1 two_threads)) as [| |w tr] eqn:Hr.
  - vm_compute in Hr. discriminate.
  - destruct Hf.
  - exists w. destruct Hf as (Hs & Hp & _). assert (tr = [EvPush 0 1; EvPop 1 1]) as ->; [|done].
    vm_compute in Hr. by injection Hr as _ <-.
Defined.

(** ** No notification is lost *)

#[export] Instance cond_eq_dec : EqDecision cond.
Proof. solve_decision. Defined.

Section Progress.
Context {T : Type} (cap : Z).
Implicit Types (l : list T) (t u v : thread T) (w : world T).

(** A thread that is about to look at the queue on behalf of [c], or that is
    about to notify it. *)
Definition credit (c : cond) t : nat :=
  match todo t, at_ t, c with
  | Push _ :: _, (Wake | Test | Access), notFull_ | Pop :: _, (Wrap _ | Notify _), notFull_ => 1
  | Pop :: _, (Wake | Test | Access), notEmpty_ | Push _ :: _, (Wrap _ | Notify _), notEmpty_ => 1
  | _, _, _ => 0
  end.

(** How many of those that wait on [c] the queue could serve. *)
Definition level (c : cond) l : nat :=
  match c with notEmpty_ => length l | notFull_ => Z.to_nat cap - length l end.

(** Nobody waits, or somebody is under way for everything there is. *)
Definition served (n : nat) (c : cond) l (ths : list (thread T)) : Prop :=
  (∀ i t, ths !! i = Some t → waits_on c t = false) ∨ (level c l + n ≤ sum_list_with (credit c) ths)%nat.

Lemma served_insert c l l' n n' ths j u u' :
  ths !! j = Some u → served n c l ths →
  (level c l' + n' = 0)%nat ∨
  (level c l' + credit c u + n' ≤ level c l + credit c u' + n)%nat ∧ (waits_on c u' = true → waits_on c u = true) →
  served n' c l' (<[j := u']> ths).
Proof.
  intros Hj Hs [H0|[Hle Hw]]; [right; lia|]. pose proof (sum_insert (credit c) ths j u u' Hj) as Hsum.
  destruct Hs as [Hno|Hs]; [left|right; lia]. intros i t Hi. destruct (decide (j = i)) as [<-|Hij].
  - rewrite list_lookup_insert_eq in Hi by by eapply lookup_lt_Some. injection Hi as <-.
    destruct (waits_on c u') eqn:Hu'; [|done]. specialize (Hw eq_refl). by rewrite (Hno j u Hj) in Hw.
  - rewrite list_lookup_insert_ne in Hi by done. by eapply Hno.
Qed.

Lemma existsb_lookup {A} (f : A → bool) (ths : list A) i (t : A) : existsb f ths = false → ths !! i = Some t → f t = false.
Proof.
  intros Hf Hi. destruct (f t) eqn:Ht; [|done]. rewrite <- Hf. symmetry. apply existsb_exists.
  exists t. split; [|done]. apply list_elem_of_In. by eapply list_elem_of_lookup_2.
Qed.

Lemma spec_run_one ev (l l' : list T) : spec_run cap [ev] l l' → spec_step cap ev l l'.
Proof. inversion 1 as [|? ? ? ? ? Hs Hr]; subst. by inversion Hr; subst. Qed.

Lemma spec_run_none (l l' : list T) : spec_run cap [] l l' → l' = l.
Proof. by inversion 1. Qed.

(** What a thread holds when its loop sends it to wait. *)
Lemma blocked_level c w l i t :
  0 <= cap < 2 ^ 31 → queue_inv cap w l → threads w !! i = Some t → at_ t = Test → calls c t → blocked c (queue w) →
  level c l = 0%nat.
Proof.
  intros Hcap Hw Hi Ha Hc Hb. pose proof (inv_point _ _ _ Hw i t Hi) as Hp. pose proof (inv_ring _ _ _ Hw) as Hr.
  unfold point_ok, calls in Hp, Hc. rewrite Ha in Hp. destruct c, (todo t) as [|[] ]; try done; destruct Hp as [Hs He]; cbn in Hb |- *.
  - rewrite (isFull_ring cap _ l) in Hb by done. injection Hb as Hb%bool_decide_eq_true. lia.
  - rewrite (isEmpty_ring cap _ l) in Hb by (done || lia). apply bool_decide_eq_true in Hb. by subst.
Qed.

(** The cases of a thread by its running call and where it is. *)
Ltac by_call u Ha := unfold credit, waits_on, calls in *; cbn; rewrite ?Ha in *; destruct (todo u) as [|[] ]; try done.
Ltac balance := split; [cbn; lia|done].

Lemma local_served c w l l' j u tr u' :
  0 <= cap < 2 ^ 31 → queue_inv cap w l → threads w !! j = Some u → local w j u tr u' → spec_run cap tr l l' →
  served 0 c l (threads w) → served 0 c l' (<[j := u']> (threads w)).
Proof.
  intros Hcap Hw Hj Hl Hr Hs.
  destruct Hl as [c' [Ha|Ha] Hc|c' Ha Hc Hb|c' Ha Hc|e rest Ha Hu|v rest Ha Hu|c' res Ha Hc|c' res Ha Hc Hn|c' res Ha Hc];
    try apply spec_run_none in Hr as ->; try (eapply served_insert; [done|done|right]; by_call u Ha; destruct c, c'; try done; balance).
  - eapply served_insert; [done|done|]. destruct (decide (c = c')) as [->|Hne]; [left; rewrite (blocked_level c' w l j u); done|].
    right. by_call u Ha; destruct c, c'; try done; balance.
  - apply spec_run_one in Hr as [Hl ->]. eapply served_insert; [done|done|right]. unfold level. rewrite length_app.
    unfold credit, waits_on. rewrite Ha, Hu. destruct c; cbn; rewrite ?Hu; cbn; balance.
  - apply spec_run_one in Hr. cbn in Hr. subst l. eapply served_insert; [done|done|right].
    pose proof (ring_bound cap _ _ ltac:(lia) (inv_ring _ _ _ Hw)) as Hb. cbn [length] in Hb.
    unfold credit, waits_on. rewrite Ha, Hu. destruct c; cbn; rewrite ?Hu; cbn; balance.
  - destruct (decide (c = other c')) as [->|Hne].
    + left. intros i t Hi. destruct (decide (j = i)) as [<-|Hij].
      * rewrite list_lookup_insert_eq in Hi by by eapply lookup_lt_Some. injection Hi as <-. unfold waits_on. cbn. done.
      * rewrite list_lookup_insert_ne in Hi by done. by eapply existsb_lookup.
    + eapply served_insert; [done|done|right]. by_call u Ha; destruct c, c'; try done; balance.
Qed.

Lemma wake_credit c v : waits_on c v = true → credit c v = 0%nat ∧ credit c (move Wake v) = 1%nat.
Proof. intros Hv. unfold waits_on, credit in *. cbn. by destruct (at_ v), (todo v) as [|[] ], c. Qed.

Lemma wake_other c c' v : waits_on c v = true → c' ≠ c → credit c' (move Wake v) = credit c' v.
Proof. intros Hv Hne. unfold waits_on, credit in *. cbn. by destruct (at_ v), (todo v) as [|[] ], c, c'. Qed.

Lemma notify_credit c res u :
  at_ u = Notify res → calls c u →
  credit (other c) u = 1%nat ∧ credit c u = 0%nat ∧ ∀ c', credit c' (move (Return res) u) = 0%nat.
Proof.
  intros Ha Hc. unfold calls, credit in *. rewrite Ha. cbn. destruct (todo u) as [|[] ], c; cbn; try done; (split; [done|split; [done|by intros []]]).
Qed.

Lemma move_wait_free c p v : p ≠ Wait → waits_on c (move p v) = true → waits_on c v = true.
Proof. unfold waits_on. cbn. by destruct p. Qed.

Lemma spurious_served c l k v (ths : list (thread T)) :
  ths !! k = Some v → at_ v = Wait → served 0 c l ths → served 0 c l (<[k := move Wake v]> ths).
Proof.
  intros Hk Hv Hs. eapply served_insert; [done|done|right]. split; [|by apply move_wait_free].
  unfold credit. rewrite Hv. cbn. destruct (todo v) as [|[] ], c; lia.
Qed.

Lemma turn_served c w l l' a tr ths :
  0 <= cap < 2 ^ 31 → queue_inv cap w l → turn w a tr ths → spec_run cap tr l l' →
  served 0 c l (threads w) → served 0 c l' ths.
Proof.
  intros Hcap Hw Ht Hr Hs. destruct Ht as [j u tr u' choice Hj Hl|j u k v c0 res Hj Ha Hc Hk Hv Hkj|k v Hk Hv].
  - by eapply local_served.
  - apply spec_run_none in Hr as ->. destruct (notify_credit c0 res u Ha Hc) as (Hu1 & Hu2 & Hu').
    assert (Hj' : <[k := move Wake v]> (threads w) !! j = Some u) by by rewrite list_lookup_insert_ne.
    destruct (decide (c = other c0)) as [->|Hne].
    + destruct (wake_credit _ _ Hv) as [Hv0 Hv1].
      eapply served_insert with (n := 1%nat) (l := l); [done| |right; rewrite Hu1, Hu'; split; [lia|by apply move_wait_free] ].
      eapply served_insert; [done|done|right]. rewrite Hv0, Hv1. split; [lia|by apply move_wait_free].
    + assert (c = c0) as -> by (destruct c, c0; done).
      eapply served_insert with (n := 0%nat) (l := l); [done| |right; rewrite Hu2, Hu'; split; [lia|by apply move_wait_free] ].
      eapply served_insert; [done|done|right]. rewrite (wake_other _ c0 _ Hv) by done. split; [lia|by apply move_wait_free].
  - apply spec_run_none in Hr as ->. by eapply spurious_served.
Qed.

(** The invariant with the promise of both condition variables. *)
Definition live w l : Prop := queue_inv cap w l ∧ ∀ c, served 0 c l (threads w).

Lemma run_live acts w w' tr l :
  0 <= cap < 2 ^ 31 → run acts w = Next w' tr → live w l → ∃ l', spec_run cap tr l l' ∧ live w' l'.
Proof.
  intros Hcap. revert w tr l. induction acts as [|a acts IH]; intros w tr l; cbn [run].
  - intros [= -> <-] Hl. exists l. split; [constructor|done].
  - destruct (step a w) as [| |w1 tr1] eqn:Hs; [done|done|]. destruct (run acts w1) as [| |w2 tr2] eqn:Hr; [done|done|].
    intros [= <- <-] [Hw Hc]. pose proof (step_inv cap Hcap a w l Hw) as Hok. rewrite Hs in Hok.
    destruct Hok as (l1 & Hs1 & Hw1). destruct (IH w1 tr2 l1 Hr) as (l2 & Hs2 & Hl2).
    { split; [done|]. intros c. eapply turn_served; [done|exact Hw|by apply step_turn|done|apply Hc]. }
    exists l2. split; [by eapply spec_run_app|done].
Qed.

Lemma program_live dflt ps : 0 <= cap < 2 ^ 31 → live (program dflt cap ps) [].
Proof.
  intros Hcap. split; [by apply program_inv|]. intros c. left. intros i t Hi. cbn in Hi.
  apply list_lookup_fmap_Some in Hi as (p & -> & _). done.
Qed.

(** ** Every run comes to an end *)

Definition point_weight (p : pc T) : nat :=
  match p with
  | Lock | Wake => 20 | Test => 19 | Access => 14 | Wrap _ => 13 | Notify _ => 12 | Wait => 11 | Return _ => 1
  end.

Definition thread_weight t : nat :=
  match todo t with [] => 0 | _ :: rest => 20 * length rest + point_weight (at_ t) end.

Definition is_spurious (a : action) : nat := match a with Spurious _ => 1 | _ => 0 end.

Definition spurious (l : list action) : nat := sum_list_with is_spurious l.

Lemma local_weight w j u tr u' : local w j u tr u' → (thread_weight u' < thread_weight u)%nat.
Proof.
  destruct 1 as [c [Ha|Ha] Hc|c Ha Hc|c Ha Hc|e rest Ha Hu|v rest Ha Hu|c res Ha Hc|c res Ha Hc|c res Ha Hc];
    unfold thread_weight, calls in *; cbn; rewrite Ha, ?Hu; try (destruct (todo u); [done|]; cbn; lia); [cbn; lia..|].
  destruct (todo u) as [|o [|o' rest] ]; [done|cbn; lia..].
Qed.

Lemma wake_weight v : at_ v = Wait → (thread_weight (move Wake v) ≤ thread_weight v + 9)%nat.
Proof. intros Hv. unfold thread_weight. cbn. rewrite Hv. destruct (todo v); cbn; lia. Qed.

Lemma turn_weight w a tr ths :
  turn w a tr ths →
  (sum_list_with thread_weight ths + 1 ≤ sum_list_with thread_weight (threads w) + 10 * is_spurious a)%nat.
Proof.
  destruct 1 as [j u tr u' choice Hj Hl|j u k v c0 res Hj Ha Hc Hk Hv Hkj|k v Hk Hv]; cbn [is_spurious].
  - pose proof (sum_insert thread_weight _ j u u' Hj). pose proof (local_weight _ _ _ _ _ Hl). lia.
  - pose proof (sum_insert thread_weight _ k v (move Wake v) Hk). apply waits_on_wait, wake_weight in Hv.
    pose proof (sum_insert thread_weight (<[k := move Wake v]> (threads w)) j u (move (Return res) u)
      ltac:(by rewrite list_lookup_insert_ne)) as Hsum.
    assert (Hu : (thread_weight (move (Return res) u) + 11 ≤ thread_weight u)%nat).
    { unfold thread_weight, calls in *. cbn. rewrite Ha. destruct (todo u); [done|]. cbn. lia. }
    lia.
  - pose proof (sum_insert thread_weight _ k v (move Wake v) Hk). apply wake_weight in Hv. lia.
Qed.

Lemma run_weight acts w w' tr :
  run acts w = Next w' tr →
  (length acts + sum_list_with thread_weight (threads w') ≤ sum_list_with thread_weight (threads w) + 10 * spurious acts)%nat.
Proof.
  revert w tr. induction acts as [|a acts IH]; intros w tr; cbn [run]; [intros [= -> <-]; cbn; lia|].
  destruct (step a w) as [| |w1 tr1] eqn:Hs; [done|done|]. destruct (run acts w1) as [| |w2 tr2] eqn:Hr; [done|done|].
  intros [= <- <-]. apply IH in Hr. apply step_turn, turn_weight in Hs. unfold spurious in *. cbn [length sum_list_with]. lia.
Qed.

Definition total_calls (ps : list (list (op T))) : nat := sum_list_with length ps.

Lemma program_weight dflt ps : sum_list_with thread_weight (threads (program dflt cap ps)) = (20 * total_calls ps)%nat.
Proof.
  unfold total_calls. cbn. induction ps as [|p ps IH]; [done|]. cbn. rewrite IH.
  unfold thread_weight. cbn. destruct p; cbn; lia.
Qed.

(** ** Where a run ends *)

(** No thread can make a step by itself. *)
Definition stuck w : Prop := ∀ i choice, step (Step i choice) w = Blocked.

Lemma notify_one_can c w : ∃ choice w', notify_one c choice w = Some w'.
Proof.
  destruct (existsb (waits_on c) (threads w)) eqn:He; [|exists None; unfold notify_one; rewrite He; eauto].
  apply existsb_exists in He as (t & Hin & Ht). apply list_elem_of_In, list_elem_of_lookup_1 in Hin as [k Hk].
  exists (Some k). unfold notify_one. rewrite Hk. cbn. rewrite Ht. eauto.
Qed.

Lemma critical_moves w l i t :
  queue_inv cap w l → threads w !! i = Some t → critical (at_ t) = true → ∃ choice, step (Step i choice) w ≠ Blocked.
Proof.
  intros Hw Hi Hc. pose proof (inv_point _ _ _ Hw i t Hi) as Hp. unfold point_ok in Hp. cbn [step]. rewrite Hi.
  destruct (todo t) as [|[e|] rest]; destruct (at_ t) as [| | | | |r|r|r]; try done; cbn [push pop].
  - exists None. destruct (isFull (queue w)) as [[]|]; done.
  - exists None. by destruct (store e (queue w)).
  - exists None. by destruct (wrap_end (queue w)).
  - destruct (notify_one_can notEmpty_ w) as (choice & w' & Hn). exists choice. by rewrite Hn.
  - by exists None.
  - exists None. by destruct (isEmpty (queue w)).
  - exists None. by destruct (take_first (queue w)) as [[]|].
  - exists None. by destruct (wrap_start (queue w)).
  - destruct (notify_one_can notFull_ w) as (choice & w' & Hn). exists choice. by rewrite Hn.
  - by exists None.
Qed.

(** A thread that has made all of its calls, or waits in one. *)
Lemma stuck_thread w l i t :
  queue_inv cap w l → stuck w → threads w !! i = Some t → todo t = [] ∨ ∃ c, waits_on c t = true.
Proof.
  intros Hw Hs Hi. destruct (critical (at_ t)) eqn:Hc.
  { destruct (critical_moves w l i t Hw Hi Hc) as [choice Hm]. by rewrite Hs in Hm. }
  assert (Hm : mutex_ w = None).
  { destruct (mutex_ w) as [k|] eqn:Hm; [|done]. destruct (inv_owner _ _ _ Hw k Hm) as [u Hu].
    pose proof (inv_mutex _ _ _ Hw k u Hu) as Hk. rewrite bool_decide_true in Hk by done.
    destruct (critical_moves w l k u Hw Hu Hk) as [choice Hn]. by rewrite Hs in Hn. }
  pose proof (Hs i None) as Hb. cbn [step] in Hb. rewrite Hi in Hb. unfold waits_on.
  destruct (todo t) as [|[e|] rest]; [by left|right..]; destruct (at_ t); try done; cbn [push pop] in Hb;
    unfold acquire in Hb; rewrite ?Hm in Hb; try done; [by exists notFull_|by exists notEmpty_].
Qed.

Lemma stuck_level w l c i t :
  live w l → stuck w → threads w !! i = Some t → waits_on c t = true → level c l = 0%nat.
Proof.
  intros [Hw Hl] Hs Hi Ht. destruct (Hl c) as [Hno|Hle]; [by rewrite (Hno i t Hi) in Ht|].
  enough (sum_list_with (credit c) (threads w) = 0%nat) by lia.
  assert (H0 : ∀ u, u ∈ threads w → credit c u = 0%nat).
  { intros u [k Hk]%list_elem_of_lookup_1. destruct (stuck_thread w l k u Hw Hs Hk) as [Hu|[c' Hu] ]; unfold credit.
    - by rewrite Hu.
    - apply waits_on_wait in Hu. rewrite Hu. destruct (todo u) as [|[] ], c; done. }
  clear - H0. induction (threads w) as [|u ths IH]; [done|]. cbn. rewrite (H0 u) by left. apply IH. intros v Hv. apply H0. by right.
Qed.

(** All calls are made. *)
Definition all_done w : Prop := ∀ i t, threads w !! i = Some t → todo t = [].

(** All calls are made, but for those that wait on [c]. *)
Definition all_wait (c : cond) w : Prop := ∀ i t, threads w !! i = Some t → todo t = [] ∨ waits_on c t = true.

Lemma stuck_cases w l :
  0 < cap → live w l → stuck w →
  all_done w ∨ (l = [] ∧ all_wait notEmpty_ w) ∨ (Z.of_nat (length l) = cap ∧ all_wait notFull_ w).
Proof.
  intros Hcap Hl Hs. pose proof (ring_bound cap _ _ ltac:(lia) (inv_ring _ _ _ (proj1 Hl))) as Hb.
  destruct (existsb (waits_on notEmpty_) (threads w)) eqn:He; [|destruct (existsb (waits_on notFull_) (threads w)) eqn:Hf].
  - right. left. apply existsb_exists in He as (t & Hin & Ht). apply list_elem_of_In, list_elem_of_lookup_1 in Hin as [k Hk].
    pose proof (stuck_level w l _ k t Hl Hs Hk Ht) as H0. cbn in H0. apply length_zero_iff_nil in H0 as ->. split; [done|].
    intros i u Hi. destruct (stuck_thread w [] i u (proj1 Hl) Hs Hi) as [Hu|[[] Hu] ]; [by left| |by right].
    pose proof (stuck_level w [] _ i u Hl Hs Hi Hu) as H1. cbn in H1. lia.
  - right. right. apply existsb_exists in Hf as (t & Hin & Ht). apply list_elem_of_In, list_elem_of_lookup_1 in Hin as [k Hk].
    pose proof (stuck_level w l _ k t Hl Hs Hk Ht) as H0. cbn in H0. split; [lia|].
    intros i u Hi. destruct (stuck_thread w l i u (proj1 Hl) Hs Hi) as [Hu|[[] Hu] ]; [by left|by right|].
    by rewrite (existsb_lookup _ _ _ _ He Hi) in Hu.
  - left. intros i u Hi. destruct (stuck_thread w l i u (proj1 Hl) Hs Hi) as [Hu|[[] Hu] ]; [done|..].
    + by rewrite (existsb_lookup _ _ _ _ Hf Hi) in Hu.
    + by rewrite (existsb_lookup _ _ _ _ He Hi) in Hu.
Qed.

End Progress.

(** ** Counting the calls *)

Section Counts.
Context {T : Type}.
Implicit Types (t u v : thread T) (w : world T) (p : list (op T)).

Definition is_push (o : op T) : nat := match o with Push _ => 1 | Pop => 0 end.
Definition is_pop (o : op T) : nat := match o with Push _ => 0 | Pop => 1 end.

(** How many calls of a kind there are in some programs, and how many of them
    are left in some threads. *)
Definition count (k : op T → nat) (ps : list (list (op T))) : nat := sum_list_with (sum_list_with k) ps.

Definition left_in (k : op T → nat) (ths : list (thread T)) : nat := sum_list_with (λ t, sum_list_with k (remaining t)) ths.

Lemma sum_list_app {A} (f : A → nat) l l' : sum_list_with f (l ++ l') = (sum_list_with f l + sum_list_with f l')%nat.
Proof. induction l as [|x l IH]; [done|]. cbn. rewrite IH. lia. Qed.

Lemma calls_of_count j tr :
  Forall (by_thread j) tr →
  sum_list_with is_push (calls_of j tr) = length (pushed tr) ∧ sum_list_with is_pop (calls_of j tr) = length (popped tr).
Proof.
  unfold calls_of, pushed, popped. induction 1 as [|ev tr Hev _ [IHu IHo] ]; [done|].
  destruct ev as [k e|k v]; cbn in Hev |- *; subst k; rewrite decide_True by done; cbn; lia.
Qed.

Lemma turn_left w a tr ths :
  turn w a tr ths →
  left_in is_push (threads w) = (length (pushed tr) + left_in is_push ths)%nat ∧
  left_in is_pop (threads w) = (length (popped tr) + left_in is_pop ths)%nat.
Proof.
  assert (Hstep : ∀ j u tr u' (l : list (thread T)), l !! j = Some u → Forall (by_thread j) tr → follows j tr u u' →
    left_in is_push l = (length (pushed tr) + left_in is_push (<[j := u']> l))%nat ∧
    left_in is_pop l = (length (popped tr) + left_in is_pop (<[j := u']> l))%nat).
  { intros j u tr' u' l Hj Htr [Hr _]. destruct (calls_of_count j tr' Htr) as [Hu Ho]. unfold left_in.
    pose proof (sum_insert (λ t, sum_list_with is_push (remaining t)) l j u u' Hj) as Hsu.
    pose proof (sum_insert (λ t, sum_list_with is_pop (remaining t)) l j u u' Hj) as Hso.
    cbn beta in Hsu, Hso. rewrite Hr, !sum_list_app in Hsu, Hso. lia. }
  destruct 1 as [j u tr u' choice Hj Hl|j u k v c res Hj Ha Hc Hk Hv Hkj|k v Hk Hv].
  - destruct (local_follows _ _ _ _ _ Hl). by eapply Hstep.
  - apply waits_on_wait in Hv. destruct (Hstep k v [] (move Wake v) (threads w)) as [-> ->]; [done|done|by apply wake_follows|].
    destruct (Hstep j u [] (move (Return res) u) (<[k := move Wake v]> (threads w))) as [-> ->];
      [by rewrite list_lookup_insert_ne|done|apply follows_nil; unfold remaining, taken; cbn; by rewrite Ha|done].
  - eapply Hstep; [done|done|by apply wake_follows].
Qed.

Lemma run_left acts w w' tr :
  run acts w = Next w' tr →
  left_in is_push (threads w) = (length (pushed tr) + left_in is_push (threads w'))%nat ∧
  left_in is_pop (threads w) = (length (popped tr) + left_in is_pop (threads w'))%nat.
Proof.
  revert w tr. induction acts as [|a acts IH]; intros w tr; cbn [run]; [by intros [= -> <-]|].
  destruct (step a w) as [| |w1 tr1] eqn:Hs; [done|done|]. destruct (run acts w1) as [| |w2 tr2] eqn:Hr; [done|done|].
  intros [= <- <-]. apply IH in Hr. apply step_turn, turn_left in Hs. unfold pushed, popped in *. rewrite !omap_app, !length_app. lia.
Qed.

Lemma program_left k cap dflt ps : left_in k (threads (program dflt cap ps)) = count k ps.
Proof. unfold left_in, count. cbn. induction ps as [|p ps IH]; [done|]. cbn. by rewrite IH. Qed.

(** A program that only pushes, or only pops. *)
Definition one_kind p : Prop := sum_list_with is_push p = 0%nat ∨ sum_list_with is_pop p = 0%nat.

Lemma sum_zero {A} (f : A → nat) l : sum_list_with f l = 0%nat ↔ ∀ i x, l !! i = Some x → f x = 0%nat.
Proof.
  split.
  - intros Hs i x Hi. revert i Hi. induction l as [|y l IH]; intros [|i] Hi; cbn in *; [done|done|injection Hi as ->; lia|].
    apply (IH ltac:(lia) i Hi).
  - intros Hf. induction l as [|y l IH]; [done|]. cbn. rewrite (Hf 0%nat y eq_refl), IH; [done|]. intros i. apply (Hf (S i)).
Qed.

Definition is_call (c : cond) : op T → nat := match c with notFull_ => is_push | notEmpty_ => is_pop end.

(** Where all that is left waits on [c] and every thread is of one kind, no call
    of the other kind is left; and if none of this kind is, everything is done. *)
Lemma waiting_left c w :
  all_wait c w → (∀ i t, threads w !! i = Some t → one_kind (remaining t)) →
  left_in (is_call (other c)) (threads w) = 0%nat ∧ (left_in (is_call c) (threads w) = 0%nat → all_done w).
Proof.
  intros Hc Hk.
  assert (Ht : ∀ i t, threads w !! i = Some t → todo t = [] ∧ remaining t = [] ∨
    sum_list_with (is_call (other c)) (remaining t) = 0%nat ∧ sum_list_with (is_call c) (remaining t) ≠ 0%nat).
  { intros i t Hi. destruct (Hc i t Hi) as [Ht|Hw]; [left|right].
    - split; [done|]. unfold remaining. rewrite Ht. by destruct (at_ t).
    - pose proof (waits_on_wait _ _ Hw) as Ha. pose proof (Hk i t Hi) as Hone. unfold waits_on, one_kind, remaining in *.
      rewrite Ha in *. destruct (todo t) as [|[e|] rest], c; try done; cbn in Hone |- *; lia. }
  unfold left_in. split.
  - apply sum_zero. intros i t Hi. destruct (Ht i t Hi) as [[_ ->]|[H0 _] ]; done.
  - rewrite sum_zero. intros H0 i t Hi. destruct (Ht i t Hi) as [[Hd _]|[_ H1] ]; [done|]. by rewrite (H0 i t Hi) in H1.
Qed.

Lemma one_kind_suffix p p' : one_kind (p ++ p') → one_kind p'.
Proof. unfold one_kind. rewrite !sum_list_app. lia. Qed.

End Counts.

(** C24. No notification is lost. Every run, whatever the platform chooses to
    wake, has at most 20 steps for each call and 10 for each wake-up that nobody
    asked for. Where no thread can go on, either all calls have returned, or the
    queue is empty and every call that is left is a [pop] in its wait, or it is
    full and every call that is left is a waiting [push]. So threads that each
    only push or only pop make all of their calls, if there are as many pops as
    pushes, or fewer by at most the capacity. *)
Theorem queue_progress {T} (dflt : T) cap ps acts w tr
    (Hcap : 0 < cap < 2 ^ 31) (Hrun : run acts (program dflt cap ps) = Next w tr) :
  (length acts ≤ 20 * total_calls ps + 10 * spurious acts)%nat ∧
  (stuck w →
    all_done w ∨ (contents (queue w) = [] ∧ all_wait notEmpty_ w) ∨
    (Z.of_nat (length (contents (queue w))) = cap ∧ all_wait notFull_ w)) ∧
  (stuck w → Forall one_kind ps →
    Z.of_nat (count is_pop ps) <= Z.of_nat (count is_push ps) <= Z.of_nat (count is_pop ps) + cap → all_done w).
Proof.
  destruct (run_live cap acts _ w tr [] ltac:(lia) Hrun (program_live cap dflt ps ltac:(lia))) as (l & Hs & Hl).
  pose proof (ring_contents cap _ l ltac:(lia) (inv_ring _ _ _ (proj1 Hl))) as Hc. rewrite Hc.
  split; [pose proof (run_weight _ _ _ _ Hrun) as Hw; rewrite program_weight in Hw; lia|].
  split; [intros Hst; by eapply stuck_cases; [lia|..]|]. intros Hst Hone Hn.
  pose proof (run_left _ _ _ _ Hrun) as Hleft. rewrite !program_left in Hleft.
  apply spec_run_fifo, (f_equal length) in Hs. rewrite !length_app in Hs. cbn in Hs.
  assert (Hk : ∀ i t, threads w !! i = Some t → one_kind (remaining t)).
  { intros i t Hi. destruct (run_back _ _ _ _ i t Hrun Hi) as (t0 & Hi0 & Hf & _). cbn in Hi0.
    apply list_lookup_fmap_Some in Hi0 as (p & -> & Hp). rewrite Forall_lookup in Hone. specialize (Hone i p Hp).
    change (p = calls_of i tr ++ remaining t) in Hf. subst p. by eapply one_kind_suffix. }
  destruct (stuck_cases cap w l ltac:(lia) Hl Hst) as [Hd|[[-> Hd]|[Hlen Hd] ] ]; [done|..];
    destruct (waiting_left _ w Hd Hk) as [H0 H1]; apply H1; cbn in *; lia.
Qed.

(** The run of the two threads up to the end. *)
Definition both_return : list action :=
  one_by_one ++ replicate 5 (Step 0 None) ++ replicate 6 (Step 1 None).

Lemma queue_progress_witness :
  0 < 1 < 2 ^ 31 ∧
  ∃ w, run both_return (program 0 1 two_threads) = Next w [EvPush 0 1; EvPop 1 1; EvPush 0 2; EvPop 1 2] ∧
    stuck w ∧ all_done w.
Proof.
  split; [lia|]. eexists. split; [vm_compute; reflexivity|]. 
  match goal with |- stuck ?w ∧ _ => assert (Hs : stuck w) by (intros [|[|i]] choice; reflexivity) end.
  split; [exact Hs|].
  refine (proj2 (proj2 (queue_progress 0 1 two_threads both_return _ _ ltac:(lia) ltac:(vm_compute; reflexivity))) Hs _ _).
  - apply Forall_cons. split; [by right|]. apply Forall_cons. split; [by left|constructor].
  - cbn. lia.
Defined.

(** ** Capacities that do not work *)

(** A queue of no capacity is full and empty: everybody waits. *)
Lemma no_capacity (d : Z) : isEmpty (construct d 0) = true ∧ isFull (construct d 0) = Some true.
Proof. done. Qed.

(** From 2^31 on the sum in [isFull] overflows: a ring with one element passes
    for full. *)
Lemma large_capacity (l : list Z) : isFull (mkQueue (2 ^ 31) 0 (2 ^ 31) l) = Some true ∧ (0 - 2 ^ 31) mod (2 ^ 31 + 1) = 1.
Proof. done. Qed.

(** At 2^32 - 1 there are no cells, and the test divides by zero. *)
Lemma largest_capacity (d : Z) :
  vt_ (construct d (2 ^ 32 - 1)) = [] ∧ isFull (construct d (2 ^ 32 - 1)) = None.
Proof. done. Qed.
