(* ===== verification/NetUtils.v ===== *)
(** * Addresses and descriptors of the native daemon

    [prebuilts/librarys/netd/include/common/include/net_utils.h]: the data of an
    address, a prefix and a socket address with their orders, their way into the
    memory of a [sockaddr_storage] and back, and the owner of a descriptor. The
    functions that the header only declares are the interface [NetUtilsLib]. *)

From S2P Require Import Prelude.

(** ** Numbers in memory *)

(** The order in which the machine keeps the bytes of a number. *)
Class ByteOrder := little_endian : bool.

Section Order.
Context `{ByteOrder}.

Definition load (bs : list Z) : Z := le_value (if little_endian then bs else rev bs).

Definition store (n : nat) (x : Z) : list Z :=
  if little_endian then le_bytes n x else rev (le_bytes n x).

(** The number whose bytes are those of [x], the highest first; and back. *)
Definition hton (n : nat) (x : Z) : Z := load (rev (le_bytes n x)).

Definition ntoh (n : nat) (x : Z) : Z := be_value (store n x).

Definition htons : Z → Z := hton 2.
Definition ntohs : Z → Z := ntoh 2.
Definition ntohl : Z → Z := ntoh 4.

End Order.

(** [memcmp]: the sign of the first difference. *)
Fixpoint memcmp (a b : list Z) : Z :=
  match a, b with
  | x :: a, y :: b => if x =? y then memcmp a b else Z.sgn (x - y)
  | _, _ => 0
  end.

(** ** The data of an address *)

(** [<sys/socket.h>] of Linux. *)
Definition AF_UNSPEC : Z := 0.
Definition AF_INET : Z := 2.
Definition AF_INET6 : Z := 10.

Definition IPV4_ADDR_LEN : nat := 4.
Definition IPV4_ADDR_BITS : Z := 32.
Definition IPV6_ADDR_LEN : nat := 16.
Definition IPV6_ADDR_BITS : Z := 128.

(** [ip] is the memory of the union: all of it is [v6], its start is [v4]. *)
Record compact_ipdata := mkIpdata {
  family : Z;
  cidrlen : Z;
  port : Z;
  scope_id : Z;
  ip : list Z;
}.

Definition ip_v4 (d : compact_ipdata) : list Z := take IPV4_ADDR_LEN (ip d).
Definition ip_v6 (d : compact_ipdata) : list Z := take IPV6_ADDR_LEN (ip d).

(** The initialisers of the members. *)
Definition ipdata : compact_ipdata := mkIpdata AF_UNSPEC 0 0 0 (replicate IPV6_ADDR_LEN 0).

Definition set_cidrlen (x : Z) (d : compact_ipdata) : compact_ipdata := mkIpdata (family d) x (port d) (scope_id d) (ip d).
Definition set_port (x : Z) (d : compact_ipdata) : compact_ipdata := mkIpdata (family d) (cidrlen d) x (scope_id d) (ip d).
Definition set_scope_id (x : Z) (d : compact_ipdata) : compact_ipdata := mkIpdata (family d) (cidrlen d) (port d) x (ip d).

Module CompactIpdata.
Section CompactIpdata.
Context `{ByteOrder}.

Definition eqb (a b : compact_ipdata) : bool :=
  if negb (family a =? family b) || negb (cidrlen a =? cidrlen b) || negb (port a =? port b) || negb (scope_id a =? scope_id b)
  then false
  else if family a =? AF_UNSPEC then true
  else if family a =? AF_INET then load (ip_v4 a) =? load (ip_v4 b)
  else if family a =? AF_INET6 then bool_decide (ip_v6 a = ip_v6 b)
  else false.

Definition neqb (a b : compact_ipdata) : bool := negb (eqb a b).

(** What is compared after the families and the addresses. *)
Definition ltb_rest (a b : compact_ipdata) : bool :=
  if negb (cidrlen a =? cidrlen b) then cidrlen a <? cidrlen b
  else if negb (port a =? port b) then port a <? port b
  else scope_id a <? scope_id b.

Definition ltb (a b : compact_ipdata) : bool :=
  if negb (family a =? family b) then family a <? family b
  else if family a =? AF_INET then
    if negb (load (ip_v4 a) =? load (ip_v4 b)) then ntohl (load (ip_v4 a)) <? ntohl (load (ip_v4 b)) else ltb_rest a b
  else if family a =? AF_INET6 then
    let cmp := memcmp (ip_v6 a) (ip_v6 b) in
    if negb (cmp =? 0) then cmp <? 0 else ltb_rest a b
  else ltb_rest a b.

End CompactIpdata.
End CompactIpdata.

(** [IN6_IS_ADDR_LINKLOCAL] and [IN6_IS_ADDR_MC_LINKLOCAL] of [<netinet/in.h>]. *)
Definition is_linklocal (v6 : list Z) : bool :=
  match v6 with b0 :: b1 :: _ => (b0 =? 254) && (Z.land b1 192 =? 128) | _ => false end.

Definition is_mc_linklocal (v6 : list Z) : bool :=
  match v6 with b0 :: b1 :: _ => (b0 =? 255) && (Z.land b1 15 =? 2) | _ => false end.

Definition usesScopedIds (v6 : list Z) : bool := is_linklocal v6 || is_mc_linklocal v6.

(** ** The classes *)

(** The only member of the three classes is their data. *)
Record ip_address := mkAddress { address_data : compact_ipdata }.
Record ip_prefix := mkPrefix { prefix_data : compact_ipdata }.
Record ip_sock_addr := mkSockAddr { sock_data : compact_ipdata }.

(** What net_utils.h declares and the prebuilt library defines: the constructors
    from [in_addr] and from [in6_addr] with a scope, the prefix of a length, and
    the parser, which may write the address it is given. *)
Class NetUtilsLib := {
  ip_of_v4 : list Z → ip_address;
  ip_of_v6 : list Z → Z → ip_address;
  prefix_of_length : ip_address → Z → ip_prefix;
  parse_ip : string → ip_address → bool * ip_address;
  parse_prefix : string → ip_prefix → bool * ip_prefix;
}.

Module IpAddress.
Section IpAddress.
Context `{ByteOrder}.

Definition construct : ip_address := mkAddress ipdata.

Definition forString `{NetUtilsLib} (repr : string) : ip_address :=
  let (ok, ip) := parse_ip repr construct in
  if negb ok then construct else ip.

Definition family (a : ip_address) : Z := NetUtils.family (address_data a).
Definition scope_id (a : ip_address) : Z := NetUtils.scope_id (address_data a).

(** [ip_address(const ip_address &ip, uint32_t scope_id)] *)
Definition with_scope (a : ip_address) (scope : Z) : ip_address :=
  let d := address_data a in
  mkAddress (set_scope_id (if (family a =? AF_INET6) && usesScopedIds (ip_v6 d) then scope else 0) d).

(** [ip_address(const compact_ipdata &ipdata)] *)
Definition of_ipdata (ipdata : compact_ipdata) : ip_address :=
  let d := set_port 0 ipdata in
  mkAddress
    (if NetUtils.family d =? AF_INET then set_scope_id 0 (set_cidrlen IPV4_ADDR_BITS d)
     else if NetUtils.family d =? AF_INET6 then
       let d := set_cidrlen IPV6_ADDR_BITS d in
       if usesScopedIds (ip_v6 ipdata) then set_scope_id (NetUtils.scope_id ipdata) d else d
     else set_scope_id 0 (set_cidrlen 0 d)).

Definition eqb (a b : ip_address) : bool := CompactIpdata.eqb (address_data a) (address_data b).
Definition neqb (a b : ip_address) : bool := CompactIpdata.neqb (address_data a) (address_data b).
Definition ltb (a b : ip_address) : bool := CompactIpdata.ltb (address_data a) (address_data b).
Definition gtb (a b : ip_address) : bool := CompactIpdata.ltb (address_data b) (address_data a).
Definition leb (a b : ip_address) : bool := ltb a b || eqb a b.
Definition geb (a b : ip_address) : bool := ltb b a || eqb a b.

End IpAddress.
End IpAddress.

Module IpPrefix.
Section IpPrefix.
Context `{ByteOrder}.

Definition construct : ip_prefix := mkPrefix ipdata.

Definition forString `{NetUtilsLib} (repr : string) : ip_prefix :=
  let (ok, prefix) := parse_prefix repr construct in
  if negb ok then construct else prefix.

(** [ip_prefix(const ip_address &ip)] *)
Definition of_ip (a : ip_address) : ip_prefix := mkPrefix (address_data a).

Definition family (p : ip_prefix) : Z := NetUtils.family (prefix_data p).
Definition ip (p : ip_prefix) : ip_address := IpAddress.of_ipdata (prefix_data p).
Definition addr4 (p : ip_prefix) : list Z := ip_v4 (prefix_data p).
Definition addr6 (p : ip_prefix) : list Z := ip_v6 (prefix_data p).
Definition length (p : ip_prefix) : Z := cidrlen (prefix_data p).

Definition eqb (a b : ip_prefix) : bool := CompactIpdata.eqb (prefix_data a) (prefix_data b).
Definition neqb (a b : ip_prefix) : bool := CompactIpdata.neqb (prefix_data a) (prefix_data b).
Definition ltb (a b : ip_prefix) : bool := CompactIpdata.ltb (prefix_data a) (prefix_data b).
Definition gtb (a b : ip_prefix) : bool := CompactIpdata.ltb (prefix_data b) (prefix_data a).
Definition leb (a b : ip_prefix) : bool := ltb a b || eqb a b.
Definition geb (a b : ip_prefix) : bool := ltb b a || eqb a b.

End IpPrefix.
End IpPrefix.

(** ** Socket addresses in memory *)

(** A write to the memory of an object. *)
Definition write_at (mem : list Z) (off : nat) (bs : list Z) : list Z :=
  take off mem ++ bs ++ drop (off + length bs) mem.

(** [sizeof] of [sockaddr_in], [sockaddr_in6] and [sockaddr_storage]. *)
Definition SIZE_IN : Z := 16.
Definition SIZE_IN6 : Z := 28.
Definition SIZE_STORAGE : nat := 128.

Module IpSockAddr.
Section IpSockAddr.
Context `{ByteOrder} `{NetUtilsLib}.

Definition construct : ip_sock_addr := mkSockAddr ipdata.

(** [ip_sock_addr(const ip_address &ip)] and [ip_sock_addr(const ip_address &ip,
    in_port_t port)] *)
Definition of_ip (a : ip_address) : ip_sock_addr := mkSockAddr (address_data a).

Definition of_ip_port (a : ip_address) (port : Z) : ip_sock_addr := mkSockAddr (set_port port (address_data a)).

(** [ip_sock_addr(const sockaddr_in &)]: [sin_port] is at offset 2, [sin_addr] at
    offset 4. *)
Definition of_sockaddr_in (mem : list Z) : option ip_sock_addr :=
  addr ← bytes_at mem 4 4 ;
  port ← bytes_at mem 2 2 ;
  Some (of_ip_port (ip_of_v4 addr) (ntohs (load port))).

(** [ip_sock_addr(const sockaddr_in6 &)]: [sin6_port] is at offset 2, [sin6_addr]
    at offset 8, [sin6_scope_id] at offset 24. *)
Definition of_sockaddr_in6 (mem : list Z) : option ip_sock_addr :=
  addr ← bytes_at mem 8 16 ;
  scope ← bytes_at mem 24 4 ;
  port ← bytes_at mem 2 2 ;
  Some (of_ip_port (ip_of_v6 addr (load scope)) (ntohs (load port))).

(** [toIPSockAddr(const std::string &, in_port_t)] *)
Definition toIPSockAddr_string (repr : string) (port : Z) : ip_sock_addr := of_ip_port (IpAddress.forString repr) port.

(** [toIPSockAddr(const sockaddr &)] *)
Definition toIPSockAddr (sa : list Z) : option ip_sock_addr :=
  f ← bytes_at sa 0 2 ;
  if load f =? AF_INET then of_sockaddr_in sa
  else if load f =? AF_INET6 then of_sockaddr_in6 sa
  else Some construct.

(** [toIPSockAddr(const sockaddr_storage &)] *)
Definition toIPSockAddr_storage (ss : list Z) : option ip_sock_addr := toIPSockAddr ss.

Definition family (a : ip_sock_addr) : Z := NetUtils.family (sock_data a).
Definition ip (a : ip_sock_addr) : ip_address := IpAddress.of_ipdata (sock_data a).
Definition port (a : ip_sock_addr) : Z := NetUtils.port (sock_data a).

(** [operator sockaddr_storage()]; [ss] is what the memory of the local variable
    holds before. *)
Definition to_sockaddr_storage (ss : list Z) (a : ip_sock_addr) : list Z :=
  let d := sock_data a in
  let ss := write_at ss 0 (store 2 (NetUtils.family d)) in
  if NetUtils.family d =? AF_INET then
    let ss := write_at ss 4 (ip_v4 d) in
    write_at ss 2 (store 2 (htons (NetUtils.port d)))
  else if NetUtils.family d =? AF_INET6 then
    let ss := write_at ss 8 (ip_v6 d) in
    let ss := write_at ss 2 (store 2 (htons (NetUtils.port d))) in
    write_at ss 24 (store 4 (scope_id d))
  else ss.

Definition eqb (a b : ip_sock_addr) : bool := CompactIpdata.eqb (sock_data a) (sock_data b).
Definition neqb (a b : ip_sock_addr) : bool := CompactIpdata.neqb (sock_data a) (sock_data b).
Definition ltb (a b : ip_sock_addr) : bool := CompactIpdata.ltb (sock_data a) (sock_data b).
Definition gtb (a b : ip_sock_addr) : bool := CompactIpdata.ltb (sock_data b) (sock_data a).
Definition leb (a b : ip_sock_addr) : bool := ltb a b || eqb a b.
Definition geb (a b : ip_sock_addr) : bool := ltb b a || eqb a b.

End IpSockAddr.
End IpSockAddr.

(** [sock_addr_utils::sockaddrSize]; [None] is a null pointer. *)
Definition sockaddrSize `{ByteOrder} (sa : option (list Z)) : option Z :=
  match sa with
  | None => Some 0
  | Some sa =>
    f ← bytes_at sa 0 2 ;
    Some (if load f =? AF_INET then SIZE_IN else if load f =? AF_INET6 then SIZE_IN6 else 0)
  end.

(** ** The owner of a descriptor *)

Record fd_wrapper := mkFd { fd_ : Z }.

(** A method returns the calls of [close] that it makes, in order. *)
Module FdWrapper.

(** [fd_wrapper()] *)
Definition construct : fd_wrapper := mkFd (-1).

Definition reset (newFd : Z) (w : fd_wrapper) : fd_wrapper * list Z :=
  (mkFd newFd, if negb (fd_ w =? -1) then [fd_ w] else []).

(** [fd_wrapper(const int fd)] *)
Definition of_fd (fd : Z) : fd_wrapper * list Z := reset fd construct.

(** [~fd_wrapper()] *)
Definition destruct (w : fd_wrapper) : list Z := snd (reset (-1) w).

Definition getFd (w : fd_wrapper) : Z := fd_ w.

(** The comparisons with a number and with another owner. *)
Definition geb (w : fd_wrapper) (rhs : Z) : bool := rhs <=? getFd w.
Definition ltb (w : fd_wrapper) (rhs : Z) : bool := getFd w <? rhs.
Definition eqb (w : fd_wrapper) (rhs : Z) : bool := getFd w =? rhs.
Definition neqb (w : fd_wrapper) (rhs : Z) : bool := negb (getFd w =? rhs).
Definition same (w rhs : fd_wrapper) : bool := getFd w =? getFd rhs.
Definition differs (w rhs : fd_wrapper) : bool := negb (getFd w =? getFd rhs).

End FdWrapper.
