(* ===== verification/NetUtilsProps.v ===== *)
(** * Properties of addresses and descriptors

    The comparisons of net_utils.h are a total order on the families that exist,
    and a socket address survives its way through memory. *)

From S2P Require Import Prelude NetUtils.

(** ** Numbers in memory *)

Lemma le_value_app bs b : le_value (bs ++ [b]) = le_value bs + b * 256 ^ Z.of_nat (length bs).
Proof.
  induction bs as [|x bs IH]; [cbn; lia|]. cbn [app le_value length]. rewrite IH, Nat2Z.inj_succ, Z.pow_succ_r by lia. lia.
Qed.

Lemma be_value_cons b bs : be_value (b :: bs) = b * 256 ^ Z.of_nat (length bs) + be_value bs.
Proof. unfold be_value. cbn [rev]. rewrite le_value_app, length_rev. lia. Qed.

Lemma bytes_rev bs : bytes bs → bytes (rev bs).
Proof. unfold bytes. rewrite rev_alt. apply Forall_reverse. Qed.

Lemma be_value_range bs : bytes bs → 0 <= be_value bs < 256 ^ Z.of_nat (length bs).
Proof.
  intros Hb%bytes_rev%le_value_range. unfold in_u in Hb. rewrite length_rev in Hb.
  unfold be_value. rewrite Z.pow_mul_r in Hb by lia. exact Hb.
Qed.

Lemma memcmp_value a b : bytes a → bytes b → length a = length b → memcmp a b = Z.sgn (be_value a - be_value b).
Proof.
  unfold bytes. intros Ha. revert b. induction Ha as [|x a Hx Ha IH]; intros [|y b] Hb Hl; try done. inversion_clear Hb as [|? ? Hy Hb'].
  injection Hl as Hl. rewrite !be_value_cons, Hl. cbn [memcmp]. pose proof (be_value_range a Ha). pose proof (be_value_range b Hb').
  rewrite Hl in *. assert (0 < 256 ^ Z.of_nat (length b)) by (apply Z.pow_pos_nonneg; lia).
  destruct (Z.eqb_spec x y) as [->|Hne]; [rewrite (IH b) by done; f_equal; lia|].
  destruct (Z.lt_trichotomy x y) as [|[|]]; [|done|].
  - rewrite !Z.sgn_neg; [done|nia|lia].
  - rewrite !Z.sgn_pos; [done|nia|lia].
Qed.

Section Order.
Context `{ByteOrder}.

Lemma store_length n x : length (store n x) = n.
Proof. unfold store. destruct little_endian; rewrite ?length_rev; apply le_bytes_length. Qed.

Lemma store_bytes n x : bytes (store n x).
Proof. unfold store. destruct little_endian; [|apply bytes_rev]; apply le_bytes_bytes. Qed.

Lemma load_store n x : in_u (8 * Z.of_nat n) x → load (store n x) = x.
Proof. intros Hx. unfold load, store. destruct little_endian; rewrite ?rev_involutive; by apply le_value_bytes. Qed.

Lemma store_load bs : bytes bs → store (length bs) (load bs) = bs.
Proof.
  intros Hb. unfold load, store. destruct little_endian; [by apply le_bytes_value|].
  rewrite <- (length_rev bs), le_bytes_value by by apply bytes_rev. apply rev_involutive.
Qed.

Lemma load_inj a b : bytes a → bytes b → length a = length b → load a = load b → a = b.
Proof. intros Ha Hb Hl He. by rewrite <- (store_load a), <- (store_load b), Hl, He. Qed.

(** In memory, the value of [hton] is its argument with the highest byte first. *)
Lemma store_hton n x : store n (hton n x) = rev (le_bytes n x).
Proof.
  unfold hton. rewrite <- (le_bytes_length n x) at 1. rewrite <- length_rev. apply store_load, bytes_rev, le_bytes_bytes.
Qed.

Lemma ntoh_load bs : bytes bs → ntoh (length bs) (load bs) = be_value bs.
Proof. intros Hb. unfold ntoh. by rewrite store_load. Qed.

Lemma ntoh_hton n x : in_u (8 * Z.of_nat n) x → ntoh n (hton n x) = x.
Proof. intros Hx. unfold ntoh, be_value. rewrite store_hton, rev_involutive. by apply le_value_bytes. Qed.

Lemma ntoh_range n x : in_u (8 * Z.of_nat n) (ntoh n x).
Proof.
  unfold ntoh, in_u. pose proof (be_value_range _ (store_bytes n x)) as Hr. rewrite store_length in Hr.
  rewrite Z.pow_mul_r by lia. exact Hr.
Qed.

Lemma load_range bs : bytes bs → in_u (8 * Z.of_nat (length bs)) (load bs).
Proof.
  intros Hb. unfold load. destruct little_endian; [by apply le_value_range|].
  rewrite <- length_rev. by apply le_value_range, bytes_rev.
Qed.

(** What was in memory in network order is there again. *)
Lemma hton_ntoh bs : bytes bs → store (length bs) (hton (length bs) (ntoh (length bs) (load bs))) = bs.
Proof.
  intros Hb. rewrite ntoh_load, store_hton by done. unfold be_value.
  rewrite <- (length_rev bs), le_bytes_value by by apply bytes_rev. apply rev_involutive.
Qed.

End Order.

(** ** The order *)

(** Lexicographic order on lists of numbers. *)
Fixpoint lex_ltb (a b : list Z) : bool :=
  match a, b with
  | x :: a, y :: b => if x =? y then lex_ltb a b else x <? y
  | _, _ => false
  end.

Lemma lex_irrefl a : lex_ltb a a = false.
Proof. induction a as [|x a IH]; [done|]. cbn. by rewrite Z.eqb_refl. Qed.

Lemma lex_trans a b c : lex_ltb a b = true → lex_ltb b c = true → lex_ltb a c = true.
Proof.
  revert b c. induction a as [|x a IH]; intros [|y b] [|z c]; try done. cbn. intros Hab Hbc.
  destruct (Z.eqb_spec x y), (Z.eqb_spec y z), (Z.eqb_spec x z); try lia. by eapply IH.
Qed.

Lemma lex_total a b : length a = length b → lex_ltb a b = true ∨ a = b ∨ lex_ltb b a = true.
Proof.
  revert b. induction a as [|x a IH]; intros [|y b] Hl; try done; [by right; left|]. injection Hl as Hl. cbn.
  rewrite (Z.eqb_sym y x). destruct (Z.eqb_spec x y) as [->|]; [|lia].
  destruct (IH b Hl) as [|[->|]]; auto.
Qed.

(** The families that exist, and an address that fills its union with bytes. *)
Definition known_family (d : compact_ipdata) : Prop := family d = AF_UNSPEC ∨ family d = AF_INET ∨ family d = AF_INET6.

Record well_formed (d : compact_ipdata) : Prop := {
  wf_family : known_family d;
  wf_length : length (ip d) = IPV6_ADDR_LEN;
  wf_bytes : bytes (ip d);
}.

(** The address as a number, and what two addresses are compared by. *)
Definition number (d : compact_ipdata) : Z :=
  if family d =? AF_INET then be_value (ip_v4 d) else if family d =? AF_INET6 then be_value (ip_v6 d) else 0.

Definition key (d : compact_ipdata) : list Z := [family d; number d; cidrlen d; port d; scope_id d].

Lemma wf_v4 d : well_formed d → length (ip_v4 d) = 4%nat ∧ bytes (ip_v4 d).
Proof. intros [_ Hl Hb]. unfold ip_v4. split; [by rewrite length_take, Hl|by apply Forall_take]. Qed.

Lemma wf_v6 d : well_formed d → length (ip_v6 d) = 16%nat ∧ bytes (ip_v6 d).
Proof. intros [_ Hl Hb]. unfold ip_v6. split; [by rewrite length_take, Hl|by apply Forall_take]. Qed.

Lemma be_value_inj a b : bytes a → bytes b → length a = length b → be_value a = be_value b → a = b.
Proof.
  intros Ha Hb Hl He. unfold be_value in He.
  rewrite <- (rev_involutive a), <- (rev_involutive b). f_equal.
  rewrite <- (le_bytes_value (rev a)), <- (le_bytes_value (rev b)) by by apply bytes_rev. by rewrite !length_rev, Hl, He.
Qed.

Section Compare.
Context `{ByteOrder}.
Implicit Types a b c : compact_ipdata.

Lemma eqb_key a b : well_formed a → well_formed b → CompactIpdata.eqb a b = bool_decide (key a = key b).
Proof.
  intros Ha Hb. destruct (wf_v4 a Ha), (wf_v4 b Hb), (wf_v6 a Ha), (wf_v6 b Hb). unfold CompactIpdata.eqb, key, number.
  destruct (Z.eqb_spec (family a) (family b)) as [Hf|]; [rewrite Hf|symmetry; apply bool_decide_false; congruence].
  destruct (Z.eqb_spec (cidrlen a) (cidrlen b)) as [->|]; [|symmetry; apply bool_decide_false; congruence].
  destruct (Z.eqb_spec (port a) (port b)) as [->|]; [|symmetry; apply bool_decide_false; congruence].
  destruct (Z.eqb_spec (scope_id a) (scope_id b)) as [->|]; [|symmetry; apply bool_decide_false; congruence].
  cbn [negb orb]. pose proof (wf_family b Hb) as Hk. unfold known_family, AF_UNSPEC, AF_INET, AF_INET6 in *.
  destruct Hk as [-> | [-> | ->] ]; cbn [Z.eqb Pos.eqb]; symmetry.
  - by apply bool_decide_true.
  - destruct (Z.eqb_spec (load (ip_v4 a)) (load (ip_v4 b))) as [He|He].
    + apply bool_decide_true. apply load_inj in He; [|done|done|congruence]. by rewrite He.
    + apply bool_decide_false. intros [= Hn]. apply He. f_equal. apply be_value_inj; [done|done|congruence|done].
  - apply bool_decide_ext. split; [intros [= Hn]; apply be_value_inj; [done|done|congruence|done]|by intros ->].
Qed.

Lemma ltb_rest_key a b : CompactIpdata.ltb_rest a b = lex_ltb [cidrlen a; port a; scope_id a] [cidrlen b; port b; scope_id b].
Proof.
  unfold CompactIpdata.ltb_rest. cbn [lex_ltb]. destruct (cidrlen a =? cidrlen b); [|done]. destruct (port a =? port b); [|done].
  cbn. destruct (Z.eqb_spec (scope_id a) (scope_id b)) as [->|]; [apply Z.ltb_irrefl|done].
Qed.

Lemma ltb_key a b : well_formed a → well_formed b → CompactIpdata.ltb a b = lex_ltb (key a) (key b).
Proof.
  intros Ha Hb. destruct (wf_v4 a Ha) as [La4 Ba4], (wf_v4 b Hb) as [Lb4 Bb4], (wf_v6 a Ha) as [La6 Ba6], (wf_v6 b Hb) as [Lb6 Bb6].
  unfold CompactIpdata.ltb, key, number. rewrite ltb_rest_key. generalize [cidrlen a; port a; scope_id a] as ra, [cidrlen b; port b; scope_id b] as rb.
  intros ra rb. cbn [lex_ltb]. destruct (Z.eqb_spec (family a) (family b)) as [Hf|]; [rewrite Hf|done]. cbn [negb].
  pose proof (wf_family b Hb) as Hk. unfold known_family, AF_UNSPEC, AF_INET, AF_INET6 in *.
  destruct Hk as [-> | [-> | ->] ]; cbn [Z.eqb Pos.eqb]; [done|..].
  - unfold ntohl. replace (ntoh 4 (load (ip_v4 a))) with (be_value (ip_v4 a)) by (by rewrite <- La4, ntoh_load).
    replace (ntoh 4 (load (ip_v4 b))) with (be_value (ip_v4 b)) by (by rewrite <- Lb4, ntoh_load).
    destruct (Z.eqb_spec (load (ip_v4 a)) (load (ip_v4 b))) as [He|He]; cbn [negb].
    + apply load_inj in He; [|done|done|congruence]. by rewrite He, Z.eqb_refl.
    + destruct (Z.eqb_spec (be_value (ip_v4 a)) (be_value (ip_v4 b))) as [Hv|]; [|done].
      apply be_value_inj in Hv; [|done|done|congruence]. by rewrite Hv in He.
  - rewrite memcmp_value by (done || congruence). set (x := be_value (ip_v6 a)). set (y := be_value (ip_v6 b)).
    destruct (Z.eqb_spec x y) as [->|Hne]; [by rewrite Z.sub_diag|].
    destruct (Z.ltb_spec x y); [rewrite Z.sgn_neg by lia|rewrite Z.sgn_pos by lia]; done.
Qed.

(** A family that does not exist: an address is not equal to itself. *)
Lemma unknown_family a : ¬ known_family a → CompactIpdata.eqb a a = false.
Proof.
  unfold known_family. intros Hk. unfold CompactIpdata.eqb. rewrite !Z.eqb_refl. cbn.
  destruct (Z.eqb_spec (family a) AF_UNSPEC), (Z.eqb_spec (family a) AF_INET), (Z.eqb_spec (family a) AF_INET6); tauto.
Qed.

End Compare.

(** C39. On data of the families that exist, the comparisons of an address are
    those of the tuple (family, address as a number, length, port, scope): [==]
    is equality of the tuples, [<] their lexicographic order, irreflexive and
    transitive; exactly one of [<], [==] and [>] holds, and in each of the three
    classes [<=], [>=], [>] and [!=] agree with them. *)
Theorem addr_order `{ByteOrder} (a b c : compact_ipdata)
    (Ha : well_formed a) (Hb : well_formed b) (Hc : well_formed c) :
  CompactIpdata.eqb a b = bool_decide (key a = key b) ∧
  CompactIpdata.ltb a b = lex_ltb (key a) (key b) ∧
  CompactIpdata.ltb a a = false ∧
  (CompactIpdata.ltb a b = true → CompactIpdata.ltb b c = true → CompactIpdata.ltb a c = true) ∧
  (CompactIpdata.eqb a b = negb (CompactIpdata.ltb a b) && negb (CompactIpdata.ltb b a)) ∧
  ¬ (CompactIpdata.ltb a b = true ∧ CompactIpdata.ltb b a = true) ∧
  (IpAddress.leb (mkAddress a) (mkAddress b) = negb (IpAddress.gtb (mkAddress a) (mkAddress b)) ∧
   IpAddress.geb (mkAddress a) (mkAddress b) = negb (IpAddress.ltb (mkAddress a) (mkAddress b)) ∧
   IpAddress.neqb (mkAddress a) (mkAddress b) = negb (IpAddress.eqb (mkAddress a) (mkAddress b))) ∧
  (IpPrefix.leb (mkPrefix a) (mkPrefix b) = negb (IpPrefix.gtb (mkPrefix a) (mkPrefix b)) ∧
   IpPrefix.geb (mkPrefix a) (mkPrefix b) = negb (IpPrefix.ltb (mkPrefix a) (mkPrefix b)) ∧
   IpPrefix.neqb (mkPrefix a) (mkPrefix b) = negb (IpPrefix.eqb (mkPrefix a) (mkPrefix b))) ∧
  (IpSockAddr.leb (mkSockAddr a) (mkSockAddr b) = negb (IpSockAddr.gtb (mkSockAddr a) (mkSockAddr b)) ∧
   IpSockAddr.geb (mkSockAddr a) (mkSockAddr b) = negb (IpSockAddr.ltb (mkSockAddr a) (mkSockAddr b)) ∧
   IpSockAddr.neqb (mkSockAddr a) (mkSockAddr b) = negb (IpSockAddr.eqb (mkSockAddr a) (mkSockAddr b))).
Proof.
  unfold IpAddress.leb, IpAddress.geb, IpAddress.gtb, IpAddress.ltb, IpAddress.eqb, IpAddress.neqb,
    IpPrefix.leb, IpPrefix.geb, IpPrefix.gtb, IpPrefix.ltb, IpPrefix.eqb, IpPrefix.neqb,
    IpSockAddr.leb, IpSockAddr.geb, IpSockAddr.gtb, IpSockAddr.ltb, IpSockAddr.eqb, IpSockAddr.neqb, CompactIpdata.neqb.
  cbn [address_data prefix_data sock_data]. rewrite (eqb_key a b), !(ltb_key) by done.
  split; [done|]. split; [done|]. split; [apply lex_irrefl|]. split; [apply lex_trans|].
  assert (Hne : ¬ (lex_ltb (key a) (key b) = true ∧ lex_ltb (key b) (key a) = true)).
  { intros [Hab Hba]. pose proof (lex_trans _ _ _ Hab Hba) as Haa. by rewrite lex_irrefl in Haa. }
  assert (Heq : bool_decide (key a = key b) = negb (lex_ltb (key a) (key b)) && negb (lex_ltb (key b) (key a))).
  { destruct (lex_total (key a) (key b) eq_refl) as [Hl|[He|Hl] ].
    - rewrite Hl. apply bool_decide_false. intros He. by rewrite He, lex_irrefl in Hl.
    - rewrite He, lex_irrefl. by apply bool_decide_true.
    - rewrite Hl, andb_false_r. apply bool_decide_false. intros He. by rewrite He, lex_irrefl in Hl. }
  rewrite Heq. repeat split; try done; destruct (lex_ltb (key a) (key b)), (lex_ltb (key b) (key a)); tauto.
Qed.

Ltac wf_sample := split; [unfold known_family; auto|done|unfold bytes, in_u; repeat constructor; lia].

(** A machine that keeps the lowest byte first. *)
Definition little : ByteOrder := true.

Section OrderSample.
#[local] Existing Instance little.

(** 10.0.0.2 and 9.255.255.255. *)
Definition ten_two : compact_ipdata := mkIpdata AF_INET 32 0 0 ([10; 0; 0; 2] ++ replicate 12 0).
Definition nine : compact_ipdata := mkIpdata AF_INET 32 0 0 ([9; 255; 255; 255] ++ replicate 12 7).

Lemma addr_order_witness :
  CompactIpdata.eqb nine ten_two = bool_decide (key nine = key ten_two) ∧ CompactIpdata.ltb nine ten_two = true ∧
  IpAddress.leb (mkAddress nine) (mkAddress ten_two) = negb (IpAddress.gtb (mkAddress nine) (mkAddress ten_two)).
Proof.
  assert (H1 : well_formed nine) by wf_sample. assert (H2 : well_formed ten_two) by wf_sample.
  destruct (addr_order nine ten_two ten_two H1 H2 H2) as (Hk & _ & _ & _ & _ & _ & (Hl & _) & _).
  split; [exact Hk|]. split; [reflexivity|exact Hl].
Defined.

End OrderSample.

(** ** Through memory *)

Lemma write_at_length mem off bs : (off + length bs ≤ length mem)%nat → length (write_at mem off bs) = length mem.
Proof. intros Hl. unfold write_at. rewrite !length_app, length_take, length_drop. lia. Qed.

Lemma write_at_lookup mem off bs i :
  (off + length bs ≤ length mem)%nat →
  write_at mem off bs !! i = if decide (off ≤ i < off + length bs)%nat then bs !! (i - off)%nat else mem !! i.
Proof.
  intros Hl. unfold write_at. case_decide as Hi.
  - rewrite lookup_app_r by (rewrite length_take; lia). rewrite length_take, Nat.min_l by lia. apply lookup_app_l. lia.
  - destruct (decide (i < off)%nat) as [Hi'|Hi'].
    + rewrite lookup_app_l by (rewrite length_take; lia). by rewrite lookup_take_lt.
    + rewrite lookup_app_r by (rewrite length_take; lia). rewrite length_take, Nat.min_l by lia.
      rewrite lookup_app_r by lia. rewrite lookup_drop. f_equal. lia.
Qed.

Lemma bytes_at_written mem off bs n :
  length bs = n → (off + n ≤ length mem)%nat → bytes_at (write_at mem off bs) off n = Some bs.
Proof.
  intros <- Hl. rewrite bytes_at_some by by rewrite write_at_length. f_equal. unfold write_at.
  rewrite drop_app_length' by (rewrite length_take; lia). by rewrite take_app_length.
Qed.

Lemma bytes_at_elsewhere mem off bs off' n :
  (off + length bs ≤ length mem)%nat → (off' + n ≤ length mem)%nat → (off' + n ≤ off ∨ off + length bs ≤ off')%nat →
  bytes_at (write_at mem off bs) off' n = bytes_at mem off' n.
Proof.
  intros Hl Hl' Hd. rewrite !bytes_at_some by (rewrite ?write_at_length; done). f_equal. apply list_eq. intros i.
  destruct (decide (i < n)%nat) as [Hi|Hi]; [|rewrite !lookup_take_ge by lia; done].
  rewrite !lookup_take_lt, !lookup_drop, write_at_lookup by lia. rewrite decide_False by lia. done.
Qed.

(** Writing what is there changes nothing. *)
Lemma write_at_same mem off n bs : bytes_at mem off n = Some bs → write_at mem off bs = mem.
Proof.
  unfold bytes_at. destruct (decide _) as [Hn|]; [|done]. intros [= <-]. unfold write_at. rewrite Hn.
  rewrite <- drop_drop, take_drop. apply take_drop.
Qed.

Lemma bytes_at_bytes mem off n bs : bytes mem → bytes_at mem off n = Some bs → bytes bs ∧ length bs = n.
Proof.
  unfold bytes_at. destruct (decide _) as [Hn|]; [|done]. intros Hb [= <-]. split; [|done]. by apply Forall_take, Forall_drop.
Qed.

(** What a constructed socket address has: the fields its family does not use are
    cleared. *)
Record is_sock (d : compact_ipdata) : Prop := {
  sock_wf : well_formed d;
  sock_port : in_u 16 (port d);
  sock_scope : in_u 32 (scope_id d);
  sock_v4 : family d = AF_INET → cidrlen d = IPV4_ADDR_BITS ∧ scope_id d = 0;
  sock_v6 : family d = AF_INET6 → cidrlen d = IPV6_ADDR_BITS ∧ (usesScopedIds (ip_v6 d) = false → scope_id d = 0);
}.

(** What the library promises of its constructors: they take the address, and
    clear the fields that its family does not use. *)
Class NetUtilsLaws (L : NetUtilsLib) := {
  law_v4 a : bytes a → length a = 4%nat →
    let d := address_data (ip_of_v4 a) in
    is_sock d ∧ family d = AF_INET ∧ port d = 0 ∧ ip_v4 d = a;
  law_v6 a s : bytes a → length a = 16%nat → in_u 32 s →
    let d := address_data (ip_of_v6 a s) in
    is_sock d ∧ family d = AF_INET6 ∧ port d = 0 ∧ ip_v6 d = a ∧ scope_id d = (if usesScopedIds a then s else 0);
}.

Section Memory.
Context `{ByteOrder} `{L : NetUtilsLib} `{!NetUtilsLaws L}.
Implicit Types (d : compact_ipdata) (mem ss : list Z).

(** A field of a number, in host order. *)
Lemma load_field mem off n x :
  in_u (8 * Z.of_nat n) x → bytes_at mem off n = Some (store n x) → load <$> bytes_at mem off n = Some x.
Proof. intros Hx ->. cbn. by rewrite load_store. Qed.

Lemma store_written mem off n x : (off + n ≤ length mem)%nat → bytes_at (write_at mem off (store n x)) off n = Some (store n x).
Proof. intros Hl. by apply bytes_at_written; [apply store_length|]. Qed.

Lemma storage_length mem off bs :
  length mem = SIZE_STORAGE → (off + length bs ≤ 128)%nat → length (write_at mem off bs) = SIZE_STORAGE.
Proof. intros Hl Hb. rewrite write_at_length; [done|]. by rewrite Hl. Qed.

(** Bounds of accesses to a [sockaddr_storage]. *)
Ltac inside := rewrite ?store_length; try match goal with Hl : length _ = SIZE_STORAGE |- _ => rewrite Hl end; unfold SIZE_STORAGE; lia.

(** What [operator sockaddr_storage] leaves in memory, for each family. *)
Lemma storage_v4 ss d :
  well_formed d → family d = AF_INET → length ss = SIZE_STORAGE →
  let m := IpSockAddr.to_sockaddr_storage ss (mkSockAddr d) in
  length m = SIZE_STORAGE ∧ bytes_at m 0 2 = Some (store 2 (family d)) ∧
  bytes_at m 2 2 = Some (store 2 (htons (port d))) ∧ bytes_at m 4 4 = Some (ip_v4 d).
Proof.
  intros Hd Hf Hl. destruct (wf_v4 d Hd) as [H4 _]. unfold IpSockAddr.to_sockaddr_storage. cbn [sock_data].
  rewrite Hf. change (AF_INET =? AF_INET) with true. cbv zeta iota.
  set (m1 := write_at ss 0 (store 2 AF_INET)). assert (L1 : length m1 = SIZE_STORAGE) by (apply storage_length; [done|inside]).
  set (m2 := write_at m1 4 (ip_v4 d)). assert (L2 : length m2 = SIZE_STORAGE) by (apply storage_length; [done|lia]).
  split; [apply storage_length; [done|inside]|]. split; [|split].
  - rewrite bytes_at_elsewhere by inside. unfold m2. rewrite bytes_at_elsewhere by inside. apply store_written. inside.
  - apply store_written. inside.
  - rewrite bytes_at_elsewhere by inside. apply bytes_at_written; [done|inside].
Qed.

Lemma storage_v6 ss d :
  well_formed d → family d = AF_INET6 → length ss = SIZE_STORAGE →
  let m := IpSockAddr.to_sockaddr_storage ss (mkSockAddr d) in
  length m = SIZE_STORAGE ∧ bytes_at m 0 2 = Some (store 2 (family d)) ∧
  bytes_at m 2 2 = Some (store 2 (htons (port d))) ∧ bytes_at m 8 16 = Some (ip_v6 d) ∧
  bytes_at m 24 4 = Some (store 4 (scope_id d)).
Proof.
  intros Hd Hf Hl. destruct (wf_v6 d Hd) as [H6 _]. unfold IpSockAddr.to_sockaddr_storage. cbn [sock_data].
  rewrite Hf. change (AF_INET6 =? AF_INET) with false. change (AF_INET6 =? AF_INET6) with true. cbv zeta iota.
  set (m1 := write_at ss 0 (store 2 AF_INET6)). assert (L1 : length m1 = SIZE_STORAGE) by (apply storage_length; [done|inside]).
  set (m2 := write_at m1 8 (ip_v6 d)). assert (L2 : length m2 = SIZE_STORAGE) by (apply storage_length; [done|lia]).
  set (m3 := write_at m2 2 (store 2 (htons (port d)))). assert (L3 : length m3 = SIZE_STORAGE) by (apply storage_length; [done|inside]).
  split; [apply storage_length; [done|inside]|]. split; [|split; [|split] ].
  - rewrite bytes_at_elsewhere by inside. unfold m3. rewrite bytes_at_elsewhere by inside.
    unfold m2. rewrite bytes_at_elsewhere by inside. apply store_written. inside.
  - rewrite bytes_at_elsewhere by inside. apply store_written. inside.
  - rewrite bytes_at_elsewhere by inside. unfold m3. rewrite bytes_at_elsewhere by inside.
    apply bytes_at_written; [done|inside].
  - apply store_written. inside.
Qed.

(** The constructors from memory. *)
Lemma read_v4 mem addr p :
  bytes_at mem 4 4 = Some addr → bytes_at mem 2 2 = Some p → bytes addr → bytes p →
  ∃ b, IpSockAddr.of_sockaddr_in mem = Some b ∧ is_sock (sock_data b) ∧ family (sock_data b) = AF_INET ∧
    port (sock_data b) = be_value p ∧ ip_v4 (sock_data b) = addr.
Proof.
  intros Ha Hp Hab Hpb. unfold IpSockAddr.of_sockaddr_in. rewrite Ha, Hp. cbn. eexists. split; [done|].
  assert (La : length addr = 4%nat) by (unfold bytes_at in Ha; case_decide; by simplify_eq).
  assert (Lp : length p = 2%nat) by (unfold bytes_at in Hp; case_decide; by simplify_eq).
  destruct (law_v4 addr Hab La) as ([Hw _ Hs H4 H6] & Hf & _ & Hi). unfold IpSockAddr.of_ip_port. cbn [sock_data].
  assert (Hport : ntohs (load p) = be_value p) by (unfold ntohs; rewrite <- Lp; by apply ntoh_load). rewrite Hport.
  assert (Hr : in_u 16 (be_value p)) by (pose proof (be_value_range p Hpb) as Hr; rewrite Lp in Hr; exact Hr).
  split; [|by split]. destruct Hw. by split; [split|..].
Qed.

Lemma read_v6 mem addr p s :
  bytes_at mem 8 16 = Some addr → bytes_at mem 2 2 = Some p → bytes_at mem 24 4 = Some s → bytes addr → bytes p → bytes s →
  ∃ b, IpSockAddr.of_sockaddr_in6 mem = Some b ∧ is_sock (sock_data b) ∧ family (sock_data b) = AF_INET6 ∧
    port (sock_data b) = be_value p ∧ ip_v6 (sock_data b) = addr ∧
    scope_id (sock_data b) = (if usesScopedIds addr then load s else 0).
Proof.
  intros Ha Hp Hs Hab Hpb Hsb. unfold IpSockAddr.of_sockaddr_in6. rewrite Ha, Hp, Hs. cbn. eexists. split; [done|].
  assert (La : length addr = 16%nat) by (unfold bytes_at in Ha; case_decide; by simplify_eq).
  assert (Lp : length p = 2%nat) by (unfold bytes_at in Hp; case_decide; by simplify_eq).
  assert (Ls : length s = 4%nat) by (unfold bytes_at in Hs; case_decide; by simplify_eq).
  assert (Hsr : in_u 32 (load s)) by (pose proof (load_range s Hsb) as Hr; rewrite Ls in Hr; exact Hr).
  destruct (law_v6 addr (load s) Hab La Hsr) as ([Hw _ Hsc H4 H6] & Hf & _ & Hi & Hscope). unfold IpSockAddr.of_ip_port. cbn [sock_data].
  assert (Hport : ntohs (load p) = be_value p) by (unfold ntohs; rewrite <- Lp; by apply ntoh_load). rewrite Hport.
  assert (Hr : in_u 16 (be_value p)) by (pose proof (be_value_range p Hpb) as Hr; rewrite Lp in Hr; exact Hr).
  split; [|by split]. destruct Hw. by split; [split|..].
Qed.

(** The tests on a family that is known. *)
Ltac families :=
  change (AF_INET =? AF_INET) with true; change (AF_INET6 =? AF_INET) with false;
  change (AF_INET6 =? AF_INET6) with true; cbv iota.

Lemma be_hton n x : in_u (8 * Z.of_nat n) x → be_value (store n (hton n x)) = x.
Proof. intros Hx. rewrite store_hton. unfold be_value. rewrite rev_involutive. by apply le_value_bytes. Qed.

Lemma hton_be n bs : bytes bs → length bs = n → store n (hton n (be_value bs)) = bs.
Proof. intros Hb <-. rewrite <- ntoh_load by done. by apply hton_ntoh. Qed.

Lemma sockaddr_v4 ss d :
  is_sock d → family d = AF_INET → length ss = SIZE_STORAGE →
  let m := IpSockAddr.to_sockaddr_storage ss (mkSockAddr d) in
  ∃ b, IpSockAddr.toIPSockAddr m = Some b ∧ is_sock (sock_data b) ∧ key (sock_data b) = key d ∧ sockaddrSize (Some m) = Some SIZE_IN.
Proof.
  intros Hd Hf Hl m. destruct (storage_v4 ss d (sock_wf _ Hd) Hf Hl) as (_ & H0 & H2 & H4). fold m in H0, H2, H4.
  destruct (read_v4 m _ _ H4 H2) as (b & Hb & Hs & Hbf & Hp & Hi); [by apply wf_v4, Hd|apply store_bytes|].
  exists b. unfold IpSockAddr.toIPSockAddr, sockaddrSize. rewrite H0. cbn [mbind option_bind]. rewrite Hf, load_store by done. families. rewrite Hb.
  split; [done|]. split; [done|]. split; [|done]. unfold key, number. rewrite Hbf, Hf. families. rewrite Hi, Hp.
  unfold htons. rewrite be_hton by apply Hd. destruct (sock_v4 _ Hs Hbf) as [-> ->], (sock_v4 _ Hd Hf) as [-> ->]. done.
Qed.

Lemma sockaddr_v6 ss d :
  is_sock d → family d = AF_INET6 → length ss = SIZE_STORAGE →
  let m := IpSockAddr.to_sockaddr_storage ss (mkSockAddr d) in
  ∃ b, IpSockAddr.toIPSockAddr m = Some b ∧ is_sock (sock_data b) ∧ key (sock_data b) = key d ∧ sockaddrSize (Some m) = Some SIZE_IN6.
Proof.
  intros Hd Hf Hl m. destruct (storage_v6 ss d (sock_wf _ Hd) Hf Hl) as (_ & H0 & H2 & H8 & H24). fold m in H0, H2, H8, H24.
  destruct (read_v6 m _ _ _ H8 H2 H24) as (b & Hb & Hs & Hbf & Hp & Hi & Hsc); [by apply wf_v6, Hd|apply store_bytes..|].
  exists b. unfold IpSockAddr.toIPSockAddr, sockaddrSize. rewrite H0. cbn [mbind option_bind]. rewrite Hf, load_store by done. families. rewrite Hb.
  split; [done|]. split; [done|]. split; [|done]. unfold key, number. rewrite Hbf, Hf. families. rewrite Hi, Hp, Hsc.
  unfold htons. rewrite be_hton by apply Hd. destruct (sock_v6 _ Hs Hbf) as [-> _], (sock_v6 _ Hd Hf) as [-> Hz].
  rewrite load_store by apply Hd. destruct (usesScopedIds (ip_v6 d)); [done|]. by rewrite Hz.
Qed.

(** From memory and back. *)
Lemma memory_v4 m b f :
  bytes m → length m = SIZE_STORAGE → bytes_at m 0 2 = Some f → load f = AF_INET →
  IpSockAddr.toIPSockAddr m = Some b → IpSockAddr.to_sockaddr_storage m b = m.
Proof.
  intros Hm Hl H0 Hf. unfold IpSockAddr.toIPSockAddr. rewrite H0. cbn [mbind option_bind]. rewrite Hf. families. intros Hb.
  destruct (bytes_at_bytes m 0 2 f Hm H0) as [Bf Lf].
  pose proof (bytes_at_some m 4 4 ltac:(rewrite Hl; unfold SIZE_STORAGE; lia)) as H4.
  pose proof (bytes_at_some m 2 2 ltac:(rewrite Hl; unfold SIZE_STORAGE; lia)) as H2.
  destruct (bytes_at_bytes _ _ _ _ Hm H4) as [B4 _], (bytes_at_bytes _ _ _ _ Hm H2) as [B2 L2].
  destruct (read_v4 m _ _ H4 H2 B4 B2) as (b' & Hb' & _ & Hbf & Hp & Hi). rewrite Hb' in Hb. injection Hb as ->.
  unfold IpSockAddr.to_sockaddr_storage. rewrite Hbf. families.
  assert (Hst : store 2 AF_INET = f) by (rewrite <- Hf, <- Lf; by apply store_load). rewrite Hst, Hi, Hp.
  unfold htons. rewrite hton_be by done.
  rewrite (write_at_same m 0 2 f) by done. rewrite (write_at_same m 4 4 _ H4). by apply write_at_same with 2%nat.
Qed.

Lemma memory_v6 m b f addr :
  bytes m → length m = SIZE_STORAGE → bytes_at m 0 2 = Some f → load f = AF_INET6 → bytes_at m 8 16 = Some addr →
  IpSockAddr.toIPSockAddr m = Some b →
  IpSockAddr.to_sockaddr_storage m b = if usesScopedIds addr then m else write_at m 24 (replicate 4 0).
Proof.
  intros Hm Hl H0 Hf H8. unfold IpSockAddr.toIPSockAddr. rewrite H0. cbn [mbind option_bind]. rewrite Hf. families. intros Hb.
  destruct (bytes_at_bytes m 0 2 f Hm H0) as [Bf Lf].
  pose proof (bytes_at_some m 24 4 ltac:(rewrite Hl; unfold SIZE_STORAGE; lia)) as H24.
  pose proof (bytes_at_some m 2 2 ltac:(rewrite Hl; unfold SIZE_STORAGE; lia)) as H2.
  destruct (bytes_at_bytes _ _ _ _ Hm H8) as [B8 _], (bytes_at_bytes _ _ _ _ Hm H2) as [B2 L2], (bytes_at_bytes _ _ _ _ Hm H24) as [B24 L24].
  destruct (read_v6 m _ _ _ H8 H2 H24 B8 B2 B24) as (b' & Hb' & _ & Hbf & Hp & Hi & Hsc). rewrite Hb' in Hb. injection Hb as ->.
  unfold IpSockAddr.to_sockaddr_storage. rewrite Hbf. families.
  assert (Hst : store 2 AF_INET6 = f) by (rewrite <- Hf, <- Lf; by apply store_load). rewrite Hst, Hi, Hp, Hsc.
  unfold htons. rewrite hton_be by done.
  rewrite (write_at_same m 0 2 f) by done. rewrite (write_at_same m 8 16 _ H8), (write_at_same m 2 2 _ H2).
  destruct (usesScopedIds addr).
  - pose proof (store_load _ B24) as Hs4. rewrite L24 in Hs4. rewrite Hs4. by apply write_at_same with 4%nat.
  - f_equal. unfold store. by destruct little_endian.
Qed.

(** The address of a socket address, or of a prefix, is the one it was made of. *)
Lemma address_back d p :
  is_sock d → family d = AF_INET ∨ family d = AF_INET6 → port d = 0 →
  IpAddress.eqb (IpSockAddr.ip (IpSockAddr.of_ip_port (mkAddress d) p)) (mkAddress d) = true ∧
  IpAddress.eqb (IpPrefix.ip (IpPrefix.of_ip (mkAddress d))) (mkAddress d) = true.
Proof.
  intros Hd Hf Hp. destruct d as [f c q s i]. cbn in Hf, Hp. subst q. pose proof (sock_wf _ Hd) as Hw.
  assert (He : CompactIpdata.eqb (mkIpdata f c 0 s i) (mkIpdata f c 0 s i) = true) by (rewrite eqb_key by done; by apply bool_decide_true).
  unfold IpAddress.eqb, IpSockAddr.ip, IpPrefix.ip, IpAddress.of_ipdata. destruct Hf as [-> | ->]; cbn; unfold ip_v6; cbn.
  - destruct (sock_v4 _ Hd eq_refl) as [Hc Hs]. cbn in Hc, Hs. by subst.
  - destruct (sock_v6 _ Hd eq_refl) as [Hc Hs]. cbn in Hc, Hs. unfold ip_v6 in Hs. cbn in Hs. subst c. by destruct (usesScopedIds _).
Qed.

End Memory.

(** C38. A socket address of one of the two families, written into a
    [sockaddr_storage] with any bytes in it, is read back as an equal one, and
    the size that goes with it is that of its family. The other way round, memory
    that is read as a socket address and written back is unchanged, but for the
    scope of an IPv6 address that has none, which is cleared. *)
Theorem sockaddr_roundtrip `{ByteOrder} `{L : NetUtilsLib} `{!NetUtilsLaws L} :
  (∀ (a : ip_sock_addr) ss,
    is_sock (sock_data a) → family (sock_data a) = AF_INET ∨ family (sock_data a) = AF_INET6 → length ss = SIZE_STORAGE →
    let m := IpSockAddr.to_sockaddr_storage ss a in
    ∃ b, IpSockAddr.toIPSockAddr_storage m = Some b ∧ IpSockAddr.eqb b a = true ∧ is_sock (sock_data b) ∧
      sockaddrSize (Some m) = Some (if IpSockAddr.family a =? AF_INET then SIZE_IN else SIZE_IN6)) ∧
  (∀ m f addr, bytes m → length m = SIZE_STORAGE → bytes_at m 0 2 = Some f → bytes_at m 8 16 = Some addr →
    ∃ b, IpSockAddr.toIPSockAddr_storage m = Some b ∧
      (load f = AF_INET → IpSockAddr.to_sockaddr_storage m b = m) ∧
      (load f = AF_INET6 →
        IpSockAddr.to_sockaddr_storage m b = if usesScopedIds addr then m else write_at m 24 (replicate 4 0)) ∧
      (load f ≠ AF_INET → load f ≠ AF_INET6 → b = IpSockAddr.construct)).
Proof.
  split.
  - intros [d] ss Hs Hf Hl. cbn [sock_data] in *. unfold IpSockAddr.toIPSockAddr_storage, IpSockAddr.eqb, IpSockAddr.family. cbn [sock_data].
    destruct Hf as [Hf|Hf]; rewrite Hf; cbn [Z.eqb Pos.eqb AF_INET AF_INET6].
    + destruct (sockaddr_v4 ss d Hs Hf Hl) as (b & Hb & Hbs & Hk & Hsz). exists b. rewrite eqb_key by by apply sock_wf.
      by rewrite Hk, bool_decide_true.
    + destruct (sockaddr_v6 ss d Hs Hf Hl) as (b & Hb & Hbs & Hk & Hsz). exists b. rewrite eqb_key by by apply sock_wf.
      by rewrite Hk, bool_decide_true.
  - intros m f addr Hm Hl H0 H8. unfold IpSockAddr.toIPSockAddr_storage.
    destruct (IpSockAddr.toIPSockAddr m) as [b|] eqn:Hb.
    + exists b. split; [done|]. split; [intros Hf; by eapply memory_v4|]. split; [intros Hf; by eapply memory_v6|].
      intros H4 H6. unfold IpSockAddr.toIPSockAddr in Hb. rewrite H0 in Hb. cbn in Hb.
      apply Z.eqb_neq in H4, H6. rewrite H4, H6 in Hb. by injection Hb.
    + exfalso. unfold IpSockAddr.toIPSockAddr, IpSockAddr.of_sockaddr_in, IpSockAddr.of_sockaddr_in6 in Hb. rewrite H0 in Hb. cbn in Hb.
      rewrite !bytes_at_some in Hb by (rewrite Hl; unfold SIZE_STORAGE; lia). cbn in Hb.
      by destruct (load f =? AF_INET), (load f =? AF_INET6).
Qed.

(** A library that keeps the promises. *)
Section MemorySample.
#[local] Existing Instance little.

#[local] Instance sample_lib : NetUtilsLib := {
  ip_of_v4 a := mkAddress (mkIpdata AF_INET IPV4_ADDR_BITS 0 0 (a ++ replicate 12 0));
  ip_of_v6 a s := mkAddress (mkIpdata AF_INET6 IPV6_ADDR_BITS 0 (if usesScopedIds a then s else 0) a);
  prefix_of_length a n := IpPrefix.of_ip a;
  parse_ip repr a := (false, a);
  parse_prefix repr p := (false, p);
}.

#[local] Instance sample_laws : NetUtilsLaws sample_lib.
Proof.
  split.
  - intros a Ha Hl. cbn. assert (Hv : take 4 (a ++ replicate 12 0) = a) by by rewrite <- Hl, take_app_length.
    split; [|done]. split; cbn; try done.
    split; cbn; [by right; left|rewrite length_app, Hl; done|apply Forall_app; split; [done|]; repeat constructor; unfold in_u; lia].
  - intros a s Ha Hl Hs. cbn. assert (Hv : take 16 a = a) by (rewrite <- Hl; apply firstn_all).
    unfold ip_v6. cbn [ip]. change IPV6_ADDR_LEN with 16%nat. rewrite Hv.
    split; [|done]. split; cbn [family cidrlen port scope_id ip]; try done.
    + split; cbn; [by right; right|done|done].
    + destruct (usesScopedIds a); done.
    + unfold ip_v6. cbn [ip]. change IPV6_ADDR_LEN with 16%nat. rewrite Hv. intros _. split; [done|]. by intros ->.
Qed.

(** 10.0.0.2, port 53, written over bytes of 170. *)
Definition ten_two_dns : ip_sock_addr := mkSockAddr (set_port 53 ten_two).

Definition dirty : list Z := replicate SIZE_STORAGE 170.

Lemma sockaddr_roundtrip_witness :
  take 8 (IpSockAddr.to_sockaddr_storage dirty ten_two_dns) = [2; 0; 0; 53; 10; 0; 0; 2] ∧
  ∃ b, IpSockAddr.toIPSockAddr_storage (IpSockAddr.to_sockaddr_storage dirty ten_two_dns) = Some b ∧
    IpSockAddr.eqb b ten_two_dns = true.
Proof.
  split; [reflexivity|].
  destruct (proj1 sockaddr_roundtrip ten_two_dns dirty) as (b & Hb & He & _).
  - split; [wf_sample|unfold in_u; cbn; lia|unfold in_u; cbn; lia|done|done].
  - by left.
  - done.
  - exists b. split; [exact Hb|exact He].
Defined.

End MemorySample.
