(* ===== verification/NetdHeaders.v ===== *)
(** * State and jobs of the native daemon

    [prebuilts/librarys/netd/include]: the classes of the prebuilt daemon, as far
    as their headers define them: the state of a resolver query
    (net_mgr_native/include/dnsresolv.h), an event of the kernel (netlink_event.h),
    a physical network (nmd_network.h), what its controllers report
    (traffic_controller.h, interface_controller.h), and the jobs of its servers
    (common/include/job.h, socket_base.h, server_template.h, with
    fwmark_server.h and dnsresolv_service.h). *)

From S2P Require Import Prelude NetUtils.

(** ** dnsresolv.h *)

Definition MAXNS : nat := 4.

(** [netd_net_context]; the members without an initialiser may hold anything. *)
Record netd_net_context := mkNetContext {
  appNetId : option Z;
  appMark : option Z;
  dnsNetId : option Z;
  dnsMark : option Z;
  ctx_uid : Z;
  ctx_flags : option Z;
  ctx_pid : Z;
}.

Definition netd_net_context_default : netd_net_context := mkNetContext None None None None (to_u 32 (-1)) None (-1).

(** [dns_res_state]; a member that nothing has initialised is [None]. *)
Record dns_res_state := mkResState {
  netid : option Z;
  uid : option Z;
  pid : option Z;
  id : option Z;
  searchDomains : list string;
  nsaddrs : list ip_sock_addr;
  nssocks : list fd_wrapper;
  ndots : option Z;
  mark : option Z;
  tcpNsSock : fd_wrapper;
  isTcp : bool;
}.

(** The methods return the calls of [close] that they make. *)
Module DnsResState.

Definition construct : dns_res_state :=
  mkResState None None None None [] [] (replicate MAXNS FdWrapper.construct) None None FdWrapper.construct false.

(** [for (auto &sock : nssocks) { sock.reset(); }] *)
Fixpoint reset_all (socks : list fd_wrapper) : list fd_wrapper * list Z :=
  match socks with
  | [] => ([], [])
  | sock :: socks =>
    let (sock', closed) := FdWrapper.reset (-1) sock in
    let (socks', closed') := reset_all socks in
    (sock' :: socks', closed ++ closed')
  end.

Definition init (netcontext : option netd_net_context) (s : dns_res_state) : dns_res_state * list Z :=
  match netcontext with
  | None => (s, [])
  | Some c =>
    let (socks, closed) := reset_all (nssocks s) in
    (mkResState (dnsNetId c) (uid s) (pid s) (id s) (searchDomains s) (nsaddrs s) socks (Some 1) (dnsMark c)
       (tcpNsSock s) (isTcp s), closed)
  end.

Definition closeSockets (s : dns_res_state) : dns_res_state * list Z :=
  let (tcp, closed) := FdWrapper.reset (-1) (tcpNsSock s) in
  let (socks, closed') := reset_all (nssocks s) in
  (mkResState (netid s) (uid s) (pid s) (id s) (searchDomains s) (nsaddrs s) socks (ndots s) (mark s) tcp false,
   closed ++ closed').

Definition nameserverCount (s : dns_res_state) : nat := length (nsaddrs s).

(** The destructor: the members in the reverse order of their declaration, the
    array from its end. *)
Definition destruct (s : dns_res_state) : list Z :=
  FdWrapper.destruct (tcpNsSock s) ++ flat_map FdWrapper.destruct (rev (nssocks s)).

End DnsResState.

(** [dns_res_params] *)
Record dns_res_params := mkResParams { baseTimeoutMsec : option Z; retryCount : Z }.

Definition dns_res_params_default : dns_res_params := mkResParams None 1.

(** [dns_res_params::operator=]: the new value of the object. *)
Definition assign_params (this param : dns_res_params) : dns_res_params :=
  mkResParams (baseTimeoutMsec param) (retryCount param).

(** ** netlink_event.h *)

Inductive Action :=
  | Unknown | Add | Remove | Change | LinkUp | LinkDown | AddressUpdated | AddressRemoved | RouteUpdated | RouteRemoved
  | NewRule | DelRule.

Record netlink_event := mkEvent { action_ : option Action; params_ : gmap string string }.

Module NetlinkEvent.

Definition construct : netlink_event := mkEvent None ∅.

Definition setAction (action : Action) (e : netlink_event) : netlink_event := mkEvent (Some action) (params_ e).

Definition getAction (e : netlink_event) : option Action := action_ e.

(** [std::map::insert] leaves the value of a key that is there. *)
Definition addParam (key value : string) (e : netlink_event) : netlink_event :=
  mkEvent (action_ e) (match params_ e !! key with Some _ => params_ e | None => <[key := value]> (params_ e) end).

End NetlinkEvent.

(** ** What the controllers report *)

Record arp_cache_information := mkArp { ipAddr : string; macAddr : string; dev : string; state : string }.

Record tether_traffic_account := mkAccount { bytes_ : string; sourceIp : string; destinationIp : string }.

Record tether_stats_parcel := mkStats {
  iface : string;
  ifIndex : Z;
  rxBytes : Z;
  rxPackets : Z;
  txBytes : Z;
  txPackets : Z;
}.

Record interface_configuration_parcel := mkIfConfig {
  ifName : string;
  hwAddr : string;
  ipv4Addr : string;
  prefixLength : Z;
  flags : list string;
}.

(** [operator<<] of each: what it adds to the stream. *)
Definition nl : string := String (Ascii.ascii_of_nat 10) EmptyString.

Definition print_arp (i : arp_cache_information) : string :=
  "ipAddr: " +:+ ipAddr i +:+ " macAddr: " +:+ macAddr i +:+ " dev: " +:+ dev i +:+ " state: " +:+ state i.

Definition print_account (a : tether_traffic_account) : string :=
  "bytes: " +:+ bytes_ a +:+ " sourceIp: " +:+ sourceIp a +:+ " destinationIp: " +:+ destinationIp a.

Definition print_stats (p : tether_stats_parcel) : string :=
  "iface: " +:+ iface p +:+ "ifIndex: " +:+ to_string (ifIndex p) +:+ "rxBytes: " +:+ to_string (rxBytes p)
  +:+ "rxPackets: " +:+ to_string (rxPackets p) +:+ "txBytes: " +:+ to_string (txBytes p)
  +:+ "txPackets: " +:+ to_string (txPackets p).

Fixpoint print_flags (l : list string) : string :=
  match l with [] => "" | f :: l => "  " +:+ f +:+ nl +:+ print_flags l end.

Definition print_config (p : interface_configuration_parcel) : string :=
  "ifName: " +:+ ifName p +:+ nl +:+ "hwAddr: " +:+ hwAddr p +:+ nl +:+ "ipv4Addr: " +:+ ipv4Addr p +:+ nl
  +:+ "prefixLength: " +:+ to_string (prefixLength p) +:+ nl +:+ "flags: [" +:+ nl +:+ print_flags (flags p) +:+ "] " +:+ nl.

(** ** Sockets, jobs and servers *)

(** A method of an object as the handler of a socket: which one, of which object. *)
Record bound_method := mkMethod { method : nat; instance : nat }.

(** [socket_base]: the descriptor, and the handler of what arrives. *)
Record socket_base := mkSocket { socketFd_ : option Z; handler_ : option bound_method }.

Module SocketBase.

(** [setRecevedHandler] of a plain function: the body is empty. *)
Definition setRecevedHandler_function (f : nat) (s : socket_base) : socket_base := s.

(** [setRecevedHandler] of a method and the object to call it on. *)
Definition setRecevedHandler (func instance : nat) (s : socket_base) : socket_base :=
  mkSocket (socketFd_ s) (Some (mkMethod func instance)).

Definition getSocketFileDescriptor (s : socket_base) : option Z := socketFd_ s.

End SocketBase.

(** [job]: the message is a copy; [serverSocket_] is the socket it is shared
    with. To copy more than the buffer has is undefined. *)
Record job := mkJob { fd_of : Z; msg_ : list Z; serverSocket_ : nat }.

Definition new_job (fd : Z) (msg : list Z) (msgLen : nat) (serverSocket : nat) : option job :=
  if decide (msgLen ≤ length msg)%nat then Some (mkJob fd (take msgLen msg) serverSocket) else None.

(** [fwmark_job] adds nothing; [dnsresolv_job] has callbacks, none at first. *)
Definition fwmark_job (fd : Z) (msg : list Z) (msgLen : nat) (serverSocket : nat) : option job :=
  new_job fd msg msgLen serverSocket.

Record dnsresolv_job := mkResolvJob { resolv_job : job; dnsresolvCallbacks_ : option nat }.

(** [dnsresolv_callbacks()] *)
Definition dnsresolv_callbacks : option nat := None.

Definition new_dnsresolv_job (fd : Z) (msg : list Z) (msgLen : nat) (serverSocket : nat) : option dnsresolv_job :=
  j ← new_job fd msg msgLen serverSocket ;
  Some (mkResolvJob j dnsresolv_callbacks).

Definition setupCallbacks (callbacks : option nat) (j : dnsresolv_job) : dnsresolv_job := mkResolvJob (resolv_job j) callbacks.

(** [server_template]: the threads and the capacity of its pool, and the job it
    has at hand. *)
Record server_template := mkServer {
  socketName_ : string;
  serverName_ : string;
  pool_threads : Z;
  pool_queue : Z;
  job_ : option job;
  mRunning : bool;
}.

Definition new_server_template (socketName serverName : string) : server_template :=
  mkServer socketName serverName 16 256 None false.

Definition fwmark_server : server_template := new_server_template "fwmarkd.sock" "FWMarkServer".

Definition dnsresolv_service : server_template := new_server_template "dnsresolvproxy.sock" "DNSResolverService".

(** ** Properties of the state of the native daemon

    The state of a resolver query closes every socket that it was given, once. *)

(** *** The descriptors of the process *)

(** The calls of [close] on a set of open descriptors; to close one that is not
    open is an error. *)
Fixpoint close_all (fds : list Z) (open : gset Z) : option (gset Z) :=
  match fds with
  | [] => Some open
  | fd :: fds => if decide (fd ∈ open) then close_all fds (open ∖ {[fd]}) else None
  end.

(** What any code can do with a [dns_res_state] through what the structure makes
    public: its methods, and the [reset] of an owner among its members, the
    [k]-th of [nssocks] or [tcpNsSock]. The code that does is not here. An index
    outside of the array is undefined. *)
Inductive res_op :=
  | ResInit (c : option netd_net_context)
  | ResCloseSockets
  | ResReset (k : option nat) (fd : Z).

Definition with_sockets (s : dns_res_state) (socks : list fd_wrapper) (tcp : fd_wrapper) : dns_res_state :=
  mkResState (netid s) (uid s) (pid s) (id s) (searchDomains s) (nsaddrs s) socks (ndots s) (mark s) tcp (isTcp s).

Definition apply_op (op : res_op) (s : dns_res_state) : option (dns_res_state * list Z) :=
  match op with
  | ResInit c => Some (DnsResState.init c s)
  | ResCloseSockets => Some (DnsResState.closeSockets s)
  | ResReset (Some i) fd =>
    w ← nssocks s !! i ;
    let (w', closed) := FdWrapper.reset fd w in Some (with_sockets s (<[i := w']> (nssocks s)) (tcpNsSock s), closed)
  | ResReset None fd =>
    let (w', closed) := FdWrapper.reset fd (tcpNsSock s) in Some (with_sockets s (nssocks s) w', closed)
  end.

(** The descriptor that is given away, -1 for none, has just been opened: it is
    not among those that are open, and nobody else closes it. *)
Definition acquired (op : res_op) : list Z :=
  match op with ResReset _ fd => if fd =? -1 then [] else [fd] | _ => [] end.

Definition opened (op : res_op) (open : gset Z) : gset Z := list_to_set (acquired op) ∪ open.

Definition allowed (op : res_op) (open : gset Z) : Prop :=
  match op with
  | ResReset k fd => (if k is Some i then (i < MAXNS)%nat else True) ∧ fd ∉ open
  | _ => True
  end.

(** The states of a query, from its construction among the descriptors [open0]. *)
Inductive query (open0 : gset Z) : dns_res_state → gset Z → Prop :=
  | query_new : query open0 DnsResState.construct open0
  | query_op op s open s' closed open' :
      query open0 s open → allowed op open → apply_op op s = Some (s', closed) →
      close_all closed (opened op open) = Some open' → query open0 s' open'.

(** *** What a state holds *)

Definition owned (w : fd_wrapper) : list Z := FdWrapper.destruct w.

Definition held (s : dns_res_state) : list Z := owned (tcpNsSock s) ++ flat_map owned (nssocks s).

Lemma reset_closes fd w : snd (FdWrapper.reset fd w) = owned w.
Proof. done. Qed.

Lemma reset_all_spec socks :
  DnsResState.reset_all socks = (replicate (length socks) FdWrapper.construct, flat_map owned socks).
Proof. induction socks as [|w socks IH]; [done|]. cbn [DnsResState.reset_all]. rewrite IH. done. Qed.

Lemma owned_construct n : flat_map owned (replicate n FdWrapper.construct) = [].
Proof. by induction n. Qed.

(** The descriptors of the process are those there were, and those held, all
    different. *)
Definition accounted (open0 : gset Z) (l : list Z) (open : gset Z) : Prop :=
  NoDup l ∧ open = open0 ∪ list_to_set l ∧ ∀ fd, fd ∈ l → fd ∉ open0.

Lemma accounted_perm open0 l l' open : l ≡ₚ l' → accounted open0 l open → accounted open0 l' open.
Proof. intros Hp (Hnd & -> & Hnew). split; [by rewrite <- Hp|]. split; [by rewrite (list_to_set_perm_L _ _ Hp)|]. intros fd. rewrite <- Hp. apply Hnew. Qed.

Lemma close_accounted open0 l1 l2 l open :
  l ≡ₚ l1 ++ l2 → accounted open0 l open →
  ∃ open', close_all l1 open = Some open' ∧ accounted open0 l2 open'.
Proof.
  intros Hp Hacc%(accounted_perm _ _ _ _ Hp). clear l Hp. revert open Hacc.
  induction l1 as [|fd l1 IH]; intros open Hacc; cbn [close_all app] in *; [by exists open|].
  destruct Hacc as (Hnd & -> & Hnew). apply NoDup_cons in Hnd as [Hfd Hnd].
  rewrite decide_True by (cbn; set_solver). apply IH. split; [done|].
  assert (Hfd' : fd ∉ open0) by (apply Hnew; left). split.
  - cbn [list_to_set]. set_solver.
  - intros x Hx. apply Hnew. by right.
Qed.

Lemma open_accounted open0 l open fd :
  accounted open0 l open → fd ∉ open → accounted open0 (fd :: l) ({[fd]} ∪ open).
Proof.
  intros (Hnd & -> & Hnew) Hfd. split; [apply NoDup_cons; split; [set_solver|done]|]. split; [cbn; set_solver|].
  intros x [->|Hx]%elem_of_cons; [set_solver|by apply Hnew].
Qed.

Lemma opened_accounted op open0 l open :
  accounted open0 l open → allowed op open → accounted open0 (acquired op ++ l) (opened op open).
Proof.
  intros Hacc Ha. unfold opened. assert (Hsame : accounted open0 l (∅ ∪ open)) by (rewrite (left_id_L ∅ (∪)); exact Hacc).
  destruct op as [c| |k fd]; cbn [acquired app list_to_set]; [exact Hsame..|]. destruct (fd =? -1); [exact Hsame|].
  cbn [app list_to_set]. rewrite (right_id_L ∅ (∪)). apply open_accounted; [done|apply Ha].
Qed.

(** Every operation closes what it no longer holds. *)
Lemma owned_new k fd : owned (mkFd fd) = acquired (ResReset k fd).
Proof. unfold owned, FdWrapper.destruct, FdWrapper.reset. cbn. by destruct (Z.eqb_spec fd (-1)). Qed.

Lemma flat_insert socks i w w' :
  socks !! i = Some w → owned w ++ flat_map owned (<[i := w']> socks) ≡ₚ owned w' ++ flat_map owned socks.
Proof.
  revert i. induction socks as [|x socks IH]; intros [|i] Hi; cbn in Hi |- *; [done|done|..].
  - injection Hi as ->. rewrite !app_assoc. by rewrite (Permutation_app_comm (owned w)).
  - specialize (IH i Hi). rewrite !app_assoc, !(Permutation_app_comm _ (owned x)), <- !app_assoc. by rewrite IH.
Qed.

Lemma apply_holds op s open :
  allowed op open → length (nssocks s) = MAXNS →
  ∃ s' closed, apply_op op s = Some (s', closed) ∧ length (nssocks s') = MAXNS ∧ acquired op ++ held s ≡ₚ closed ++ held s'.
Proof.
  intros Ha Hl. destruct op as [[c|]| |[i|] fd]; cbn [apply_op].
  - unfold DnsResState.init. rewrite reset_all_spec. do 2 eexists. split; [done|]. unfold held. cbn.
    rewrite owned_construct, app_nil_r. split; [by rewrite length_replicate|apply Permutation_app_comm].
  - eexists _, []. split; [done|]. done.
  - unfold DnsResState.closeSockets. rewrite reset_all_spec. do 2 eexists. split; [done|]. unfold held. cbn.
    rewrite owned_construct, !app_nil_r. split; [by rewrite length_replicate|done].
  - destruct Ha as (Hi & _). destruct (lookup_lt_is_Some_2 (nssocks s) i) as [w Hw]; [lia|].
    rewrite Hw. cbn [mbind option_bind]. change (FdWrapper.reset fd w) with (mkFd fd, owned w).
    do 2 eexists. split; [done|]. unfold held. cbn [nssocks tcpNsSock with_sockets]. split; [by rewrite length_insert|].
    pose proof (flat_insert _ i w (mkFd fd) Hw) as Hp. rewrite (owned_new (Some i)) in Hp.
    by rewrite (Permutation_app_swap_app (owned w)), Hp, Permutation_app_swap_app.
  - change (FdWrapper.reset fd (tcpNsSock s)) with (mkFd fd, owned (tcpNsSock s)).
    do 2 eexists. split; [done|]. unfold held. cbn [nssocks tcpNsSock with_sockets]. split; [done|]. rewrite (owned_new None).
    apply Permutation_app_swap_app.
Qed.

Lemma query_accounted open0 s open :
  query open0 s open → length (nssocks s) = MAXNS ∧ accounted open0 (held s) open.
Proof.
  induction 1 as [|op s open s' closed open' _ [Hl Hacc] Ha Hop Hc].
  - split; [done|]. split; [constructor|]. split; [cbn; set_solver|]. intros fd Hfd. by apply not_elem_of_nil in Hfd.
  - destruct (apply_holds op s open Ha Hl) as (s1 & c1 & Hop1 & Hl1 & Hp). rewrite Hop1 in Hop. injection Hop as <- <-.
    split; [done|]. assert (Ho : accounted open0 (acquired op ++ held s) (opened op open)).
    { by apply opened_accounted. }
    destruct (close_accounted _ _ _ _ _ Hp Ho) as (o1 & Ho1 & Hacc1). rewrite Ho1 in Hc. by injection Hc as <-.
Qed.

Lemma destruct_held s : DnsResState.destruct s ≡ₚ held s.
Proof.
  unfold DnsResState.destruct, held. apply Permutation_app_head. rewrite rev_alt. change (rev_append (nssocks s) []) with (reverse (nssocks s)).
  induction (nssocks s) as [|w l IH]; [done|]. rewrite reverse_cons, flat_map_app. cbn. rewrite app_nil_r, IH. apply Permutation_app_comm.
Qed.

(** C37. The sockets of a [dns_res_state], whatever is done with it through its
    public methods and members between its construction and its destruction, in
    any order, as long as each descriptor that is put into one of its owners has
    just been opened: every [close] is of a descriptor that is open; at any time
    what is open is what was open before it and what it holds; the next
    operation is defined; and after the destructor what is open is what was open
    before. *)
Theorem fd_closed_once (open0 : gset Z) s open (Hq : query open0 s open) :
  open = open0 ∪ list_to_set (held s) ∧
  (∀ op, allowed op open →
    ∃ s' closed open', apply_op op s = Some (s', closed) ∧ close_all closed (opened op open) = Some open' ∧ query open0 s' open') ∧
  close_all (DnsResState.destruct s) open = Some open0.
Proof.
  destruct (query_accounted _ _ _ Hq) as [Hl Hacc]. split; [apply Hacc|]. split.
  - intros op Ha. destruct (apply_holds op s open Ha Hl) as (s1 & c1 & Hop & Hl1 & Hp).
    assert (Ho : accounted open0 (acquired op ++ held s) (opened op open)).
    { by apply opened_accounted. }
    destruct (close_accounted _ _ _ _ _ Hp Ho) as (o1 & Ho1 & _). exists s1, c1, o1. split; [done|]. split; [done|]. by econstructor.
  - destruct (close_accounted open0 (DnsResState.destruct s) [] (held s) open) as (o1 & Ho1 & (_ & -> & _)).
    + by rewrite app_nil_r, destruct_held.
    + done.
    + rewrite Ho1. f_equal. cbn. set_solver.
Qed.

(** A state that is given a socket, then one for TCP, and then one over the
    first. *)
Definition sockets (udp tcp : fd_wrapper) : dns_res_state :=
  with_sockets DnsResState.construct [udp; FdWrapper.construct; FdWrapper.construct; FdWrapper.construct] tcp.

Lemma fd_closed_once_witness :
  query {[ 3 ]} (sockets (mkFd 8) (mkFd 7)) {[ 3; 7; 8 ]} ∧ close_all (DnsResState.destruct (sockets (mkFd 8) (mkFd 7))) {[ 3; 7; 8 ]} = Some {[ 3 ]}.
Proof.
  assert (Hq : query {[ 3 ]} (sockets (mkFd 8) (mkFd 7)) {[ 3; 7; 8 ]}).
  { eapply (query_op _ (ResReset (Some 0%nat) 8) (sockets (mkFd 6) (mkFd 7)) {[ 3; 6; 7 ]}); [|split; [unfold MAXNS; lia|set_solver]|reflexivity|reflexivity].
    eapply (query_op _ (ResReset None 7) (sockets (mkFd 6) FdWrapper.construct) {[ 3; 6 ]}); [|split; [done|set_solver]|reflexivity|reflexivity].
    eapply (query_op _ (ResReset (Some 0%nat) 6) DnsResState.construct {[ 3 ]}); [apply query_new|split; [unfold MAXNS; lia|set_solver]|reflexivity|reflexivity]. }
  split; [exact Hq|]. exact (proj2 (proj2 (fd_closed_once _ _ _ Hq))).
Defined.

(** *** The rest *)

(** The first value of a parameter is the one that is kept. *)
Lemma addParam_first key v v' e :
  params_ (NetlinkEvent.addParam key v' (NetlinkEvent.addParam key v e)) !! key = Some (default v (params_ e !! key)).
Proof.
  unfold NetlinkEvent.addParam. cbn. destruct (params_ e !! key) eqn:Hk; cbn; [by rewrite Hk|]. rewrite lookup_insert_eq. cbn.
  apply lookup_insert_eq.
Qed.

(** An owner that is given the descriptor it has closes it and keeps it. *)
Lemma reset_own_descriptor fd :
  fd ≠ -1 → FdWrapper.reset fd (mkFd fd) = (mkFd fd, [fd]) ∧ close_all ([fd] ++ FdWrapper.destruct (mkFd fd)) {[ fd ]} = None.
Proof.
  intros Hfd. assert (Ho : FdWrapper.destruct (mkFd fd) = [fd]).
  { unfold FdWrapper.destruct, FdWrapper.reset. cbn. destruct (Z.eqb_spec fd (-1)); done. }
  split; [change (FdWrapper.reset fd (mkFd fd)) with (mkFd fd, FdWrapper.destruct (mkFd fd)); by rewrite Ho|].
  rewrite Ho. cbn [app close_all]. rewrite decide_True by set_solver. by rewrite decide_False by set_solver.
Qed.
