(* ===== verification/Log.v ===== *)
(** * The log wrapper

    [utils/log]: net_mgr_log_wrapper.h and net_mgr_log_wrapper.cpp, the level of
    the process and the short name of a file. *)

From Stdlib Require Import Ascii.
From S2P Require Import Prelude.

Inductive NetMgrLogLevel := DEBUG | INFO | WARN | ERROR | FATAL.

Definition level_value (l : NetMgrLogLevel) : Z :=
  match l with DEBUG => 0 | INFO => 1 | WARN => 2 | ERROR => 3 | FATAL => 4 end.

(** [std::string::find_last_of] of one character; [None] is [npos]. *)
Fixpoint find_last_of (c : ascii) (s : string) : option nat :=
  match s with
  | EmptyString => None
  | String x s =>
    match find_last_of c s with
    | Some p => Some (S p)
    | None => if decide (x = c) then Some 0%nat else None
    end
  end.

(** [std::string::substr] from a position that is not past the end. *)
Fixpoint substr (p : nat) (s : string) : string :=
  match p, s with
  | O, _ => s
  | S p, String _ s => substr p s
  | S _, EmptyString => EmptyString
  end.

Definition slash : ascii := ascii_of_nat 47.
Definition backslash : ascii := ascii_of_nat 92.

(** The only member is the static level. *)
Module NetMgrLogWrapper.

Definition level_ : NetMgrLogLevel := DEBUG.

Definition SetLogLevel (level : NetMgrLogLevel) : st NetMgrLogLevel unit := modify (λ _, level).

Definition GetLogLevel : st NetMgrLogLevel NetMgrLogLevel := gets (λ l, l).

Definition JudgeLevel (level : NetMgrLogLevel) : st NetMgrLogLevel bool :=
  curLevel ← GetLogLevel ;
  mret (if level_value level <? level_value curLevel then false else true).

Definition GetBriefFileName (file : string) : string :=
  match find_last_of slash file with
  | Some pos => substr (pos + 1) file
  | None =>
    match find_last_of backslash file with
    | Some pos => substr (pos + 1) file
    | None => file
    end
  end.

End NetMgrLogWrapper.
Import NetMgrLogWrapper.

(** ** Properties *)

Lemma judge_level level cur :
  (SetLogLevel cur ;; JudgeLevel level) level_ = Some (bool_decide (level_value cur <= level_value level), cur).
Proof. by destruct level, cur. Qed.

Definition has (c : ascii) (s : string) : Prop := is_Some (find_last_of c s).

(** Where the character is found: what follows has none. *)
Lemma find_last_of_split c s p :
  find_last_of c s = Some p → ∃ pre, s = pre +:+ String c (substr (p + 1) s) ∧ ¬ has c (substr (p + 1) s).
Proof.
  revert p. induction s as [|x s IH]; intros p; [done|]. cbn [find_last_of]. destruct (find_last_of c s) as [q|] eqn:Hs.
  - intros [= <-]. destruct (IH q eq_refl) as (pre & Hpre & Hno). exists (String x pre). split; [|exact Hno]. exact (f_equal (String x) Hpre).
  - destruct (decide (x = c)) as [->|]; [|done]. intros [= <-]. exists EmptyString. split; [done|]. unfold has. cbn.
    rewrite Hs. by intros [? ?].
Qed.

(** The short name is what follows the last slash; without a slash, what follows
    the last backslash; without either, the name. *)
Lemma brief_file_name file :
  (∃ pre, file = pre +:+ String slash (GetBriefFileName file) ∧ ¬ has slash (GetBriefFileName file)) ∨
  (¬ has slash file ∧
   ∃ pre, file = pre +:+ String backslash (GetBriefFileName file) ∧ ¬ has backslash (GetBriefFileName file)) ∨
  (¬ has slash file ∧ ¬ has backslash file ∧ GetBriefFileName file = file).
Proof.
  unfold GetBriefFileName. destruct (find_last_of slash file) as [p|] eqn:Hs; [left; by apply find_last_of_split|right].
  assert (Hns : ¬ has slash file) by (unfold has; rewrite Hs; by intros [? ?]).
  destruct (find_last_of backslash file) as [p|] eqn:Hb; [left|right].
  - split; [done|]. by apply find_last_of_split.
  - split; [done|]. split; [|done]. unfold has. rewrite Hb. by intros [? ?].
Qed.

(** A backslash after the last slash stays in the name. *)
Lemma brief_keeps_backslash : GetBriefFileName "src/win\log.cpp" = "win\log.cpp".
Proof. reflexivity. Qed.
