(* ===== verification/Napi.v ===== *)
(** * The JavaScript bindings: what the three modules share

    The modules [netmanager.netpolicy], [netmanager.ethernet] and
    [netmanager.dnsresolver] (frameworks/js) give a script asynchronous
    functions. A function takes its arguments over into a context on the heap
    and queues a work; a thread of the pool runs the [Exec] function of the
    work, which calls the client library; then the thread of the script runs its
    [Complete] function, which settles the promise or calls the callback, and
    releases everything.

    The engine is the interface [Napi]: each of its functions may fail, and
    [None] is a status other than [napi_ok]. A [napi_value] is a pointer, null or
    to a value of the engine. The other handles, which it makes and takes back,
    are numbers that are given out in order. [nm] is the code of the bindings:
    [None] is undefined behaviour, such as the use of a handle or a context that
    is released, and [Some (None, j)] is an early return of [NAPI_CALL]. *)

From S2P Require Import Prelude CppStrings.


Definition napi_value : Type := option nat.

Inductive napi_valuetype :=
  | napi_undefined | napi_null | napi_boolean | napi_number | napi_string
  | napi_symbol | napi_object | napi_function | napi_external.

#[export] Instance napi_valuetype_eq_dec : EqDecision napi_valuetype.
Proof. solve_decision. Defined.

(** A property of [napi_define_properties]: a value, or the function [f]. *)
Inductive property (F : Type) : Type :=
  | DECLARE_NAPI_STATIC_PROPERTY (name : string) (value : napi_value)
  | DECLARE_NAPI_FUNCTION (name : string) (f : F).
Arguments DECLARE_NAPI_STATIC_PROPERTY {F}.
Arguments DECLARE_NAPI_FUNCTION {F}.

(** The engine. [napi_get_cb_info] takes the handle of the call and the length of
    [argv], and gives [argv] and the number of arguments; the strings are the
    bytes before the final NUL; [throw_last_error] is what [NAPI_CALL] does
    before it returns. The names of a promise, a reference and a work are
    arguments of the functions that make them. *)
Class Napi (E : Type) := {
  napi_get_cb_info : nat → nat → E → option (list napi_value * nat) * E;
  napi_get_value_string_utf8 : napi_value → Z → E → option string * E;
  napi_get_value_int32 : napi_value → E → option Z * E;
  napi_get_value_uint32 : napi_value → E → option Z * E;
  napi_get_value_bool : napi_value → E → option bool * E;
  napi_typeof : napi_value → E → option napi_valuetype * E;
  napi_get_named_property : napi_value → string → E → option nat * E;
  napi_get_undefined : E → option nat * E;
  napi_create_int32 : Z → E → option nat * E;
  napi_create_uint32 : Z → E → option nat * E;
  napi_create_string_utf8 : string → E → option nat * E;
  napi_create_error : napi_value → napi_value → E → option nat * E;
  napi_create_object : E → option nat * E;
  napi_create_array_with_length : nat → E → option nat * E;
  napi_set_named_property : napi_value → string → napi_value → E → option unit * E;
  napi_set_element : napi_value → nat → napi_value → E → option unit * E;
  napi_define_properties : ∀ {F : Type}, napi_value → list (property F) → E → option unit * E;
  napi_create_promise : nat → E → option nat * E;
  napi_resolve_deferred : option nat → napi_value → E → option unit * E;
  napi_reject_deferred : option nat → napi_value → E → option unit * E;
  napi_create_reference : nat → napi_value → Z → E → option unit * E;
  napi_get_reference_value : nat → E → option nat * E;
  napi_delete_reference : nat → E → option unit * E;
  napi_call_function : napi_value → napi_value → list napi_value → E → option unit * E;
  napi_create_async_work : nat → napi_value → napi_value → E → option unit * E;
  napi_queue_async_work : nat → E → option unit * E;
  napi_delete_async_work : option nat → E → option unit * E;
  throw_last_error : E → E;
}.

(** [napi_create_array] *)
Definition napi_create_array {E} `{Napi E} : E → option nat * E := napi_create_array_with_length 0.

(** ** The state of a module *)

(** [struct <X>AsyncContext], with the fields of the module in [data]. *)
Record context (D : Type) := mkContext {
  work : option nat;
  deferred : option nat;
  callbackRef : option nat;
  data : D;
}.
Arguments mkContext {D}.
Arguments work {D}.
Arguments deferred {D}.
Arguments callbackRef {D}.
Arguments data {D}.

(** What reached the script, in the state of the engine in which it did: a
    promise that was settled, or a callback that was called. *)
Inductive delivery (E : Type) :=
  | Resolved (d : nat) (value : napi_value) (e : E)
  | Rejected (d : nat) (reason : napi_value) (e : E)
  | Called (r : nat) (func : napi_value) (argv : list napi_value) (e : E).
Arguments Resolved {E}.
Arguments Rejected {E}.
Arguments Called {E}.

(** The engine, what the [Exec] functions work on, the contexts on the heap, the
    works that were made and not deleted, each with its functions and its
    context, the references and the promises that are pending, the works that
    wait for a thread and those that wait for the script, the next number, and
    what reached the script. *)
Record jworld (E W D O : Type) := mkJ {
  j_engine : E;
  j_native : W;
  j_contexts : gmap nat (context D);
  j_works : gmap nat (O * nat);
  j_refs : gset nat;
  j_deferreds : gset nat;
  j_queue : list nat;
  j_done : list nat;
  j_next : nat;
  j_log : list (delivery E);
}.
Arguments mkJ {E W D O}.
Arguments j_engine {E W D O}.
Arguments j_native {E W D O}.
Arguments j_contexts {E W D O}.
Arguments j_works {E W D O}.
Arguments j_refs {E W D O}.
Arguments j_deferreds {E W D O}.
Arguments j_queue {E W D O}.
Arguments j_done {E W D O}.
Arguments j_next {E W D O}.
Arguments j_log {E W D O}.

Definition module_load {E W D O} (e : E) (w : W) : jworld E W D O := mkJ e w ∅ ∅ ∅ ∅ [] [] 0 [].

(** ** The code of the bindings *)

Definition nm (E W D O A : Type) : Type := jworld E W D O → option (option A * jworld E W D O).

#[export] Instance nm_ret E W D O : MRet (nm E W D O) := λ A a j, Some (Some a, j).
#[export] Instance nm_bind E W D O : MBind (nm E W D O) := λ A B k m j,
  match m j with
  | Some (Some a, j') => k a j'
  | Some (None, j') => Some (None, j')
  | None => None
  end.

Section Code.
Context {E W D O : Type} `{Napi E}.
Implicit Type j : jworld E W D O.
#[local] Abbreviation nm := (nm E W D O).

Definition upd_engine (e : E) j : jworld E W D O :=
  mkJ e (j_native j) (j_contexts j) (j_works j) (j_refs j) (j_deferreds j) (j_queue j) (j_done j) (j_next j) (j_log j).
Definition upd_native (w : W) j : jworld E W D O :=
  mkJ (j_engine j) w (j_contexts j) (j_works j) (j_refs j) (j_deferreds j) (j_queue j) (j_done j) (j_next j) (j_log j).
Definition upd_contexts (f : gmap nat (context D) → gmap nat (context D)) j : jworld E W D O :=
  mkJ (j_engine j) (j_native j) (f (j_contexts j)) (j_works j) (j_refs j) (j_deferreds j) (j_queue j) (j_done j) (j_next j) (j_log j).
Definition upd_works (f : gmap nat (O * nat) → gmap nat (O * nat)) j : jworld E W D O :=
  mkJ (j_engine j) (j_native j) (j_contexts j) (f (j_works j)) (j_refs j) (j_deferreds j) (j_queue j) (j_done j) (j_next j) (j_log j).
Definition upd_refs (f : gset nat → gset nat) j : jworld E W D O :=
  mkJ (j_engine j) (j_native j) (j_contexts j) (j_works j) (f (j_refs j)) (j_deferreds j) (j_queue j) (j_done j) (j_next j) (j_log j).
Definition upd_deferreds (f : gset nat → gset nat) j : jworld E W D O :=
  mkJ (j_engine j) (j_native j) (j_contexts j) (j_works j) (j_refs j) (f (j_deferreds j)) (j_queue j) (j_done j) (j_next j) (j_log j).
Definition upd_pool (queue don : list nat) j : jworld E W D O :=
  mkJ (j_engine j) (j_native j) (j_contexts j) (j_works j) (j_refs j) (j_deferreds j) queue don (j_next j) (j_log j).
Definition upd_next (n : nat) j : jworld E W D O :=
  mkJ (j_engine j) (j_native j) (j_contexts j) (j_works j) (j_refs j) (j_deferreds j) (j_queue j) (j_done j) n (j_log j).
Definition upd_log (x : delivery E) j : jworld E W D O :=
  mkJ (j_engine j) (j_native j) (j_contexts j) (j_works j) (j_refs j) (j_deferreds j) (j_queue j) (j_done j) (j_next j)
    (j_log j ++ [x]).

Definition ngets {A} (f : jworld E W D O → A) : nm A := λ j, Some (Some (f j), j).
Definition nmodify (f : jworld E W D O → jworld E W D O) : nm unit := λ j, Some (Some tt, f j).
Definition nub {A} : nm A := λ _, None.

(** A call of the engine whose status is not looked at. *)
Definition napi {A} (f : E → option A * E) : nm (option A) := λ j,
  let '(o, e) := f (j_engine j) in Some (Some o, upd_engine e j).

(** [NAPI_CALL(env, f)] *)
Definition NAPI_CALL {A} (f : E → option A * E) : nm A :=
  status ← napi f ;
  match status with
  | Some a => mret a
  | None => λ j, Some (None, upd_engine (throw_last_error (j_engine j)) j)
  end.

(** The call of a function that returns nothing: its early return is not one of
    the caller. *)
Definition void (m : nm unit) : nm unit := λ j,
  match m j with Some (_, j') => Some (Some tt, j') | None => None end.

(** The call of a function that returns a value, a null pointer when it returns early. *)
Definition void_value (m : nm napi_value) : nm napi_value := λ j,
  match m j with Some (v, j') => Some (Some (mjoin v), j') | None => None end.

(** A call of the client library. *)
Definition native {A} (m : st W A) : nm A := λ j,
  match m (j_native j) with Some (a, w) => Some (Some a, upd_native w j) | None => None end.

Definition fresh_name : nm nat := n ← ngets j_next ; nmodify (upd_next (n + 1)) ;; mret n.

(** [std::make_unique<XAsyncContext>().release()] *)
Definition new_context (x : D) : nm nat :=
  p ← fresh_name ;
  nmodify (upd_contexts <[p := mkContext None None None x]>) ;; mret p.

Definition load (p : nat) : nm (context D) := λ j,
  match j_contexts j !! p with Some c => Some (Some c, j) | None => None end.

Definition store (p : nat) (f : context D → context D) : nm unit :=
  c ← load p ; nmodify (upd_contexts <[p := f c]>).

Definition set_work (w : nat) (c : context D) : context D := mkContext (Some w) (deferred c) (callbackRef c) (data c).
Definition set_deferred (d : nat) (c : context D) : context D := mkContext (work c) (Some d) (callbackRef c) (data c).
Definition set_callbackRef (r : nat) (c : context D) : context D := mkContext (work c) (deferred c) (Some r) (data c).
Definition set_data (x : D) (c : context D) : context D := mkContext (work c) (deferred c) (callbackRef c) x.

(** [context->field = ...] for a field of the module. *)
Definition put (p : nat) (f : D → D) : nm unit := store p (λ c, set_data (f (data c)) c).

(** [delete context;] *)
Definition delete_context (p : nat) : nm unit := load p ;; nmodify (upd_contexts (delete p)).

(** *** The handles of the engine *)

(** [napi_create_promise(env, &context->deferred, &result)] *)
Definition create_promise (p : nat) : nm napi_value :=
  d ← fresh_name ;
  v ← NAPI_CALL (napi_create_promise d) ;
  nmodify (upd_deferreds ({[d]} ∪.)) ;;
  store p (set_deferred d) ;;
  mret (Some v).

(** [napi_create_reference(env, value, CALLBACK_REF_CNT, &context->callbackRef)] *)
Definition CALLBACK_REF_CNT : Z := 1.

Definition create_reference (value : napi_value) (p : nat) : nm unit :=
  r ← fresh_name ;
  NAPI_CALL (napi_create_reference r value CALLBACK_REF_CNT) ;;
  nmodify (upd_refs ({[r]} ∪.)) ;;
  store p (set_callbackRef r).

(** [napi_create_async_work(env, resource, resourceName, Exec, Complete, context, &context->work)] for the
    functions [op]. *)
Definition create_async_work (resource resourceName : napi_value) (op : O) (p : nat) : nm unit :=
  w ← fresh_name ;
  NAPI_CALL (napi_create_async_work w resource resourceName) ;;
  nmodify (upd_works <[w := (op, p)]>) ;;
  store p (set_work w).

Definition queue_async_work (w : option nat) : nm unit :=
  match w with
  | None => nub
  | Some w =>
    works ← ngets j_works ;
    match works !! w with
    | None => nub
    | Some _ =>
      NAPI_CALL (napi_queue_async_work w) ;;
      nmodify (λ j, upd_pool (j_queue j ++ [w]) (j_done j) j)
    end
  end.

(** [napi_resolve_deferred] and [napi_reject_deferred] use the promise up. *)
Definition settle (f : option nat → napi_value → E → option unit * E)
    (entry : nat → napi_value → E → delivery E) (d : option nat) (v : napi_value) : nm unit :=
  deferreds ← ngets j_deferreds ;
  e ← ngets j_engine ;
  match d with
  | None => NAPI_CALL (f None v)
  | Some d =>
    if decide (d ∈ deferreds) then
      NAPI_CALL (f (Some d) v) ;;
      nmodify (upd_deferreds (.∖ {[d]})) ;;
      nmodify (upd_log (entry d v e))
    else nub
  end.

Definition resolve_deferred : option nat → napi_value → nm unit := settle napi_resolve_deferred Resolved.
Definition reject_deferred : option nat → napi_value → nm unit := settle napi_reject_deferred Rejected.

(** [func] is the function of the reference [r]. *)
Definition call_function (r : nat) (recv func : napi_value) (argv : list napi_value) : nm unit :=
  e ← ngets j_engine ;
  napi (napi_call_function recv func argv) ;;
  nmodify (upd_log (Called r func argv e)).

Definition get_reference_value (r : nat) : nm napi_value :=
  refs ← ngets j_refs ;
  if decide (r ∈ refs) then napi (napi_get_reference_value r) else nub.

Definition delete_reference (r : nat) : nm unit :=
  refs ← ngets j_refs ;
  if decide (r ∈ refs) then
    ok ← napi (napi_delete_reference r) ;
    match ok with Some _ => nmodify (upd_refs (.∖ {[r]})) | None => mret tt end
  else nub.

Definition delete_async_work (w : option nat) : nm unit :=
  works ← ngets j_works ;
  let delete ok := match ok : option unit, w with Some _, Some w => nmodify (upd_works (delete w)) | _, _ => mret tt end in
  match w with
  | Some w' => if decide (is_Some (works !! w')) then ok ← napi (napi_delete_async_work w) ; delete ok else nub
  | None => ok ← napi (napi_delete_async_work w) ; delete ok
  end.

(** ** What the functions of the three modules share *)

(** The promise, when no callback is kept. *)
Definition give_promise (p : nat) : nm napi_value :=
  c ← load p ;
  match callbackRef c with
  | None => create_promise p
  | Some _ => v ← NAPI_CALL napi_get_undefined ; mret (Some v)
  end.

(** From [napi_value resource = nullptr;] to [return result;]. *)
Definition create_work (name : string) (op : O) (p : nat) (result : napi_value) : nm napi_value :=
  resource ← NAPI_CALL napi_get_undefined ;
  resourceName ← NAPI_CALL (napi_create_string_utf8 name) ;
  create_async_work (Some resource) (Some resourceName) op p ;;
  c ← load p ;
  queue_async_work (work c) ;;
  mret result.

(** The end of a [Complete] function: it settles the promise, or calls the
    callback with [reason] or with [value], and releases what the call has kept. *)
Definition call_back (r : nat) (argv : list napi_value) : nm unit :=
  recv ← napi napi_get_undefined ;
  callbackFunc ← get_reference_value r ;
  call_function r recv callbackFunc argv ;;
  delete_reference r.

Definition finish (p : nat) : nm unit :=
  c ← load p ;
  delete_async_work (work c) ;;
  delete_context p.

Definition complete (p : nat) (promiseFails callbackFails : bool) (reason value : napi_value) : nm unit :=
  c ← load p ;
  match callbackRef c with
  | None =>
    if promiseFails then reject_deferred (deferred c) reason else resolve_deferred (deferred c) value
  | Some r => call_back r (if callbackFails then [reason; None] else [None; value])
  end ;;
  finish p.

(** [argv[i]] *)
Definition arg (argv : list napi_value) (i : nat) : napi_value := mjoin (argv !! i).

(** A function of [void *data], which may be null. *)
Definition with_context (data : option nat) (m : nat → nm unit) : nm unit :=
  match data with
  | None => mret tt
  | Some p => m p
  end.

(** [for (index ...) { create(l[index], &info); napi_set_element(env, array, index, info); }]; the last [info]. *)
Fixpoint set_elements {A} (create : A → E → option nat * E) (array : napi_value) (index : nat) (l : list A)
    (info : napi_value) : nm napi_value :=
  match l with
  | [] => mret info
  | x :: l' =>
    made ← napi (create x) ;
    let info := match made with Some v => Some v | None => info end in
    napi (napi_set_element array index info) ;;
    set_elements create array (index + 1) l' info
  end.

End Code.

(** ** napi_common.cpp *)

Module NapiCommon.
Section Code.
Context {E W D O : Type} `{Napi E}.
#[local] Abbreviation nm := (nm E W D O).

Definition PROPERTY_MAX_BYTE : Z := 128.
Definition BUFFER_BYTE : Z := 64.

Definition CreateCodeMessage (msg : string) (code : Z) : nm napi_value :=
  messageInfo ← NAPI_CALL (napi_create_string_utf8 msg) ;
  codeInfo ← NAPI_CALL (napi_create_string_utf8 (to_string code)) ;
  v ← NAPI_CALL (napi_create_error (Some codeInfo) (Some messageInfo)) ;
  mret (Some v).

Definition SetPropertyInt32 (object : napi_value) (propertyName : string) (property : Z) : nm unit :=
  propertyDest ← NAPI_CALL (napi_create_int32 property) ;
  NAPI_CALL (napi_set_named_property object propertyName (Some propertyDest)).

Definition SetPropertyString (object : napi_value) (propertyName property : string) : nm unit :=
  propertyDest ← NAPI_CALL (napi_create_string_utf8 property) ;
  NAPI_CALL (napi_set_named_property object propertyName (Some propertyDest)).

(** [property] is written through [set]. *)
Definition GetPropertyString (object : napi_value) (propertyName : string) (set : string → nm unit) : nm unit :=
  value ← NAPI_CALL (napi_get_named_property object propertyName) ;
  propertyBuffer ← NAPI_CALL (napi_get_value_string_utf8 (Some value) PROPERTY_MAX_BYTE) ;
  set (c_str propertyBuffer).

Definition GetPropertyInt32 (object : napi_value) (propertyName : string) (set : Z → nm unit) : nm unit :=
  value ← NAPI_CALL (napi_get_named_property object propertyName) ;
  property ← NAPI_CALL (napi_get_value_int32 (Some value)) ;
  set property.

Definition NapiValueByInt32 (property : Z) : nm napi_value :=
  value ← NAPI_CALL (napi_create_int32 property) ;
  mret (Some value).

End Code.
End NapiCommon.

(** ** The modules and the threads

    [b_call op] is the function that the script calls, [b_exec op] and
    [b_complete op] are the two of its work. *)
Class Binding (E W D O : Type) `{Napi E} := {
  b_call : O → nat → nm E W D O napi_value;
  b_exec : O → option nat → nm E W D O unit;
  b_complete : O → option nat → nm E W D O unit;
}.

Section Threads.
Context {E W D O : Type} `{Binding E W D O}.

Definition run {A} (m : nm E W D O A) : st (jworld E W D O) (option A) := m.

(** The script calls a function; an early return gives it a null pointer. *)
Definition call (op : O) (info : nat) : st (jworld E W D O) napi_value :=
  v ← run (b_call op info) ; mret (mjoin v).

(** A thread of the pool runs [Exec] for a work that waits. The pool has several
    threads, and the whole of [Exec], from the context through the client library
    to the service and back, is one step here: the works take effect one after
    another by this definition. In the code they share nothing but the client
    library, which takes its mutex in [GetProxy] and [OnRemoteDied], and the
    service, where only some take one. *)
Definition execute (w : nat) : st (jworld E W D O) unit :=
  works ← gets j_works ;
  match works !! w with
  | None => ub
  | Some (op, p) =>
    run (b_exec op (Some p)) ;;
    modify (λ j, upd_pool (filter (.≠ w) (j_queue j)) (j_done j ++ [w]) j)
  end.

(** The thread of the script runs [Complete] for a work that is done. *)
Definition conclude (w : nat) : st (jworld E W D O) unit :=
  works ← gets j_works ;
  match works !! w with
  | None => ub
  | Some (op, p) =>
    modify (λ j, upd_pool (j_queue j) (filter (.≠ w) (j_done j)) j) ;;
    run (b_complete op (Some p)) ;;
    mret tt
  end.

End Threads.
