(* ===== verification/NapiPolicy.v ===== *)
(** * The JavaScript bindings of the policy service

    [napi_net_policy.cpp]: the module [netmanager.netpolicy]. *)

From S2P Require Import Prelude CppStrings Ipc Policy Client Clients Napi.
Import NapiCommon.

(** [struct NetPolicyAsyncContext], its own fields. *)
Record NetPolicyData := mkNetPolicyData {
  uid : Z;
  policy : Z;
  policyResult : Z;
  uidTogether : list Z;
  result : bool;
  metered : bool;
  interfaceName : string;
}.

Definition NetPolicyData_default : NetPolicyData := mkNetPolicyData 0 0 0 [] false false "".

Definition set_uid (x : Z) (d : NetPolicyData) : NetPolicyData :=
  mkNetPolicyData x (policy d) (policyResult d) (uidTogether d) (result d) (metered d) (interfaceName d).
Definition set_policy (x : Z) (d : NetPolicyData) : NetPolicyData :=
  mkNetPolicyData (uid d) x (policyResult d) (uidTogether d) (result d) (metered d) (interfaceName d).
Definition set_policyResult (x : Z) (d : NetPolicyData) : NetPolicyData :=
  mkNetPolicyData (uid d) (policy d) x (uidTogether d) (result d) (metered d) (interfaceName d).
Definition set_uidTogether (x : list Z) (d : NetPolicyData) : NetPolicyData :=
  mkNetPolicyData (uid d) (policy d) (policyResult d) x (result d) (metered d) (interfaceName d).
Definition set_result (x : bool) (d : NetPolicyData) : NetPolicyData :=
  mkNetPolicyData (uid d) (policy d) (policyResult d) (uidTogether d) x (metered d) (interfaceName d).
Definition set_metered (x : bool) (d : NetPolicyData) : NetPolicyData :=
  mkNetPolicyData (uid d) (policy d) (policyResult d) (uidTogether d) (result d) x (interfaceName d).
Definition set_interfaceName (x : string) (d : NetPolicyData) : NetPolicyData :=
  mkNetPolicyData (uid d) (policy d) (policyResult d) (uidTogether d) (result d) (metered d) x.

(** The functions of the module. *)
Inductive policy_op := OpSetUidPolicy | OpGetUidPolicy | OpGetUids | OpIsUidNetAccess.

Module NapiNetPolicy.
Section Code.
Context {E S : Type} `{Napi E} `{RemoteObjects S} `{SystemAbilities}.
Context (object : nat → INetPolicyService S).
#[local] Abbreviation nm := (nm E (cworld S) NetPolicyData policy_op).

(** *** On a thread of the pool

    The type that is under [NetUidPolicy] is [int]. *)

Definition ExecSetUidPolicy (data : option nat) : nm unit :=
  with_context data (λ context,
  c ← load context ;
  let d := Napi.data c in
  r ← native (NetPolicyClient.SetUidPolicy object (uid d) (to_i 32 (policy d))) ;
  put context (set_policyResult (to_i 32 r))).

Definition ExecGetUids (data : option nat) : nm unit :=
  with_context data (λ context,
  c ← load context ;
  l ← native (NetPolicyClient.GetUids object (to_i 32 (policy (Napi.data c)))) ;
  put context (set_uidTogether l)).

Definition ExecGetUidPolicy (data : option nat) : nm unit :=
  with_context data (λ context,
  c ← load context ;
  r ← native (NetPolicyClient.GetUidPolicy object (uid (Napi.data c))) ;
  put context (set_policyResult (to_i 32 r))).

Definition ExecIsUidNetAccess (data : option nat) : nm unit :=
  with_context data (λ context,
  c ← load context ;
  let d := Napi.data c in
  if (0 <? String.length (interfaceName d))%nat then
    r ← native (NetPolicyClient.IsUidNetAccessIface object (uid d) (interfaceName d)) ;
    put context (set_result r)
  else
    r ← native (NetPolicyClient.IsUidNetAccess object (uid d) (metered d)) ;
    put context (set_result r)).

(** *** On the thread of the script *)

Definition CompleteSetUidPolicy (data : option nat) : nm unit :=
  with_context data (λ context,
  c ← load context ;
  info ← napi (napi_create_int32 (policyResult (Napi.data c))) ;
  let fails := negb (policyResult (Napi.data c) =? ERR_NONE) in
  complete context fails fails info info).

(** The element that [napi_create_uint32] does not make is not initialised. *)
Fixpoint set_uids (info : napi_value) (i : nat) (res : list Z) : nm unit :=
  match res with
  | [] => mret tt
  | u :: res' =>
    num ← napi (napi_create_uint32 u) ;
    match num with
    | None => nub
    | Some num => napi (napi_set_element info i (Some num)) ;; set_uids info (i + 1) res'
    end
  end.

Definition CompleteGetUids (data : option nat) : nm unit :=
  with_context data (λ context,
  c ← load context ;
  info ← napi napi_create_array ;
  set_uids info 0 (uidTogether (Napi.data c)) ;;
  complete context false false None info).

Definition CompleteGetUidPolicy (data : option nat) : nm unit :=
  with_context data (λ context,
  c ← load context ;
  info ← napi (napi_create_int32 (policyResult (Napi.data c))) ;
  complete context false false None info).

Definition CompleteIsUidNetAccess (data : option nat) : nm unit :=
  with_context data (λ context,
  c ← load context ;
  info ← napi (napi_create_int32 (if result (Napi.data c) then 1 else 0)) ;
  let fails := negb (result (Napi.data c)) in
  complete context fails fails info info).

(** *** What the script calls *)

Definition SetUidPolicy (info : nat) : nm napi_value :=
  '(argv, argc) ← NAPI_CALL (napi_get_cb_info info 3) ;
  context ← new_context NetPolicyData_default ;
  u ← NAPI_CALL (napi_get_value_uint32 (arg argv 0)) ; put context (set_uid u) ;;
  p ← NAPI_CALL (napi_get_value_uint32 (arg argv 1)) ; put context (set_policy p) ;;
  result ←
    (if decide (argc = 2%nat) then give_promise context
     else if decide (argc = 3%nat) then create_reference (arg argv 2) context ;; mret None
     else mret None) ;
  create_work "SetUidPolicy" OpSetUidPolicy context result.

(** The names of [GetUidPolicy] and of [GetUids] are both [getUids]. *)
Definition GetUidPolicy (info : nat) : nm napi_value :=
  '(argv, argc) ← NAPI_CALL (napi_get_cb_info info 2) ;
  context ← new_context NetPolicyData_default ;
  u ← NAPI_CALL (napi_get_value_uint32 (arg argv 0)) ; put context (set_uid u) ;;
  result ←
    (if decide (argc = 1%nat) then give_promise context
     else if decide (argc = 2%nat) then create_reference (arg argv 1) context ;; mret None
     else mret None) ;
  create_work "getUids" OpGetUidPolicy context result.

Definition GetUids (info : nat) : nm napi_value :=
  '(argv, argc) ← NAPI_CALL (napi_get_cb_info info 2) ;
  context ← new_context NetPolicyData_default ;
  p ← NAPI_CALL (napi_get_value_uint32 (arg argv 0)) ; put context (set_policy p) ;;
  result ←
    (if decide (argc = 1%nat) then give_promise context
     else if decide (argc = 2%nat) then create_reference (arg argv 1) context ;; mret None
     else mret None) ;
  create_work "getUids" OpGetUids context result.

(** The buffer for the name is empty before. *)
Definition IsUidNetAccess (info : nat) : nm napi_value :=
  '(argv, argc) ← NAPI_CALL (napi_get_cb_info info 3) ;
  context ← new_context NetPolicyData_default ;
  u ← NAPI_CALL (napi_get_value_uint32 (arg argv 0)) ; put context (set_uid u) ;;
  type ← napi (napi_typeof (arg argv 1)) ;
  let valueType := default napi_undefined type in
  (if decide (valueType = napi_boolean) then
     b ← NAPI_CALL (napi_get_value_bool (arg argv 1)) ; put context (set_metered b)
   else mret tt) ;;
  (if decide (valueType = napi_string) then
     buf ← napi (napi_get_value_string_utf8 (arg argv 1) BUFFER_BYTE) ;
     put context (set_interfaceName (c_str (default "" buf)))
   else mret tt) ;;
  result ←
    (if decide (argc = 2%nat) then give_promise context
     else if decide (argc = 3%nat) then create_reference (arg argv 2) context ;; mret None
     else mret None) ;
  create_work "IsUidNetAccess" OpIsUidNetAccess context result.

(** *** The module *)

Definition DeclareNapiNetPolicyData (exports : napi_value) : nm napi_value :=
  v0 ← void_value (NapiValueByInt32 NET_POLICY_NONE) ;
  v1 ← void_value (NapiValueByInt32 NET_POLICY_ALLOW_METERED_BACKGROUND) ;
  v2 ← void_value (NapiValueByInt32 NET_POLICY_TEMPORARY_ALLOW_METERED) ;
  v3 ← void_value (NapiValueByInt32 NET_POLICY_REJECT_METERED_BACKGROUND) ;
  v4 ← void_value (NapiValueByInt32 NET_POLICY_ALLOW_ALL) ;
  v5 ← void_value (NapiValueByInt32 NET_POLICY_REJECT_ALL) ;
  NAPI_CALL (napi_define_properties (F := policy_op) exports
    [DECLARE_NAPI_STATIC_PROPERTY "NET_POLICY_NONE" v0;
     DECLARE_NAPI_STATIC_PROPERTY "NET_POLICY_ALLOW_METERED_BACKGROUND" v1;
     DECLARE_NAPI_STATIC_PROPERTY "NET_POLICY_TEMPORARY_ALLOW_METERED" v2;
     DECLARE_NAPI_STATIC_PROPERTY "NET_POLICY_REJECT_METERED_BACKGROUND" v3;
     DECLARE_NAPI_STATIC_PROPERTY "NET_POLICY_ALLOW_ALL" v4;
     DECLARE_NAPI_STATIC_PROPERTY "NET_POLICY_REJECT_ALL" v5]) ;;
  mret exports.

Definition DeclareNapiNetPolicyResultData (exports : napi_value) : nm napi_value :=
  v0 ← void_value (NapiValueByInt32 ERR_NONE) ;
  v1 ← void_value (NapiValueByInt32 ERR_INTERNAL_ERROR) ;
  v2 ← void_value (NapiValueByInt32 ERR_INVALID_UID) ;
  v3 ← void_value (NapiValueByInt32 ERR_INVALID_POLICY) ;
  NAPI_CALL (napi_define_properties (F := policy_op) exports
    [DECLARE_NAPI_STATIC_PROPERTY "ERR_NONE" v0;
     DECLARE_NAPI_STATIC_PROPERTY "ERR_INTERNAL_ERROR" v1;
     DECLARE_NAPI_STATIC_PROPERTY "ERR_INVALID_UID" v2;
     DECLARE_NAPI_STATIC_PROPERTY "ERR_INVALID_POLICY" v3]) ;;
  mret exports.

Definition DeclareNapiNetPolicyInterface (exports : napi_value) : nm napi_value :=
  NAPI_CALL (napi_define_properties exports
    [DECLARE_NAPI_FUNCTION "setUidPolicy" OpSetUidPolicy;
     DECLARE_NAPI_FUNCTION "getUidPolicy" OpGetUidPolicy;
     DECLARE_NAPI_FUNCTION "getUids" OpGetUids;
     DECLARE_NAPI_FUNCTION "isUidNetAccess" OpIsUidNetAccess]) ;;
  mret exports.

Definition RegisterNetPolicyInterface (exports : napi_value) : nm napi_value :=
  void_value (DeclareNapiNetPolicyInterface exports) ;;
  void_value (DeclareNapiNetPolicyData exports) ;;
  void_value (DeclareNapiNetPolicyResultData exports) ;;
  mret None.

#[export] Instance binding : Binding E (cworld S) NetPolicyData policy_op := {|
  b_call op := match op with
    | OpSetUidPolicy => SetUidPolicy | OpGetUidPolicy => GetUidPolicy
    | OpGetUids => GetUids | OpIsUidNetAccess => IsUidNetAccess end;
  b_exec op := match op with
    | OpSetUidPolicy => ExecSetUidPolicy | OpGetUidPolicy => ExecGetUidPolicy
    | OpGetUids => ExecGetUids | OpIsUidNetAccess => ExecIsUidNetAccess end;
  b_complete op := match op with
    | OpSetUidPolicy => CompleteSetUidPolicy | OpGetUidPolicy => CompleteGetUidPolicy
    | OpGetUids => CompleteGetUids | OpIsUidNetAccess => CompleteIsUidNetAccess end;
|}.

End Code.
End NapiNetPolicy.
