(* ===== verification/NapiEthernet.v ===== *)
(** * The JavaScript bindings of the ethernet service

    [napi_ethernet.cpp]: the module [netmanager.ethernet]. *)

From S2P Require Import Prelude CppStrings Parcelables Ipc ConnState Client Clients Napi.
Import NapiCommon.

Definition ETHERNET_NAME_MAX_BYTE : Z := 32.

(** [struct EthernetAsyncContext], its own fields. The array [ethernetName] is
    the string up to its first NUL, which is all that is read of it;
    [ethernetNameRealBytes] is written and never read, and left out. *)
Record EthernetData := mkEthernetData {
  ethernetName : string;
  ifActivate : Z;
  ethernetNameList : list string;
  ipMode : Z;
  ipAddrInfo : string;
  routeAddrInfo : string;
  gateAddrInfo : string;
  maskAddrInfo : string;
  dns0AddrInfo : string;
  dns1AddrInfo : string;
  result : Z;
}.

Definition EthernetData_default : EthernetData := mkEthernetData "" 0 [] 0 "" "" "" "" "" "" 0.

Definition set_ethernetName (s : string) (d : EthernetData) : EthernetData :=
  mkEthernetData s (ifActivate d) (ethernetNameList d) (ipMode d) (ipAddrInfo d)
    (routeAddrInfo d) (gateAddrInfo d) (maskAddrInfo d) (dns0AddrInfo d) (dns1AddrInfo d) (result d).
Definition set_ifActivate (x : Z) (d : EthernetData) : EthernetData :=
  mkEthernetData (ethernetName d) x (ethernetNameList d) (ipMode d) (ipAddrInfo d)
    (routeAddrInfo d) (gateAddrInfo d) (maskAddrInfo d) (dns0AddrInfo d) (dns1AddrInfo d) (result d).
Definition set_ethernetNameList (l : list string) (d : EthernetData) : EthernetData :=
  mkEthernetData (ethernetName d) (ifActivate d) l (ipMode d) (ipAddrInfo d)
    (routeAddrInfo d) (gateAddrInfo d) (maskAddrInfo d) (dns0AddrInfo d) (dns1AddrInfo d) (result d).
Definition set_ipMode (x : Z) (d : EthernetData) : EthernetData :=
  mkEthernetData (ethernetName d) (ifActivate d) (ethernetNameList d) x (ipAddrInfo d)
    (routeAddrInfo d) (gateAddrInfo d) (maskAddrInfo d) (dns0AddrInfo d) (dns1AddrInfo d) (result d).
Definition set_ipAddrInfo (s : string) (d : EthernetData) : EthernetData :=
  mkEthernetData (ethernetName d) (ifActivate d) (ethernetNameList d) (ipMode d) s
    (routeAddrInfo d) (gateAddrInfo d) (maskAddrInfo d) (dns0AddrInfo d) (dns1AddrInfo d) (result d).
Definition set_routeAddrInfo (s : string) (d : EthernetData) : EthernetData :=
  mkEthernetData (ethernetName d) (ifActivate d) (ethernetNameList d) (ipMode d)
    (ipAddrInfo d) s (gateAddrInfo d) (maskAddrInfo d) (dns0AddrInfo d) (dns1AddrInfo d) (result d).
Definition set_gateAddrInfo (s : string) (d : EthernetData) : EthernetData :=
  mkEthernetData (ethernetName d) (ifActivate d) (ethernetNameList d) (ipMode d)
    (ipAddrInfo d) (routeAddrInfo d) s (maskAddrInfo d) (dns0AddrInfo d) (dns1AddrInfo d) (result d).
Definition set_maskAddrInfo (s : string) (d : EthernetData) : EthernetData :=
  mkEthernetData (ethernetName d) (ifActivate d) (ethernetNameList d) (ipMode d)
    (ipAddrInfo d) (routeAddrInfo d) (gateAddrInfo d) s (dns0AddrInfo d) (dns1AddrInfo d) (result d).
Definition set_dns0AddrInfo (s : string) (d : EthernetData) : EthernetData :=
  mkEthernetData (ethernetName d) (ifActivate d) (ethernetNameList d) (ipMode d)
    (ipAddrInfo d) (routeAddrInfo d) (gateAddrInfo d) (maskAddrInfo d) s (dns1AddrInfo d) (result d).
Definition set_dns1AddrInfo (s : string) (d : EthernetData) : EthernetData :=
  mkEthernetData (ethernetName d) (ifActivate d) (ethernetNameList d) (ipMode d)
    (ipAddrInfo d) (routeAddrInfo d) (gateAddrInfo d) (maskAddrInfo d) (dns0AddrInfo d) s (result d).
Definition set_eth_result (x : Z) (d : EthernetData) : EthernetData :=
  mkEthernetData (ethernetName d) (ifActivate d) (ethernetNameList d) (ipMode d)
    (ipAddrInfo d) (routeAddrInfo d) (gateAddrInfo d) (maskAddrInfo d) (dns0AddrInfo d) (dns1AddrInfo d) x.

(** The functions of the module. *)
Inductive ethernet_op := OpSetIfaceConfig | OpGetIfaceConfig | OpIsActivate | OpGetActivateInterfaces.

(** [addr.address_ = s], for an [INetAddr] that is new. *)
Definition addr_of (s : string) : INetAddr.t :=
  INetAddr.mk INetAddr.UNKNOWN 0 0 s EmptyString EmptyString.

Module NapiEthernet.
Section Code.
Context {E S P : Type} `{Napi E} `{RemoteObjects S} `{SystemAbilities} `{IpcPlatform P}.
Context (object : nat → IEthernetService S).
#[local] Abbreviation nm := (nm E (cworld S) EthernetData ethernet_op).

(** *** On a thread of the pool *)

Definition config_of (d : EthernetData) : InterfaceConfiguration.t :=
  InterfaceConfiguration.mk (ipMode d)
    (StaticConfiguration.mk (addr_of (ipAddrInfo d)) (addr_of (routeAddrInfo d)) (addr_of (gateAddrInfo d))
      (addr_of (maskAddrInfo d)) [addr_of (dns0AddrInfo d); addr_of (dns1AddrInfo d)] EmptyString).

Definition ExecSetIfaceConfig (data : option nat) : nm unit :=
  with_context data (λ context,
  c ← load context ;
  let d := Napi.data c in
  r ← native (EthernetClient.SetIfaceConfig (P:=P) object (ethernetName d) (Some (config_of d))) ;
  put context (set_eth_result r)).

(** The loop over the servers. *)
Definition set_dns_servers (l : list INetAddr.t) (d : EthernetData) : EthernetData :=
  fold_left (λ d a, set_dns1AddrInfo (INetAddr.ToString a) (set_dns0AddrInfo (INetAddr.ToString a) d)) l d.

Definition ExecGetIfaceConfig (data : option nat) : nm unit :=
  with_context data (λ context,
  c ← load context ;
  config ← native (EthernetClient.GetIfaceConfig object (ethernetName (Napi.data c))) ;
  match config with
  | Some config =>
    let ipStatic := InterfaceConfiguration.ipStatic_ config in
    put context (set_ifActivate 1) ;;
    put context (set_ipMode (InterfaceConfiguration.mode_ config)) ;;
    put context (set_ipAddrInfo (INetAddr.ToString (StaticConfiguration.ipAddr_ ipStatic))) ;;
    put context (set_routeAddrInfo (INetAddr.ToString (StaticConfiguration.route_ ipStatic))) ;;
    put context (set_gateAddrInfo (INetAddr.ToString (StaticConfiguration.gate_ ipStatic))) ;;
    put context (set_maskAddrInfo (INetAddr.ToString (StaticConfiguration.netMask_ ipStatic))) ;;
    put context (set_dns_servers (StaticConfiguration.dnsServers_ ipStatic))
  | None => put context (set_ifActivate (-1))
  end).

Definition ExecIsActivate (data : option nat) : nm unit :=
  with_context data (λ context,
  c ← load context ;
  r ← native (EthernetClient.IsActivate (P:=P) object (ethernetName (Napi.data c))) ;
  put context (set_ifActivate r)).

Definition ExecGetActivateInterfaces (data : option nat) : nm unit :=
  with_context data (λ context,
  l ← native (EthernetClient.GetActivateInterfaces object) ;
  put context (set_ethernetNameList l)).

(** *** On the thread of the script *)

Definition CompleteSetIfaceConfig (data : option nat) : nm unit :=
  with_context data (λ context,
  c ← load context ;
  info ← napi (napi_create_int32 (result (Napi.data c))) ;
  let fails := negb (result (Napi.data c) =? ERR_NONE) in
  complete context fails fails info info).

Definition CompleteGetIfaceConfig (data : option nat) : nm unit :=
  with_context data (λ context,
  c ← load context ;
  let d := Napi.data c in
  info ← napi napi_create_object ;
  infoFail ← napi (napi_create_string_utf8 "fail") ;
  void (SetPropertyInt32 info "mode" (ipMode d)) ;;
  void (SetPropertyString info "ipAddr" (ipAddrInfo d)) ;;
  void (SetPropertyString info "routeAddr" (routeAddrInfo d)) ;;
  void (SetPropertyString info "gateAddr" (gateAddrInfo d)) ;;
  void (SetPropertyString info "maskAddr" (maskAddrInfo d)) ;;
  void (SetPropertyString info "dns0Addr" (dns0AddrInfo d)) ;;
  void (SetPropertyString info "dns1Addr" (dns1AddrInfo d)) ;;
  complete context (ifActivate d =? -1) (ifActivate d =? 0) infoFail info).

Definition CompleteIsActivate (data : option nat) : nm unit :=
  with_context data (λ context,
  c ← load context ;
  info ← napi (napi_create_int32 (ifActivate (Napi.data c))) ;
  let fails := ifActivate (Napi.data c) =? -1 in
  complete context fails fails info info).

Definition CompleteGetActivateInterfaces (data : option nat) : nm unit :=
  with_context data (λ context,
  c ← load context ;
  let l := ethernetNameList (Napi.data c) in
  infoAttay ← napi (napi_create_array_with_length (length l)) ;
  set_elements (λ s, napi_create_string_utf8 (c_str s)) infoAttay 0 l None ;;
  complete context false false None infoAttay).

(** *** What the script calls *)

Definition SetIfaceConfig (info : nat) : nm napi_value :=
  '(argv, argc) ← NAPI_CALL (napi_get_cb_info info 4) ;
  context ← new_context EthernetData_default ;
  name ← NAPI_CALL (napi_get_value_string_utf8 (arg argv 0) ETHERNET_NAME_MAX_BYTE) ;
  put context (set_ethernetName (c_str name)) ;;
  mode ← NAPI_CALL (napi_get_value_int32 (arg argv 1)) ; put context (set_ipMode mode) ;;
  (if decide (mode = InterfaceConfiguration.STATIC) then
     void (GetPropertyString (arg argv 2) "ipAddr" (λ s, put context (set_ipAddrInfo s))) ;;
     void (GetPropertyString (arg argv 2) "routeAddr" (λ s, put context (set_routeAddrInfo s))) ;;
     void (GetPropertyString (arg argv 2) "gateAddr" (λ s, put context (set_gateAddrInfo s))) ;;
     void (GetPropertyString (arg argv 2) "maskAddr" (λ s, put context (set_maskAddrInfo s))) ;;
     void (GetPropertyString (arg argv 2) "dnsAddr0" (λ s, put context (set_dns0AddrInfo s))) ;;
     void (GetPropertyString (arg argv 2) "dnsAddr1" (λ s, put context (set_dns1AddrInfo s)))
   else mret tt) ;;
  result ←
    (if decide (argc = 2%nat ∨ (argc = 3%nat ∧ mode = InterfaceConfiguration.STATIC)) then give_promise context
     else if decide (argc = 4%nat ∨ (argc = 3%nat ∧ mode = InterfaceConfiguration.DHCP)) then
       create_reference (arg argv (argc - 1)) context ;; mret None
     else mret None) ;
  create_work "SetIfaceConfig" OpSetIfaceConfig context result.

Definition GetIfaceConfig (info : nat) : nm napi_value :=
  '(argv, argc) ← NAPI_CALL (napi_get_cb_info info 2) ;
  context ← new_context EthernetData_default ;
  name ← NAPI_CALL (napi_get_value_string_utf8 (arg argv 0) ETHERNET_NAME_MAX_BYTE) ;
  put context (set_ethernetName (c_str name)) ;;
  result ←
    (if decide (argc = 1%nat) then give_promise context
     else if decide (argc = 2%nat) then create_reference (arg argv 1) context ;; mret None
     else mret None) ;
  create_work "GetIfaceConfig" OpGetIfaceConfig context result.

Definition IsActivate (info : nat) : nm napi_value :=
  '(argv, argc) ← NAPI_CALL (napi_get_cb_info info 2) ;
  context ← new_context EthernetData_default ;
  name ← NAPI_CALL (napi_get_value_string_utf8 (arg argv 0) ETHERNET_NAME_MAX_BYTE) ;
  put context (set_ethernetName (c_str name)) ;;
  result ←
    (if decide (argc = 1%nat) then give_promise context
     else if decide (argc = 2%nat) then create_reference (arg argv 1) context ;; mret None
     else mret None) ;
  create_work "IsActivate" OpIsActivate context result.

Definition GetActivateInterfaces (info : nat) : nm napi_value :=
  '(argv, argc) ← NAPI_CALL (napi_get_cb_info info 1) ;
  context ← new_context EthernetData_default ;
  result ←
    (if decide (argc = 0%nat) then give_promise context
     else if decide (argc = 1%nat) then create_reference (arg argv 0) context ;; mret None
     else mret None) ;
  create_work "GetActivateInterfaces" OpGetActivateInterfaces context result.

(** *** The module *)

Definition DeclareEthernetData (exports : napi_value) : nm napi_value :=
  v0 ← void_value (NapiValueByInt32 InterfaceConfiguration.STATIC) ;
  v1 ← void_value (NapiValueByInt32 InterfaceConfiguration.DHCP) ;
  NAPI_CALL (napi_define_properties (F := ethernet_op) exports
    [DECLARE_NAPI_STATIC_PROPERTY "STATIC" v0; DECLARE_NAPI_STATIC_PROPERTY "DHCP" v1]) ;;
  mret exports.

Definition DeclareEthernetInterface (exports : napi_value) : nm napi_value :=
  NAPI_CALL (napi_define_properties exports
    [DECLARE_NAPI_FUNCTION "setIfaceConfig" OpSetIfaceConfig;
     DECLARE_NAPI_FUNCTION "getIfaceConfig" OpGetIfaceConfig;
     DECLARE_NAPI_FUNCTION "isActivate" OpIsActivate;
     DECLARE_NAPI_FUNCTION "getActivateInterfaces" OpGetActivateInterfaces]) ;;
  mret exports.

Definition RegisterEthernetInterface (exports : napi_value) : nm napi_value :=
  void_value (DeclareEthernetInterface exports) ;;
  void_value (DeclareEthernetData exports) ;;
  mret None.

#[export] Instance binding : Binding E (cworld S) EthernetData ethernet_op := {|
  b_call op := match op with
    | OpSetIfaceConfig => SetIfaceConfig | OpGetIfaceConfig => GetIfaceConfig
    | OpIsActivate => IsActivate | OpGetActivateInterfaces => GetActivateInterfaces end;
  b_exec op := match op with
    | OpSetIfaceConfig => ExecSetIfaceConfig | OpGetIfaceConfig => ExecGetIfaceConfig
    | OpIsActivate => ExecIsActivate | OpGetActivateInterfaces => ExecGetActivateInterfaces end;
  b_complete op := match op with
    | OpSetIfaceConfig => CompleteSetIfaceConfig | OpGetIfaceConfig => CompleteGetIfaceConfig
    | OpIsActivate => CompleteIsActivate | OpGetActivateInterfaces => CompleteGetActivateInterfaces end;
|}.

End Code.
End NapiEthernet.
