(* ===== verification/NapiDns.v ===== *)
(** * The JavaScript bindings of the DNS resolver service

    [napi_dns_resolver.cpp]: the module [netmanager.dnsresolver]. *)

From S2P Require Import Prelude CppStrings Parcelables Ipc Client Clients Napi.
Import NapiCommon.

Definition HOST_MAX_BYTES : Z := 256.

(** [struct DnsResolverAsyncContext], its own fields. The array [host] is the
    string up to its first NUL, which is all that is read of it; [hostRealBytes]
    is written and never read, and left out. *)
Record DnsResolverData := mkDnsResolverData {
  host : string;
  hostAddress : list string;
}.

Definition DnsResolverData_default : DnsResolverData := mkDnsResolverData "" [].

Definition set_host (s : string) (d : DnsResolverData) : DnsResolverData :=
  mkDnsResolverData s (hostAddress d).
Definition push_hostAddress (l : list string) (d : DnsResolverData) : DnsResolverData :=
  mkDnsResolverData (host d) (hostAddress d ++ l).

(** The functions of the module. *)
Inductive dns_op := OpGetAddressesByName.

Module NapiDnsResolver.
Section Code.
Context {E S P : Type} `{Napi E} `{RemoteObjects S} `{SystemAbilities} `{IpcPlatform P}.
Context (object : nat → IDnsResolverService S).
#[local] Abbreviation nm := (nm E (cworld S) DnsResolverData dns_op).

(** The code that [GetAddressesByName] returns is not looked at. *)
Definition ExecDnsResolverCallback (data : option nat) : nm unit :=
  with_context data (λ context,
  c ← load context ;
  let hostName := host (Napi.data c) in
  a ← native (DnsResolverClient.GetAddressesByName (P:=P) object hostName []) ;
  let addrInfo := a.2 in
  put context (push_hostAddress (INetAddr.ToString <$> addrInfo))).

(** [info] is the text of a failure, until the loop uses it for the elements. *)
Definition CompleteDnsResolverCallback (data : option nat) : nm unit :=
  with_context data (λ context,
  c ← load context ;
  let hostAddress := hostAddress (Napi.data c) in
  info ← napi (napi_create_string_utf8 "fail") ;
  infoAttay ← napi (napi_create_array_with_length (length hostAddress)) ;
  info ← set_elements (λ s, napi_create_string_utf8 (c_str s)) infoAttay 0 hostAddress info ;
  let fails := negb (0 <? length hostAddress)%nat in
  complete context fails fails info infoAttay).

Definition GetAddressesByName (info : nat) : nm napi_value :=
  '(argv, argc) ← NAPI_CALL (napi_get_cb_info info 2) ;
  context ← new_context DnsResolverData_default ;
  name ← NAPI_CALL (napi_get_value_string_utf8 (arg argv 0) HOST_MAX_BYTES) ;
  put context (set_host (c_str name)) ;;
  result ←
    (if decide (argc = 1%nat) then give_promise context
     else if decide (argc = 2%nat) then create_reference (arg argv 1) context ;; mret None
     else mret None) ;
  create_work "GetAddressesByName" OpGetAddressesByName context result.

Definition DeclareNapiDnsResolverInterface (exports : napi_value) : nm napi_value :=
  NAPI_CALL (napi_define_properties exports
    [DECLARE_NAPI_FUNCTION "getAddressesByName" OpGetAddressesByName]) ;;
  mret exports.

Definition RegisterDnsResolverInterface (exports : napi_value) : nm napi_value :=
  void_value (DeclareNapiDnsResolverInterface exports) ;;
  mret None.

#[export] Instance binding : Binding E (cworld S) DnsResolverData dns_op := {|
  b_call _ := GetAddressesByName;
  b_exec _ := ExecDnsResolverCallback;
  b_complete _ := CompleteDnsResolverCallback;
|}.

End Code.
End NapiDnsResolver.
