(* ===== verification/NapiSafe.v ===== *)
(** * The state of the JavaScript bindings, with any engine

    The rules for the code of the bindings, the invariant of their contexts and
    handles, and what keeps it when every call of the engine may fail. *)

From S2P Require Import Prelude Napi.


(** ** The code *)

Section Rules.
Context {E W D O : Type} `{Napi E}.
Implicit Type j : jworld E W D O.
#[local] Abbreviation nm := (nm E W D O).

(** [m] has no undefined behaviour; it returns a value with [Q], or returns early with [R]. *)
Definition nwp {A} (m : nm A) (Q : A → jworld E W D O → Prop) (R : jworld E W D O → Prop) j : Prop :=
  ∃ o j', m j = Some (o, j') ∧ match o with Some a => Q a j' | None => R j' end.

Lemma nwp_ret {A} (a : A) (Q : A → jworld E W D O → Prop) R j : Q a j → nwp (mret a) Q R j.
Proof. intros HQ. by eexists (Some a), j. Qed.

Lemma nwp_bind {A B} (m : nm A) (k : A → nm B) Q R j : nwp m (λ a, nwp (k a) Q R) R j → nwp (m ≫= k) Q R j.
Proof.
  intros ([a|] & j1 & Hm & Hk).
  - destruct Hk as (o & j2 & Hk & HQ). exists o, j2. split; [|done]. unfold mbind, nm_bind. by rewrite Hm.
  - exists None, j1. split; [|done]. unfold mbind, nm_bind. by rewrite Hm.
Qed.

Lemma nwp_mono {A} (m : nm A) (P Q : A → jworld E W D O → Prop) R R' j :
  nwp m P R j → (∀ a j', P a j' → Q a j') → (∀ j', R j' → R' j') → nwp m Q R' j.
Proof. intros (o & j' & Hm & Ho) HQ HR. exists o, j'. split; [done|]. destruct o; auto. Qed.

Lemma nwp_gets {A} (f : jworld E W D O → A) Q R j : Q (f j) j → nwp (ngets f) Q R j.
Proof. intros HQ. by eexists (Some (f j)), j. Qed.

Lemma nwp_modify (f : jworld E W D O → jworld E W D O) (Q : unit → jworld E W D O → Prop) R j :
  Q tt (f j) → nwp (nmodify f) Q R j.
Proof. intros HQ. by eexists (Some tt), (f j). Qed.

Lemma nwp_napi {A} (f : E → option A * E) (Q : option A → jworld E W D O → Prop) R j :
  (∀ o e, f (j_engine j) = (o, e) → Q o (upd_engine e j)) → nwp (napi f) Q R j.
Proof.
  intros HQ. unfold nwp, napi. destruct (f (j_engine j)) as [o e] eqn:Ef. eexists (Some o), _. split; [done|]. by apply HQ.
Qed.

Lemma nwp_NAPI_CALL {A} (f : E → option A * E) (Q : A → jworld E W D O → Prop) R j :
  (∀ a e, f (j_engine j) = (Some a, e) → Q a (upd_engine e j)) →
  (∀ e, R (upd_engine e j)) → nwp (NAPI_CALL f) Q R j.
Proof.
  intros HQ HR. apply nwp_bind, nwp_napi. intros [a|] e Ef; [by apply nwp_ret, HQ|].
  eexists None, _. split; [done|]. apply HR.
Qed.

Lemma nwp_void (m : nm unit) (Q : unit → jworld E W D O → Prop) R j :
  nwp m (λ _, Q tt) (Q tt) j → nwp (void m) Q R j.
Proof.
  intros (o & j' & Hm & Ho). eexists (Some tt), j'. split; [unfold void; by rewrite Hm|]. by destruct o.
Qed.

Lemma nwp_native {A} (m : st W A) (Q : A → jworld E W D O → Prop) R j a w :
  m (j_native j) = Some (a, w) → Q a (upd_native w j) → nwp (native m) Q R j.
Proof. intros Hm HQ. eexists (Some a), _. split; [unfold native; by rewrite Hm|done]. Qed.

Lemma nwp_fresh (Q : nat → jworld E W D O → Prop) R j : Q (j_next j) (upd_next (j_next j + 1) j) → nwp fresh_name Q R j.
Proof. intros HQ. by apply nwp_bind, nwp_gets, nwp_bind, nwp_modify, nwp_ret. Qed.

Lemma nwp_load p c (Q : context D → jworld E W D O → Prop) R j :
  j_contexts j !! p = Some c → Q c j → nwp (load p) Q R j.
Proof. intros Hc HQ. eexists (Some c), j. split; [unfold load; by rewrite Hc|done]. Qed.

Lemma nwp_store p f c (Q : unit → jworld E W D O → Prop) R j :
  j_contexts j !! p = Some c → Q tt (upd_contexts <[p := f c]> j) → nwp (store p f) Q R j.
Proof. intros Hc HQ. apply nwp_bind, (nwp_load p c); [done|]. by apply nwp_modify. Qed.

End Rules.

(** ** The invariant *)

Section Invariant.
Context {E W D O : Type}.
Implicit Type j : jworld E W D O.

Definition handle (x : delivery E) : nat :=
  match x with Resolved d _ _ | Rejected d _ _ => d | Called r _ _ _ => r end.

(** What a context can be answered with. *)
Definition keeps (c : context D) (h : nat) : Prop := callbackRef c = Some h ∨ deferred c = Some h.

(** The context [z] is left out: it is being released. *)
Record jinv_but (z : option nat) j : Prop := mkJinv {
  ji_work : ∀ p c w, Some p ≠ z → j_contexts j !! p = Some c → work c = Some w → ∃ op, j_works j !! w = Some (op, p);
  ji_deferred : ∀ p c d, Some p ≠ z → j_contexts j !! p = Some c → deferred c = Some d → d ∈ j_deferreds j;
  ji_ref : ∀ p c r, Some p ≠ z → j_contexts j !! p = Some c → callbackRef c = Some r → r ∈ j_refs j;
  ji_unanswered : ∀ p c h, Some p ≠ z → j_contexts j !! p = Some c → keeps c h → h ∉ handle <$> j_log j;
  ji_apart : ∀ p p' c c' h, j_contexts j !! p = Some c → j_contexts j !! p' = Some c' →
    keeps c h → keeps c' h → p = p';
  ji_pool : ∀ w, w ∈ j_queue j ++ j_done j →
    ∃ op p c, Some p ≠ z ∧ j_works j !! w = Some (op, p) ∧ j_contexts j !! p = Some c ∧ work c = Some w;
  ji_nodup : NoDup (j_queue j ++ j_done j);
  ji_once : NoDup (handle <$> j_log j);
  ji_contexts_next : ∀ p, is_Some (j_contexts j !! p) → (p < j_next j)%nat;
  ji_works_next : ∀ w, is_Some (j_works j !! w) → (w < j_next j)%nat;
  ji_keeps_next : ∀ p c h, j_contexts j !! p = Some c → keeps c h → (h < j_next j)%nat;
  ji_log_next : ∀ h, h ∈ handle <$> j_log j → (h < j_next j)%nat;
}.

#[local] Abbreviation jinv := (jinv_but None).

(** A call is being made with the context [p]. *)
Definition building (p : nat) j : Prop := jinv j ∧ ∃ c, j_contexts j !! p = Some c ∧ work c = None.

Lemma jinv_engine z e j : jinv_but z j → jinv_but z (upd_engine e j).
Proof. by intros []. Qed.

Lemma jinv_native z w j : jinv_but z j → jinv_but z (upd_native w j).
Proof. by intros []. Qed.

Lemma jinv_load_module e w : jinv (module_load e w : jworld E W D O).
Proof.
  split; cbn; try (intros; by simplify_map_eq).
  - by intros w' ?%elem_of_nil.
  - constructor.
  - constructor.
  - by intros h ?%elem_of_nil.
Qed.

Lemma jinv_next z n j : (j_next j <= n)%nat → jinv_but z j → jinv_but z (upd_next n j).
Proof.
  intros Hn []. split; cbn; try done.
  - intros p Hp. specialize (ji_contexts_next0 p Hp). lia.
  - intros w Hw. specialize (ji_works_next0 w Hw). lia.
  - intros p c h Hc Hh. specialize (ji_keeps_next0 p c h Hc Hh). lia.
  - intros h Hh. specialize (ji_log_next0 h Hh). lia.
Qed.

Lemma jinv_refs z x j : jinv_but z j → jinv_but z (upd_refs ({[x]} ∪.) j).
Proof. intros []. split; cbn; try done. set_solver. Qed.

Lemma jinv_deferreds z x j : jinv_but z j → jinv_but z (upd_deferreds ({[x]} ∪.) j).
Proof. intros []. split; cbn; try done. set_solver. Qed.

(** A new work, of any context. *)
Lemma jinv_works z w op p j :
  (w < j_next j)%nat → j_works j !! w = None → jinv_but z j → jinv_but z (upd_works <[w := (op, p)]> j).
Proof.
  intros Hlt Hw []. split; cbn; try done.
  - intros p' c w' Hz Hc Hcw. destruct (ji_work0 p' c w' Hz Hc Hcw) as [op' Hop].
    exists op'. rewrite lookup_insert_ne; [done|congruence].
  - intros w' Hin. destruct (ji_pool0 w' Hin) as (op' & p' & c & Hz & Hop & Hc & Hcw).
    exists op', p', c. rewrite lookup_insert_ne; [done|congruence].
  - intros w'. rewrite lookup_insert_is_Some. intros [<-|[_ Hs]]; auto.
Qed.

(** What a context may be changed to. *)
Record context_ok (p : nat) (c : context D) j : Prop := mkContextOk {
  co_work : ∀ w, work c = Some w → ∃ op, j_works j !! w = Some (op, p);
  co_deferred : ∀ d, deferred c = Some d → d ∈ j_deferreds j;
  co_ref : ∀ r, callbackRef c = Some r → r ∈ j_refs j;
  co_keeps : ∀ h, keeps c h → (h ∉ handle <$> j_log j) ∧ (h < j_next j)%nat ∧
    ∀ p' c', j_contexts j !! p' = Some c' → keeps c' h → p = p';
}.

Lemma jinv_insert p c j :
  (p < j_next j)%nat → context_ok p c j →
  (∀ c0, j_contexts j !! p = Some c0 → work c0 = None ∨ work c = work c0) →
  jinv j → jinv (upd_contexts <[p := c]> j).
Proof.
  intros Hp [Cw Cd Cr Ck] Hpool []. split; cbn; try done.
  - intros p' c' w Hz [[<- <-]|[Hne Hc]]%lookup_insert_Some Hw; eauto.
  - intros p' c' w Hz [[<- <-]|[Hne Hc]]%lookup_insert_Some Hw; eauto.
  - intros p' c' w Hz [[<- <-]|[Hne Hc]]%lookup_insert_Some Hw; eauto.
  - intros p' c' h Hz [[<- <-]|[Hne Hc]]%lookup_insert_Some Hh; [by apply Ck|eauto].
  - intros p1 p2 c1 c2 h [[<- <-]|[Hne Hc]]%lookup_insert_Some [[<- <-]|[Hne2 Hc2]]%lookup_insert_Some H1 H2; [done|..].
    + destruct (Ck h H1) as (_ & _ & Ha). eauto.
    + destruct (Ck h H2) as (_ & _ & Ha). symmetry. eauto.
    + eauto.
  - intros w Hin. destruct (ji_pool0 w Hin) as (op & p' & c' & Hz & Hop & Hc & Hw).
    destruct (decide (p = p')) as [<-|Hne].
    + exists op, p, c. rewrite lookup_insert_eq. destruct (Hpool c' Hc) as [?|Heq]; [congruence|].
      split_and!; try done. congruence.
    + exists op, p', c'. by rewrite lookup_insert_ne.
  - intros p'. rewrite lookup_insert_is_Some. intros [<-|[_ Hs]]; auto.
  - intros p' c' h [[<- <-]|[Hne Hc]]%lookup_insert_Some Hh; [by apply Ck|eauto].
Qed.

(** A context that stays as it is. *)
Lemma context_ok_kept p c j : jinv j → j_contexts j !! p = Some c → context_ok p c j.
Proof. intros [] Hc. split; eauto. intros h Hh. split_and!; eauto. Qed.

Lemma jinv_data p c x j :
  jinv j → j_contexts j !! p = Some c → jinv (upd_contexts <[p := set_data x c]> j).
Proof.
  intros Hj Hc. apply jinv_insert; [by apply (ji_contexts_next _ _ Hj)|by destruct (context_ok_kept p c j Hj Hc)| |done].
  intros c0 Hc0. right. by simplify_eq.
Qed.

(** A work is queued. *)
Lemma jinv_queue w op p c j :
  jinv j → j_works j !! w = Some (op, p) → j_contexts j !! p = Some c → work c = Some w →
  w ∉ j_queue j ++ j_done j → jinv (upd_pool (j_queue j ++ [w]) (j_done j) j).
Proof.
  intros [] Hop Hc Hw Hn.
  assert (Hp : (j_queue j ++ [w]) ++ j_done j ≡ₚ w :: (j_queue j ++ j_done j))
    by (rewrite <- app_assoc; symmetry; apply Permutation_middle).
  split; cbn; try done.
  - intros w'. rewrite Hp, elem_of_cons. intros [->|Hin]; [by exists op, p, c|by apply ji_pool0].
  - rewrite Hp. by constructor.
Qed.

(** The context [p] gets the next number as its work. *)
Lemma jinv_worked p c op j :
  jinv j → j_contexts j !! p = Some c → work c = None →
  jinv (upd_contexts <[p := set_work (j_next j) c]> (upd_works <[j_next j := (op, p)]> (upd_next (j_next j + 1) j))) ∧
  j_next j ∉ j_queue j ++ j_done j.
Proof.
  intros Hj Hc Hw.
  assert (Hnew : j_works j !! j_next j = None).
  { destruct (j_works j !! j_next j) eqn:Ew; [|done]. apply (mk_is_Some _ _), (ji_works_next _ _ Hj) in Ew. lia. }
  split.
  - assert (Hj1 : jinv (upd_works <[j_next j := (op, p)]> (upd_next (j_next j + 1) j))).
    { apply jinv_works; cbn; [lia|done|]. apply jinv_next; [lia|done]. }
    pose proof (context_ok_kept p c _ Hj1 Hc) as [_ Cd Cr Ck].
    apply jinv_insert; [by apply (ji_contexts_next _ _ Hj1)| | |done].
    + split; [|done..]. cbn. intros w [= <-]. exists op. by rewrite lookup_insert_eq.
    + cbn. intros c0 Hc0. left. congruence.
  - intros Hin. destruct (ji_pool _ _ Hj _ Hin) as (? & ? & ? & _ & Hs & _). congruence.
Qed.

Lemma jinv_new_name z j : jinv_but z j → ∀ h, (h ∈ handle <$> j_log j) → h ≠ j_next j.
Proof. intros Hj h Hh ->. apply (ji_log_next _ _ Hj) in Hh. lia. Qed.

End Invariant.

Abbreviation jinv := (jinv_but None).

(** ** Making a call *)

Section Builds.
Context {E W D O : Type} `{Napi E}.
Implicit Type j : jworld E W D O.
#[local] Abbreviation nm := (nm E W D O).

(** [m] keeps the invariant and the context [p], which has no work yet. *)
Definition builds (p : nat) {A} (m : nm A) : Prop :=
  ∀ j, building p j → nwp m (λ _, building p) jinv j.

Lemma nwp_builds p {A} (m : nm A) (Q : A → jworld E W D O → Prop) j :
  builds p m → building p j → (∀ a j', building p j' → Q a j') → nwp m Q jinv j.
Proof. intros Hm Hj HQ. eapply nwp_mono; [by apply Hm|done|done]. Qed.

Lemma builds_bind p {A B} (m : nm A) (k : A → nm B) :
  builds p m → (∀ a, builds p (k a)) → builds p (m ≫= k).
Proof.
  intros Hm Hk j Hj. apply nwp_bind, (nwp_builds p); [done..|]. intros a j' Hj'. by apply Hk.
Qed.

Lemma builds_ret p {A} (a : A) : builds p (mret a).
Proof. intros j Hj. by apply nwp_ret. Qed.

Lemma builds_if p {A} (P : Prop) `{Decision P} (m1 m2 : nm A) :
  builds p m1 → builds p m2 → builds p (if decide P then m1 else m2).
Proof. intros. by destruct (decide P). Qed.

Lemma building_engine p e j : building p j → building p (upd_engine e j).
Proof. intros [Hj Hc]. split; [by apply jinv_engine|done]. Qed.

Lemma builds_napi p {A} (f : E → option A * E) : builds p (napi f).
Proof. intros j Hj. apply nwp_napi. intros o e _. by apply building_engine. Qed.

Lemma builds_NAPI_CALL p {A} (f : E → option A * E) : builds p (NAPI_CALL f).
Proof.
  intros j Hj. apply nwp_NAPI_CALL; [intros a e _; by apply building_engine|]. intros e. by apply jinv_engine, Hj.
Qed.

Lemma building_put p f R j : building p j → nwp (put p f) (λ _, building p) R j.
Proof.
  intros [Hj (c & Hc & Hw)]. eapply nwp_store; [done|]. split; [by apply jinv_data|].
  eexists. cbn. rewrite lookup_insert_eq. done.
Qed.

Lemma builds_put p f : builds p (put p f).
Proof. intros j. apply building_put. Qed.

(** A handle that is new, put into the context. *)
Lemma building_insert p c c' n j :
  jinv j → j_contexts j !! p = Some c → work c = None → work c' = None → (j_next j < n)%nat →
  (∀ h, keeps c' h → keeps c h ∨ h = j_next j) →
  (∀ d, deferred c' = Some d → d ∈ j_deferreds j) → (∀ r, callbackRef c' = Some r → r ∈ j_refs j) →
  building p (upd_contexts <[p := c']> (upd_next n j)).
Proof.
  intros Hj Hc Hw Hw' Hn Hk Hd Hr. split; [|eexists; cbn; by rewrite lookup_insert_eq].
  assert (Hj' : jinv (upd_next n j)) by (apply jinv_next; [lia|done]).
  pose proof (context_ok_kept p c _ Hj' Hc) as [_ _ _ Ck].
  assert (Hp : (p < j_next j)%nat) by (apply (ji_contexts_next _ _ Hj); by eexists).
  apply jinv_insert; [cbn; lia| | |done].
  - split; cbn; [congruence|done|done|]. intros h [Hh| ->]%Hk; [by apply Ck|]. split_and!; [|lia|].
    + intros Hin. by apply (jinv_new_name _ j Hj) in Hin.
    + intros p' c1 Hc1 Hh. pose proof (ji_keeps_next _ _ Hj p' c1 _ Hc1 Hh). lia.
  - cbn. intros c0 Hc0. left. congruence.
Qed.

(** The early return of [GetPropertyString] is not one of the call. *)
Lemma builds_GetPropertyString p object name (set : string → D → D) :
  builds p (void (NapiCommon.GetPropertyString object name (λ s, put p (set s)))).
Proof.
  intros j Hj. apply nwp_void, nwp_bind, nwp_NAPI_CALL; [|intros; by apply building_engine].
  intros v e _. apply nwp_bind, nwp_NAPI_CALL; [|intros; by apply building_engine, building_engine].
  intros s e' _. by apply building_put, building_engine, building_engine.
Qed.

Lemma builds_create_promise p : builds p (create_promise p).
Proof.
  intros j [Hj (c & Hc & Hw)]. apply nwp_bind, nwp_fresh, nwp_bind, nwp_NAPI_CALL.
  - intros v e _. apply nwp_bind, nwp_modify, nwp_bind. eapply nwp_store; [done|]. apply nwp_ret.
    change (building p (upd_contexts <[p := set_deferred (j_next j) c]> (upd_next (j_next j + 1)
      (upd_engine e (upd_deferreds ({[j_next j]} ∪.) j))))).
    eapply building_insert; [by apply jinv_engine, jinv_deferreds|done|done|done|cbn; lia| | |]; cbn.
    + intros h [Hh|[= <-]]; [by left; left|by right].
    + set_solver.
    + intros r Hr. by apply (ji_ref _ _ Hj p c).
  - intros e. by apply jinv_engine, jinv_next; [cbn; lia|].
Qed.

Lemma builds_create_reference v p : builds p (create_reference v p).
Proof.
  intros j [Hj (c & Hc & Hw)]. apply nwp_bind, nwp_fresh, nwp_bind, nwp_NAPI_CALL.
  - intros [] e _. apply nwp_bind, nwp_modify. eapply nwp_store; [done|].
    change (building p (upd_contexts <[p := set_callbackRef (j_next j) c]> (upd_next (j_next j + 1)
      (upd_engine e (upd_refs ({[j_next j]} ∪.) j))))).
    eapply building_insert; [by apply jinv_engine, jinv_refs|done|done|done|cbn; lia| | |]; cbn.
    + intros h [[= <-]|Hh]; [by right|by left; right].
    + intros d Hd. by apply (ji_deferred _ _ Hj p c).
    + set_solver.
  - intros e. by apply jinv_engine, jinv_next; [cbn; lia|].
Qed.

Lemma builds_give_promise p : builds p (give_promise p).
Proof.
  intros j Hj. destruct Hj as [? (c & Hc & Hw)] eqn:Ej. apply nwp_bind. eapply nwp_load; [done|].
  destruct (callbackRef c); [|by apply builds_create_promise].
  by apply (builds_bind p (NAPI_CALL napi_get_undefined) (λ v, mret (Some v)));
    [apply builds_NAPI_CALL|intros; apply builds_ret|].
Qed.

(** The work is made and queued. *)
Lemma building_create_work p name op result j :
  building p j → nwp (create_work name op p result) (λ _, jinv) jinv j.
Proof.
  intros Hj. apply nwp_bind, (nwp_builds p); [apply builds_NAPI_CALL|done|]. intros r j1 Hj1.
  apply nwp_bind, (nwp_builds p); [apply builds_NAPI_CALL|done|]. intros n j2 [Hj2 (c & Hc & Hw)].
  apply nwp_bind, nwp_bind, nwp_fresh, nwp_bind, nwp_NAPI_CALL.
  - intros [] e _. apply nwp_bind, nwp_modify. eapply nwp_store; [done|].
    apply nwp_bind. eapply nwp_load; [cbn; by rewrite lookup_insert_eq|]. apply nwp_bind, nwp_bind, nwp_gets.
    cbn [j_works upd_contexts upd_works]. rewrite lookup_insert_eq.
    pose proof (jinv_worked p c op j2 Hj2 Hc Hw) as [Hj3 Hnew].
    apply nwp_bind, nwp_NAPI_CALL; [|intros e'; exact (jinv_engine _ e' _ Hj3)].
    intros [] e' _. apply nwp_modify, nwp_ret. apply (jinv_queue (j_next j2) op p (set_work (j_next j2) c)); cbn.
    + exact (jinv_engine _ e' _ Hj3).
    + by rewrite lookup_insert_eq.
    + by rewrite lookup_insert_eq.
    + done.
    + done.
  - intros e. by apply jinv_engine, jinv_next; [cbn; lia|].
Qed.

End Builds.

Create HintDb napidb.

#[export] Hint Resolve builds_ret builds_if builds_napi builds_NAPI_CALL builds_put builds_GetPropertyString
  builds_give_promise builds_create_reference : napidb.

(** A function that the script calls, up to [new_context]. *)
Lemma starts_safe {E W D O} `{Napi E} info cap x (k : list napi_value → nat → nat → nm E W D O napi_value) j :
  jinv j → (∀ argv argc p j, building p j → nwp (k argv argc p) (λ _, jinv) jinv j) →
  nwp ('(argv, argc) ← NAPI_CALL (napi_get_cb_info info cap) ; context ← new_context x ; k argv argc context)
    (λ _, jinv) jinv j.
Proof.
  intros Hj Hk. apply nwp_bind, nwp_NAPI_CALL; [|intros e; by apply jinv_engine]. intros [argv argc] e _.
  apply nwp_bind, nwp_bind, nwp_fresh, nwp_bind, nwp_modify, nwp_ret. apply Hk.
  pose proof (jinv_engine _ e _ Hj) as Hj'. split.
  - apply jinv_insert; [cbn; lia| | |by apply jinv_next; [lia|]].
    + split; cbn; try done. intros h [?|?]; done.
    + intros c0 Hc0. apply mk_is_Some, (ji_contexts_next _ _ Hj) in Hc0. cbn in Hc0. lia.
  - eexists. cbn. by rewrite lookup_insert_eq.
Qed.

(** The calls between [new_context] and [create_work]. *)
Ltac builds_split :=
  match goal with
  | |- builds _ (_ ≫= _) => apply builds_bind; [|intros ?]
  | |- builds _ (if decide _ then _ else _) => apply builds_if
  end.

Ltac build :=
  apply starts_safe; [done|]; let p := fresh "p" in intros ? ? p ? ?;
  repeat lazymatch goal with
  | |- nwp (create_work _ _ _ _) _ _ _ => by apply (building_create_work p)
  | |- nwp (_ ≫= _) _ _ _ =>
    apply nwp_bind, (nwp_builds p); [repeat first [solve [auto with napidb] | builds_split]|done|];
    let j := fresh "j" in let Hj := fresh "Hj" in intros ? j Hj
  end.

(** ** Answering *)

Section Answers.
Context {E W D O : Type} `{Napi E}.
Implicit Type j : jworld E W D O.
#[local] Abbreviation nm := (nm E W D O).

Lemma jinv_logged p c h x w op j :
  jinv j → j_contexts j !! p = Some c → keeps c h → handle x = h →
  work c = Some w → j_works j !! w = Some (op, p) → w ∉ j_queue j ++ j_done j →
  jinv_but (Some p) (upd_log x j).
Proof.
  intros [] Hc Hh <- Hw Hop Hn. split; cbn; try done.
  - eauto.
  - eauto.
  - eauto.
  - intros p' c' h' Hz Hc' Hh'. rewrite fmap_app. intros [Hin| ->%list_elem_of_singleton]%elem_of_app.
    + by eapply ji_unanswered0.
    + apply Hz. f_equal. by eapply ji_apart0.
  - intros w' Hin. destruct (ji_pool0 w' Hin) as (op' & p' & c' & _ & Hop' & Hc' & Hw').
    exists op', p', c'. split; [|done]. intros [= ->]. simplify_eq. congruence.
  - rewrite fmap_app. apply NoDup_app. split; [done|]. split; [|apply NoDup_singleton].
    intros h' Hin ->%list_elem_of_singleton. by eapply ji_unanswered0.
  - intros h'. rewrite fmap_app. intros [Hin| ->%list_elem_of_singleton]%elem_of_app; eauto.
Qed.

Lemma jinv_unref p c h j : jinv_but (Some p) j → j_contexts j !! p = Some c → keeps c h → jinv_but (Some p) (upd_refs (.∖ {[h]}) j).
Proof.
  intros [] Hc Hh. split; cbn; try done. intros p' c' r Hz Hc' Hr. apply elem_of_difference.
  split; [by eauto|]. intros ->%elem_of_singleton. apply Hz. f_equal. eapply (ji_apart0 p' p); [done|done|by left|done].
Qed.

Lemma jinv_undefer p c h j : jinv_but (Some p) j → j_contexts j !! p = Some c → keeps c h → jinv_but (Some p) (upd_deferreds (.∖ {[h]}) j).
Proof.
  intros [] Hc Hh. split; cbn; try done. intros p' c' d Hz Hc' Hd. apply elem_of_difference.
  split; [by eauto|]. intros ->%elem_of_singleton. apply Hz. f_equal. eapply (ji_apart0 p' p); [done|done|by right|done].
Qed.

Lemma jinv_leave p j : jinv j → (∀ w, w ∈ j_queue j ++ j_done j → ∀ op, j_works j !! w ≠ Some (op, p)) → jinv_but (Some p) j.
Proof.
  intros [] Hp. split; try done; [eauto..|]. intros w Hin. destruct (ji_pool0 w Hin) as (op & p' & c & _ & Hop & Hc & Hw).
  exists op, p', c. split; [|done]. intros [= ->]. by apply (Hp w Hin op).
Qed.

Lemma finish_safe p c w op j :
  jinv_but (Some p) j → j_contexts j !! p = Some c → work c = Some w → j_works j !! w = Some (op, p) →
  nwp (finish p) (λ _, jinv) jinv j.
Proof.
  intros Hj Hc Hw Hop. apply nwp_bind. eapply nwp_load; [done|]. apply nwp_bind, nwp_bind, nwp_gets. rewrite Hw.
  rewrite decide_True by by eexists.
  assert (Hdel : ∀ j, jinv_but (Some p) j → jinv (upd_contexts (delete p) j)).
  { clear. intros j []. split; cbn; try done.
    - intros p' c w _ [Hne Hc]%lookup_delete_Some. eapply ji_work0; [|done]. congruence.
    - intros p' c d _ [Hne Hc]%lookup_delete_Some. eapply ji_deferred0; [|done]. congruence.
    - intros p' c r _ [Hne Hc]%lookup_delete_Some. eapply ji_ref0; [|done]. congruence.
    - intros p' c h _ [Hne Hc]%lookup_delete_Some. eapply ji_unanswered0; [|done]. congruence.
    - intros p1 p2 c1 c2 h [_ H1]%lookup_delete_Some [_ H2]%lookup_delete_Some. eauto.
    - intros w Hin. destruct (ji_pool0 w Hin) as (op & p' & c & Hz & Hop & Hc & Hw). exists op, p', c.
      rewrite lookup_delete_ne by congruence. done.
    - intros p'. rewrite lookup_delete_is_Some. intros [_ Hs]. auto.
    - intros p' c h [_ Hc]%lookup_delete_Some. eauto. }
  assert (Hdw : jinv_but (Some p) (upd_works (delete w) j)).
  { destruct Hj. split; cbn; try done.
    - intros p' c' w' Hz Hc' Hw'. destruct (ji_work0 p' c' w' Hz Hc' Hw') as [op' Hop'].
      exists op'. rewrite lookup_delete_ne; [done|]. intros ->. simplify_eq.
    - intros w' Hin. destruct (ji_pool0 w' Hin) as (op' & p' & c' & Hz & Hop' & Hc' & Hw').
      exists op', p', c'. rewrite lookup_delete_ne; [done|]. intros ->. simplify_eq.
    - intros w'. rewrite lookup_delete_is_Some. intros [_ Hs]. auto. }
  apply nwp_bind, nwp_napi. intros [[]|] e _; [apply nwp_modify|apply nwp_ret];
    (apply nwp_bind; eapply nwp_load; [done|]; apply nwp_modify, Hdel); [exact (jinv_engine _ e _ Hdw)|by apply jinv_engine].
Qed.

Lemma complete_safe p c w op b b' reason value j :
  jinv j → j_contexts j !! p = Some c → work c = Some w → j_works j !! w = Some (op, p) →
  w ∉ j_queue j ++ j_done j →
  nwp (complete p b b' reason value) (λ _, jinv) jinv j.
Proof.
  intros Hj Hc Hw Hop Hn. apply nwp_bind. eapply nwp_load; [done|]. apply nwp_bind.
  assert (Hsettle : callbackRef c = None → ∀ f entry v, (∀ d v e, handle (entry d v e) = d) →
    nwp (settle f entry (deferred c) v) (λ _, nwp (finish p) (λ _, jinv) jinv) jinv j).
  { intros Hr f entry v He. apply nwp_bind, nwp_gets, nwp_bind, nwp_gets. destruct (deferred c) as [d|] eqn:Hd.
    - rewrite decide_True by by apply (ji_deferred _ _ Hj p c).
      apply nwp_bind, nwp_NAPI_CALL; [|intros; by apply jinv_engine]. intros [] e _.
      apply nwp_bind, nwp_modify, nwp_modify. eapply (finish_safe p c w op); [|done..].
      refine (jinv_undefer p c d (upd_log (entry d v (j_engine j)) (upd_engine e j)) _ Hc _); [|by right].
      eapply jinv_logged; [by apply jinv_engine|done|by right|apply He|done..].
    - apply nwp_NAPI_CALL; [|intros; by apply jinv_engine]. intros [] e _.
      eapply (finish_safe p c w op); [|done..]. apply jinv_leave; [by apply jinv_engine|].
      intros w' Hin op' Hop'. cbn in *. destruct (ji_pool _ _ Hj w' Hin) as (? & ? & ? & _ & ? & ? & ?). by simplify_eq. }
  destruct (callbackRef c) as [r|] eqn:Hr; [|destruct b; by apply Hsettle].
  apply nwp_bind, nwp_napi. intros recv e _. apply nwp_bind, nwp_bind, nwp_gets.
  rewrite decide_True by by apply (ji_ref _ _ Hj p c). apply nwp_napi. intros func e1 _.
  apply nwp_bind, nwp_bind, nwp_gets, nwp_bind, nwp_napi. intros _ e2 _. apply nwp_modify, nwp_bind, nwp_gets.
  cbn [j_refs upd_engine upd_log]. rewrite decide_True by by apply (ji_ref _ _ Hj p c).
  apply nwp_bind, nwp_napi. intros ok e3 _.
  assert (Hl : ∀ x, handle x = r → 
    jinv_but (Some p) (upd_engine e3 (upd_log x (upd_engine e2 (upd_engine e1 (upd_engine e j)))))).
  { intros x Hx. refine (jinv_logged p c r x w op (upd_engine e3 j) _ Hc _ Hx Hw Hop Hn); [by apply jinv_engine|by left]. }
  destruct ok as [[]|]; [apply nwp_modify|apply nwp_ret]; (eapply (finish_safe p c w op); [|done..]).
  - eapply jinv_unref; [by apply Hl|exact Hc|by left].
  - by apply Hl.
Qed.

End Answers.

(** ** What [Exec] and [Complete] functions are made of *)

Section Pieces.
Context {E W D O : Type} `{Napi E}.
Implicit Type j : jworld E W D O.
#[local] Abbreviation nm := (nm E W D O).

Lemma put_run p f c j :
  j_contexts j !! p = Some c → put p f j = Some (Some tt, upd_contexts <[p := set_data (f (data c)) c]> j).
Proof. intros Hc. unfold put, store, load, mbind, nm_bind. by rewrite Hc. Qed.

Lemma put_then {A} p f c (k : unit → nm A) j :
  j_contexts j !! p = Some c → (put p f ≫= k) j = k tt (upd_contexts <[p := set_data (f (data c)) c]> j).
Proof. intros Hc. unfold mbind at 1, nm_bind at 1. by rewrite (put_run p f c j Hc). Qed.

(** A call of the client library on the data of the context, and then a change of them. *)
Lemma exec_run {A} (m : D → st W A) (k : A → nm unit) (f : A → D → D) p c j :
  (∀ a j, j_contexts j !! p = Some c → k a j = Some (Some tt, upd_contexts <[p := set_data (f a (data c)) c]> j)) →
  j_contexts j !! p = Some c →
  (native (m (data c)) ≫= k) j =
    match (a ← m (data c) ; mret (f a (data c))) (j_native j) with
    | Some (x, w) => Some (Some tt, upd_native w (upd_contexts <[p := set_data x c]> j))
    | None => None
    end.
Proof.
  intros Hk Hc. unfold native, mbind, nm_bind, st_bind. destruct (m (data c) (j_native j)) as [[a w]|]; [|done].
  by rewrite Hk.
Qed.

(** Code that only calls the engine. *)
Definition engine_only {A} (m : nm A) : Prop :=
  ∀ j, nwp m (λ _ j', ∃ e, j' = upd_engine e j) (λ j', ∃ e, j' = upd_engine e j) j.

Lemma engine_only_ret {A} (a : A) : engine_only (mret a).
Proof. intros j. apply nwp_ret. exists (j_engine j). by destruct j. Qed.

Lemma engine_only_bind {A B} (m : nm A) (k : A → nm B) : engine_only m → (∀ a, engine_only (k a)) → engine_only (m ≫= k).
Proof.
  intros Hm Hk j. apply nwp_bind. eapply nwp_mono; [apply Hm| |done].
  intros a j' [e ->]. eapply nwp_mono; [apply Hk|..]; intros; destruct_and?; naive_solver.
Qed.

Lemma engine_only_napi {A} (f : E → option A * E) : engine_only (napi f).
Proof. intros j. apply nwp_napi. intros o e _. by exists e. Qed.

Lemma engine_only_NAPI_CALL {A} (f : E → option A * E) : engine_only (NAPI_CALL f).
Proof. intros j. apply nwp_NAPI_CALL; [intros a e _|intros e]; by exists e. Qed.

Lemma engine_only_void (m : nm unit) : engine_only m → engine_only (void m).
Proof. intros Hm j. apply nwp_void. eapply nwp_mono; [apply Hm|done..]. Qed.

Lemma engine_only_set_elements {A} (create : A → E → option nat * E) array index l info :
  engine_only (set_elements create array index l info).
Proof.
  revert index info. induction l as [|x l IH]; intros index info; [apply engine_only_ret|].
  apply engine_only_bind; [apply engine_only_napi|]. intros made. cbv zeta.
  apply engine_only_bind; [apply engine_only_napi|]. intros _. apply IH.
Qed.

(** A [Complete] function: calls of the engine, and its end. *)
Lemma concludes_bind {A} (m : nm A) (k : A → nm unit) p c w op j :
  engine_only m → jinv j → j_contexts j !! p = Some c → work c = Some w → j_works j !! w = Some (op, p) →
  w ∉ j_queue j ++ j_done j →
  (∀ a e, jinv (upd_engine e j) → nwp (k a) (λ _, jinv) jinv (upd_engine e j)) →
  nwp (m ≫= k) (λ _, jinv) jinv j.
Proof.
  intros Hm Hj Hc Hw Hop Hn Hk. apply nwp_bind. eapply nwp_mono; [apply Hm| |].
  - intros a j' [e ->]. by apply Hk, jinv_engine.
  - intros j' [e ->]. by apply jinv_engine.
Qed.

End Pieces.

#[export] Hint Resolve engine_only_ret engine_only_napi engine_only_NAPI_CALL engine_only_set_elements : napidb.
#[export] Hint Extern 1 (engine_only (void _)) => apply engine_only_void; unfold NapiCommon.SetPropertyInt32, NapiCommon.SetPropertyString : napidb.
#[export] Hint Extern 2 (engine_only (_ ≫= _)) => apply engine_only_bind; [|intros ?] : napidb.

(** A [Complete] function, from the load of its context to its end. *)
Ltac concludes Hc Hw Hop :=
  apply nwp_bind; eapply nwp_load; [exact Hc|]; cbv zeta;
  repeat (eapply concludes_bind; [eauto with napidb|done|exact Hc|exact Hw|exact Hop|done|];
    intros ? ? ?; cbv zeta);
  eapply complete_safe; [done|exact Hc|exact Hw|exact Hop|done].

(** ** Runs *)

(** What a module promises with any engine. [exec_of] is what [Exec] does to the
    data of its context. *)
Class SafeBinding (E W D O : Type) `{Binding E W D O} := {
  exec_of : O → D → st W D;
  exec_law op p c j : j_contexts j !! p = Some c →
    b_exec op (Some p) j =
      match exec_of op (data c) (j_native j) with
      | Some (x, w) => Some (Some tt, upd_native w (upd_contexts <[p := set_data x c]> j))
      | None => None
      end;
  call_law op info j : jinv j → nwp (b_call op info) (λ _, jinv) jinv j;
  complete_law op p c w op' j :
    jinv j → j_contexts j !! p = Some c → work c = Some w → j_works j !! w = Some (op', p) →
    w ∉ j_queue j ++ j_done j → nwp (b_complete op (Some p)) (λ _, jinv) jinv j;
}.

(** The states of a module: the script calls, threads run what is queued, the
    thread of the script concludes what is done, the engine and the rest of the
    process go on. *)
Inductive js_reachable {E W D O} `{Binding E W D O} (e : E) (w : W) : jworld E W D O → Prop :=
  | js_load : js_reachable e w (module_load e w)
  | js_call j op info v j' : js_reachable e w j → call op info j = Some (v, j') → js_reachable e w j'
  | js_execute j x j' : js_reachable e w j → x ∈ j_queue j → execute x j = Some (tt, j') → js_reachable e w j'
  | js_conclude j x j' : js_reachable e w j → x ∈ j_done j → conclude x j = Some (tt, j') → js_reachable e w j'
  | js_engine j e' : js_reachable e w j → js_reachable e w (upd_engine e' j)
  | js_native j w' : js_reachable e w j → js_reachable e w (upd_native w' j).

Section Runs.
Context {E W D O : Type} `{SafeBinding E W D O}.
Implicit Type j : jworld E W D O.

Lemma call_jinv op info j : jinv j → wp (call op info) (λ _, jinv) j.
Proof.
  intros Hj. apply wp_bind. destruct (call_law op info j Hj) as (o & j' & Hm & Ho).
  exists o, j'. split; [exact Hm|]. apply wp_ret. by destruct o.
Qed.

(** A work moves from the queue to the works that are done. *)
Lemma jinv_moved x j : x ∈ j_queue j → jinv j → jinv (upd_pool (filter (.≠ x) (j_queue j)) (j_done j ++ [x]) j).
Proof.
  intros Hx []. pose proof ji_nodup0 as (Hq & Hqd & Hd)%NoDup_app.
  assert (Hin : ∀ w, w ∈ filter (.≠ x) (j_queue j) ++ j_done j ++ [x] → w ∈ j_queue j ++ j_done j).
  { intros w. rewrite !elem_of_app, list_elem_of_filter, list_elem_of_singleton. intros [[_ ?]|[?| ->]]; auto. }
  split; cbn; try done; [by intros w ?%Hin; apply ji_pool0|].
  apply NoDup_app. split; [by apply NoDup_filter|]. split.
  - intros w [Hne Hw]%list_elem_of_filter. rewrite elem_of_app, list_elem_of_singleton. intros [Hw'|?]; [by apply (Hqd w)|done].
  - apply NoDup_app. split; [done|]. split; [|apply NoDup_singleton].
    intros w Hw ->%list_elem_of_singleton. by apply (Hqd x).
Qed.

Lemma jinv_dropped x j : jinv j → jinv (upd_pool (j_queue j) (filter (.≠ x) (j_done j)) j).
Proof.
  intros []. pose proof ji_nodup0 as (Hq & Hqd & Hd)%NoDup_app. split; cbn; try done.
  - intros w Hw. apply ji_pool0. revert Hw. rewrite !elem_of_app, list_elem_of_filter. tauto.
  - apply NoDup_app. split; [done|]. split; [|by apply NoDup_filter]. intros w Hw [_ Hw']%list_elem_of_filter. by apply (Hqd w).
Qed.

Lemma execute_run x op p c y w j :
  j_works j !! x = Some (op, p) → j_contexts j !! p = Some c → exec_of op (data c) (j_native j) = Some (y, w) →
  execute x j = Some (tt, upd_pool (filter (.≠ x) (j_queue j)) (j_done j ++ [x])
    (upd_native w (upd_contexts <[p := set_data y c]> j))).
Proof.
  intros Hx Hc Hy. unfold execute, mbind, st_bind, gets. rewrite Hx. unfold run. rewrite (exec_law op p c j Hc), Hy. done.
Qed.

Lemma execute_jinv x j j' : jinv j → x ∈ j_queue j → execute x j = Some (tt, j') → jinv j'.
Proof.
  intros Hj Hx Hr. destruct (ji_pool _ _ Hj x) as (op & p & c & _ & Hop & Hc & Hw); [set_solver|].
  destruct (exec_of op (data c) (j_native j)) as [[y w]|] eqn:Hy.
  - rewrite (execute_run x op p c y w) in Hr by done. simplify_eq.
    apply (jinv_moved x (upd_native w (upd_contexts <[p := set_data y c]> j))); [done|]. by apply jinv_native, jinv_data.
  - unfold execute, mbind, st_bind, gets, run in Hr. rewrite Hop, (exec_law op p c j Hc), Hy in Hr. done.
Qed.

Lemma conclude_jinv x j : jinv j → x ∈ j_done j → wp (conclude x) (λ _, jinv) j.
Proof.
  intros Hj Hx. destruct (ji_pool _ _ Hj x) as (op & p & c & _ & Hop & Hc & Hw); [set_solver|].
  apply wp_bind, wp_gets. rewrite Hop. apply wp_bind, wp_modify, wp_bind.
  assert (Hn : x ∉ j_queue j ++ filter (.≠ x) (j_done j)).
  { pose proof (ji_nodup _ _ Hj) as (_ & Hqd & _)%NoDup_app. rewrite elem_of_app, list_elem_of_filter. intros [Hq|[? _]]; [by apply (Hqd x)|done]. }
  destruct (complete_law op p c x op _ (jinv_dropped x j Hj) Hc Hw Hop Hn) as (o & j' & Hm & Ho).
  exists o, j'. split; [exact Hm|]. apply wp_ret. by destruct o as [[]|].
Qed.

Lemma reachable_jinv e w j : js_reachable e w j → jinv j.
Proof.
  induction 1 as [|j op info v j' _ IH Hc|j x j' _ IH Hx Hr|j x j' _ IH Hx Hr|j e' _ IH|j w' _ IH].
  - apply jinv_load_module.
  - exact (wp_run _ _ _ _ _ (call_jinv op info j IH) Hc).
  - by eapply execute_jinv.
  - exact (wp_run _ _ _ _ _ (conclude_jinv x j IH Hx) Hr).
  - by apply jinv_engine.
  - by apply jinv_native.
Qed.

(** No call, no work that is queued and none that is done leads to undefined
    behaviour, and no promise or callback is answered twice. *)
Definition behaves : Prop := ∀ e w j, js_reachable e w j →
  (∀ op info, is_Some (call op info j)) ∧
  (∀ x, x ∈ j_queue j → is_Some (execute x j)) ∧
  (∀ x, x ∈ j_done j → is_Some (conclude x j)) ∧
  NoDup (handle <$> j_log j) ∧ NoDup (j_queue j ++ j_done j).

Lemma safe_behaves : (∀ op x w, is_Some (exec_of op x w)) → behaves.
Proof.
  intros Hexec e w j Hr. apply reachable_jinv in Hr as Hj. split_and!.
  - intros op info. destruct (call_jinv op info j Hj) as (v & j' & -> & _). by eexists.
  - intros x Hx. destruct (ji_pool _ _ Hj x) as (op & p & c & _ & Hop & Hc & Hw); [set_solver|].
    destruct (Hexec op (data c) (j_native j)) as [[y w'] Hy]. by erewrite execute_run.
  - intros x Hx. destruct (conclude_jinv x j Hj Hx) as ([] & j' & -> & _). by eexists.
  - apply Hj.
  - apply Hj.
Qed.

End Runs.
