(* ===== verification/NapiSpec.v ===== *)
(** * What a script sees

    The values of a script, the engine as it is documented, an abstract machine
    of asynchronous calls, and that a module that keeps its contract refines it. *)

From S2P Require Import Prelude CppStrings Napi NapiSafe.


(** ** The values

    A number is an integer here, a string its text in UTF-8, a function and a
    promise are names. *)
Inductive js :=
  | JsUndefined
  | JsBoolean (b : bool)
  | JsNumber (z : Z)
  | JsString (s : string)
  | JsFunction (f : nat)
  | JsPromise (d : nat)
  | JsArray (l : list js)
  | JsObject (props : list (string * js)).

Definition js_type (y : js) : napi_valuetype :=
  match y with
  | JsUndefined => napi_undefined
  | JsBoolean _ => napi_boolean
  | JsNumber _ => napi_number
  | JsString _ => napi_string
  | JsFunction _ => napi_function
  | JsPromise _ | JsArray _ | JsObject _ => napi_object
  end.

(** Neither an array nor an object: such a value does not change. *)
Definition primitive (y : js) : bool :=
  match y with JsArray _ | JsObject _ => false | _ => true end.

Fixpoint get_prop (name : string) (props : list (string * js)) : option js :=
  match props with
  | [] => None
  | (n, y) :: props' => if String.eqb n name then Some y else get_prop name props'
  end.

(** [a[i] = y] *)
Definition set_at (i : nat) (y : js) (l : list js) : list js := take i l ++ y :: drop (i + 1) l.

(** ** The engine

    [shape e v] is what a script would see of the value [v]; [target e r] is the
    value that the reference [r] is for; [args_of] are the arguments of a call;
    [cut n s] is what of [s] gets into a buffer of [n] bytes; [text s] is the
    string made of the bytes [s]. *)
Class Script (E : Type) := {
  shape : E → nat → option js;
  target : E → nat → option js;
  args_of : nat → list js;
  cut : Z → string → string;
  text : string → string;
}.

Section Views.
Context {E : Type} `{Script E}.

(** [v] is not null, and it is the value [y]. *)
Definition val (e : E) (v : napi_value) (y : js) : Prop := ∃ h, v = Some h ∧ shape e h = Some y.

Definition keeps_refs (e e' : E) : Prop := ∀ r y, target e r = Some y → target e' r = Some y.

(** The values and the references of [e] are there in [e']. *)
Definition later (e e' : E) : Prop :=
  (∀ v y, shape e v = Some y → shape e' v = Some y) ∧ keeps_refs e e'.

#[export] Instance later_preorder : PreOrder later.
Proof.
  split; [intros e; by split; [|intros r]|]. intros e1 e2 e3 [Hv Hr] [Hv' Hr']. split; [by auto|].
  intros r y Hy. by apply Hr', Hr.
Qed.

Lemma val_later e e' v y : later e e' → val e v y → val e' v y.
Proof. intros [Hv _] (h & -> & Hy). exists h. auto. Qed.

(** [f] makes the value [y] and changes nothing else. *)
Definition gives (f : E → option nat * E) (y : js) : Prop :=
  ∀ e, ∃ v e', f e = (Some v, e') ∧ shape e' v = Some y ∧ later e e'.

End Views.

(** The documented behaviour, where an [int32_t] or a [uint32_t] that is passed is
    converted to it: a call with good arguments succeeds. A script that
    runs, in [napi_call_function] or after a promise is settled, may do what it
    likes, but the references stay. *)
Class NapiLaws (E : Type) `{Napi E, Script E} := {
  cut_short (n : Z) s : Z.of_nat (String.length s) < n → cut n s = s;
  text_ascii s : ascii_text s = true → text s = s;
  law_cb_info info cap e : (length (args_of info) <= cap)%nat → ∃ argv e',
    napi_get_cb_info info cap e = (Some (argv, length (args_of info)), e') ∧ later e e' ∧
    ∀ i y, args_of info !! i = Some y → val e' (arg argv i) y;
  law_value_string v n s e : val e v (JsString s) → ∃ e',
    napi_get_value_string_utf8 v n e = (Some (cut n s), e') ∧ later e e';
  law_value_int32 v z e : val e v (JsNumber z) → ∃ e', napi_get_value_int32 v e = (Some (to_i 32 z), e') ∧ later e e';
  law_value_uint32 v z e : val e v (JsNumber z) → ∃ e', napi_get_value_uint32 v e = (Some (to_u 32 z), e') ∧ later e e';
  law_value_bool v b e : val e v (JsBoolean b) → ∃ e', napi_get_value_bool v e = (Some b, e') ∧ later e e';
  law_typeof v y e : val e v y → ∃ e', napi_typeof v e = (Some (js_type y), e') ∧ later e e';
  law_get_property v props name y e : val e v (JsObject props) → get_prop name props = Some y → ∃ h e',
    napi_get_named_property v name e = (Some h, e') ∧ shape e' h = Some y ∧ later e e';
  law_undefined : gives napi_get_undefined JsUndefined;
  law_create_int32 z : gives (napi_create_int32 z) (JsNumber (to_i 32 z));
  law_create_uint32 z : gives (napi_create_uint32 z) (JsNumber (to_u 32 z));
  law_create_string s : gives (napi_create_string_utf8 s) (JsString (text s));
  law_create_object : gives napi_create_object (JsObject []);
  law_create_array n : gives (napi_create_array_with_length n) (JsArray (replicate n JsUndefined));
  law_set_property a name v props y e : shape e a = Some (JsObject props) → get_prop name props = None →
    val e v y → primitive y = true → ∃ e',
    napi_set_named_property (Some a) name v e = (Some tt, e') ∧ shape e' a = Some (JsObject (props ++ [(name, y)])) ∧
    keeps_refs e e' ∧ ∀ h x, primitive x = true → shape e h = Some x → shape e' h = Some x;
  law_set_element a i v l y e : shape e a = Some (JsArray l) → (i <= length l)%nat →
    val e v y → primitive y = true → ∃ e',
    napi_set_element (Some a) i v e = (Some tt, e') ∧ shape e' a = Some (JsArray (set_at i y l)) ∧
    keeps_refs e e' ∧ ∀ h x, primitive x = true → shape e h = Some x → shape e' h = Some x;
  law_create_promise d : gives (napi_create_promise d) (JsPromise d);
  law_resolve d v y e : val e v y → ∃ e', napi_resolve_deferred (Some d) v e = (Some tt, e') ∧ keeps_refs e e';
  law_reject d v y e : val e v y → ∃ e', napi_reject_deferred (Some d) v e = (Some tt, e') ∧ keeps_refs e e';
  law_no_deferred v e : (napi_resolve_deferred None v e).1 = None ∧ (napi_reject_deferred None v e).1 = None;
  law_create_reference r v f n e : val e v (JsFunction f) → ∃ e',
    napi_create_reference r v n e = (Some tt, e') ∧ target e' r = Some (JsFunction f) ∧
    ∀ r' y, r' ≠ r → target e r' = Some y → target e' r' = Some y;
  law_get_reference r y e : target e r = Some y → ∃ v e',
    napi_get_reference_value r e = (Some v, e') ∧ shape e' v = Some y ∧ later e e';
  law_call_function recv func argv e : keeps_refs e (napi_call_function recv func argv e).2;
  law_delete_reference r e : ∃ e', napi_delete_reference r e = (Some tt, e') ∧
    ∀ r' y, r' ≠ r → target e r' = Some y → target e' r' = Some y;
  law_create_work w resource name e : ∃ e', napi_create_async_work w resource name e = (Some tt, e') ∧ later e e';
  law_queue_work w e : ∃ e', napi_queue_async_work w e = (Some tt, e') ∧ later e e';
  law_delete_work w e : ∃ e', napi_delete_async_work (Some w) e = (Some tt, e') ∧ keeps_refs e e';
}.

(** ** The machine of asynchronous calls

    A call is answered to its promise [d], or to its callback [f], which the
    reference [r] keeps. *)
Inductive way := ByPromise (d : nat) | ByCallback (r f : nat).

Definition way_handle (a : way) : nat := match a with ByPromise d => d | ByCallback r _ => r end.

(** What a script is told: a promise is settled, a callback is called. *)
Inductive answer :=
  | AResolved (d : nat) (y : js)
  | ARejected (d : nat) (y : js)
  | ACalled (r f : nat) (argv : list (option js)).

Definition answer_handle (a : answer) : nat :=
  match a with AResolved d _ | ARejected d _ => d | ACalled r _ _ => r end.

(** The contract of a module: its functions take requests [Q] out of their
    arguments, with a callback or without; a thread serves them; the reply [R]
    settles a promise, or is the arguments of a callback. [data_of] and
    [data_after] are the data of the context in between. *)
Class Contract (W D O Q R : Type) := {
  request_of : O → list js → option (Q * option nat);
  serve : Q → st W R;
  in_promise : Q → R → bool * js;
  in_callback : Q → R → list (option js);
  data_of : Q → D;
  data_after : Q → R → D;
}.

(** [r] is a reply to [q] that the service can give. *)
Definition replies {W D O Q R} `{Contract W D O Q R} (q : Q) (r : R) : Prop := ∃ n n', serve q n = Some (r, n').

Inductive pending (Q R : Type) :=
  | Asked (q : Q) (a : way)
  | Served (q : Q) (r : R) (a : way).
Arguments Asked {Q R}.
Arguments Served {Q R}.

Definition pending_way {Q R} (x : pending Q R) : way := match x with Asked _ a | Served _ _ a => a end.

Record machine (W Q R : Type) := mkMachine {
  m_native : W;
  m_pending : gmap nat (pending Q R);
  m_answers : list answer;
}.
Arguments mkMachine {W Q R}.
Arguments m_native {W Q R}.
Arguments m_pending {W Q R}.
Arguments m_answers {W Q R}.

Section Machine.
Context {W D O Q R : Type} `{Contract W D O Q R}.

Definition answer_of (q : Q) (r : R) (a : way) : answer :=
  match a with
  | ByPromise d => let '(ok, y) := in_promise q r in if ok then AResolved d y else ARejected d y
  | ByCallback ref f => ACalled ref f (in_callback q r)
  end.

Definition fresh_handle (h : nat) (m : machine W Q R) : Prop :=
  (∀ w x, m_pending m !! w = Some x → way_handle (pending_way x) ≠ h) ∧ h ∉ answer_handle <$> m_answers m.

Definition way_for (cb : option nat) (h : nat) : way :=
  match cb with None => ByPromise h | Some f => ByCallback h f end.

(** What the module does: a call asks, a thread serves, the script is answered. *)
Inductive act : machine W Q R → machine W Q R → Prop :=
  | m_ask m w h op args q cb :
      request_of op args = Some (q, cb) → m_pending m !! w = None → fresh_handle h m →
      act m (mkMachine (m_native m) (<[w := Asked q (way_for cb h)]> (m_pending m)) (m_answers m))
  | m_serve m w q a r n :
      m_pending m !! w = Some (Asked q a) → serve q (m_native m) = Some (r, n) →
      act m (mkMachine n (<[w := Served q r a]> (m_pending m)) (m_answers m))
  | m_answer m w q r a :
      m_pending m !! w = Some (Served q r a) →
      act m (mkMachine (m_native m) (delete w (m_pending m)) (m_answers m ++ [answer_of q r a])).

(** The rest of the process goes on as it likes. *)
Inductive mstep : machine W Q R → machine W Q R → Prop :=
  | m_act m m' : act m m' → mstep m m'
  | m_rest m n : mstep m (mkMachine n (m_pending m) (m_answers m)).

Definition m_start (n : W) : machine W Q R := mkMachine n ∅ [].

End Machine.

(** ** What the code does on a good path *)

Section Good.
Context {E W D O : Type} `{NapiLaws E}.
Implicit Type j : jworld E W D O.
#[local] Abbreviation nm := (nm E W D O).
#[local] Abbreviation never := (λ _, False).

Lemma good_call {A} (f : E → option A * E) a e (Q : A → jworld E W D O → Prop) R j :
  f (j_engine j) = (Some a, e) → Q a (upd_engine e j) → nwp (NAPI_CALL f) Q R j.
Proof. intros Hf HQ. apply nwp_bind, nwp_napi. rewrite Hf. intros o e' [= <- <-]. by apply nwp_ret. Qed.

Lemma good_napi {A} (f : E → option A * E) o e (Q : option A → jworld E W D O → Prop) R j :
  f (j_engine j) = (o, e) → Q o (upd_engine e j) → nwp (napi f) Q R j.
Proof. intros Hf HQ. apply nwp_napi. rewrite Hf. by intros o' e' [= <- <-]. Qed.

(** The state while a call is made from [j]: its context has the data [x]. *)
Definition built (x : D) (e : E) j : jworld E W D O :=
  mkJ e (j_native j) (<[j_next j := mkContext None None None x]> (j_contexts j)) (j_works j) (j_refs j)
    (j_deferreds j) (j_queue j) (j_done j) (j_next j + 1) (j_log j).

(** The state after it: the next three numbers are the context, the promise or
    the reference, and the work. *)
Definition asked (op : O) (x : D) (cb : option nat) (e : E) j : jworld E W D O :=
  let p := j_next j in
  mkJ e (j_native j)
    (<[p := match cb with
            | None => mkContext (Some (p + 2)%nat) (Some (p + 1)%nat) None x
            | Some _ => mkContext (Some (p + 2)%nat) None (Some (p + 1)%nat) x
            end]> (j_contexts j))
    (<[(p + 2)%nat := (op, p)]> (j_works j))
    (match cb with Some _ => {[(p + 1)%nat]} ∪ j_refs j | None => j_refs j end)
    (match cb with Some _ => j_deferreds j | None => {[(p + 1)%nat]} ∪ j_deferreds j end)
    (j_queue j ++ [(p + 2)%nat]) (j_done j) (p + 3) (j_log j).

Lemma good_new_context x (Q : nat → jworld E W D O → Prop) R j :
  Q (j_next j) (built x (j_engine j) j) → nwp (new_context x) Q R j.
Proof. intros HQ. apply nwp_bind, nwp_fresh, nwp_bind, nwp_modify, nwp_ret. exact HQ. Qed.

Lemma good_put f x e (Q : unit → jworld E W D O → Prop) R j :
  Q tt (built (f x) e j) → nwp (put (j_next j) f) Q R (built x e j).
Proof.
  intros HQ. eapply nwp_store; [cbn; by rewrite lookup_insert_eq|].
  unfold upd_contexts. cbn. rewrite insert_insert_eq. exact HQ.
Qed.

Lemma good_built_call {A} (f : E → option A * E) a x e e' (Q : A → jworld E W D O → Prop) R j :
  f e = (Some a, e') → Q a (built x e' j) → nwp (NAPI_CALL f) Q R (built x e j).
Proof. intros Hf HQ. by eapply good_call. Qed.

(** The code that decides how to answer: the promise, or the callback. *)
Definition answers_by (cb : option nat) (p : nat) (e : E) (m : nm napi_value) : Prop :=
  match cb with
  | None => m = give_promise p
  | Some f => ∃ v, val e v (JsFunction f) ∧ m = (create_reference v p ;; mret None)
  end.

Lemma good_create_work p c name op result j :
  j_contexts j !! p = Some c →
  nwp (create_work name op p result) (λ v j', v = result ∧ ∃ e', later (j_engine j) e' ∧
    j' = mkJ e' (j_native j) (<[p := set_work (j_next j) c]> (j_contexts j)) (<[j_next j := (op, p)]> (j_works j))
      (j_refs j) (j_deferreds j) (j_queue j ++ [j_next j]) (j_done j) (j_next j + 1) (j_log j)) never j.
Proof.
  intros Hc. destruct (law_undefined (j_engine j)) as (u & e1 & Hf1 & _ & L1).
  destruct (law_create_string name e1) as (t & e2 & Hf2 & _ & L2).
  destruct (law_create_work (j_next j) (Some u) (Some t) e2) as (e3 & Hf3 & L3).
  destruct (law_queue_work (j_next j) e3) as (e4 & Hf4 & L4).
  apply nwp_bind. eapply good_call; [exact Hf1|]. apply nwp_bind. eapply good_call; [exact Hf2|].
  apply nwp_bind, nwp_bind, nwp_fresh, nwp_bind. eapply good_call; [exact Hf3|].
  apply nwp_bind, nwp_modify. eapply nwp_store; [exact Hc|].
  apply nwp_bind. eapply nwp_load; [cbn; by rewrite lookup_insert_eq|]. apply nwp_bind, nwp_bind, nwp_gets.
  cbn [j_works upd_contexts upd_works]. rewrite lookup_insert_eq.
  apply nwp_bind. eapply good_call; [exact Hf4|]. apply nwp_modify, nwp_ret. split; [done|].
  exists e4. split; [by rewrite L1, L2, L3|done].
Qed.

(** The state after a call that keeps neither a promise nor a callback. *)
Definition asked_in_vain (op : O) (x : D) (e : E) j : jworld E W D O :=
  let p := j_next j in
  mkJ e (j_native j) (<[p := mkContext (Some (p + 1)%nat) None None x]> (j_contexts j))
    (<[(p + 1)%nat := (op, p)]> (j_works j)) (j_refs j) (j_deferreds j) (j_queue j ++ [(p + 1)%nat]) (j_done j)
    (p + 2) (j_log j).

Lemma good_ask_in_vain name op x e j :
  nwp (result ← mret None ; create_work name op (j_next j) result)
    (λ v j', v = None ∧ ∃ e', j' = asked_in_vain op x e' j) never (built x e j).
Proof.
  apply nwp_bind, nwp_ret. eapply nwp_mono; [eapply good_create_work; cbn; by rewrite lookup_insert_eq| |done].
  intros v j' (-> & e' & _ & ->). split; [done|]. exists e'. cbn. rewrite insert_insert_eq.
  unfold asked_in_vain. by rewrite <- !Nat.add_assoc.
Qed.

(** A context without a promise and a callback is not answered, and stays. *)
Lemma good_complete_in_vain p c b b' reason value j :
  j_contexts j !! p = Some c → callbackRef c = None → deferred c = None →
  nwp (complete p b b' reason value) (λ _ _, False) (λ j', ∃ e, j' = upd_engine e j) j.
Proof.
  intros Hc Hr Hd. apply nwp_bind. eapply nwp_load; [exact Hc|]. apply nwp_bind. rewrite Hr, Hd.
  assert (Hs : ∀ f entry, (∀ v e, (f None v e).1 = None) → ∀ v (Q : unit → jworld E W D O → Prop),
    nwp (settle f entry None v) Q (λ j', ∃ e, j' = upd_engine e j) j).
  { intros f entry Hf v Q. apply nwp_bind, nwp_gets, nwp_bind, nwp_gets, nwp_bind, nwp_napi. intros o e He.
    specialize (Hf v (j_engine j)). rewrite He in Hf. cbn in Hf. subst o. eexists None, _. split; [done|]. by eexists. }
  destruct b; apply Hs; intros v e; apply law_no_deferred; exact value.
Qed.

(** The rest of a call. *)
Lemma good_ask cb m name op x e j :
  answers_by cb (j_next j) e m →
  nwp (result ← m ; create_work name op (j_next j) result)
    (λ v j', ∃ e', j' = asked op x cb e' j ∧
       (∀ r y, r ≠ (j_next j + 1)%nat → target e r = Some y → target e' r = Some y) ∧
       match cb with
       | None => val e' v (JsPromise (j_next j + 1))
       | Some f => v = None ∧ target e' (j_next j + 1) = Some (JsFunction f)
       end) never (built x e j).
Proof.
  intros Hm. apply nwp_bind. destruct cb as [f|]; cbn in Hm.
  - destruct Hm as (v & Hv & ->).
    destruct (law_create_reference (j_next j + 1) v f CALLBACK_REF_CNT e Hv) as (e1 & Hf1 & T1 & K1).
    apply nwp_bind, nwp_bind, nwp_fresh, nwp_bind. eapply good_call; [exact Hf1|].
    apply nwp_bind, nwp_modify. eapply nwp_store; [cbn; by rewrite lookup_insert_eq|]. apply nwp_ret.
    eapply nwp_mono; [eapply good_create_work; cbn; by rewrite lookup_insert_eq| |done].
    intros v' j' (-> & e' & [_ Lr] & ->). exists e'. cbn in *. rewrite !insert_insert_eq. split_and!; [|by eauto..].
    unfold asked. by rewrite <- !Nat.add_assoc.
  - subst m. destruct (law_create_promise (j_next j + 1) e) as (v & e1 & Hf1 & S1 & L1).
    apply nwp_bind. eapply nwp_load; [cbn; by rewrite lookup_insert_eq|]. cbn [callbackRef].
    apply nwp_bind, nwp_fresh, nwp_bind. eapply good_call; [exact Hf1|].
    apply nwp_bind, nwp_modify, nwp_bind. eapply nwp_store; [cbn; by rewrite lookup_insert_eq|]. apply nwp_ret.
    eapply nwp_mono; [eapply good_create_work; cbn; by rewrite lookup_insert_eq| |done].
    intros v' j' (-> & e' & [Lv Lr] & ->). exists e'. cbn in *. rewrite !insert_insert_eq. split_and!.
    + unfold asked. by rewrite <- !Nat.add_assoc.
    + intros r y _ Hy. by apply Lr, L1.
    + exists v. auto.
Qed.

(** The context [c] is to be answered by [a]. *)
Definition kept_by (c : context D) (a : way) j : Prop :=
  match a with
  | ByPromise d => callbackRef c = None ∧ deferred c = Some d ∧ d ∈ j_deferreds j
  | ByCallback r f => callbackRef c = Some r ∧ r ∈ j_refs j ∧ target (j_engine j) r = Some (JsFunction f)
  end.

(** The state after the context [p] and its work [w] are released and the answer is logged. *)
Definition concluded (p w : nat) (a : way) (e : E) (x : delivery E) j : jworld E W D O :=
  mkJ e (j_native j) (delete p (j_contexts j)) (delete w (j_works j))
    (match a with ByCallback r _ => j_refs j ∖ {[r]} | ByPromise _ => j_refs j end)
    (match a with ByCallback _ _ => j_deferreds j | ByPromise d => j_deferreds j ∖ {[d]} end)
    (j_queue j) (j_done j) (j_next j) (j_log j ++ [x]).

Definition opt_val (e : E) (v : napi_value) (o : option js) : Prop :=
  match o with None => v = None | Some y => val e v y end.

(** What was logged is the answer. *)
Definition shows (x : delivery E) (a : answer) : Prop :=
  match x, a with
  | Resolved d v e, AResolved d' y => d = d' ∧ val e v y
  | Rejected d v e, ARejected d' y => d = d' ∧ val e v y
  | Called r func argv e, ACalled r' f l => r = r' ∧ val e func (JsFunction f) ∧ Forall2 (opt_val e) argv l
  | _, _ => False
  end.

(** [complete] with these arguments gives the answer. *)
Definition tells (e : E) (promiseFails callbackFails : bool) (reason value : napi_value) (a : way) (x : answer) : Prop :=
  match a, x with
  | ByPromise d, AResolved d' y => d = d' ∧ promiseFails = false ∧ val e value y
  | ByPromise d, ARejected d' y => d = d' ∧ promiseFails = true ∧ val e reason y
  | ByCallback r f, ACalled r' f' l => r = r' ∧ f = f' ∧
      Forall2 (opt_val e) (if callbackFails then [reason; None] else [None; value]) l
  | _, _ => False
  end.

Definition keeps_other_refs (a : way) (e e' : E) : Prop :=
  ∀ r y, r ≠ way_handle a → target e r = Some y → target e' r = Some y.

Lemma good_finish p c w op (Q : unit → jworld E W D O → Prop) R j :
  j_contexts j !! p = Some c → work c = Some w → j_works j !! w = Some (op, p) →
  (∀ e, keeps_refs (j_engine j) e → Q tt (upd_contexts (delete p) (upd_works (delete w) (upd_engine e j)))) →
  nwp (finish p) Q R j.
Proof.
  intros Hc Hw Hop HQ. destruct (law_delete_work w (j_engine j)) as (e & He & Hk).
  apply nwp_bind. eapply nwp_load; [exact Hc|]. apply nwp_bind, nwp_bind, nwp_gets. rewrite Hw.
  rewrite decide_True by by eexists. apply nwp_bind. eapply good_napi; [exact He|].
  apply nwp_modify, nwp_bind. eapply nwp_load; [exact Hc|]. by apply nwp_modify, HQ.
Qed.

Lemma good_settle f entry d v y (Q : unit → jworld E W D O → Prop) R j :
  (∀ e, val e v y → ∃ e', f (Some d) v e = (Some tt, e') ∧ keeps_refs e e') →
  val (j_engine j) v y → d ∈ j_deferreds j →
  (∀ e, keeps_refs (j_engine j) e →
     Q tt (upd_log (entry d v (j_engine j)) (upd_deferreds (.∖ {[d]}) (upd_engine e j)))) →
  nwp (settle f entry (Some d) v) Q R j.
Proof.
  intros Hf Hv Hd HQ. destruct (Hf _ Hv) as (e & He & Hk).
  apply nwp_bind, nwp_gets, nwp_bind, nwp_gets. rewrite decide_True by done.
  apply nwp_bind. eapply good_call; [exact He|]. by apply nwp_bind, nwp_modify, nwp_modify, HQ.
Qed.

Lemma val_opt_later e e' v o : later e e' → opt_val e v o → opt_val e' v o.
Proof. intros Hl. destruct o; [by apply val_later|done]. Qed.

Lemma good_call_back r f argv l (Q : unit → jworld E W D O → Prop) R j :
  r ∈ j_refs j → target (j_engine j) r = Some (JsFunction f) → Forall2 (opt_val (j_engine j)) argv l →
  (∀ e x, shows x (ACalled r f l) → keeps_other_refs (ByCallback r f) (j_engine j) e →
     Q tt (upd_refs (.∖ {[r]}) (upd_log x (upd_engine e j)))) →
  nwp (call_back r argv) Q R j.
Proof.
  intros Hr Ht Hl HQ. destruct (law_undefined (j_engine j)) as (u & e1 & Hf1 & _ & L1).
  destruct (law_get_reference r (JsFunction f) e1 (proj2 L1 _ _ Ht)) as (func & e2 & Hf2 & S2 & L2).
  destruct (napi_call_function (Some u) (Some func) argv e2) as [o e3] eqn:Hf3.
  pose proof (law_call_function (Some u) (Some func) argv e2) as K3. rewrite Hf3 in K3.
  destruct (law_delete_reference r e3) as (e4 & Hf4 & K4).
  apply nwp_bind. eapply good_napi; [exact Hf1|]. apply nwp_bind, nwp_bind, nwp_gets. rewrite decide_True by done.
  eapply good_napi; [exact Hf2|]. apply nwp_bind, nwp_bind, nwp_gets, nwp_bind. eapply good_napi; [exact Hf3|].
  apply nwp_modify, nwp_bind, nwp_gets. rewrite decide_True by done. apply nwp_bind. eapply good_napi; [exact Hf4|].
  apply nwp_modify. apply (HQ e4 (Called r (Some func) argv e2)).
  - split; [done|]. split; [by exists func|]. eapply Forall2_impl; [exact Hl|].
    intros v ov. apply val_opt_later. by rewrite L1.
  - intros r' y Hne Hy. apply K4; [done|]. by apply K3, L2, L1.
Qed.

(** The call was answered by [x], and what it has kept is released. *)
Definition has_answered (p w : nat) (a : way) (x : answer) j (_ : unit) (j' : jworld E W D O) : Prop :=
  ∃ e d, shows d x ∧ keeps_other_refs a (j_engine j) e ∧ j' = concluded p w a e d j.

(** The end of a [Complete] function. *)
Lemma good_complete p c a w op b b' reason value x j :
  j_contexts j !! p = Some c → work c = Some w → j_works j !! w = Some (op, p) → kept_by c a j →
  tells (j_engine j) b b' reason value a x →
  nwp (complete p b b' reason value) (has_answered p w a x j) never j.
Proof.
  intros Hc Hw Hop Hk Ht. apply nwp_bind. eapply nwp_load; [exact Hc|]. apply nwp_bind. destruct a as [d|r f]; cbn in Hk.
  - destruct Hk as (-> & -> & Hd). destruct x as [d' y|d' y|]; [| |done]; destruct Ht as (<- & -> & Hv).
    + eapply (good_settle _ _ d value y); [intros e; apply law_resolve|done..|]. intros e K.
      eapply good_finish; [exact Hc|exact Hw|exact Hop|]. intros e' K'. eexists e', (Resolved d value _). split; [done|]. split; [|done].
      intros r z _ Hz. by apply K', K.
    + eapply (good_settle _ _ d reason y); [intros e; apply law_reject|done..|]. intros e K.
      eapply good_finish; [exact Hc|exact Hw|exact Hop|]. intros e' K'. eexists e', (Rejected d reason _). split; [done|]. split; [|done].
      intros r z _ Hz. by apply K', K.
  - destruct Hk as (-> & Hr & Htr). destruct x as [| |r' f' l]; [done..|]. destruct Ht as (<- & <- & Hl).
    eapply (good_call_back r f); [done..|]. intros e d Hs K.
    eapply good_finish; [exact Hc|exact Hw|exact Hop|]. intros e' K'. eexists e', d. split; [done|]. split; [|done].
    intros r' z Hne Hz. by apply K', K.
Qed.

End Good.

(** ** Arrays and callbacks *)

Section Arrays.
Context {E W D O : Type} `{NapiLaws E}.
Implicit Type j : jworld E W D O.

Lemma set_at_app xs y rest : set_at (length xs) y (xs ++ rest) = (xs ++ [y]) ++ drop 1 rest.
Proof. unfold set_at. rewrite take_app_length, <- app_assoc. f_equal. cbn. f_equal. rewrite drop_app_ge by lia. f_equal. lia. Qed.

(** An element that is made, and put at the next place. *)
Lemma good_element a create x xs rest e :
  gives create x → primitive x = true → shape e a = Some (JsArray (xs ++ rest)) →
  ∃ v e1 e2, create e = (Some v, e1) ∧ napi_set_element (Some a) (length xs) (Some v) e1 = (Some tt, e2) ∧
    keeps_refs e e2 ∧ shape e2 a = Some (JsArray ((xs ++ [x]) ++ drop 1 rest)).
Proof.
  intros Hc Hx Ha. destruct (Hc e) as (v & e1 & He1 & Hv & [Lv Lr]).
  destruct (law_set_element a (length xs) (Some v) (xs ++ rest) x e1) as (e2 & He2 & Hs & Hk & _).
  - by apply Lv.
  - rewrite length_app. lia.
  - by exists v.
  - done.
  - exists v, e1, e2. split_and!; [done|done|intros r y Hy; by apply Hk, Lr|]. by rewrite Hs, set_at_app.
Qed.

Lemma good_set_elements {A} (create : A → E → option nat * E) (y : A → js) a l xs rest info e
    (Q : napi_value → jworld E W D O → Prop) R j :
  (∀ x, gives (create x) (y x)) → (∀ x, primitive (y x) = true) → shape e a = Some (JsArray (xs ++ rest)) →
  (∀ e' info', keeps_refs e e' → shape e' a = Some (JsArray (xs ++ (y <$> l) ++ drop (length l) rest)) →
     (l = [] → e' = e ∧ info' = info) → Q info' (upd_engine e' j)) →
  nwp (set_elements create (Some a) (length xs) l info) Q R (upd_engine e j).
Proof.
  intros Hc Hp Ha HQ. revert xs rest info e Ha HQ. induction l as [|x l IH]; intros xs rest info e Ha HQ.
  - apply nwp_ret, HQ; [by intros r|by rewrite drop_0|done].
  - destruct (good_element a (create x) (y x) xs rest e) as (v & e1 & e2 & He1 & He2 & Hk & Hs); [done..|].
    apply nwp_bind. eapply good_napi; [exact He1|]. apply nwp_bind. eapply good_napi; [exact He2|].
    replace (length xs + 1)%nat with (length (xs ++ [y x])) by (rewrite length_app; done).
    apply (IH (xs ++ [y x]) (drop 1 rest) (Some v) e2 Hs).
    intros e' info' Hk' Hs' _. apply HQ; [by intros r z Hz; apply Hk', Hk| |done].
    rewrite Hs'. rewrite drop_drop, <- app_assoc. done.
Qed.

End Arrays.

(** A reply that is the value of the promise or the error, and the second or the
    first argument of the callback. *)
Definition to_callback (x : bool * js) : list (option js) :=
  if x.1 then [None; Some x.2] else [Some x.2; None].

(** What may follow the arguments of a call: nothing, or a callback. *)
Definition with_callback {Q} (q : Q) (rest : list js) : option (Q * option nat) :=
  match rest with
  | [] => Some (q, None)
  | [JsFunction f] => Some (q, Some f)
  | _ => None
  end.

Lemma with_callback_inv {Q} (q q' : Q) rest cb :
  with_callback q rest = Some (q', cb) → q' = q ∧ rest = match cb with None => [] | Some f => [JsFunction f] end.
Proof.
  destruct rest as [|y [|y' rest]]; cbn; [by intros [= <- <-]| |by destruct y]. destruct y; try done. by intros [= <- <-].
Qed.

(** ** The steps of a call with good arguments *)

Section Calls.
Context {E W D O : Type} `{NapiLaws E}.
Implicit Type j : jworld E W D O.
#[local] Abbreviation nm := (nm E W D O).

(** The end of a call: what [GoodBinding] asks for. *)
Definition has_asked (op : O) (x : D) (cb : option nat) j (v : napi_value) (j' : jworld E W D O) : Prop :=
  ∃ e', j' = asked op x cb e' j ∧
    (∀ r y, r ≠ (j_next j + 1)%nat → target (j_engine j) r = Some y → target e' r = Some y) ∧
    match cb with
    | None => val e' v (JsPromise (j_next j + 1))
    | Some f => v = None ∧ target e' (j_next j + 1) = Some (JsFunction f)
    end.

(** In the middle of it, the arguments are there. *)
Definition arguments_in (e : E) (argv : list napi_value) (args : list js) : Prop :=
  ∀ i y, args !! i = Some y → val e (arg argv i) y.

Lemma arguments_later e e' argv args : later e e' → arguments_in e argv args → arguments_in e' argv args.
Proof. intros Hl Ha i y Hy. by eapply val_later, Ha. Qed.

(** [m] ends the call that was made from [j], from any engine [e] that has the arguments. *)
Definition ends_call (Q : napi_value → jworld E W D O → Prop) (x : D) j (argv : list napi_value) (args : list js)
    (m : nm napi_value) : Prop :=
  ∀ e, later (j_engine j) e → arguments_in e argv args → nwp m Q (λ _, False) (built x e j).

Lemma ends_start Q x info cap (k : list napi_value → nat → nat → nm napi_value) j :
  (length (args_of info) <= cap)%nat →
  (∀ argv, ends_call Q x j argv (args_of info) (k argv (length (args_of info)) (j_next j))) →
  nwp ('(argv, argc) ← NAPI_CALL (napi_get_cb_info info cap) ; context ← new_context x ; k argv argc context)
    Q (λ _, False) j.
Proof.
  intros Hlen Hk. destruct (law_cb_info info cap (j_engine j) Hlen) as (argv & e & He & Hl & Ha).
  apply nwp_bind. eapply good_call; [exact He|]. apply nwp_bind, good_new_context.
  exact (Hk argv e Hl Ha).
Qed.

Lemma ends_put Q x j argv args f (k : unit → nm napi_value) :
  ends_call Q (f x) j argv args (k tt) → ends_call Q x j argv args (put (j_next j) f ≫= k).
Proof. intros Hk e Hl Ha. apply nwp_bind, good_put. by apply Hk. Qed.

Lemma ends_ret {A} (a : A) Q x j argv args (k : A → nm napi_value) :
  ends_call Q x j argv args (k a) → ends_call Q x j argv args (mret a ≫= k).
Proof. intros Hk e Hl Ha. apply nwp_bind, nwp_ret. by apply Hk. Qed.

Lemma ends_assoc {A B} (m : nm A) (k1 : A → nm B) (k2 : B → nm napi_value) Q x j argv args :
  ends_call Q x j argv args (m ≫= λ a, k1 a ≫= k2) → ends_call Q x j argv args ((m ≫= k1) ≫= k2).
Proof.
  intros Hk e Hl Ha. destruct (Hk e Hl Ha) as (o & j' & Hm & Ho). exists o, j'. split; [|done].
  unfold mbind, nm_bind in *. by destruct (m (built x e j)) as [[[a|] j1]|].
Qed.

(** A call of the engine with the result [a]. *)
Lemma ends_napi_call {A} (f : E → option A * E) a Q x j argv args (k : A → nm napi_value) :
  (∀ e, arguments_in e argv args → ∃ e', f e = (Some a, e') ∧ later e e') →
  ends_call Q x j argv args (k a) → ends_call Q x j argv args (NAPI_CALL f ≫= k).
Proof.
  intros Hf Hk e Hl Ha. destruct (Hf e Ha) as (e' & He & Hl'). apply nwp_bind. eapply good_call; [exact He|].
  apply Hk; [by rewrite Hl|by eapply arguments_later].
Qed.

Lemma ends_napi {A} (f : E → option A * E) a Q x j argv args (k : option A → nm napi_value) :
  (∀ e, arguments_in e argv args → ∃ e', f e = (Some a, e') ∧ later e e') →
  ends_call Q x j argv args (k (Some a)) → ends_call Q x j argv args (napi f ≫= k).
Proof.
  intros Hf Hk e Hl Ha. destruct (Hf e Ha) as (e' & He & Hl'). apply nwp_bind. eapply good_napi; [exact He|].
  apply Hk; [by rewrite Hl|by eapply arguments_later].
Qed.

Lemma ends_uint32 i z Q x j argv args (k : Z → nm napi_value) :
  args !! i = Some (JsNumber z) → ends_call Q x j argv args (k (to_u 32 z)) →
  ends_call Q x j argv args (NAPI_CALL (napi_get_value_uint32 (arg argv i)) ≫= k).
Proof. intros Hi. apply ends_napi_call. intros e Ha. by apply law_value_uint32, Ha. Qed.

Lemma ends_int32 i z Q x j argv args (k : Z → nm napi_value) :
  args !! i = Some (JsNumber z) → ends_call Q x j argv args (k (to_i 32 z)) →
  ends_call Q x j argv args (NAPI_CALL (napi_get_value_int32 (arg argv i)) ≫= k).
Proof. intros Hi. apply ends_napi_call. intros e Ha. by apply law_value_int32, Ha. Qed.

Lemma ends_string i n s Q x j argv args (k : string → nm napi_value) :
  args !! i = Some (JsString s) → ends_call Q x j argv args (k (cut (E := E) n s)) →
  ends_call Q x j argv args (NAPI_CALL (napi_get_value_string_utf8 (arg argv i) n) ≫= k).
Proof. intros Hi. apply ends_napi_call. intros e Ha. by apply law_value_string, Ha. Qed.

(** A property of the object in argument [i]. *)
Lemma ends_property i props name s (set : string → D → D) Q x j argv args (k : unit → nm napi_value) :
  args !! i = Some (JsObject props) → get_prop name props = Some (JsString s) →
  ends_call Q (set (c_str (cut (E := E) NapiCommon.PROPERTY_MAX_BYTE s)) x) j argv args (k tt) →
  ends_call Q x j argv args
    (void (NapiCommon.GetPropertyString (arg argv i) name (λ s, put (j_next j) (set s))) ≫= k).
Proof.
  intros Hi Hp Hk e Hl Ha. destruct (law_get_property _ props name (JsString s) e (Ha _ _ Hi) Hp) as (h & e1 & He1 & Hs & L1).
  destruct (law_value_string (Some h) NapiCommon.PROPERTY_MAX_BYTE s e1) as (e2 & He2 & L2); [by exists h|].
  apply nwp_bind, nwp_void, nwp_bind. eapply good_call; [exact He1|]. apply nwp_bind. eapply good_call; [exact He2|].
  refine (good_put (set (c_str (cut (E := E) NapiCommon.PROPERTY_MAX_BYTE s))) x e2 _ _ j _).
  apply Hk; [by rewrite Hl, L1|]. eapply arguments_later; [|exact Ha]. by rewrite L1.
Qed.

(** The rest of a call, after its code has decided how to answer. *)
Lemma ends_ask name op x cb m j argv args :
  match cb with
  | None => m = give_promise (j_next j)
  | Some f => ∃ i, args !! i = Some (JsFunction f) ∧ m = (create_reference (arg argv i) (j_next j) ;; mret None)
  end →
  ends_call (has_asked op x cb j) x j argv args (result ← m ; create_work name op (j_next j) result).
Proof.
  intros Hm e Hl Ha. eapply nwp_mono; [apply (good_ask cb)| |done].
  - destruct cb as [f|]; [|exact Hm]. destruct Hm as (i & Hi & ->). exists (arg argv i). split; [by apply Ha|done].
  - intros v j' (e' & -> & Hr & Hv). exists e'. split; [done|]. split; [|done].
    intros r y Hne Hy. apply Hr; [done|]. by apply (proj2 Hl).
Qed.

(** Neither a promise nor a callback. *)
Lemma ends_in_vain name op x m j argv args :
  m = mret None →
  ends_call (λ v j', v = None ∧ ∃ e', j' = asked_in_vain op x e' j) x j argv args
    (result ← m ; create_work name op (j_next j) result).
Proof. intros -> e Hl Ha. apply good_ask_in_vain. Qed.

End Calls.

(** Closes what [ends_ask] asks for. *)
Ltac asks i :=
  apply ends_ask; repeat case_decide; try lia; try (by destruct_or?; destruct_and?; congruence || lia);
  first [done | by exists i].

Lemma tells_reply {E W D O Q R} `{Contract W D O Q R} `{Script E} e fails reason value y a (q : Q) (r : R) :
  in_promise q r = (negb fails, y) → in_callback q r = to_callback (negb fails, y) →
  val e (if fails then reason else value) y → tells e fails fails reason value a (answer_of q r a).
Proof.
  intros Hp Hc Hv. destruct a as [d|ref f]; cbn.
  - rewrite Hp. by destruct fails.
  - split; [done|]. split; [done|]. rewrite Hc. destruct fails; cbn; by repeat constructor.
Qed.

(** ** The steps of a [Complete] function *)

Section Completes.
Context {E W D O Q R : Type} `{NapiLaws E} `{!Contract W D O Q R}.
Implicit Type j : jworld E W D O.

(** From an engine with the references of [j], [m] answers the call that [j] has
    in the context [p]. *)
Definition answers_from (p w : nat) (c : context D) (a : way) (x : answer) j (m : nm E W D O unit) (e : E) : Prop :=
  kept_by c a (upd_engine e j) → keeps_refs (j_engine j) e →
  nwp m (has_answered p w a x j) (λ _, False) (upd_engine e j).

Lemma answers_start p w c a x j m : kept_by c a j → answers_from p w c a x j m (j_engine j) → nwp m (has_answered p w a x j) (λ _, False) j.
Proof. intros Hk Hm. destruct j. apply Hm; [done|]. by intros r. Qed.

Lemma kept_engine c a j e e' : keeps_refs e e' → kept_by c a (upd_engine e j) → kept_by c a (upd_engine e' j).
Proof. intros Hr. destruct a; [done|]. intros (? & ? & ?). split_and!; auto. Qed.

Lemma answers_napi {A} (f : E → option A * E) o e' p w c a x j (k : option A → nm E W D O unit) e :
  f e = (o, e') → keeps_refs e e' → answers_from p w c a x j (k o) e' → answers_from p w c a x j (napi f ≫= k) e.
Proof.
  intros Hf Hr Hk Hkept Hrefs. apply nwp_bind. eapply good_napi; [exact Hf|]. apply Hk; [by eapply kept_engine|].
  intros r y Hy. by apply Hr, Hrefs.
Qed.

Lemma answers_tells p w c op a x j b b' reason value e :
  j_contexts j !! p = Some c → work c = Some w → j_works j !! w = Some (op, p) →
  tells e b b' reason value a x → answers_from p w c a x j (complete p b b' reason value) e.
Proof.
  intros Hc Hw Hop Ht Hk Hrefs. eapply nwp_mono; [by eapply (good_complete p c a w op)| |done].
  intros [] j' (e' & d & Hs & He & ->). exists e', d. split; [done|]. split; [|done]. intros r' z Hne Hz. by apply He, Hrefs.
Qed.

Lemma answers_complete p w c op a q r j fails reason value y e :
  j_contexts j !! p = Some c → work c = Some w → j_works j !! w = Some (op, p) →
  in_promise q r = (negb fails, y) → in_callback q r = to_callback (negb fails, y) →
  val e (if fails then reason else value) y →
  answers_from p w c a (answer_of q r a) j (complete p fails fails reason value) e.
Proof.
  intros Hc Hw Hop Hp Hcb Hv. eapply answers_tells; [done..|]. by eapply tells_reply.
Qed.

(** A value that is made, and given as the reply. *)
Lemma answers_value (f : E → option nat * E) p w c op a q r j fails y e :
  j_contexts j !! p = Some c → work c = Some w → j_works j !! w = Some (op, p) → gives f y →
  in_promise q r = (negb fails, y) → in_callback q r = to_callback (negb fails, y) →
  answers_from p w c a (answer_of q r a) j (info ← napi f ; complete p fails fails info info) e.
Proof.
  intros Hc Hw Hop Hf Hp Hcb. destruct (Hf e) as (v & e' & He & Hs & [_ Hl]). eapply answers_napi; [exact He|exact Hl|].
  eapply answers_complete; [done..|]. destruct fails; by exists v.
Qed.

Lemma answers_result (f : E → option nat * E) p w c op a q r j reason y e :
  j_contexts j !! p = Some c → work c = Some w → j_works j !! w = Some (op, p) → gives f y →
  in_promise q r = (true, y) → in_callback q r = to_callback (true, y) →
  answers_from p w c a (answer_of q r a) j (info ← napi f ; complete p false false reason info) e.
Proof.
  intros Hc Hw Hop Hf Hp Hcb. destruct (Hf e) as (v & e' & He & Hs & [_ Hl]). eapply answers_napi; [exact He|exact Hl|].
  eapply (answers_complete _ _ _ _ _ _ _ _ false); [done..|]. by exists v.
Qed.

(** [SetProperty<Type>] with a value that [f] makes; the primitive values stay. *)
Lemma answers_property (f : E → option nat * E) y a name props p w c b x j (k : unit → nm E W D O unit) e :
  gives f y → primitive y = true → shape e a = Some (JsObject props) → get_prop name props = None →
  (∀ e', shape e' a = Some (JsObject (props ++ [(name, y)])) →
     (∀ h z, primitive z = true → shape e h = Some z → shape e' h = Some z) → answers_from p w c b x j (k tt) e') →
  answers_from p w c b x j
    (void (v ← NAPI_CALL f ; NAPI_CALL (napi_set_named_property (Some a) name (Some v))) ≫= k) e.
Proof.
  intros Hf Hy Ha Hn Hk Hkept Hrefs. destruct (Hf e) as (v & e1 & He1 & Hv & [Lv Lr]).
  destruct (law_set_property a name (Some v) props y e1) as (e2 & He2 & Ha2 & Hr2 & Hs2); [by apply Lv|done|by exists v|done|].
  assert (Hr : keeps_refs e e2) by (intros r z Hz; by apply Hr2, Lr).
  apply nwp_bind, nwp_void, nwp_bind. eapply good_call; [exact He1|]. eapply good_call; [exact He2|].
  apply Hk; [done|intros h z Hz Hh; by apply Hs2, Lv|by eapply kept_engine|intros r z Hz; by apply Hr, Hrefs].
Qed.

End Completes.

(** A service whose value is wrapped as a reply, which changes the data. *)
Lemma bind_wrap {W A R D} (m : st W A) (f : A → D) (g : A → R) (h : R → D) w :
  (∀ a, f a = h (g a)) →
  (a ← m ; mret (f a)) w = match (a ← m ; mret (g a)) w with Some (r, w') => Some (h r, w') | None => None end.
Proof. intros Hf. unfold mbind, st_bind. destruct (m w) as [[a w']|]; [|done]. cbn. by rewrite Hf. Qed.
