(* ===== verification/NapiRefine.v ===== *)
(** * A module that keeps its contract refines the machine of asynchronous calls *)

From S2P Require Import Prelude Napi NapiSafe NapiSpec.

(** What a module promises with the documented engine. *)
Class GoodBinding (E W D O Q R : Type) `{SafeBinding E W D O} `{!Script E} `{!NapiLaws E} `{!Contract W D O Q R} := {
  good_call_law op info q cb (j : jworld E W D O) : request_of op (args_of info) = Some (q, cb) →
    nwp (b_call op info) (has_asked op (data_of q) cb j) (λ _, False) j;
  good_exec_law op args q cb w : request_of op args = Some (q, cb) →
    exec_of op (data_of q) w = match serve q w with Some (r, w') => Some (data_after q r, w') | None => None end;
  good_complete_law op args q cb r a p c w op' (j : jworld E W D O) : request_of op args = Some (q, cb) →
    j_contexts j !! p = Some c → work c = Some w → j_works j !! w = Some (op', p) → kept_by c a j →
    data c = data_after q r → replies q r →
    nwp (b_complete op (Some p)) (has_answered p w a (answer_of q r a) j) (λ _, False) j;
}.

(** The steps of a module that is used as it should be, while nothing else uses
    the client library. *)
Inductive script_step {E W D O Q R} `{GoodBinding E W D O Q R} : jworld E W D O → jworld E W D O → Prop :=
  | good_call_step j op info q v j' :
      request_of op (args_of info) = Some q → call op info j = Some (v, j') → script_step j j'
  | good_execute j x j' : x ∈ j_queue j → execute x j = Some (tt, j') → script_step j j'
  | good_conclude j x j' : x ∈ j_done j → conclude x j = Some (tt, j') → script_step j j'
  | good_engine j e' : keeps_refs (j_engine j) e' → script_step j (upd_engine e' j).

(** The rest of the process goes on as it likes. *)
Inductive good_step {E W D O Q R} `{GoodBinding E W D O Q R} : jworld E W D O → jworld E W D O → Prop :=
  | good_script j j' : script_step j j' → good_step j j'
  | good_native j w' : good_step j (upd_native w' j).

Section Refinement.
Context {E W D O Q R : Type} `{GoodBinding E W D O Q R}.
Implicit Type j : jworld E W D O.
Implicit Type m : machine W Q R.

(** The work [w] with its context is the pending call [x]. *)
Definition serves_as j (w : nat) (x : pending Q R) : Prop :=
  ∃ op p c args cb, j_works j !! w = Some (op, p) ∧ j_contexts j !! p = Some c ∧ work c = Some w ∧
    kept_by c (pending_way x) j ∧
    match x with
    | Asked q _ => request_of op args = Some (q, cb) ∧ data c = data_of q ∧ w ∈ j_queue j
    | Served q r _ => request_of op args = Some (q, cb) ∧ data c = data_after q r ∧ w ∈ j_done j ∧ replies q r
    end.

Definition has_way m (a : way) : Prop := ∃ w x, m_pending m !! w = Some x ∧ pending_way x = a.

Record simulates j m : Prop := mkSimulates {
  si_native : j_native j = m_native m;
  si_pending : ∀ w x, m_pending m !! w = Some x → serves_as j w x;
  si_works : ∀ w, is_Some (j_works j !! w) → is_Some (m_pending m !! w);
  si_contexts : ∀ p c, j_contexts j !! p = Some c → is_Some (work c);
  si_refs : ∀ r, r ∈ j_refs j → ∃ f, has_way m (ByCallback r f);
  si_deferreds : ∀ d, d ∈ j_deferreds j → has_way m (ByPromise d);
  si_queue : ∀ w, w ∈ j_queue j → ∃ q a, m_pending m !! w = Some (Asked q a);
  si_done : ∀ w, w ∈ j_done j → ∃ q r a, m_pending m !! w = Some (Served q r a);
  si_answers : Forall2 shows (j_log j) (m_answers m);
}.

Lemma kept_keeps c a j : kept_by c a j → keeps c (way_handle a).
Proof. destruct a; intros (? & ? & ?); [by right|by left]. Qed.

Lemma kept_mono c a j j' :
  j_refs j ⊆ j_refs j' → j_deferreds j ⊆ j_deferreds j' →
  (∀ y, target (j_engine j) (way_handle a) = Some y → target (j_engine j') (way_handle a) = Some y) →
  kept_by c a j → kept_by c a j'.
Proof. intros Hr Hd Ht. destruct a; cbn in *; [set_solver|]. intros (? & ? & ?). split_and!; [done|set_solver|auto]. Qed.

Lemma shows_handle x a : shows x a → handle x = answer_handle a.
Proof. destruct x, a; cbn; try done; by intros [-> _]. Qed.

Lemma answers_handles l l' : Forall2 shows l l' → handle <$> l = answer_handle <$> l'.
Proof. induction 1 as [|x a l l' Hx _ IH]; [done|]. cbn. f_equal; [by apply shows_handle|done]. Qed.

Lemma simulates_load e w : simulates (module_load e w) (m_start w).
Proof.
  split; cbn; try done; try (intros; by simplify_map_eq); try (by intros x ?%elem_of_nil); try (by intros x ?%elem_of_empty).
Qed.

Lemma serves_mono j j' w x :
  serves_as j w x → (∀ y, j_works j !! w = Some y → j_works j' !! w = Some y) →
  (∀ p c, j_contexts j !! p = Some c → work c = Some w → j_contexts j' !! p = Some c) →
  (∀ c, kept_by c (pending_way x) j → kept_by c (pending_way x) j') →
  (w ∈ j_queue j → w ∈ j_queue j') → (w ∈ j_done j → w ∈ j_done j') → serves_as j' w x.
Proof.
  intros (op & p & c & args & cb & Hop & Hc & Hw & Hk & Hx) Ho Hcs Hks Hq Hd.
  exists op, p, c, args, cb. split_and!; [auto..|]. destruct x; naive_solver.
Qed.

(** The handles of pending calls and of answers are in use. *)
Lemma pending_keeps j m w x :
  simulates j m → m_pending m !! w = Some x →
  ∃ op p c, j_works j !! w = Some (op, p) ∧ j_contexts j !! p = Some c ∧ work c = Some w ∧ keeps c (way_handle (pending_way x)).
Proof.
  intros Hs Hw. destruct (si_pending _ _ Hs w x Hw) as (op & p & c & args & cb & Hop & Hc & Hcw & Hk & _).
  exists op, p, c. by split_and!; [..|apply (kept_keeps _ _ j)].
Qed.

Lemma simulates_fresh j m h : jinv j → simulates j m → (j_next j <= h)%nat → fresh_handle h m ∧ m_pending m !! h = None.
Proof.
  intros Hj Hs Hh. split; [split|].
  - intros w x Hw Heq. destruct (pending_keeps j m w x Hs Hw) as (op & p & c & _ & Hc & _ & Hk).
    apply (ji_keeps_next _ _ Hj p c _ Hc) in Hk. lia.
  - rewrite <- (answers_handles _ _ (si_answers _ _ Hs)). intros Hin%(ji_log_next _ _ Hj). lia.
  - destruct (m_pending m !! h) as [x|] eqn:Hx; [|done].
    destruct (pending_keeps j m h x Hs Hx) as (op & p & c & Hop & _). apply mk_is_Some, (ji_works_next _ _ Hj) in Hop. lia.
Qed.

(** A new call. *)
Lemma simulates_asked op args q cb e' j m :
  jinv j → simulates j m → request_of op args = Some (q, cb) →
  (∀ r y, r ≠ (j_next j + 1)%nat → target (j_engine j) r = Some y → target e' r = Some y) →
  match cb with None => True | Some f => target e' (j_next j + 1) = Some (JsFunction f) end →
  ∃ m', act m m' ∧ simulates (asked op (data_of q) cb e' j) m' ∧
    m_pending m' !! (j_next j + 2)%nat = Some (Asked q (way_for cb (j_next j + 1))).
Proof.
  intros Hj Hs Hq Hr Hcb. set (n := j_next j) in *.
  destruct (simulates_fresh j m (n + 1) Hj Hs) as [Hf _]; [lia|].
  destruct (simulates_fresh j m (n + 2) Hj Hs) as [_ Hn]; [lia|].
  eexists. split; [by eapply (m_ask m (n + 2) (n + 1))|]. split; [|cbn; by rewrite lookup_insert_eq].
  assert (Hrefs : j_refs j ⊆ j_refs (asked op (data_of q) cb e' j)) by (cbn; destruct cb; set_solver).
  assert (Hdefs : j_deferreds j ⊆ j_deferreds (asked op (data_of q) cb e' j)) by (cbn; destruct cb; set_solver).
  set (m' := mkMachine _ (<[(n + 2)%nat := Asked q (way_for cb (n + 1))]> (m_pending m)) _).
  assert (Hold : ∀ a, has_way m a → has_way m' a).
  { intros a (w & x & Hw & Hh). exists w, x. cbn. by rewrite lookup_insert_ne by congruence. }
  assert (Hnew : has_way m' (way_for cb (n + 1))) by (eexists _, _; cbn; by rewrite lookup_insert_eq).
  destruct Hs. split; cbn.
  - done.
  - intros w x [[<- <-]|[Hne Hw]]%lookup_insert_Some.
    + eexists op, n, _, args, cb. cbn. rewrite !lookup_insert_eq. split_and!; [done|done|by destruct cb| |done|by destruct cb|set_solver].
      destruct cb; cbn; split_and!; try done; set_solver.
    + eapply serves_mono; [by apply si_pending0|..]; cbn.
      * intros y Hy. by rewrite lookup_insert_ne.
      * intros p c Hc _. rewrite lookup_insert_ne; [done|]. apply mk_is_Some, (ji_contexts_next _ _ Hj) in Hc. lia.
      * intros c. apply kept_mono; [done..|]. intros y. apply Hr. by apply (proj1 Hf w x).
      * set_solver.
      * done.
  - intros w. rewrite !lookup_insert_is_Some. naive_solver.
  - intros p c [[<- <-]|[_ Hc]]%lookup_insert_Some; [by destruct cb|eauto].
  - intros r Hin. destruct cb as [f|]; [apply elem_of_union in Hin as [->%elem_of_singleton|Hin]; [by exists f|]|];
      destruct (si_refs0 r Hin) as [f' Hf']; eauto.
  - intros d Hin. destruct cb as [f|]; [|apply elem_of_union in Hin as [->%elem_of_singleton|Hin]; [done|]]; auto.
  - intros w. rewrite elem_of_app, list_elem_of_singleton. intros [Hw| ->].
    + destruct (si_queue0 w Hw) as (q' & a & Hqa). exists q', a. by rewrite lookup_insert_ne by congruence.
    + rewrite lookup_insert_eq. eauto.
  - intros w Hw. destruct (si_done0 w Hw) as (q' & r & a & Hqa). exists q', r, a. by rewrite lookup_insert_ne by congruence.
  - done.
Qed.

(** A change of the engine that keeps the references, and one of the rest of the process. *)
Lemma simulates_engine e j m : keeps_refs (j_engine j) e → simulates j m → simulates (upd_engine e j) m.
Proof.
  intros Hk []. split; try done. intros w x Hw. eapply serves_mono; [by apply si_pending0|..]; cbn; try done.
  intros c. apply kept_mono; [done..|]. intros y. apply Hk.
Qed.

(** A work that is executed. *)
Lemma simulates_served w op p c q a args cb r n j m :
  jinv j → simulates j m → m_pending m !! w = Some (Asked q a) → request_of op args = Some (q, cb) →
  j_works j !! w = Some (op, p) → j_contexts j !! p = Some c → work c = Some w → kept_by c a j →
  w ∈ j_queue j → serve q (j_native j) = Some (r, n) →
  ∃ m', act m m' ∧ simulates (upd_pool (filter (.≠ w) (j_queue j)) (j_done j ++ [w])
    (upd_native n (upd_contexts <[p := set_data (data_after q r) c]> j))) m'.
Proof.
  intros Hj Hs Hm Hq Hop Hc Hw Hk Hqueue Hserve. destruct Hs.
  eexists. split; [eapply (m_serve m w q a r n); [done|by rewrite <- si_native0]|].
  pose proof (ji_nodup _ _ Hj) as (_ & Hqd & _)%NoDup_app.
  set (m' := mkMachine n (<[w := Served q r a]> (m_pending m)) _).
  assert (Hsame : ∀ a', has_way m a' → has_way m' a').
  { intros a' (w' & x & Hx & <-). destruct (decide (w = w')) as [<-|Hne].
    - exists w, (Served q r a). cbn. rewrite lookup_insert_eq. by simplify_eq.
    - exists w', x. cbn. by rewrite lookup_insert_ne. }
  split; cbn.
  - done.
  - intros w' x [[<- <-]|[Hne Hx]]%lookup_insert_Some.
    + eexists op, p, _, args, cb. cbn. rewrite lookup_insert_eq. split_and!; [done|done|done| |done|done|set_solver|by eexists _, _].
      eapply kept_mono; [..|by destruct a; exact Hk]; done.
    + eapply serves_mono; [by apply si_pending0|..]; cbn; try done.
      * intros p' c' Hc' Hw'. rewrite lookup_insert_ne; [done|]. congruence.
      * rewrite list_elem_of_filter. auto.
      * set_solver.
  - intros w' Hw'. apply lookup_insert_is_Some'. auto.
  - intros p' c' [[<- <-]|[_ Hc']]%lookup_insert_Some; [by eexists|eauto].
  - intros r' Hr'. destruct (si_refs0 r' Hr') as [f Hf]. eauto.
  - auto.
  - intros w' [Hne Hw']%list_elem_of_filter. rewrite lookup_insert_ne by done. auto.
  - intros w'. rewrite elem_of_app, list_elem_of_singleton. intros [Hw'| ->]; [|rewrite lookup_insert_eq; eauto].
    rewrite lookup_insert_ne; [auto|]. intros <-. by apply (Hqd w).
  - done.
Qed.

(** A work that is concluded. *)
Lemma simulates_concluded w op p c q r a e x j m :
  jinv j → simulates j m → m_pending m !! w = Some (Served q r a) →
  j_works j !! w = Some (op, p) → j_contexts j !! p = Some c → work c = Some w → kept_by c a j →
  shows x (answer_of q r a) → keeps_other_refs a (j_engine j) e →
  ∃ m', act m m' ∧ simulates (concluded p w a e x (upd_pool (j_queue j) (filter (.≠ w) (j_done j)) j)) m'.
Proof.
  intros Hj Hs Hm Hop Hc Hw Hk Hx He. eexists. split; [by eapply (m_answer m w q r a)|].
  assert (Hother : ∀ w' y, w' ≠ w → m_pending m !! w' = Some y → way_handle (pending_way y) ≠ way_handle a).
  { intros w' y Hne Hy Heq. destruct (pending_keeps j m w' y Hs Hy) as (op' & p' & c' & Hop' & Hc' & Hw' & Hk').
    rewrite Heq in Hk'. assert (p = p') as <- by (eapply (ji_apart _ _ Hj); [exact Hc|done|by apply (kept_keeps c a j)|done]).
    congruence. }
  set (m' := mkMachine _ (delete w (m_pending m)) _).
  assert (Hleft : ∀ a', a' ≠ a → has_way m a' → has_way m' a').
  { intros a' Hne (w' & y & Hy & <-). exists w', y. cbn. rewrite lookup_delete_ne; [done|]. intros <-. by simplify_eq. }
  pose proof (ji_nodup _ _ Hj) as (_ & Hqd & _)%NoDup_app.
  destruct Hs. split; cbn.
  - done.
  - intros w' y [Hne Hy]%lookup_delete_Some. eapply serves_mono; [by apply si_pending0|..]; cbn.
    + intros z Hz. by rewrite lookup_delete_ne.
    + intros p' c' Hc' Hw'. rewrite lookup_delete_ne; [done|]. congruence.
    + specialize (Hother w' y (not_eq_sym Hne) Hy). specialize (He (way_handle (pending_way y))).
      intros c'. destruct a, (pending_way y); cbn in *; intros (? & ? & ?); split_and!; auto; set_solver.
    + done.
    + rewrite list_elem_of_filter. auto.
  - intros w'. rewrite !lookup_delete_is_Some. naive_solver.
  - intros p' c' [_ Hc']%lookup_delete_Some. eauto.
  - intros r' Hr'. assert (Hin : r' ∈ j_refs j) by (destruct a; set_solver).
    destruct (si_refs0 r' Hin) as [f Hf]. exists f. apply Hleft; [|done]. destruct a; [done|]. set_solver.
  - intros d Hd'. apply Hleft; [destruct a; [set_solver|done]|]. apply si_deferreds0. destruct a; set_solver.
  - intros w' Hw'. destruct (si_queue0 w' Hw') as (q' & a' & Hqa). exists q', a'. rewrite lookup_delete_ne; [done|].
    intros <-. simplify_eq.
  - intros w' [Hne Hw']%list_elem_of_filter. destruct (si_done0 w' Hw') as (q' & r' & a' & Hqa). exists q', r', a'.
    by rewrite lookup_delete_ne by done.
  - apply Forall2_app; [done|]. by repeat constructor.
Qed.

(** *** Every step is one of the machine, or changes nothing for it *)

Lemma call_asked op info q cb v j j' :
  request_of op (args_of info) = Some (q, cb) → call op info j = Some (v, j') →
  has_asked op (data_of q) cb j v j'.
Proof.
  intros Hq Hc. destruct (good_call_law op info q cb j Hq) as ([v'|] & j1 & Hm & Ho); [|done].
  unfold call, mbind, st_bind, run in Hc. rewrite Hm in Hc. injection Hc as <- <-. exact Ho.
Qed.

Lemma simulates_execute j m x j' :
  jinv j → simulates j m → x ∈ j_queue j → execute x j = Some (tt, j') → ∃ m', act m m' ∧ simulates j' m'.
Proof.
  intros Hj Hs Hx Hr. destruct (si_queue _ _ Hs x Hx) as (q & a & Hqa).
  destruct (si_pending _ _ Hs x _ Hqa) as (op & p & c & args & cb & Hop & Hc & Hw & Hk & Hq & Hd & _).
  pose proof (good_exec_law op args q cb (j_native j) Hq) as He. rewrite <- Hd in He.
  destruct (serve q (j_native j)) as [[r n]|] eqn:Hserve.
  - rewrite (execute_run x op p c (data_after q r) n) in Hr by done. injection Hr as <-. by eapply simulates_served.
  - unfold execute, mbind, st_bind, gets, run in Hr. by rewrite Hop, (exec_law op p c j Hc), He in Hr.
Qed.

Lemma conclude_run j m x j' :
  simulates j m → x ∈ j_done j → conclude x j = Some (tt, j') →
  ∃ op p c q r a e d, m_pending m !! x = Some (Served q r a) ∧ j_works j !! x = Some (op, p) ∧
    j_contexts j !! p = Some c ∧ work c = Some x ∧ kept_by c a j ∧ shows d (answer_of q r a) ∧
    keeps_other_refs a (j_engine j) e ∧
    j' = concluded p x a e d (upd_pool (j_queue j) (filter (.≠ x) (j_done j)) j).
Proof.
  intros Hs Hx Hr. destruct (si_done _ _ Hs x Hx) as (q & r & a & Hqa).
  destruct (si_pending _ _ Hs x _ Hqa) as (op & p & c & args & cb & Hop & Hc & Hw & Hk & Hq & Hd & _ & Hre). cbn in Hk.
  set (j0 := upd_pool (j_queue j) (filter (.≠ x) (j_done j)) j) in *.
  assert (Hk0 : kept_by c a j0) by by destruct a.
  destruct (good_complete_law op args q cb r a p c x op j0 Hq Hc Hw Hop Hk0 Hd Hre) as (o & j1 & Hm & Ho).
  destruct o as [[]|]; [|done]. destruct Ho as (e & d & Hshow & He & ->).
  unfold conclude, mbind, st_bind, gets, modify, run in Hr. rewrite Hop in Hr. fold j0 in Hr. rewrite Hm in Hr. injection Hr as <-.
  by exists op, p, c, q, r, a, e, d.
Qed.

Lemma simulates_conclude j m x j' :
  jinv j → simulates j m → x ∈ j_done j → conclude x j = Some (tt, j') → ∃ m', act m m' ∧ simulates j' m'.
Proof.
  intros Hj Hs Hx Hr.
  destruct (conclude_run j m x j' Hs Hx Hr) as (op & p & c & q & r & a & e & d & Hqa & Hop & Hc & Hw & Hk & Hshow & He & ->).
  by eapply simulates_concluded.
Qed.

Lemma script_step_simulates j m j' :
  jinv j → simulates j m → script_step j j' → ∃ m', rtc act m m' ∧ simulates j' m' ∧ jinv j'.
Proof.
  intros Hj Hs Hstep. destruct Hstep as [j op info [q cb] v j' Hq Hc|j x j' Hx Hr|j x j' Hx Hr|j e' Hk].
  - pose proof (wp_run _ _ _ _ _ (call_jinv op info j Hj) Hc) as Hj'.
    destruct (call_asked op info q cb v j j' Hq Hc) as (e' & -> & Hr & Hcb).
    destruct (simulates_asked op _ q cb e' j m Hj Hs Hq Hr) as (m' & ? & ? & _); [by destruct cb as [f|]; [apply Hcb|]|].
    exists m'. split; [by apply rtc_once|done].
  - pose proof (execute_jinv x j j' Hj Hx Hr). destruct (simulates_execute j m x j') as (m' & ? & ?); [done..|].
    exists m'. split; [by apply rtc_once|done].
  - pose proof (wp_run _ _ _ _ _ (conclude_jinv x j Hj Hx) Hr). destruct (simulates_conclude j m x j') as (m' & ? & ?); [done..|].
    exists m'. split; [by apply rtc_once|done].
  - exists m. split; [done|]. split; [by apply simulates_engine|by apply jinv_engine].
Qed.

Lemma script_steps_simulate j m j' :
  jinv j → simulates j m → rtc script_step j j' → ∃ m', rtc act m m' ∧ simulates j' m' ∧ jinv j'.
Proof.
  intros Hj Hs Hsteps. revert m Hj Hs. induction Hsteps as [j|j j1 j' Hstep _ IH]; intros m Hj Hs; [by exists m|].
  destruct (script_step_simulates j m j1 Hj Hs Hstep) as (m1 & Hm & Hs1 & Hj1).
  destruct (IH m1 Hj1 Hs1) as (m' & Hm' & Hs' & Hj'). exists m'. split; [by etrans|done].
Qed.

Lemma acts_steps m m' : rtc act m m' → rtc mstep m m'.
Proof. apply rtc_subrel. intros ? ? ?. by constructor. Qed.

Lemma good_step_simulates j m j' :
  jinv j → simulates j m → good_step j j' → ∃ m', rtc mstep m m' ∧ simulates j' m' ∧ jinv j'.
Proof.
  intros Hj Hs Hgood. destruct Hgood as [j j' Hstep|j w'].
  - destruct (script_step_simulates j m j' Hj Hs Hstep) as (m' & Hm & ?). exists m'. split; [by apply acts_steps|done].
  - exists (mkMachine w' (m_pending m) (m_answers m)). split; [apply rtc_once, m_rest|]. split; [|by apply jinv_native].
    by destruct Hs.
Qed.

Lemma good_steps_simulate j m j' :
  jinv j → simulates j m → rtc good_step j j' → ∃ m', rtc mstep m m' ∧ simulates j' m' ∧ jinv j'.
Proof.
  intros Hj Hs Hsteps. revert m Hj Hs. induction Hsteps as [j|j j1 j' Hstep _ IH]; intros m Hj Hs; [by exists m|].
  destruct (good_step_simulates j m j1 Hj Hs Hstep) as (m1 & Hm & Hs1 & Hj1).
  destruct (IH m1 Hj1 Hs1) as (m' & Hm' & Hs' & Hj'). exists m'. split; [by etrans|done].
Qed.

(** The module does what the machine does. *)
Definition refines : Prop := ∀ e w j, rtc good_step (module_load e w) j →
  ∃ m, rtc mstep (m_start w) m ∧ simulates j m.

Lemma good_refines : refines.
Proof.
  intros e w j Hj. destruct (good_steps_simulate _ _ j (jinv_load_module e w) (simulates_load e w) Hj) as (m & Hm & Hs & _). eauto.
Qed.

(** *** Every answer is one to a request *)

(** The replies of the service to a request that the arguments [args] of [op] make. *)
Definition asked_for (q : Q) : Prop := ∃ op args cb, request_of op args = Some (q, cb).

Definition origin m : Prop :=
  (∀ w x, m_pending m !! w = Some x →
     match x with Asked q _ => asked_for q | Served q r _ => asked_for q ∧ replies q r end) ∧
  (∀ a, a ∈ m_answers m → ∃ q r way, asked_for q ∧ replies q r ∧ a = answer_of q r way).

Lemma origin_step m m' : mstep m m' → origin m → origin m'.
Proof.
  intros Hstep [Hp Ha]. destruct Hstep as [m m' Hact|m n]; [|done].
  destruct Hact as [m w' h op args q cb Hq Hn Hh|m w' q a r n Hw' Hs|m w' q r a Hw']; split; cbn [m_pending m_answers]; try done.
  - intros w x [[<- <-]|[Hne Hw]]%lookup_insert_Some; [by exists op, args, cb|by apply (Hp w)].
  - intros w x [[<- <-]|[Hne Hw]]%lookup_insert_Some; [|by apply (Hp w)]. split; [exact (Hp w' _ Hw')|by eexists _, _].
  - intros w x [_ Hw]%lookup_delete_Some. by apply (Hp w).
  - intros a' [Hin| ->%list_elem_of_singleton]%elem_of_app; [by apply Ha|]. destruct (Hp w' _ Hw'). by exists q, r, a.
Qed.

Lemma origin_reachable n m : rtc mstep (m_start n) m → origin m.
Proof.
  intros Hm. assert (H0' : origin (m_start n)) by (split; cbn; [by intros w x ?%lookup_empty_Some|by intros a ?%elem_of_nil]).
  induction Hm as [|m1 m2 m3 Hstep _ IH]; [done|]. by apply IH, (origin_step m1).
Qed.

(** Whatever is true of every reply is true of everything that reached the script. *)
Lemma good_answers (A : answer → Prop) :
  (∀ q r way, asked_for q → replies q r → A (answer_of q r way)) →
  ∀ e w j x, rtc good_step (module_load e w) j → x ∈ j_log j → ∃ a, shows x a ∧ A a.
Proof.
  intros HA e w j x Hj [i Hi]%list_elem_of_lookup. destruct (good_refines e w j Hj) as (m & Hm & Hs).
  destruct (Forall2_lookup_l _ _ _ _ _ (si_answers _ _ Hs) Hi) as (a & Ha & Hx). exists a. split; [done|].
  destruct (origin_reachable w m Hm) as [_ Ho]. destruct (Ho a) as (q & r & way & Hq & Hr & ->); [by eapply list_elem_of_lookup_2|].
  by apply HA.
Qed.

(** *** Every call is answered *)

(** The call [w] for [q] is pending, or was answered with a reply of the service. *)
Definition fate (q : Q) (a : way) (w : nat) m : Prop :=
  m_pending m !! w = Some (Asked q a) ∨
  ∃ r n n', serve q n = Some (r, n') ∧ (m_pending m !! w = Some (Served q r a) ∨ answer_of q r a ∈ m_answers m).

Lemma fate_step q a w m m' : mstep m m' → fate q a w m → fate q a w m'.
Proof.
  intros Hstep Hf. destruct Hstep as [m m' Hact|m n]; [|exact Hf].
  destruct Hact as [m w' h op args q' cb Hq Hn Hh|m w' q' a' r n Hw' Hs|m w' q' r a' Hw'].
  - destruct Hf as [Hf|(r & n & n' & Hs & [Hf|Hf])]; [left|right; exists r, n, n'; split; [done|left]|right; exists r, n, n'; auto];
      cbn; rewrite lookup_insert_ne; congruence.
  - destruct (decide (w' = w)) as [->|Hne].
    + destruct Hf as [Hf|(r' & n1 & n2 & Hs' & [Hf|Hf])]; [|congruence|right; exists r', n1, n2; auto].
      right. exists r, (m_native m), n. simplify_eq. split; [done|]. left. cbn. by rewrite lookup_insert_eq.
    + destruct Hf as [Hf|(r' & n1 & n2 & Hs' & [Hf|Hf])]; [left|right; exists r', n1, n2; split; [done|left]|right; exists r', n1, n2; auto];
        cbn; by rewrite lookup_insert_ne.
  - destruct (decide (w' = w)) as [->|Hne].
    + destruct Hf as [Hf|(r' & n1 & n2 & Hs' & Hf)]; [congruence|]. right. exists r', n1, n2. split; [done|]. right. cbn.
      rewrite elem_of_app. destruct Hf as [Hf|Hf]; [right|by left]. simplify_eq. by left.
    + destruct Hf as [Hf|(r' & n1 & n2 & Hs' & [Hf|Hf])]; [left|right; exists r', n1, n2; split; [done|left]|
        right; exists r', n1, n2; split; [done|right]]; cbn; [by rewrite lookup_delete_ne..|]. rewrite elem_of_app. by left.
Qed.

(** Nothing is left of a module whose works are concluded. *)
Lemma drained j m :
  jinv j → simulates j m → j_queue j ++ j_done j = [] →
  m_pending m = ∅ ∧ j_contexts j = ∅ ∧ j_works j = ∅ ∧ j_refs j = ∅ ∧ j_deferreds j = ∅.
Proof.
  intros Hj Hs Hpool. apply app_nil in Hpool as [Hq Hd].
  assert (Hp : ∀ w, m_pending m !! w = None).
  { intros w. destruct (m_pending m !! w) as [x|] eqn:Hx; [|done].
    destruct (si_pending _ _ Hs w x Hx) as (op & p & c & args & cb & _ & _ & _ & _ & Hin).
    destruct x; [destruct Hin as (_ & _ & Hin)|destruct Hin as (_ & _ & Hin & _)]; [rewrite Hq in Hin|rewrite Hd in Hin]; by apply elem_of_nil in Hin. }
  assert (Hw : ∀ w, j_works j !! w = None).
  { intros w. destruct (j_works j !! w) as [x|] eqn:Hx; [|done].
    apply mk_is_Some, (si_works _ _ Hs) in Hx as [y Hy]. by rewrite Hp in Hy. }
  assert (Hno : ∀ a, ¬ has_way m a) by (intros a (w & x & Hx & _); by rewrite Hp in Hx).
  split_and!; [by apply map_empty| |by apply map_empty|..].
  - apply map_empty. intros p. destruct (j_contexts j !! p) as [c|] eqn:Hc; [|done].
    destruct (si_contexts _ _ Hs p c Hc) as [w Hcw]. destruct (ji_work _ _ Hj p c w) as [op Hop]; [done..|]. by rewrite Hw in Hop.
  - apply set_eq. intros r. split; [|by intros ?%elem_of_empty]. intros [f Hf]%(si_refs _ _ Hs). by apply Hno in Hf.
  - apply set_eq. intros d. split; [|by intros ?%elem_of_empty]. intros Hf%(si_deferreds _ _ Hs). by apply Hno in Hf.
Qed.

(** A call returns its promise, or nothing when it has a callback; once nothing
    is queued or done, it was answered with a reply of the service, once, and
    nothing of any call is left. *)
Definition always_answers : Prop := ∀ e w j op info q cb v j1 j2,
  rtc good_step (module_load e w) j → request_of op (args_of info) = Some (q, cb) →
  call op info j = Some (v, j1) → rtc good_step j1 j2 → j_queue j2 ++ j_done j2 = [] →
  let h := (j_next j + 1)%nat in
  match cb with None => val (j_engine j1) v (JsPromise h) | Some _ => v = None end ∧
  (∃ r n n' x, serve q n = Some (r, n') ∧ x ∈ j_log j2 ∧ shows x (answer_of q r (way_for cb h))) ∧
  NoDup (handle <$> j_log j2) ∧
  j_contexts j2 = ∅ ∧ j_works j2 = ∅ ∧ j_refs j2 = ∅ ∧ j_deferreds j2 = ∅.

Lemma shows_elem l l' a : Forall2 shows l l' → a ∈ l' → ∃ x, x ∈ l ∧ shows x a.
Proof.
  intros Hl [i Hi]%list_elem_of_lookup. destruct (Forall2_lookup_r _ _ _ _ _ Hl Hi) as (x & Hx & Hs).
  exists x. split; [by eapply list_elem_of_lookup_2|done].
Qed.

Lemma good_always_answers : always_answers.
Proof.
  intros e w j op info q cb v j1 j2 Hload Hq Hc Hsteps Hpool h.
  destruct (good_steps_simulate _ _ j (jinv_load_module e w) (simulates_load e w) Hload) as (m & _ & Hs & Hj).
  destruct (call_asked op info q cb v j j1 Hq Hc) as (e1 & -> & Hr & Hcb).
  pose proof (wp_run _ _ _ _ _ (call_jinv op info j Hj) Hc) as Hj1.
  destruct (simulates_asked op _ q cb e1 j m Hj Hs Hq Hr) as (m1 & Hm1 & Hs1 & Hp1); [by destruct cb as [f|]; [apply Hcb|]|].
  assert (Hf : fate q (way_for cb h) (j_next j + 2) m1) by by left.
  destruct (good_steps_simulate _ m1 j2 Hj1 Hs1 Hsteps) as (m2 & Hm2 & Hs2 & Hj2).
  assert (Hf2 : fate q (way_for cb h) (j_next j + 2) m2).
  { clear -Hm2 Hf. induction Hm2 as [|m1 m3 m2 Hstep _ IH]; [done|]. apply IH. by eapply fate_step. }
  destruct (drained j2 m2 Hj2 Hs2 Hpool) as (Hp & Hempty). split; [by destruct cb; [apply Hcb|]|].
  destruct Hf2 as [Hf2|(r & n & n' & Hserve & [Hf2|Hf2])]; [by rewrite Hp in Hf2..|].
  destruct (shows_elem _ _ _ (si_answers _ _ Hs2) Hf2) as (x & Hx & Hshow).
  split; [by exists r, n, n', x|]. split; [apply (ji_once _ _ Hj2)|done].
Qed.

(** *** The works come to an end *)

Inductive work_step : jworld E W D O → jworld E W D O → Prop :=
  | work_execute j x j' : x ∈ j_queue j → execute x j = Some (tt, j') → work_step j j'
  | work_conclude j x j' : x ∈ j_done j → conclude x j = Some (tt, j') → work_step j j'.

Definition left_to_do j : nat := 2 * length (j_queue j) + length (j_done j).

(** While the service returns, there is a step until nothing is queued or done,
    and there are no more than two for each work. *)
Definition drains : Prop := (∀ q n, is_Some (serve q n)) → ∀ e w j, rtc good_step (module_load e w) j →
  (j_queue j ++ j_done j ≠ [] → ∃ j', work_step j j') ∧
  (∀ k j', nsteps work_step k j j' → (k <= left_to_do j)%nat).

Lemma length_filter_out {A} `{EqDecision A} (x : A) l : NoDup l → x ∈ l → S (length (filter (.≠ x) l)) = length l.
Proof.
  intros Hl Hx. induction Hl as [|y l Hy Hl IH]; [by apply elem_of_nil in Hx|].
  apply elem_of_cons in Hx as [<-|Hx].
  - rewrite filter_cons_False by auto. cbn. f_equal. f_equal. clear IH. induction l as [|z l IHl]; [done|].
    apply not_elem_of_cons in Hy as [Hne Hy]. rewrite filter_cons_True by done. f_equal. apply NoDup_cons in Hl as [_ Hl]. auto.
  - rewrite filter_cons_True by (intros ->; done). cbn. f_equal. auto.
Qed.

Lemma work_step_measure j m j' : jinv j → simulates j m → work_step j j' → S (left_to_do j') = left_to_do j ∧ script_step j j'.
Proof.
  intros Hj Hs Hstep. pose proof (ji_nodup _ _ Hj) as (Hnq & _ & Hnd)%NoDup_app.
  destruct Hstep as [j x j' Hx Hr|j x j' Hx Hr].
  - split; [|by eapply good_execute]. destruct (si_queue _ _ Hs x Hx) as (q & a & Hqa).
    destruct (si_pending _ _ Hs x _ Hqa) as (op & p & c & args & cb & Hop & Hc & _).
    destruct (exec_of op (data c) (j_native j)) as [[y n]|] eqn:He.
    + rewrite (execute_run x op p c y n) in Hr by done. injection Hr as <-. unfold left_to_do. cbn.
      rewrite length_app. pose proof (length_filter_out x (j_queue j) Hnq Hx). cbn. lia.
    + unfold execute, mbind, st_bind, gets, run in Hr. by rewrite Hop, (exec_law op p c j Hc), He in Hr.
  - split; [|by eapply good_conclude].
    destruct (conclude_run j m x j' Hs Hx Hr) as (? & p & ? & ? & ? & a & e & d & _ & _ & _ & _ & _ & _ & _ & ->). unfold left_to_do. cbn.
    pose proof (length_filter_out x (j_done j) Hnd Hx). lia.
Qed.

Lemma good_drains : drains.
Proof.
  intros Hserve e w j Hload.
  destruct (good_steps_simulate _ _ j (jinv_load_module e w) (simulates_load e w) Hload) as (m & _ & Hs & Hj). split.
  - intros Hne. destruct (j_queue j) as [|x l] eqn:Hq.
    + destruct (j_done j) as [|x l] eqn:Hd; [done|]. assert (Hx : x ∈ j_done j) by (rewrite Hd; left).
      destruct (conclude_jinv x j Hj Hx) as ([] & j' & Hr & _). exists j'. by eapply work_conclude.
    + assert (Hx : x ∈ j_queue j) by (rewrite Hq; left). destruct (si_queue _ _ Hs x Hx) as (q & a & Hqa).
      destruct (si_pending _ _ Hs x _ Hqa) as (op & p & c & args & cb & Hop & Hc & _ & _ & Hreq & Hdata & _).
      pose proof (good_exec_law op args q cb (j_native j) Hreq) as He. rewrite <- Hdata in He.
      destruct (Hserve q (j_native j)) as [[r n] Hr]. rewrite Hr in He.
      eexists. eapply work_execute; [exact Hx|]. by eapply execute_run.
  - intros k j' Hk. clear Hload. revert m Hs Hj. induction Hk as [j|k j j1 j' Hstep _ IH]; intros m Hs Hj; [lia|].
    destruct (work_step_measure j m j1 Hj Hs Hstep) as [Hle Hgood%good_script].
    destruct (good_step_simulates j m j1 Hj Hs Hgood) as (m1 & _ & Hs1 & Hj1). specialize (IH m1 Hs1 Hj1). lia.
Qed.

End Refinement.
