(* ===== verification/NapiHistory.v ===== *)
(** * The order in which the calls of a script take effect

    While nothing else uses the client library, the requests of a script are
    served one after another, as [execute] does: there is a history of them, which only grows, and
    everything that the script is told is a reply in it. *)

From S2P Require Import Prelude Napi NapiSafe NapiSpec NapiRefine.

Section Histories.
Context {W D O Q R : Type} `{Contract W D O Q R}.
Implicit Type m : machine W Q R.

(** The requests that were served from the state [n] on, each with its reply and
    the way in which it is answered, and the state after them. *)
Inductive history (n : W) : list (Q * R * way) → W → Prop :=
  | history_nil : history n [] n
  | history_snoc l n1 q r a n2 : history n l n1 → serve q n1 = Some (r, n2) → history n (l ++ [(q, r, a)]) n2.

Definition requests (l : list (Q * R * way)) : list Q := (λ x, x.1.1) <$> l.
Definition replies_of (l : list (Q * R * way)) : list R := (λ x, x.1.2) <$> l.
Definition handles (l : list (Q * R * way)) : list nat := (λ x, way_handle x.2) <$> l.

Definition pending_request (x : pending Q R) : Q := match x with Asked q _ | Served q _ _ => q end.

(** The machine [m] has the history [l]. *)
Record accounts (n : W) (l : list (Q * R * way)) m : Prop := mkAccounts {
  ac_history : history n l (m_native m);
  ac_pending : ∀ w x, m_pending m !! w = Some x → asked_for (pending_request x);
  ac_requests : Forall asked_for (requests l);
  ac_served : ∀ w q r a, m_pending m !! w = Some (Served q r a) → (q, r, a) ∈ l;
  ac_answers : ∀ x, x ∈ m_answers m → ∃ q r a, (q, r, a) ∈ l ∧ x = answer_of q r a;
  ac_once : NoDup (handles l);
  ac_used : ∀ h, h ∈ handles l →
    (∃ w q r a, m_pending m !! w = Some (Served q r a) ∧ way_handle a = h) ∨ h ∈ answer_handle <$> m_answers m;
  ac_apart : ∀ w w' x x', m_pending m !! w = Some x → m_pending m !! w' = Some x' →
    way_handle (pending_way x) = way_handle (pending_way x') → w = w';
  ac_unanswered : ∀ w x, m_pending m !! w = Some x → way_handle (pending_way x) ∉ answer_handle <$> m_answers m;
}.

Lemma accounts_start n : accounts n [] (m_start n).
Proof.
  split; cbn; [constructor|..]; try (by constructor); try (by intros ? ?%elem_of_nil);
    by intros ? ? * ?%lookup_empty_Some.
Qed.

Lemma answer_of_handle q r a : answer_handle (answer_of q r a) = way_handle a.
Proof. destruct a as [d|ref f]; cbn; [|done]. by destruct (in_promise q r) as [[] y]. Qed.

Lemma way_for_handle cb h : way_handle (way_for cb h) = h.
Proof. by destruct cb. Qed.

Lemma accounts_ask n l m w h op args q cb :
  accounts n l m → request_of op args = Some (q, cb) → m_pending m !! w = None → fresh_handle h m →
  accounts n l (mkMachine (m_native m) (<[w := Asked q (way_for cb h)]> (m_pending m)) (m_answers m)).
Proof.
  intros [] Hq Hw [Hp Ha]. split; cbn; try done.
  - intros w' x [[<- <-]|[_ Hx]]%lookup_insert_Some; [by exists op, args, cb|eauto].
  - intros w' q' r a [[_ [=]]|[_ Hx]]%lookup_insert_Some. eauto.
  - intros h' [(w' & q' & r & a & Hx & Hh)|Hh]%ac_used0; [|by right]. left. exists w', q', r, a.
    rewrite lookup_insert_ne; [done|]. congruence.
  - intros w1 w2 x1 x2 [[<- <-]|[_ H1]]%lookup_insert_Some [[<- <-]|[_ H2]]%lookup_insert_Some; cbn; rewrite ?way_for_handle; intros Heq;
      [done|by destruct (Hp w2 x2)|by destruct (Hp w1 x1)|eauto].
  - intros w' x [[<- <-]|[_ Hx]]%lookup_insert_Some; [cbn; by rewrite way_for_handle|eauto].
Qed.

Lemma accounts_serve n l m w q a r n' :
  accounts n l m → m_pending m !! w = Some (Asked q a) → serve q (m_native m) = Some (r, n') →
  accounts n (l ++ [(q, r, a)]) (mkMachine n' (<[w := Served q r a]> (m_pending m)) (m_answers m)).
Proof.
  intros [] Hw Hs. split; cbn.
  - by eapply history_snoc.
  - intros w' x [[<- <-]|[_ Hx]]%lookup_insert_Some; [exact (ac_pending0 w _ Hw)|eauto].
  - unfold requests. rewrite fmap_app. apply Forall_app. split; [done|]. repeat constructor. exact (ac_pending0 w _ Hw).
  - intros w' q' r' a' [[_ [= <- <- <-]]|[_ Hx]]%lookup_insert_Some; apply elem_of_app; [right; by left|left; eauto].
  - intros x (q' & r' & a' & Hl & ->)%ac_answers0. exists q', r', a'. split; [by apply elem_of_app; left|done].
  - unfold handles. rewrite fmap_app. apply NoDup_app. split; [done|]. split; [|by apply NoDup_singleton].
    intros h Hh ->%list_elem_of_singleton. destruct (ac_used0 _ Hh) as [(w' & q' & r' & a' & Hx & Ha)|Ha].
    + assert (w' = w) as -> by by eapply ac_apart0. congruence.
    + by apply (ac_unanswered0 w _ Hw).
  - intros h. unfold handles. rewrite fmap_app, elem_of_app. intros [Hh| ->%list_elem_of_singleton].
    + destruct (ac_used0 _ Hh) as [(w' & q' & r' & a' & Hx & Ha)|Ha]; [|by right]. left. exists w', q', r', a'.
      rewrite lookup_insert_ne; [done|]. congruence.
    + left. exists w, q, r, a. by rewrite lookup_insert_eq.
  - assert (Hold : ∀ w' x, <[w:=Served q r a]> (m_pending m) !! w' = Some x →
      ∃ y, m_pending m !! w' = Some y ∧ pending_way y = pending_way x).
    { intros w' x [[<- <-]|[_ Hx]]%lookup_insert_Some; eauto. }
    intros w1 w2 x1 x2 (y1 & Hy1 & <-)%Hold (y2 & Hy2 & <-)%Hold. eauto.
  - intros w' x [[<- <-]|[_ Hx]]%lookup_insert_Some; [exact (ac_unanswered0 w _ Hw)|eauto].
Qed.

Lemma accounts_answer n l m w q r a :
  accounts n l m → m_pending m !! w = Some (Served q r a) →
  accounts n l (mkMachine (m_native m) (delete w (m_pending m)) (m_answers m ++ [answer_of q r a])).
Proof.
  intros [] Hw. split; cbn; try done.
  - intros w' x [_ Hx]%lookup_delete_Some. eauto.
  - intros w' q' r' a' [_ Hx]%lookup_delete_Some. eauto.
  - intros x [Hx| ->%list_elem_of_singleton]%elem_of_app; [eauto|]. exists q, r, a. eauto.
  - intros h Hh. rewrite fmap_app, elem_of_app. destruct (ac_used0 _ Hh) as [(w' & q' & r' & a' & Hx & Ha)|Ha]; [|by right; left].
    destruct (decide (w' = w)) as [->|Hne].
    + right. right. rewrite Hw in Hx. injection Hx as <- <- <-. cbn. rewrite answer_of_handle, Ha. by left.
    + left. exists w', q', r', a'. by rewrite lookup_delete_ne.
  - intros w1 w2 x1 x2 [_ H1]%lookup_delete_Some [_ H2]%lookup_delete_Some. eauto.
  - intros w' x [Hne Hx]%lookup_delete_Some. rewrite fmap_app, elem_of_app.
    intros [Hh|Hh%list_elem_of_singleton]; [by apply (ac_unanswered0 w' x)|].
    rewrite answer_of_handle in Hh. apply Hne. symmetry. by eapply ac_apart0.
Qed.

(** A history only grows. *)
Lemma accounts_acts n l m m' : rtc act m m' → accounts n l m → ∃ k, accounts n (l ++ k) m'.
Proof.
  intros Hacts. revert l. induction Hacts as [m|m m1 m' Hact _ IH]; intros l Ha; [exists []; by rewrite app_nil_r|].
  destruct Hact as [m w h op args q cb Hq Hw Hh|m w q a r n' Hw Hs|m w q r a Hw].
  - by eapply IH, accounts_ask.
  - destruct (IH (l ++ [(q, r, a)])) as [k Hk]; [by apply accounts_serve|]. exists ((q, r, a) :: k).
    by rewrite cons_middle, app_assoc.
  - by eapply IH, accounts_answer.
Qed.

End Histories.

Section Linearizes.
Context {E W D O Q R : Type} `{GoodBinding E W D O Q R}.
Implicit Type j : jworld E W D O.

(** [l] accounts for what the script was told in [j]. *)
Definition explains (n : W) (l : list (Q * R * way)) j : Prop :=
  history n l (j_native j) ∧ Forall asked_for (requests l) ∧ NoDup (handles l) ∧ (length l <= j_next j)%nat ∧
  ∀ x, x ∈ j_log j → ∃ q r a, (q, r, a) ∈ l ∧ shows x (answer_of q r a).

(** The calls of a script take effect in one order, each at most once, between
    the call and its answer. *)
Definition linearizes : Prop := ∀ e n j j',
  rtc script_step (module_load e n) j → rtc script_step j j' →
  ∃ l k, explains n l j ∧ explains n (l ++ k) j'.

Lemma bounded_length (l : list nat) n : NoDup l → (∀ h, h ∈ l → (h < n)%nat) → (length l <= n)%nat.
Proof.
  intros Hl Hn. replace n with (length (seq 0 n)) by apply length_seq. apply submseteq_length, NoDup_submseteq; [done|].
  intros h Hh%Hn. apply elem_of_seq. lia.
Qed.

Lemma accounts_length n l m j : accounts n l m → simulates j m → jinv j → (length l <= j_next j)%nat.
Proof.
  intros [] Hs Hj. replace (length l) with (length (handles l)) by apply length_fmap. apply bounded_length; [done|].
  intros h Hh. destruct (ac_used0 h Hh) as [(w & q & r & a & Hw & <-)|Ha].
  - destruct (pending_keeps j m w _ Hs Hw) as (op & p & c & _ & Hc & _ & Hk). by apply (ji_keeps_next _ _ Hj p c).
  - rewrite <- (answers_handles _ _ (si_answers _ _ Hs)) in Ha. by apply (ji_log_next _ _ Hj).
Qed.

Lemma accounts_explains n l m j : accounts n l m → simulates j m → jinv j → explains n l j.
Proof.
  intros Ha Hs Hj. pose proof (accounts_length n l m j Ha Hs Hj) as Hlen. destruct Ha.
  split; [by rewrite (si_native _ _ Hs)|]. split; [done|]. split; [done|]. split; [done|].
  intros x [i Hi]%list_elem_of_lookup. destruct (Forall2_lookup_l _ _ _ _ _ (si_answers _ _ Hs) Hi) as (a & Ha & Hx).
  destruct (ac_answers0 a) as (q & r & way & Hl & ->); [by eapply list_elem_of_lookup_2|]. by exists q, r, way.
Qed.

Lemma good_linearizes : linearizes.
Proof.
  intros e n j j' Hj Hj'.
  destruct (script_steps_simulate _ _ j (jinv_load_module e n) (simulates_load e n) Hj) as (m & Hm & Hs & Hi).
  destruct (script_steps_simulate j m j' Hi Hs Hj') as (m' & Hm' & Hs' & Hi').
  destruct (accounts_acts n [] _ m Hm (accounts_start n)) as [l Hl]. cbn in Hl.
  destruct (accounts_acts n l m m' Hm' Hl) as [k Hk]. exists l, k. split; by eapply accounts_explains.
Qed.

(** A work that waits can run when the service returns. *)
Lemma execute_returns j m x :
  simulates j m → x ∈ j_queue j → ∃ q, asked_for q ∧ (is_Some (serve q (j_native j)) → is_Some (execute x j)).
Proof.
  intros Hs Hx. destruct (si_queue _ _ Hs x Hx) as (q & a & Hqa).
  destruct (si_pending _ _ Hs x _ Hqa) as (op & p & c & args & cb & Hop & Hc & _ & _ & Hreq & Hdata & _).
  exists q. split; [by exists op, args, cb|]. intros [[r n] Hr].
  pose proof (good_exec_law op args q cb (j_native j) Hreq) as He. rewrite <- Hdata, Hr in He.
  eexists. by eapply execute_run.
Qed.

End Linearizes.
