(* ===== verification/NapiPolicyProps.v ===== *)
(** * The bindings of the policy service keep their contract *)

From S2P Require Import Prelude CppStrings Ipc Policy PolicyCorrect Client Clients ClientProps.
From S2P Require Import Napi NapiPolicy NapiSafe NapiSpec NapiRefine.
Import NapiCommon NapiNetPolicy.

(** The numbers of the array of [CompleteGetUids] are made: the code uses a
    variable without a value when one is not. *)
Class MakesNumbers (E : Type) `{Napi E} := makes_number : ∀ z e, is_Some (napi_create_uint32 z e).1.

#[export] Instance laws_make_numbers {E} `{NapiLaws E} : MakesNumbers E.
Proof. intros z e. destruct (law_create_uint32 z e) as (v & e' & -> & _). by eexists. Qed.

Section Policy.
Context {E S : Type} `{Napi E} `{RemoteObjects S} `{SystemAbilities}.
Context (object : nat → INetPolicyService S).

Definition policy_exec (op : policy_op) (d : NetPolicyData) : st (cworld S) NetPolicyData :=
  match op with
  | OpSetUidPolicy =>
    r ← NetPolicyClient.SetUidPolicy object (uid d) (to_i 32 (policy d)) ; mret (set_policyResult (to_i 32 r) d)
  | OpGetUidPolicy => r ← NetPolicyClient.GetUidPolicy object (uid d) ; mret (set_policyResult (to_i 32 r) d)
  | OpGetUids => l ← NetPolicyClient.GetUids object (to_i 32 (policy d)) ; mret (set_uidTogether l d)
  | OpIsUidNetAccess =>
    if (0 <? String.length (interfaceName d))%nat then
      r ← NetPolicyClient.IsUidNetAccessIface object (uid d) (interfaceName d) ; mret (set_result r d)
    else r ← NetPolicyClient.IsUidNetAccess object (uid d) (metered d) ; mret (set_result r d)
  end.

Lemma set_uids_engine_only `{!MakesNumbers E} info i l : engine_only (set_uids (S := S) (E := E) info i l).
Proof.
  revert i. induction l as [|u l IH]; intros i; [apply engine_only_ret|].
  intros j. apply nwp_bind, nwp_napi. intros o e Ho. destruct (makes_number u (j_engine j)) as [num Hn].
  rewrite Ho in Hn. cbn in Hn. subst o.
  eapply nwp_mono; [eapply (engine_only_bind (napi (napi_set_element info i (Some num))) (λ _, set_uids info (i + 1) l)
    (engine_only_napi _) (λ _, IH (i + 1)%nat) (upd_engine e j))|..].
  - intros _ j' [e' ->]. by exists e'.
  - intros j' [e' ->]. by exists e'.
Qed.

Lemma policy_exec_law op p c (j : jworld E (cworld S) NetPolicyData policy_op) :
  j_contexts j !! p = Some c →
  b_exec (Binding := NapiNetPolicy.binding object) op (Some p) j =
    match policy_exec op (data c) (j_native j) with
    | Some (x, w) => Some (Some tt, upd_native w (upd_contexts <[p := set_data x c]> j))
    | None => None
    end.
Proof.
  intros Hc.
  assert (Hput : ∀ A (m : NetPolicyData → st (cworld S) A) (f : A → NetPolicyData → NetPolicyData),
    (native (m (data c)) ≫= λ a, put p (f a)) j =
      match (a ← m (data c) ; mret (f a (data c))) (j_native j) with
      | Some (x, w) => Some (Some tt, upd_native w (upd_contexts <[p := set_data x c]> j))
      | None => None
      end).
  { intros A m f. apply exec_run; [|done]. intros a j' Hj'. by apply put_run. }
  destruct op; cbn [b_exec NapiNetPolicy.binding];
    unfold ExecSetUidPolicy, ExecGetUidPolicy, ExecGetUids, ExecIsUidNetAccess, with_context, load at 1, mbind at 1, nm_bind at 1;
    rewrite Hc; cbv zeta; [..|destruct (0 <? String.length (interfaceName (data c)))%nat eqn:Hn];
    cbn [policy_exec]; rewrite ?Hn.
  - exact (Hput _ (λ d, NetPolicyClient.SetUidPolicy object (uid d) (to_i 32 (policy d))) (λ r, set_policyResult (to_i 32 r))).
  - exact (Hput _ (λ d, NetPolicyClient.GetUidPolicy object (uid d)) (λ r, set_policyResult (to_i 32 r))).
  - exact (Hput _ (λ d, NetPolicyClient.GetUids object (to_i 32 (policy d))) set_uidTogether).
  - exact (Hput _ (λ d, NetPolicyClient.IsUidNetAccessIface object (uid d) (interfaceName d)) set_result).
  - exact (Hput _ (λ d, NetPolicyClient.IsUidNetAccess object (uid d) (metered d)) set_result).
Qed.

Lemma policy_call_law op info (j : jworld E (cworld S) NetPolicyData policy_op) :
  jinv j → nwp (b_call (Binding := NapiNetPolicy.binding object) op info) (λ _, jinv) jinv j.
Proof.
  intros Hj. destruct op; cbn [b_call NapiNetPolicy.binding]; unfold SetUidPolicy, GetUidPolicy, GetUids, IsUidNetAccess;
    build.
Qed.

Lemma policy_complete_law `{!MakesNumbers E} op p c w op' (j : jworld E (cworld S) NetPolicyData policy_op) :
  jinv j → j_contexts j !! p = Some c → work c = Some w → j_works j !! w = Some (op', p) →
  w ∉ j_queue j ++ j_done j →
  nwp (b_complete (Binding := NapiNetPolicy.binding object) op (Some p)) (λ _, jinv) jinv j.
Proof.
  intros Hj Hc Hw Hop Hn. pose proof set_uids_engine_only. destruct op; cbn [b_complete NapiNetPolicy.binding with_context];
    unfold CompleteSetUidPolicy, CompleteGetUids, CompleteGetUidPolicy, CompleteIsUidNetAccess, with_context;
    concludes Hc Hw Hop.
Qed.

#[export] Instance policy_safe `{!MakesNumbers E} : @SafeBinding E (cworld S) NetPolicyData policy_op _ (NapiNetPolicy.binding object) := {|
  exec_of := policy_exec;
  exec_law := policy_exec_law;
  call_law := policy_call_law;
  complete_law := policy_complete_law;
|}.

(** ** The contract *)

Context `{!Script E} `{!NapiLaws E}.

Definition policy_request_of (op : policy_op) (args : list js) : option (policy_request * option nat) :=
  match op, args with
  | OpSetUidPolicy, JsNumber u :: JsNumber p :: rest => with_callback (PSetUidPolicy (to_u 32 u) (to_i 32 p)) rest
  | OpGetUidPolicy, JsNumber u :: rest => with_callback (PGetUidPolicy (to_u 32 u)) rest
  | OpGetUids, JsNumber p :: rest => with_callback (PGetUids (to_i 32 p)) rest
  | OpIsUidNetAccess, JsNumber u :: x :: rest =>
    with_callback
      match x with
      | JsBoolean b => PIsUidNetAccess (to_u 32 u) b
      | JsString s =>
        let name := c_str (cut (E := E) 64 s) in
        if (0 <? String.length name)%nat then PIsUidNetAccessIface (to_u 32 u) name
        else PIsUidNetAccess (to_u 32 u) false
      | _ => PIsUidNetAccess (to_u 32 u) false
      end rest
  | _, _ => None
  end.

Definition policy_data_of (q : policy_request) : NetPolicyData :=
  match q with
  | PSetUidPolicy u p => mkNetPolicyData u (to_u 32 p) 0 [] false false ""
  | PGetUidPolicy u => mkNetPolicyData u 0 0 [] false false ""
  | PGetUids p => mkNetPolicyData 0 (to_u 32 p) 0 [] false false ""
  | PIsUidNetAccess u b => mkNetPolicyData u 0 0 [] false b ""
  | PIsUidNetAccessIface u name => mkNetPolicyData u 0 0 [] false false name
  end.

Definition policy_data_after (q : policy_request) (r : policy_reply) : NetPolicyData :=
  match r with
  | RCode c => set_policyResult (to_i 32 c)
  | RPolicy p => set_policyResult (to_i 32 p)
  | RUids l => set_uidTogether l
  | RAccess b => set_result b
  end (policy_data_of q).

(** What a promise gets: the code, which is an error when it is not 0; the
    policy; the uids; 1, or 0 which is an error. *)
Definition policy_in_promise (q : policy_request) (r : policy_reply) : bool * js :=
  match q, r with
  | PSetUidPolicy _ _, RCode c => (to_i 32 c =? ERR_NONE, JsNumber (to_i 32 c))
  | PGetUidPolicy _, RPolicy p => (true, JsNumber (to_i 32 p))
  | PGetUids _, RUids l => (true, JsArray ((λ u, JsNumber (to_u 32 u)) <$> l))
  | (PIsUidNetAccess _ _ | PIsUidNetAccessIface _ _), RAccess b => (b, JsNumber (if b then 1 else 0))
  | _, _ => (true, JsUndefined)
  end.

#[export] Instance policy_contract : Contract (cworld S) NetPolicyData policy_op policy_request policy_reply := {|
  request_of := policy_request_of;
  serve := policy_client_call object;
  in_promise := policy_in_promise;
  in_callback := λ q r, to_callback (policy_in_promise q r);
  data_of := policy_data_of;
  data_after := policy_data_after;
|}.

(** The requests of a function. *)
Lemma policy_request_shape op args q cb : policy_request_of op args = Some (q, cb) →
  match op, q with
  | OpSetUidPolicy, PSetUidPolicy _ p | OpGetUids, PGetUids p => in_i 32 p
  | OpGetUidPolicy, PGetUidPolicy _ | OpIsUidNetAccess, PIsUidNetAccess _ _ => True
  | OpIsUidNetAccess, PIsUidNetAccessIface _ name => (0 <? String.length name)%nat = true
  | _, _ => False
  end.
Proof.
  destruct op, args as [|[] args]; cbn; try done; [destruct args as [|[] args]; try done|..|destruct args as [|y args]; try done];
    intros [-> _]%with_callback_inv; try done; try by apply to_i_range.
  destruct y; try done. by match goal with |- context [if ?b then _ else _] => destruct b eqn:? end.
Qed.

Lemma policy_good_exec op args q cb w : policy_request_of op args = Some (q, cb) →
  policy_exec op (policy_data_of q) w =
    match policy_client_call object q w with Some (r, w') => Some (policy_data_after q r, w') | None => None end.
Proof.
  intros Hq. apply policy_request_shape in Hq.
  destruct op, q; try done; cbn [policy_exec policy_data_of NapiPolicy.policy NapiPolicy.interfaceName]; rewrite ?to_i_to_u, ?Hq by done;
    refine (bind_wrap _ _ _ _ w _); intros a; reflexivity.
Qed.

Lemma policy_good_call op info q cb (j : jworld E (cworld S) NetPolicyData policy_op) :
  policy_request_of op (args_of info) = Some (q, cb) →
  nwp (b_call (Binding := NapiNetPolicy.binding object) op info) (has_asked op (policy_data_of q) cb j) (λ _, False) j.
Proof.
  intros Hq. destruct op; cbn [b_call NapiNetPolicy.binding]; unfold SetUidPolicy, GetUidPolicy, GetUids, IsUidNetAccess.
  - destruct (args_of info) as [|[] [|[] rest]] eqn:Hargs; try done. apply with_callback_inv in Hq as [-> Hrest].
    apply ends_start; rewrite Hargs, Hrest; [destruct cb; cbn; lia|]. intros argv.
    eapply ends_uint32; [done|]. apply ends_put. eapply ends_uint32; [done|]. apply ends_put. cbn.
    rewrite to_u_to_i. destruct cb; asks 2%nat.
  - destruct (args_of info) as [|[] rest] eqn:Hargs; try done. apply with_callback_inv in Hq as [-> Hrest].
    apply ends_start; rewrite Hargs, Hrest; [destruct cb; cbn; lia|]. intros argv.
    eapply ends_uint32; [done|]. apply ends_put. cbn. destruct cb; asks 1%nat.
  - destruct (args_of info) as [|[] rest] eqn:Hargs; try done. apply with_callback_inv in Hq as [-> Hrest].
    apply ends_start; rewrite Hargs, Hrest; [destruct cb; cbn; lia|]. intros argv.
    eapply ends_uint32; [done|]. apply ends_put. cbn. rewrite to_u_to_i. destruct cb; asks 1%nat.
  - destruct (args_of info) as [|[] [|x rest]] eqn:Hargs; try done. apply with_callback_inv in Hq as [-> Hrest].
    apply ends_start; rewrite Hargs, Hrest; [destruct cb; cbn; lia|]. intros argv.
    eapply ends_uint32; [done|]. apply ends_put.
    eapply ends_napi; [intros e Ha; by apply law_typeof, Ha|]. cbv zeta. cbn [default from_option].
    assert (Hask : ∀ d, ends_call (E := E) (has_asked OpIsUidNetAccess d cb j) d j argv
      (JsNumber z :: x :: match cb with Some f => [JsFunction f] | None => [] end)
      (result ← (if decide (length (JsNumber z :: x :: match cb with Some f => [JsFunction f] | None => [] end) = 2%nat)
         then give_promise (j_next j)
         else if decide (length (JsNumber z :: x :: match cb with Some f => [JsFunction f] | None => [] end) = 3%nat)
         then create_reference (arg argv 2) (j_next j) ;; mret None else mret None) ;
       create_work "IsUidNetAccess" OpIsUidNetAccess (j_next j) result)).
    { intros d. cbn. destruct cb; asks 2%nat. }
    destruct x; cbn [js_type id]; repeat (rewrite decide_False by done || rewrite decide_True by done);
      try (apply ends_ret, ends_ret; apply Hask).
    + apply ends_assoc. eapply ends_napi_call; [intros e Ha; by eapply law_value_bool, Ha|].
      apply ends_put, ends_ret. apply Hask.
    + apply ends_ret, ends_assoc. eapply ends_napi; [intros e Ha; by eapply law_value_string, Ha|]. cbn [default from_option id].
      apply ends_put. destruct (0 <? String.length (c_str (cut (E:=E) 64 s)))%nat eqn:Hn; [apply Hask|].
      assert (c_str (cut (E:=E) BUFFER_BYTE s) = "") as ->; [|apply Hask].
      change BUFFER_BYTE with 64. by destruct (c_str (cut (E:=E) 64 s)).
Qed.

(** The array of the uids. *)
Lemma good_set_uids a l xs e (Q : unit → jworld E (cworld S) NetPolicyData policy_op → Prop) R j :
  shape e a = Some (JsArray xs) →
  (∀ e', keeps_refs e e' → shape e' a = Some (JsArray (xs ++ ((λ u, JsNumber (to_u 32 u)) <$> l))) → Q tt (upd_engine e' j)) →
  nwp (set_uids (Some a) (length xs) l) Q R (upd_engine e j).
Proof.
  revert xs e. induction l as [|u l IH]; intros xs e Ha HQ.
  - apply nwp_ret, HQ; [by intros r|]. by rewrite app_nil_r.
  - destruct (good_element a (napi_create_uint32 u) (JsNumber (to_u 32 u)) xs [] e) as (v & e1 & e2 & He1 & He2 & Hk & Hs);
      [apply law_create_uint32|done|by rewrite app_nil_r|].
    apply nwp_bind. eapply good_napi; [exact He1|]. cbv iota beta. apply nwp_bind. eapply good_napi; [exact He2|].
    replace (length xs + 1)%nat with (length (xs ++ [JsNumber (to_u 32 u)])) by (rewrite length_app; done).
    cbn [drop] in Hs. rewrite app_nil_r in Hs. apply (IH _ e2 Hs). intros e' Hk' Hs'. apply HQ; [by intros r y Hy; apply Hk', Hk|].
    by rewrite Hs', <- app_assoc.
Qed.

Lemma policy_reply_shape q r : replies q r →
  match q, r with
  | PSetUidPolicy _ _, RCode _ | PGetUidPolicy _, RPolicy _ | PGetUids _, RUids _
  | (PIsUidNetAccess _ _ | PIsUidNetAccessIface _ _), RAccess _ => True
  | _, _ => False
  end.
Proof. intros (n & n' & Hr). destruct q; cbn in Hr; by apply bind_run in Hr as (x & _ & ->). Qed.

Lemma policy_good_complete op args q cb r a p c w op' (j : jworld E (cworld S) NetPolicyData policy_op) :
  policy_request_of op args = Some (q, cb) → j_contexts j !! p = Some c → work c = Some w →
  j_works j !! w = Some (op', p) → kept_by c a j → data c = policy_data_after q r → replies q r →
  nwp (b_complete (Binding := NapiNetPolicy.binding object) op (Some p)) (has_answered p w a (answer_of q r a) j) (λ _, False) j.
Proof.
  intros Hq%policy_request_shape Hc Hw Hop Hk Hd Hr%policy_reply_shape.
  destruct op, q, r; try done; cbn [b_complete NapiNetPolicy.binding];
    unfold CompleteSetUidPolicy, CompleteGetUids, CompleteGetUidPolicy, CompleteIsUidNetAccess, with_context;
    (apply nwp_bind; eapply nwp_load; [exact Hc|]); cbv zeta; rewrite Hd; apply (answers_start p w c); try done.
  - eapply answers_value; [done..|apply law_create_int32| |]; cbn; by rewrite to_i_idem, negb_involutive.
  - eapply answers_result; [done..|apply law_create_int32| |]; cbn; by rewrite to_i_idem.
  - destruct (law_create_array 0 (j_engine j)) as (v & e & He & Hs & [_ Hl]). eapply answers_napi; [exact He|exact Hl|].
    intros Hk' Hrefs. apply nwp_bind. eapply (good_set_uids v _ []); [exact Hs|]. intros e' Hl' Hs'.
    eapply (answers_complete p w c op'); [done..| |by eapply kept_engine|by intros r y Hy; apply Hl', Hrefs].
    by exists v.
  - eapply answers_value; [done..|apply law_create_int32| |]; cbn; rewrite negb_involutive; by destruct b.
  - eapply answers_value; [done..|apply law_create_int32| |]; cbn; rewrite negb_involutive; by destruct b.
Qed.

#[export] Instance policy_good : @GoodBinding E (cworld S) NetPolicyData policy_op policy_request policy_reply _
    (NapiNetPolicy.binding object) _ _ _ policy_contract.
Proof. split; [exact policy_good_call|exact policy_good_exec|exact policy_good_complete]. Qed.

End Policy.
