(* ===== verification/NapiEthernetProps.v ===== *)
(** * The bindings of the ethernet service keep their contract *)

From S2P Require Import Prelude CppStrings Parcelables Ipc ConnState EthernetCorrect Client Clients.
From S2P Require Import ClientProps Napi NapiEthernet NapiSafe NapiSpec NapiRefine.
Import NapiCommon NapiEthernet.

Section Ethernet.
Context {E S P : Type} `{Napi E} `{RemoteObjects S} `{SystemAbilities} `{IpcPlatform P}.
Context (object : nat → IEthernetService S).
#[local] Abbreviation world := (jworld E (cworld S) EthernetData ethernet_op).
#[local] Abbreviation eth_binding := (NapiEthernet.binding (E := E) (P := P) object).

(** What [ExecGetIfaceConfig] makes of the configuration. *)
Definition take_config (o : option InterfaceConfiguration.t) (d : EthernetData) : EthernetData :=
  match o with
  | None => set_ifActivate (-1) d
  | Some config =>
    let ipStatic := InterfaceConfiguration.ipStatic_ config in
    set_dns_servers (StaticConfiguration.dnsServers_ ipStatic)
      (set_maskAddrInfo (INetAddr.ToString (StaticConfiguration.netMask_ ipStatic))
        (set_gateAddrInfo (INetAddr.ToString (StaticConfiguration.gate_ ipStatic))
          (set_routeAddrInfo (INetAddr.ToString (StaticConfiguration.route_ ipStatic))
            (set_ipAddrInfo (INetAddr.ToString (StaticConfiguration.ipAddr_ ipStatic))
              (set_ipMode (InterfaceConfiguration.mode_ config) (set_ifActivate 1 d))))))
  end.

Definition eth_exec (op : ethernet_op) (d : EthernetData) : st (cworld S) EthernetData :=
  match op with
  | OpSetIfaceConfig =>
    r ← EthernetClient.SetIfaceConfig (P:=P) object (ethernetName d) (Some (config_of d)) ; mret (set_eth_result r d)
  | OpGetIfaceConfig => config ← EthernetClient.GetIfaceConfig object (ethernetName d) ; mret (take_config config d)
  | OpIsActivate => r ← EthernetClient.IsActivate (P:=P) object (ethernetName d) ; mret (set_ifActivate r d)
  | OpGetActivateInterfaces => l ← EthernetClient.GetActivateInterfaces object ; mret (set_ethernetNameList l d)
  end.

Lemma eth_exec_law op p c (j : world) : j_contexts j !! p = Some c →
  b_exec (Binding := eth_binding) op (Some p) j =
    match eth_exec op (data c) (j_native j) with
    | Some (x, w) => Some (Some tt, upd_native w (upd_contexts <[p := set_data x c]> j))
    | None => None
    end.
Proof.
  intros Hc. destruct op; cbn [b_exec NapiEthernet.binding];
    unfold ExecSetIfaceConfig, ExecGetIfaceConfig, ExecIsActivate, ExecGetActivateInterfaces, with_context;
    [unfold load at 1, mbind at 1, nm_bind at 1; rewrite Hc; cbv zeta..|].
  - apply (exec_run (λ d, EthernetClient.SetIfaceConfig (P:=P) object (ethernetName d) (Some (config_of d))) _ set_eth_result); [|done].
    intros a j' Hj'. by apply put_run.
  - apply (exec_run (λ d, EthernetClient.GetIfaceConfig object (ethernetName d)) _ take_config); [|done].
    intros [config|] j' Hj'; [|by apply put_run]. cbv zeta.
    do 6 (erewrite put_then; [|first [exact Hj' | cbn; by rewrite lookup_insert_eq]]).
    erewrite put_run; [|cbn; by rewrite lookup_insert_eq]. unfold upd_contexts. cbn. by rewrite !insert_insert_eq.
  - apply (exec_run (λ d, EthernetClient.IsActivate (P:=P) object (ethernetName d)) _ set_ifActivate); [|done].
    intros a j' Hj'. by apply put_run.
  - apply (exec_run (λ _, EthernetClient.GetActivateInterfaces object) _ set_ethernetNameList); [|done].
    intros a j' Hj'. by apply put_run.
Qed.

Lemma eth_call_law op info (j : world) :
  jinv j → nwp (b_call (Binding := eth_binding) op info) (λ _, jinv) jinv j.
Proof.
  intros Hj. destruct op; cbn [b_call NapiEthernet.binding];
    unfold SetIfaceConfig, GetIfaceConfig, IsActivate, GetActivateInterfaces; build.
Qed.

Lemma eth_complete_law op p c w op' (j : world) :
  jinv j → j_contexts j !! p = Some c → work c = Some w → j_works j !! w = Some (op', p) →
  w ∉ j_queue j ++ j_done j →
  nwp (b_complete (Binding := eth_binding) op (Some p)) (λ _, jinv) jinv j.
Proof.
  intros Hj Hc Hw Hop Hn. destruct op; cbn [b_complete NapiEthernet.binding];
    unfold CompleteSetIfaceConfig, CompleteGetIfaceConfig, CompleteIsActivate, CompleteGetActivateInterfaces, with_context;
    concludes Hc Hw Hop.
Qed.

#[export] Instance eth_safe : @SafeBinding E (cworld S) EthernetData ethernet_op _ eth_binding := {|
  exec_of := eth_exec;
  exec_law := eth_exec_law;
  call_law := eth_call_law;
  complete_law := eth_complete_law;
|}.

(** ** The contract *)

Context `{!Script E} `{!NapiLaws E}.

(** The name of an interface, and a property, as they get into their buffers. *)
Definition js_name (s : string) : string := c_str (cut (E := E) ETHERNET_NAME_MAX_BYTE s).

Definition js_property (name : string) (props : list (string * js)) : option string :=
  match get_prop name props with
  | Some (JsString s) => Some (c_str (cut (E := E) PROPERTY_MAX_BYTE s))
  | _ => None
  end.

(** A configuration with static addresses has the six properties. *)
Definition static_config (props : list (string * js)) : option EthernetData :=
  ip ← js_property "ipAddr" props ;
  route ← js_property "routeAddr" props ;
  gate ← js_property "gateAddr" props ;
  mask ← js_property "maskAddr" props ;
  dns0 ← js_property "dnsAddr0" props ;
  dns1 ← js_property "dnsAddr1" props ;
  mret (mkEthernetData "" 0 [] InterfaceConfiguration.STATIC ip route gate mask dns0 dns1 0).

Definition set_request (name : string) (d : EthernetData) : eth_request := ESetIfaceConfig name (Some (config_of d)).

(** Without static addresses the third of four arguments is not looked at, and
    there are three only with DHCP. *)
Definition dynamic_callback (mode : Z) (rest : list js) : option (option nat) :=
  match rest with
  | [] => Some None
  | [JsFunction f] => if decide (mode = InterfaceConfiguration.DHCP) then Some (Some f) else None
  | [_; JsFunction f] => Some (Some f)
  | _ => None
  end.

Definition eth_request_of (op : ethernet_op) (args : list js) : option (eth_request * option nat) :=
  match op, args with
  | OpSetIfaceConfig, JsString s :: JsNumber m :: rest =>
    let mode := to_i 32 m in
    if decide (mode = InterfaceConfiguration.STATIC) then
      match rest with
      | JsObject props :: rest =>
        d ← static_config props ; with_callback (set_request (js_name s) d) rest
      | _ => None
      end
    else
      cb ← dynamic_callback mode rest ; Some (set_request (js_name s) (set_ipMode mode EthernetData_default), cb)
  | OpGetIfaceConfig, JsString s :: rest => with_callback (EGetIfaceConfig (js_name s)) rest
  | OpIsActivate, JsString s :: rest => with_callback (EIsActivate (js_name s)) rest
  | OpGetActivateInterfaces, rest => with_callback EGetActivateInterfaces rest
  | _, _ => None
  end.

Definition eth_data_of (q : eth_request) : EthernetData :=
  match q with
  | ESetIfaceConfig name (Some ic) =>
    let ipStatic := InterfaceConfiguration.ipStatic_ ic in
    let server i := default "" (INetAddr.address_ <$> StaticConfiguration.dnsServers_ ipStatic !! i) in
    mkEthernetData name 0 [] (InterfaceConfiguration.mode_ ic)
      (INetAddr.address_ (StaticConfiguration.ipAddr_ ipStatic)) (INetAddr.address_ (StaticConfiguration.route_ ipStatic))
      (INetAddr.address_ (StaticConfiguration.gate_ ipStatic)) (INetAddr.address_ (StaticConfiguration.netMask_ ipStatic))
      (server 0%nat) (server 1%nat) 0
  | EGetIfaceConfig name | EIsActivate name => set_ethernetName name EthernetData_default
  | _ => EthernetData_default
  end.

Definition eth_data_after (q : eth_request) (r : eth_reply) : EthernetData :=
  match q, r with
  | ESetIfaceConfig _ _, ERCode c => set_eth_result c
  | EIsActivate _, ERCode c => set_ifActivate c
  | _, ERConfig o => take_config o
  | _, ERNames l => set_ethernetNameList l
  | _, _ => id
  end (eth_data_of q).

(** The object that describes a configuration: the texts of the addresses, and
    the last of the servers twice. *)
Definition config_object (d : EthernetData) : js :=
  let str s := JsString (text (E := E) s) in
  JsObject [("mode", JsNumber (to_i 32 (ipMode d))); ("ipAddr", str (ipAddrInfo d)); ("routeAddr", str (routeAddrInfo d));
    ("gateAddr", str (gateAddrInfo d)); ("maskAddr", str (maskAddrInfo d)); ("dns0Addr", str (dns0AddrInfo d));
    ("dns1Addr", str (dns1AddrInfo d))].

Definition eth_in_promise (q : eth_request) (r : eth_reply) : bool * js :=
  match q, r with
  | ESetIfaceConfig _ _, ERCode c => (c =? ERR_NONE, JsNumber (to_i 32 c))
  | EGetIfaceConfig _, ERConfig None => (false, JsString "fail")
  | EGetIfaceConfig _, ERConfig (Some _) => (true, config_object (eth_data_after q r))
  | EIsActivate _, ERCode c => (negb (c =? -1), JsNumber (to_i 32 c))
  | EGetActivateInterfaces, ERNames l => (true, JsArray ((λ s, JsString (text (E := E) (c_str s))) <$> l))
  | _, _ => (true, JsUndefined)
  end.

(** A callback of [GetIfaceConfig] never hears of a failure. *)
Definition eth_in_callback (q : eth_request) (r : eth_reply) : list (option js) :=
  match q, r with
  | EGetIfaceConfig _, ERConfig _ => [None; Some (config_object (eth_data_after q r))]
  | _, _ => to_callback (eth_in_promise q r)
  end.

#[export] Instance eth_contract : Contract (cworld S) EthernetData ethernet_op eth_request eth_reply := {|
  request_of := eth_request_of;
  serve := eth_client_call (P:=P) object;
  in_promise := eth_in_promise;
  in_callback := eth_in_callback;
  data_of := eth_data_of;
  data_after := eth_data_after;
|}.

Lemma dynamic_callback_inv mode rest cb : dynamic_callback mode rest = Some cb →
  match cb with
  | None => rest = []
  | Some f => (rest = [JsFunction f] ∧ mode = InterfaceConfiguration.DHCP) ∨ ∃ y, rest = [y; JsFunction f]
  end.
Proof.
  destruct rest as [|y [|y' [|]]]; cbn; [by intros [= <-]|..].
  - destruct y; try done. case_decide; [|done]. intros [= <-]. by left.
  - destruct y'; try (by destruct y). intros Hcb. assert (cb = Some f) as -> by (destruct y; congruence). right. by exists y.
  - by destruct y, y'.
Qed.

(** The requests of a function. *)
Lemma eth_request_shape op args q cb : eth_request_of op args = Some (q, cb) →
  match op, q with
  | OpSetIfaceConfig, ESetIfaceConfig _ o => ∃ d, o = Some (config_of d)
  | OpGetIfaceConfig, EGetIfaceConfig _ | OpIsActivate, EIsActivate _ | OpGetActivateInterfaces, EGetActivateInterfaces => True
  | _, _ => False
  end.
Proof.
  destruct op; cbn.
  - destruct args as [|[] [|[] rest]]; try done. case_decide.
    + destruct rest as [|[] rest]; try done. destruct (static_config props) as [d|]; [|done]. cbn.
      intros [-> _]%with_callback_inv. by exists d.
    + destruct (dynamic_callback _ rest); [|done]. intros [= <- <-]. by eexists.
  - destruct args as [|[] rest]; try done. by intros [-> _]%with_callback_inv.
  - destruct args as [|[] rest]; try done. by intros [-> _]%with_callback_inv.
  - by intros [-> _]%with_callback_inv.
Qed.

Lemma eth_reply_shape q r : replies q r →
  match q with
  | ESetIfaceConfig _ _ | EIsActivate _ => ∃ c, r = ERCode c
  | EGetIfaceConfig _ => ∃ o, r = ERConfig o
  | EGetActivateInterfaces => ∃ l, r = ERNames l
  | _ => True
  end.
Proof. intros (n & n' & Hr). destruct q; cbn in Hr; try done; apply bind_run in Hr as (x & _ & ->); by eexists. Qed.

Lemma eth_good_exec op args q cb w : eth_request_of op args = Some (q, cb) →
  eth_exec op (eth_data_of q) w =
    match eth_client_call (P:=P) object q w with Some (r, w') => Some (eth_data_after q r, w') | None => None end.
Proof.
  intros Hq%eth_request_shape. destruct op, q; try done; [destruct Hq as [d ->]|..];
    refine (bind_wrap _ _ _ _ w _); intros a; reflexivity.
Qed.

Lemma js_property_inv name props x : js_property name props = Some x →
  ∃ s, get_prop name props = Some (JsString s) ∧ c_str (cut (E := E) PROPERTY_MAX_BYTE s) = x.
Proof. unfold js_property. destruct (get_prop name props) as [[]|]; try done. intros [= <-]. eauto. Qed.

(** A step of [GetPropertyString] for the property [name]. *)
Ltac takes_property H :=
  apply js_property_inv in H as (? & H & <-);
  first [apply ends_assoc | idtac]; eapply ends_property; [reflexivity|exact H|]; clear H.

Lemma good_SetIfaceConfig info q cb (j : world) :
  eth_request_of OpSetIfaceConfig (args_of info) = Some (q, cb) →
  nwp (SetIfaceConfig info) (has_asked OpSetIfaceConfig (eth_data_of q) cb j) (λ _, False) j.
Proof.
  intros Hq. unfold SetIfaceConfig. cbn in Hq. destruct (args_of info) as [|[] [|[] rest]] eqn:Hargs; try done.
  case_decide as Hmode.
  - destruct rest as [|[] rest]; try done. destruct (static_config props) as [d|] eqn:Hd; cbn in Hq; [|done].
    apply with_callback_inv in Hq as [-> Hrest]. apply ends_start; rewrite Hargs, Hrest; [destruct cb; cbn; lia|]. intros argv.
    eapply ends_string; [done|]. apply ends_put. eapply ends_int32; [done|]. apply ends_put.
    rewrite (decide_True (P := to_i 32 z = InterfaceConfiguration.STATIC)) by done.
    apply bind_Some in Hd as (ip & Hip & Hd). apply bind_Some in Hd as (route & Hroute & Hd).
    apply bind_Some in Hd as (gate & Hgate & Hd). apply bind_Some in Hd as (mask & Hmask & Hd).
    apply bind_Some in Hd as (dns0 & Hdns0 & Hd). apply bind_Some in Hd as (dns1 & Hdns1 & [= <-]).
    takes_property Hip. takes_property Hroute. takes_property Hgate. takes_property Hmask. takes_property Hdns0.
    takes_property Hdns1. rewrite Hmode. destruct cb; cbn [length Nat.sub]; asks 3%nat.
  - destruct (dynamic_callback _ rest) as [cb'|] eqn:Hcb; [|done]. injection Hq as <- ->. apply dynamic_callback_inv in Hcb.
    assert (Hlen : (length rest <= 2)%nat) by (destruct cb as [f|]; [destruct Hcb as [[-> _]|[y ->]]|subst rest]; cbn; lia).
    apply ends_start; rewrite Hargs; [cbn; lia|]. intros argv.
    eapply ends_string; [done|]. apply ends_put. eapply ends_int32; [done|]. apply ends_put.
    rewrite (decide_False (P := to_i 32 z = InterfaceConfiguration.STATIC)) by done. apply ends_ret.
    destruct cb as [f|]; [destruct Hcb as [[-> Hdhcp]|[y ->]]|subst rest]; cbn [length Nat.sub].
    + asks 2%nat.
    + asks 3%nat.
    + asks 2%nat.
Qed.

Lemma eth_good_call op info q cb (j : world) :
  eth_request_of op (args_of info) = Some (q, cb) →
  nwp (b_call (Binding := eth_binding) op info) (has_asked op (eth_data_of q) cb j) (λ _, False) j.
Proof.
  intros Hq. destruct op; cbn [b_call NapiEthernet.binding]; unfold GetIfaceConfig, IsActivate, GetActivateInterfaces.
  - by apply good_SetIfaceConfig.
  - destruct (args_of info) as [|[] rest] eqn:Hargs; try done. apply with_callback_inv in Hq as [-> Hrest].
    apply ends_start; rewrite Hargs, Hrest; [destruct cb; cbn; lia|]. intros argv.
    eapply ends_string; [done|]. apply ends_put. cbn. destruct cb; asks 1%nat.
  - destruct (args_of info) as [|[] rest] eqn:Hargs; try done. apply with_callback_inv in Hq as [-> Hrest].
    apply ends_start; rewrite Hargs, Hrest; [destruct cb; cbn; lia|]. intros argv.
    eapply ends_string; [done|]. apply ends_put. cbn. destruct cb; asks 1%nat.
  - apply with_callback_inv in Hq as [-> Hrest]. apply ends_start; rewrite Hrest; [destruct cb; cbn; lia|]. intros argv.
    destruct cb; asks 0%nat.
Qed.

Lemma set_dns_servers_activate l d : ifActivate (set_dns_servers l d) = ifActivate d.
Proof. revert d. induction l as [|x l IH]; intros d; [done|]. apply (IH (set_dns1AddrInfo _ (set_dns0AddrInfo _ d))). Qed.

(** One of the seven properties of the object of [GetIfaceConfig]. *)
Ltac sets_property Ha Hfail :=
  eapply answers_property; [first [apply law_create_int32 | apply law_create_string]|reflexivity|exact Ha|reflexivity|];
  clear Ha; let e := fresh "e" in let Hk := fresh "Hk" in intros e Ha Hk; apply Hk in Hfail; [|reflexivity]; clear Hk.

Lemma good_CompleteGetIfaceConfig name o a p c w op' (j : world) :
  j_contexts j !! p = Some c → work c = Some w → j_works j !! w = Some (op', p) → kept_by c a j →
  data c = eth_data_after (EGetIfaceConfig name) (ERConfig o) →
  nwp (CompleteGetIfaceConfig (Some p)) (has_answered p w a (answer_of (EGetIfaceConfig name) (ERConfig o) a) j) (λ _, False) j.
Proof.
  intros Hc Hw Hop Hk Hd. unfold CompleteGetIfaceConfig, with_context. apply nwp_bind. eapply nwp_load; [exact Hc|].
  cbv zeta. rewrite Hd. apply (answers_start p w c); [done|].
  destruct (law_create_object (j_engine j)) as (v & e1 & He1 & Ha & [L1 R1]). eapply answers_napi; [exact He1|exact R1|].
  destruct (law_create_string "fail" e1) as (vf & e2 & He2 & Hf & [L2 R2]). eapply answers_napi; [exact He2|exact R2|].
  apply L2 in Ha. rewrite text_ascii in Hf by done. unfold SetPropertyInt32, SetPropertyString.
  do 7 sets_property Ha Hf. cbn [app] in Ha.
  eapply answers_tells; [exact Hc|exact Hw|exact Hop|].
  destruct a as [d|r f], o as [config|]; cbn; rewrite ?set_dns_servers_activate; cbn; try (split_and!; [done..|]).
  - by exists v.
  - by exists vf.
  - constructor; [done|]. constructor; [|done]. by exists v.
  - constructor; [done|]. constructor; [|done]. by exists v.
Qed.

Lemma eth_good_complete op args q cb r a p c w op' (j : world) :
  eth_request_of op args = Some (q, cb) → j_contexts j !! p = Some c → work c = Some w →
  j_works j !! w = Some (op', p) → kept_by c a j → data c = eth_data_after q r → replies q r →
  nwp (b_complete (Binding := eth_binding) op (Some p)) (has_answered p w a (answer_of q r a) j) (λ _, False) j.
Proof.
  intros Hq%eth_request_shape Hc Hw Hop Hk Hd Hr%eth_reply_shape.
  destruct op, q; try done; cbn [b_complete NapiEthernet.binding];
    unfold CompleteSetIfaceConfig, CompleteIsActivate, CompleteGetActivateInterfaces, with_context;
    [|destruct Hr as [o ->]; by apply (good_CompleteGetIfaceConfig iface o a p c w op')|..];
    (apply nwp_bind; eapply nwp_load; [exact Hc|]); cbv zeta; rewrite Hd; apply (answers_start p w c); try done; clear Hq.
  - destruct Hr as [code ->]. eapply answers_value; [done..|apply law_create_int32| |]; cbn; by rewrite negb_involutive.
  - destruct Hr as [code ->]. by eapply answers_value; [done..|apply law_create_int32| |].
  - destruct Hr as [l ->]. cbn [ethernetNameList eth_data_after set_ethernetNameList].
    destruct (law_create_array (length l) (j_engine j)) as (v & e & He & Hs & [_ Hl]). eapply answers_napi; [exact He|exact Hl|].
    intros Hk' Hrefs. apply nwp_bind. eapply (good_set_elements _ (λ s, JsString (text (E := E) (c_str s))) v l []); [intros s; apply law_create_string|done|exact Hs|].
    intros e' info Hl' Hs' _. eapply (answers_complete p w c op'); [done..| |by eapply kept_engine|by intros ref y Hy; apply Hl', Hrefs].
    exists v. split; [done|]. rewrite Hs', drop_ge by by rewrite length_replicate. by rewrite app_nil_r.
Qed.

#[export] Instance eth_good : @GoodBinding E (cworld S) EthernetData ethernet_op eth_request eth_reply _
    eth_binding _ _ _ eth_contract.
Proof. split; [exact eth_good_call|exact eth_good_exec|exact eth_good_complete]. Qed.

End Ethernet.
