(* ===== verification/NapiDnsProps.v ===== *)
(** * The bindings of the DNS resolver service keep their contract *)

From S2P Require Import Prelude CppStrings Parcelables Ipc Dns Client Clients.
From S2P Require Import ClientProps Napi NapiDns NapiSafe NapiSpec NapiRefine.
Import NapiCommon NapiDnsResolver.

Section Dns.
Context {E S P : Type} `{Napi E} `{RemoteObjects S} `{SystemAbilities} `{IpcPlatform P}.
Context (object : nat → IDnsResolverService S).
#[local] Abbreviation world := (jworld E (cworld S) DnsResolverData dns_op).
#[local] Abbreviation dns_binding := (NapiDnsResolver.binding (E := E) (P := P) object).

Definition dns_exec (op : dns_op) (d : DnsResolverData) : st (cworld S) DnsResolverData :=
  a ← DnsResolverClient.GetAddressesByName (P:=P) object (host d) [] ;
  mret (push_hostAddress (INetAddr.ToString <$> a.2) d).

Lemma dns_exec_law op p c (j : world) : j_contexts j !! p = Some c →
  b_exec (Binding := dns_binding) op (Some p) j =
    match dns_exec op (data c) (j_native j) with
    | Some (x, w) => Some (Some tt, upd_native w (upd_contexts <[p := set_data x c]> j))
    | None => None
    end.
Proof.
  intros Hc. cbn [b_exec NapiDnsResolver.binding]. unfold ExecDnsResolverCallback, with_context, load at 1, mbind at 1, nm_bind at 1.
  rewrite Hc. cbv zeta.
  apply (exec_run (λ d, DnsResolverClient.GetAddressesByName (P:=P) object (host d) []) _
    (λ a, push_hostAddress (INetAddr.ToString <$> a.2))); [|done].
  intros a j' Hj'. by apply put_run.
Qed.

Lemma dns_call_law op info (j : world) :
  jinv j → nwp (b_call (Binding := dns_binding) op info) (λ _, jinv) jinv j.
Proof. intros Hj. cbn [b_call NapiDnsResolver.binding]. unfold GetAddressesByName. build. Qed.

Lemma dns_complete_law op p c w op' (j : world) :
  jinv j → j_contexts j !! p = Some c → work c = Some w → j_works j !! w = Some (op', p) →
  w ∉ j_queue j ++ j_done j →
  nwp (b_complete (Binding := dns_binding) op (Some p)) (λ _, jinv) jinv j.
Proof.
  intros Hj Hc Hw Hop Hn. cbn [b_complete NapiDnsResolver.binding]. unfold CompleteDnsResolverCallback, with_context.
  concludes Hc Hw Hop.
Qed.

#[export] Instance dns_safe : @SafeBinding E (cworld S) DnsResolverData dns_op _ dns_binding := {|
  exec_of := dns_exec;
  exec_law := dns_exec_law;
  call_law := dns_call_law;
  complete_law := dns_complete_law;
|}.

(** ** The contract *)

Context `{!Script E} `{!NapiLaws E}.

Definition dns_request_of (op : dns_op) (args : list js) : option (dns_request * option nat) :=
  match args with
  | JsString s :: rest => with_callback (DGetAddressesByName (c_str (cut (E := E) HOST_MAX_BYTES s))) rest
  | _ => None
  end.

Definition dns_data_of (q : dns_request) : DnsResolverData :=
  match q with DGetAddressesByName name => mkDnsResolverData name [] | _ => DnsResolverData_default end.

Definition dns_data_after (q : dns_request) (r : dns_reply) : DnsResolverData :=
  match r with
  | DRAddresses _ l => push_hostAddress (INetAddr.ToString <$> l) (dns_data_of q)
  | _ => dns_data_of q
  end.

(** The texts of the addresses, or a failure when there is none, whatever the code says. *)
Definition dns_in_promise (q : dns_request) (r : dns_reply) : bool * js :=
  match r with
  | DRAddresses _ [] => (false, JsString "fail")
  | DRAddresses _ l => (true, JsArray ((λ a, JsString (text (E := E) (c_str (INetAddr.ToString a)))) <$> l))
  | _ => (true, JsUndefined)
  end.

#[export] Instance dns_contract : Contract (cworld S) DnsResolverData dns_op dns_request dns_reply := {|
  request_of := dns_request_of;
  serve := dns_client_call (P:=P) object;
  in_promise := dns_in_promise;
  in_callback := λ q r, to_callback (dns_in_promise q r);
  data_of := dns_data_of;
  data_after := dns_data_after;
|}.

Lemma dns_request_shape op args q cb : dns_request_of op args = Some (q, cb) → ∃ name, q = DGetAddressesByName name.
Proof. destruct args as [|[] rest]; try done. cbn. intros [-> _]%with_callback_inv. eauto. Qed.

Lemma dns_good_exec op args q cb w : dns_request_of op args = Some (q, cb) →
  dns_exec op (dns_data_of q) w =
    match dns_client_call (P:=P) object q w with Some (r, w') => Some (dns_data_after q r, w') | None => None end.
Proof. intros [name ->]%dns_request_shape. refine (bind_wrap _ _ _ _ w _). intros a. reflexivity. Qed.

Lemma dns_good_call op info q cb (j : world) :
  dns_request_of op (args_of info) = Some (q, cb) →
  nwp (b_call (Binding := dns_binding) op info) (has_asked op (dns_data_of q) cb j) (λ _, False) j.
Proof.
  intros Hq. destruct op. cbn [b_call NapiDnsResolver.binding]. unfold GetAddressesByName.
  unfold dns_request_of in Hq. destruct (args_of info) as [|[] rest] eqn:Hargs; try done. apply with_callback_inv in Hq as [-> Hrest].
  apply ends_start; rewrite Hargs, Hrest; [destruct cb; cbn; lia|]. intros argv.
  eapply ends_string; [done|]. apply ends_put. cbn. destruct cb; asks 1%nat.
Qed.

Lemma dns_good_complete op args q cb r a p c w op' (j : world) :
  dns_request_of op args = Some (q, cb) → j_contexts j !! p = Some c → work c = Some w →
  j_works j !! w = Some (op', p) → kept_by c a j → data c = dns_data_after q r → replies q r →
  nwp (b_complete (Binding := dns_binding) op (Some p)) (has_answered p w a (answer_of q r a) j) (λ _, False) j.
Proof.
  intros [name ->]%dns_request_shape Hc Hw Hop Hk Hd (n & n' & Hr). cbn in Hr. apply bind_run in Hr as (x & _ & ->).
  cbn [b_complete NapiDnsResolver.binding]. unfold CompleteDnsResolverCallback, with_context.
  apply nwp_bind. eapply nwp_load; [exact Hc|]. cbv zeta. rewrite Hd. apply (answers_start p w c); [done|].
  cbn [dns_data_after dns_data_of push_hostAddress hostAddress app]. generalize (x.2) as l; intros l.
  destruct (law_create_string "fail" (j_engine j)) as (vf & e1 & He1 & Hf & [_ R1]). rewrite text_ascii in Hf by done.
  eapply answers_napi; [exact He1|exact R1|].
  destruct (law_create_array (length (INetAddr.ToString <$> l)) e1) as (v & e2 & He2 & Hs & [L2 R2]).
  eapply answers_napi; [exact He2|exact R2|]. apply L2 in Hf.
  intros Hk' Hrefs. apply nwp_bind.
  eapply (good_set_elements _ (λ s, JsString (text (E := E) (c_str s))) v _ []); [intros s; apply law_create_string|done|exact Hs|].
  intros e' info Hl' Hs' Hempty.
  assert (Hkept : kept_by c a (upd_engine e' j)) by by eapply kept_engine.
  assert (Hrefs' : keeps_refs (j_engine j) e') by (intros ref y Hy; by apply Hl', Hrefs).
  destruct l as [|addr l].
  - destruct (Hempty eq_refl) as [-> ->]. eapply (answers_complete p w c op' _ _ _ _ true); [done..| |done|done]. by exists vf.
  - eapply (answers_complete p w c op' _ _ _ _ false); [done..| |done|done]. exists v. split; [done|].
    rewrite Hs', drop_ge by by rewrite length_replicate. rewrite app_nil_r, <- list_fmap_compose. done.
Qed.

#[export] Instance dns_good : @GoodBinding E (cworld S) DnsResolverData dns_op dns_request dns_reply _
    dns_binding _ _ _ dns_contract.
Proof. split; [exact dns_good_call|exact dns_good_exec|exact dns_good_complete]. Qed.

End Dns.
