(* ===== verification/NapiSample.v ===== *)
(** * An engine, and a run on it

    The laws of the engine hold for this one, on which the witnesses run. Its
    values are a list, in which a handle is a place; the arguments of the calls
    are fixed. *)

From S2P Require Import Prelude Parcel Parcelables Ipc NetmanagerIpc Host ConnState ConnIpc.
From S2P Require Import CppStrings Files Policy PolicySpec PolicyCorrect PolicyProps PolicyIpc Ethernet.
From S2P Require Import EthernetProps EthernetIpc Dns DnsSpec DnsProps DnsIpc Client Clients.
From S2P Require Import ClientProps Napi NapiPolicy NapiEthernet NapiDns NapiSpec NapiPolicyProps.

Record engine := mkEngine { en_values : list js; en_refs : gmap nat js }.

Definition en_start : engine := mkEngine [] ∅.

Definition look (e : engine) (v : napi_value) : option js := h ← v ; en_values e !! h.

Definition new_value (y : js) (e : engine) : option nat * engine :=
  (Some (length (en_values e)), mkEngine (en_values e ++ [y]) (en_refs e)).

Fixpoint take_string (n : nat) (s : string) : string :=
  match n, s with
  | Datatypes.S n, String c s => String c (take_string n s)
  | _, _ => EmptyString
  end.

(** The arguments of the call [info]. *)
Definition sample_args (info : nat) : list js :=
  match info with
  | 0%nat => [JsNumber 10003; JsNumber 1]
  | 1%nat => [JsNumber 64; JsFunction 5]
  | 2%nat => [JsString "eth0"; JsFunction 6]
  | 3%nat => [JsString "www.example.info"]
  | 4%nat => [JsString "eth0"; JsNumber 2; JsUndefined]
  | 5%nat => [JsString "eth0"; JsNumber 1; JsFunction 7]
  | 6%nat => [JsString "nobody"]
  | _ => []
  end.

#[export] Instance sample_script : Script engine := {|
  shape e v := en_values e !! v;
  target e r := en_refs e !! r;
  args_of := sample_args;
  cut n s := take_string (Z.to_nat (n - 1)) s;
  text s := s;
|}.

#[export] Instance sample_napi : Napi engine := {|
  napi_get_cb_info info cap e :=
    let args := take cap (sample_args info) in
    (Some (Some <$> seq (length (en_values e)) (length args), length args),
     mkEngine (en_values e ++ args) (en_refs e));
  napi_get_value_string_utf8 v n e :=
    (match look e v with Some (JsString s) => Some (take_string (Z.to_nat (n - 1)) s) | _ => None end, e);
  napi_get_value_int32 v e := (match look e v with Some (JsNumber z) => Some (to_i 32 z) | _ => None end, e);
  napi_get_value_uint32 v e := (match look e v with Some (JsNumber z) => Some (to_u 32 z) | _ => None end, e);
  napi_get_value_bool v e := (match look e v with Some (JsBoolean b) => Some b | _ => None end, e);
  napi_typeof v e := (js_type <$> look e v, e);
  napi_get_named_property v name e :=
    match look e v with
    | Some (JsObject props) => new_value (default JsUndefined (get_prop name props)) e
    | _ => (None, e)
    end;
  napi_get_undefined := new_value JsUndefined;
  napi_create_int32 z := new_value (JsNumber (to_i 32 z));
  napi_create_uint32 z := new_value (JsNumber (to_u 32 z));
  napi_create_string_utf8 s := new_value (JsString s);
  napi_create_error _ _ := new_value (JsObject []);
  napi_create_object := new_value (JsObject []);
  napi_create_array_with_length n := new_value (JsArray (replicate n JsUndefined));
  napi_set_named_property a name v e :=
    match a, look e a, look e v with
    | Some h, Some (JsObject props), Some y => (Some tt, mkEngine (<[h := JsObject (props ++ [(name, y)])]> (en_values e)) (en_refs e))
    | _, _, _ => (None, e)
    end;
  napi_set_element a i v e :=
    match a, look e a, look e v with
    | Some h, Some (JsArray l), Some y => (Some tt, mkEngine (<[h := JsArray (set_at i y l)]> (en_values e)) (en_refs e))
    | _, _, _ => (None, e)
    end;
  napi_define_properties F _ _ e := (Some tt, e);
  napi_create_promise d := new_value (JsPromise d);
  napi_resolve_deferred d v e := (match d with Some _ => Some tt | None => None end, e);
  napi_reject_deferred d v e := (match d with Some _ => Some tt | None => None end, e);
  napi_create_reference r v _ e :=
    match look e v with
    | Some y => (Some tt, mkEngine (en_values e) (<[r := y]> (en_refs e)))
    | None => (None, e)
    end;
  napi_get_reference_value r e := match en_refs e !! r with Some y => new_value y e | None => (None, e) end;
  napi_delete_reference r e := (Some tt, mkEngine (en_values e) (delete r (en_refs e)));
  napi_call_function _ _ _ e := (Some tt, e);
  napi_create_async_work _ _ _ e := (Some tt, e);
  napi_queue_async_work _ e := (Some tt, e);
  napi_delete_async_work w e := (match w with Some _ => Some tt | None => None end, e);
  throw_last_error e := e;
|}.

(** ** Its laws *)

Lemma take_string_all n s : (String.length s <= n)%nat → take_string n s = s.
Proof. revert s. induction n as [|n IH]; intros [|c s] Hn; cbn in *; try done; [lia|]. f_equal. apply IH. lia. Qed.

Lemma later_refl (e : engine) : later e e.
Proof. reflexivity. Qed.

Lemma later_values l (e : engine) : later e (mkEngine (en_values e ++ l) (en_refs e)).
Proof. split; [|by intros r]. intros v y Hv. cbn in *. by apply lookup_app_l_Some. Qed.

Lemma gives_new y : gives (E := engine) (new_value y) y.
Proof.
  intros e. eexists _, _. split; [done|]. split; [|apply later_values]. cbn. by apply list_lookup_middle.
Qed.

Lemma val_look (e : engine) v y : val e v y → look e v = Some y.
Proof. by intros (h & -> & Hy). Qed.

(** A value that is no primitive is replaced. *)
Lemma replaced (e : engine) h x y : en_values e !! h = Some x → primitive x = false →
  let e' := mkEngine (<[h := y]> (en_values e)) (en_refs e) in
  shape e' h = Some y ∧ keeps_refs e e' ∧ ∀ k z, primitive z = true → shape e k = Some z → shape e' k = Some z.
Proof.
  intros Hx Hp e'. split_and!; [|by intros r|].
  - cbn. apply list_lookup_insert_eq. by eapply lookup_lt_Some.
  - intros k z Hz Hk. cbn in *. rewrite list_lookup_insert_ne; [done|]. intros <-. congruence.
Qed.

#[export] Instance sample_laws : NapiLaws engine.
Proof.
  split; try (intros; apply gives_new); try (intros; by eexists); try done.
  - intros n s Hs. apply take_string_all. lia.
  - intros info cap e Hlen. cbn. rewrite take_ge by exact Hlen. eexists _, _. split; [done|]. split; [apply later_values|].
    intros i y Hi. exists (length (en_values e) + i)%nat. split.
    + unfold arg. rewrite list_lookup_fmap, lookup_seq_lt by by eapply lookup_lt_Some. done.
    + cbn. rewrite lookup_app_r by lia. by replace (length (en_values e) + i - length (en_values e))%nat with i by lia.
  - intros v n s e Hv%val_look. cbn. rewrite Hv. by exists e.
  - intros v z e Hv%val_look. cbn. rewrite Hv. by exists e.
  - intros v z e Hv%val_look. cbn. rewrite Hv. by exists e.
  - intros v b e Hv%val_look. cbn. rewrite Hv. by exists e.
  - intros v y e Hv%val_look. cbn. rewrite Hv. by exists e.
  - intros v props name y e Hv%val_look Hp. cbn. rewrite Hv, Hp. apply gives_new.
  - intros a name v props y e Ha Hn Hv%val_look Hy. cbn in *. rewrite Ha, Hv. eexists. split; [done|]. by eapply replaced.
  - intros a i v l y e Ha Hi Hv%val_look Hy. cbn in *. rewrite Ha, Hv. eexists. split; [done|]. by eapply replaced.
  - intros d v y e _. exists e. by split; [|intros r].
  - intros d v y e _. exists e. by split; [|intros r].
  - intros r v f n e Hv%val_look. cbn. rewrite Hv. eexists. split; [done|]. cbn. split; [by rewrite lookup_insert_eq|].
    intros r' y Hne Hy. by rewrite lookup_insert_ne.
  - intros r y e Hr. cbn in *. rewrite Hr. apply gives_new.
  - intros recv func argv e r y Hr. exact Hr.
  - intros r e. eexists. split; [done|]. intros r' y Hne Hy. cbn. by rewrite lookup_delete_ne.
  - intros w e. exists e. by split; [|intros r].
Qed.

(** ** A run of the JavaScript bindings

    The sample engine with the policy service behind its proxy: a script sets a
    policy and gets a promise, a thread of the pool runs the work, and the
    promise is resolved. The theorems are instantiated here. *)

Import SampleJson SampleDisk SamplePlatform Unbounded.
#[local] Existing Instances sample_ids sample_error_codes world_objects pworld_objects eworld_objects dworld_objects unit_objects.

Definition sample_policy (_ : nat) : INetPolicyService (pworld disk unit) := net_policy_proxy (policy_stub (J:=J) (P:=buffer)).
Definition sample_ethernet (_ : nat) : IEthernetService (eworld unit) := ethernet_proxy (eth_stub (P:=buffer)).
Definition sample_dns (_ : nat) : IDnsResolverService (dworld unit) := dns_resolver_proxy (dns_stub (P:=buffer)).

Definition then_do {E W D O A} (m : st (jworld E W D O) A) (j : jworld E W D O) : jworld E W D O :=
  match m j with Some (_, j') => j' | None => j end.

Definition sample_j0 : jworld engine (cworld (pworld disk unit)) NetPolicyData policy_op :=
  module_load en_start (client_construct sample_world).
Definition sample_j1 := then_do (call (H0 := NapiNetPolicy.binding sample_policy) OpSetUidPolicy 0) sample_j0.
Definition sample_j2 := then_do (execute (H0 := NapiNetPolicy.binding sample_policy) 2) sample_j1.
Definition sample_j3 := then_do (conclude (H0 := NapiNetPolicy.binding sample_policy) 2) sample_j2.

(** The same with a client that has the object already. *)
Definition sample_k0 : jworld engine (cworld (pworld disk unit)) NetPolicyData policy_op :=
  module_load en_start (one_object sample_world).
Definition sample_k1 := then_do (call (H0 := NapiNetPolicy.binding sample_policy) OpSetUidPolicy 0) sample_k0.
Definition sample_k2 := then_do (execute (H0 := NapiNetPolicy.binding sample_policy) 2) sample_k1.

(** Services that return the same whatever they are asked. *)
Definition quiet_policy (_ : nat) : INetPolicyService unit :=
  mkINetPolicyService (λ _ _, mret 0) (λ _, mret 0) (λ _, mret [10003]) (λ _ _, mret true) (λ _ _, mret true).
Definition quiet_ethernet (_ : nat) : IEthernetService unit :=
  mkIEthernetService (λ _ _, mret 0) (λ _, mret None) (λ _, mret 1) (mret ["eth0"]).
Definition quiet_dns (_ : nat) : IDnsResolverService unit :=
  mkIDnsResolverService (λ _ l, mret (0, l)) (λ _ _ _ l, mret (0, l)) (λ _, mret 0) (λ _, mret 0) (λ _, mret 0)
    (λ _ _ _ _ _, mret 0) (λ _ r, mret (0, r)).

(** A script that sets a configuration with a mode that there is not. *)
Definition sample_eth_j0 : jworld engine (cworld unit) EthernetData ethernet_op := module_load en_start (client_construct tt).
