(* ===== verification/NapiProps.v ===== *)
(** * Properties of the JavaScript bindings

    With any engine the three modules use only what they have, and answer no
    call twice; with the documented one they are the machine of asynchronous
    calls on the client library, and answer the calls with good arguments. *)

From S2P Require Import Prelude CppStrings Parcel Parcelables Files Ipc Host ConnState.
From S2P Require Import Policy PolicyCorrect PolicyProps PolicyIpc.
From S2P Require Import EthernetCorrect Dns Client Clients ClientSpec ClientProps.
From S2P Require Import Napi NapiPolicy NapiEthernet NapiDns NapiSafe NapiSpec NapiRefine.
From S2P Require Import NapiPolicyProps NapiEthernetProps NapiDnsProps NapiSample.

(** ** What the client library gives *)

(** A service that returns whatever it is asked. *)
Definition serves_all {S Q R} (on : Q → st S R) : Prop := ∀ q s, is_Some (on q s).

Lemma bind_left_returns {S A B} (m : st S A) (f : A → B) w : is_Some ((a ← m ; mret (f a)) w) → is_Some (m w).
Proof. unfold mbind, st_bind. by destruct (m w) as [[a w']|]; [|intros []]. Qed.

Lemma bind_returns {S A B} (m : st S A) (f : A → B) w : is_Some (m w) → is_Some ((a ← m ; mret (f a)) w).
Proof. intros [[a w'] Hm]. unfold mbind, st_bind. rewrite Hm. by eexists. Qed.

Lemma forward_returns {S A B} `{RemoteObjects S} id descriptor (null : A) (m : nat → st S A) (f : A → B) c :
  (∀ h s, is_Some ((a ← m h ; mret (f a)) s)) →
  is_Some (RemoteClient.forward (RemoteClient.GetProxy id descriptor) null m c).
Proof.
  intros Hm. destruct (wp_GetProxy id descriptor (λ _ _, True) c) as (o & c1 & Hg & _); [done..|].
  destruct o as [h|]; [|by eexists; apply forward_none].
  destruct (bind_left_returns _ _ _ (Hm h (c_system c1))) as [[a s] Ha]. eexists. by eapply forward_some.
Qed.

Section Returns.
Context {S P : Type} `{RemoteObjects S} `{SystemAbilities} `{IpcPlatform P}.

Lemma policy_exec_returns (object : nat → INetPolicyService S) :
  (∀ h, serves_all (policy_on (object h))) → ∀ op x w, is_Some (policy_exec object op x w).
Proof.
  intros Hq op x w. destruct op; cbn [policy_exec]; [..|destruct (0 <? _)%nat]; apply bind_returns; eapply forward_returns; intros h.
  - apply (Hq h (PSetUidPolicy _ _)).
  - apply (Hq h (PGetUidPolicy _)).
  - apply (Hq h (PGetUids _)).
  - apply (Hq h (PIsUidNetAccessIface _ _)).
  - apply (Hq h (PIsUidNetAccess _ _)).
Qed.

Lemma eth_exec_returns (object : nat → IEthernetService S) :
  (∀ h, serves_all (eth_on (object h))) → ∀ op x w, is_Some (eth_exec (P:=P) object op x w).
Proof.
  intros Hq op x w. destruct op; cbn [eth_exec]; apply bind_returns; eapply forward_returns; intros h.
  - apply (Hq h (ESetIfaceConfig _ _)).
  - apply (Hq h (EGetIfaceConfig _)).
  - apply (Hq h (EIsActivate _)).
  - apply (Hq h EGetActivateInterfaces).
Qed.

Lemma dns_exec_returns (object : nat → IDnsResolverService S) :
  (∀ h, serves_all (dns_on (object h))) → ∀ op x w, is_Some (dns_exec (P:=P) object op x w).
Proof.
  intros Hq op x w. apply bind_returns. eapply forward_returns. intros h. apply (Hq h (DGetAddressesByName _)).
Qed.

End Returns.

(** ** The types of what a script is told *)

(** A value that is [ok] resolves a promise
    or is the second argument of a callback, one that is [err] rejects it or is
    the first. *)
Definition told (ok err : js → Prop) (a : answer) : Prop :=
  match a with
  | AResolved _ y => ok y
  | ARejected _ y => err y
  | ACalled _ _ l => (∃ y, l = [None; Some y] ∧ ok y) ∨ (∃ y, l = [Some y; None] ∧ err y)
  end.

Definition is_number (y : js) : Prop := ∃ z, y = JsNumber z ∧ (in_i 32 z ∨ in_u 32 z).
Definition is_string (y : js) : Prop := ∃ s, y = JsString s.
Definition is_array_of (A : js → Prop) (y : js) : Prop := ∃ l, y = JsArray l ∧ Forall A l.
Definition is_config (y : js) : Prop := ∃ props, y = JsObject props ∧
  Forall2 (λ x n, x.1 = n ∧ if String.eqb n "mode" then is_number x.2 else is_string x.2) props
    ["mode"; "ipAddr"; "routeAddr"; "gateAddr"; "maskAddr"; "dns0Addr"; "dns1Addr"].

Definition policy_type (y : js) : Prop := is_number y ∨ is_array_of is_number y.
Definition eth_type (y : js) : Prop := is_number y ∨ is_config y ∨ is_array_of is_string y.
Definition eth_error_type (y : js) : Prop := is_number y ∨ y = JsString "fail".
Definition dns_type (y : js) : Prop := is_array_of is_string y ∧ y ≠ JsArray [].

(** Everything that reaches the script has these types. *)
Definition types_of {E W D O Q R} `{GoodBinding E W D O Q R} (ok err : js → Prop) : Prop :=
  ∀ e w j x, rtc good_step (module_load e w) j → x ∈ j_log j → ∃ a, shows x a ∧ told ok err a.

Lemma told_answer {W D O Q R} `{Contract W D O Q R} (ok err : js → Prop) (q : Q) (r : R) a :
  in_callback q r = to_callback (in_promise q r) → (if (in_promise q r).1 then ok (in_promise q r).2 else err (in_promise q r).2) →
  told ok err (answer_of q r a).
Proof.
  intros Hc Hy. destruct a as [d|ref f]; cbn.
  - by destruct (in_promise q r) as [[] y].
  - rewrite Hc. unfold to_callback. destruct (in_promise q r) as [[] y]; cbn in *; eauto.
Qed.

Lemma is_number_i32 z : is_number (JsNumber (to_i 32 z)).
Proof. exists (to_i 32 z). split; [done|]. left. by apply to_i_range. Qed.

Lemma strings_typed {A} (f : A → string) l : is_array_of is_string (JsArray ((λ x, JsString (f x)) <$> l)).
Proof. eexists. split; [done|]. apply Forall_fmap, Forall_true. intros x. by eexists. Qed.

Section Types.
Context {E S P : Type} `{NapiLaws E} `{RemoteObjects S} `{SystemAbilities} `{IpcPlatform P}.

Lemma policy_types (object : nat → INetPolicyService S) :
  types_of (H2 := policy_good (E := E) object) policy_type is_number.
Proof.
  intros e w j x. apply good_answers. intros q r a _ Hr. apply told_answer; [done|].
  apply policy_reply_shape in Hr. destruct q, r; try done; cbn.
  - destruct (_ =? _); [left|]; apply is_number_i32.
  - left. apply is_number_i32.
  - right. eexists. split; [done|]. apply Forall_fmap, Forall_true. intros u. eexists. split; [done|]. right. by apply to_u_range.
  - destruct b; [left; by apply (is_number_i32 1)|by apply (is_number_i32 0)].
  - destruct b; [left; by apply (is_number_i32 1)|by apply (is_number_i32 0)].
Qed.

Lemma config_typed d : is_config (config_object (E := E) d).
Proof. eexists. split; [done|]. repeat constructor; cbn; [apply is_number_i32|by eexists..]. Qed.

Lemma eth_types (object : nat → IEthernetService S) :
  types_of (H2 := eth_good (E := E) (P := P) object) eth_type eth_error_type.
Proof.
  intros e w j x. apply good_answers. intros q r a (op & args & cb & Hq) Hr.
  apply eth_request_shape in Hq. apply eth_reply_shape in Hr.
  destruct op, q; try done.
  - destruct Hr as [c ->]. apply told_answer; [done|]. cbn. destruct (_ =? _); left; apply is_number_i32.
  - destruct Hr as [[config|] ->]; destruct a as [d|ref f]; cbn.
    + right. left. apply config_typed.
    + left. eexists. split; [done|]. right. left. apply config_typed.
    + by right.
    + left. eexists. split; [done|]. right. left. apply config_typed.
  - destruct Hr as [c ->]. apply told_answer; [done|]. cbn. destruct (_ =? _); left; apply is_number_i32.
  - destruct Hr as [l ->]. apply told_answer; [done|]. cbn. right. right. apply strings_typed.
Qed.

Lemma dns_types (object : nat → IDnsResolverService S) :
  types_of (H2 := dns_good (E := E) (P := P) object) dns_type (λ y, y = JsString "fail").
Proof.
  intros e w j x. apply good_answers. intros q r a (op & args & cb & Hq) (n & n' & Hr).
  apply (dns_request_shape op) in Hq as [name ->]. cbn in Hr. apply bind_run in Hr as ([code l] & _ & ->).
  apply told_answer; [done|]. cbn. destruct l as [|addr l]; cbn; [done|]. split; [|done].
  apply (strings_typed (λ a, text (E := E) (c_str (INetAddr.ToString a))) (addr :: l)).
Qed.

End Types.

(** ** A call that is never answered *)

Section Unanswered.
Context {E S P : Type} `{NapiLaws E} `{RemoteObjects S} `{SystemAbilities} `{IpcPlatform P}.
Context (object : nat → IEthernetService S).
#[local] Abbreviation world := (jworld E (cworld S) EthernetData ethernet_op).
#[local] Existing Instance NapiEthernet.binding.

Definition mode_only (z : Z) : EthernetData := set_ipMode (to_i 32 z) EthernetData_default.

Lemma SetIfaceConfig_in_vain info s z y (j : world) :
  args_of info = [JsString s; JsNumber z; y] →
  to_i 32 z ≠ InterfaceConfiguration.STATIC → to_i 32 z ≠ InterfaceConfiguration.DHCP →
  ∃ e, call (H0 := NapiEthernet.binding (P:=P) object) OpSetIfaceConfig info j =
    Some (None, asked_in_vain OpSetIfaceConfig (set_ethernetName (js_name (E := E) s) (mode_only z)) e j).
Proof.
  intros Hargs Hs Hd.
  assert (Hcall : nwp (NapiEthernet.SetIfaceConfig info) (λ v j', v = None ∧ ∃ e, j' =
    asked_in_vain OpSetIfaceConfig (set_ethernetName (js_name (E := E) s) (mode_only z)) e j) (λ _, False) j).
  { unfold NapiEthernet.SetIfaceConfig. apply ends_start; rewrite Hargs; [cbn; lia|]. intros argv.
    eapply ends_string; [done|]. apply ends_put. eapply ends_int32; [done|]. apply ends_put.
    rewrite (decide_False (P := to_i 32 z = InterfaceConfiguration.STATIC)) by done. apply ends_ret.
    apply ends_in_vain. repeat case_decide; [naive_solver lia..|done]. }
  destruct Hcall as ([v|] & j' & Hm & Ho); [|done]. destruct Ho as (-> & e & ->). exists e.
  unfold call, mbind, st_bind, run. cbn [b_call NapiEthernet.binding]. by rewrite Hm.
Qed.

Lemma SetIfaceConfig_ends_in_vain p c x w (j : world) :
  j_works j !! w = Some (OpSetIfaceConfig, p) → j_contexts j !! p = Some c → callbackRef c = None → deferred c = None →
  x = upd_pool (j_queue j) (filter (.≠ w) (j_done j)) j →
  ∃ e, conclude (H0 := NapiEthernet.binding (P:=P) object) w j = Some (tt, upd_engine e x).
Proof.
  intros Hw Hc Hr Hd ->. set (x := upd_pool _ _ j).
  assert (Hm : nwp (NapiEthernet.CompleteSetIfaceConfig (S := S) (Some p)) (λ _ _, False) (λ j', ∃ e, j' = upd_engine e x) x).
  { apply nwp_bind. eapply nwp_load; [exact Hc|]. apply nwp_bind, nwp_napi. intros o e _.
    eapply nwp_mono; [by eapply good_complete_in_vain|done|]. intros j' [e' ->]. by exists e'. }
  destruct Hm as ([|] & j' & Hm & Ho); [done|]. destruct Ho as [e ->]. exists e.
  unfold conclude, mbind, st_bind, gets, modify, run. rewrite Hw. fold x. cbn [b_complete NapiEthernet.binding]. by rewrite Hm.
Qed.

(** A script that sets a configuration with three arguments, in a mode that is
    neither static nor dynamic, gets no promise, the third argument is not kept
    as a callback, and the interface is configured all the same. When the
    work is concluded nothing was told to the script, and the context and the
    work of the call are still there, with no queue that has the work. *)
Lemma js_unanswered info s z y (j : world) code w :
  args_of info = [JsString s; JsNumber z; y] →
  to_i 32 z ≠ InterfaceConfiguration.STATIC → to_i 32 z ≠ InterfaceConfiguration.DHCP →
  EthernetClient.SetIfaceConfig (P:=P) object (js_name (E := E) s)
    (Some (NapiEthernet.config_of (mode_only z))) (j_native j) = Some (code, w) →
  let p := j_next j in let x := (p + 1)%nat in
  ∃ j1 j2 j3, call (H0 := NapiEthernet.binding (P:=P) object) OpSetIfaceConfig info j = Some (None, j1) ∧
    execute (H0 := NapiEthernet.binding (P:=P) object) x j1 = Some (tt, j2) ∧ j_native j2 = w ∧
    conclude (H0 := NapiEthernet.binding (P:=P) object) x j2 = Some (tt, j3) ∧ j_log j3 = j_log j ∧
    is_Some (j_contexts j3 !! p) ∧ is_Some (j_works j3 !! x) ∧ x ∉ j_queue j3 ++ j_done j3.
Proof.
  intros Hargs Hs Hd Hserve p x. destruct (SetIfaceConfig_in_vain info s z y j Hargs Hs Hd) as [e Hc].
  set (d := set_ethernetName _ _) in Hc. set (j1 := asked_in_vain _ d e j) in Hc.
  assert (Hw : j_works j1 !! x = Some (OpSetIfaceConfig, p)) by apply lookup_insert_eq.
  assert (Hx : j_contexts j1 !! p = Some (mkContext (Some x) None None d)) by apply lookup_insert_eq.
  assert (Hy : exec_of (SafeBinding := eth_safe (P:=P) object) OpSetIfaceConfig d (j_native j1) = Some (set_eth_result code d, w)).
  { transitivity ((r ← EthernetClient.SetIfaceConfig (P:=P) object (js_name (E := E) s)
      (Some (NapiEthernet.config_of (mode_only z))) ; mret (set_eth_result r d)) (j_native j)); [done|].
    unfold mbind, st_bind. by rewrite Hserve. }
  pose proof (execute_run x OpSetIfaceConfig p _ _ w j1 Hw Hx Hy) as He.
  set (j2 := upd_pool _ _ _) in He.
  destruct (SetIfaceConfig_ends_in_vain p (mkContext (Some x) None None (set_eth_result code d))
    (upd_pool (j_queue j2) (filter (.≠ x) (j_done j2)) j2) x j2) as [e' Hend]; [done|apply lookup_insert_eq|done..|].
  exists j1, j2, (upd_engine e' (upd_pool (j_queue j2) (filter (.≠ x) (j_done j2)) j2)). split_and!; [done..| | |].
  - exists (mkContext (Some x) None None (set_eth_result code d)). apply lookup_insert_eq.
  - eexists. exact Hw.
  - cbn. rewrite elem_of_app, !list_elem_of_filter. naive_solver.
Qed.

End Unanswered.

(** ** The properties *)

Section Modules.
Context {E S1 S2 S3 P : Type} `{Napi E} `{RemoteObjects S1} `{RemoteObjects S2} `{RemoteObjects S3}.
Context `{SystemAbilities} `{IpcPlatform P}.
Context (policy : nat → INetPolicyService S1) (ethernet : nat → IEthernetService S2) (dns : nat → IDnsResolverService S3).

(** C15. Whatever the engine answers to each of its calls, and however calls,
    threads and the rest of the process are interleaved, over services that
    return, the three modules never
    use a context, a work, a reference or a promise that is released, and
    answer no promise and no callback twice. *)
Theorem js_behaves `{!MakesNumbers E} :
  (∀ h, serves_all (policy_on (policy h))) → (∀ h, serves_all (eth_on (ethernet h))) → (∀ h, serves_all (dns_on (dns h))) →
  behaves (H0 := NapiNetPolicy.binding policy) ∧ behaves (H0 := NapiEthernet.binding (P:=P) ethernet) ∧
  behaves (H0 := NapiDnsResolver.binding (P:=P) dns).
Proof.
  intros Hp He Hd. split_and!.
  - apply (safe_behaves (H1 := policy_safe policy)). by apply policy_exec_returns.
  - apply (safe_behaves (H1 := eth_safe ethernet)). by apply eth_exec_returns.
  - apply (safe_behaves (H1 := dns_safe dns)). by apply dns_exec_returns.
Qed.

(** C13. With the documented engine and good arguments, each module is the machine
    of asynchronous calls on its client, however the calls are interleaved: what
    is served, what is pending and every value that reaches the script are those
    of the machine, and it has a context, a work and a promise or a reference
    for each pending call and nothing else. *)
Theorem js_refines `{!Script E} `{!NapiLaws E} :
  refines (H2 := policy_good policy) ∧ refines (H2 := eth_good (P:=P) ethernet) ∧ refines (H2 := dns_good (P:=P) dns).
Proof. split_and!; apply good_refines. Qed.

(** C14. A script whose calls all have good arguments, those of which [request_of]
    makes a request, on an engine as it is documented. Each call gives its
    promise, or nothing with a callback; when nothing is queued any more it has
    been answered, once, with a reply of the service, and nothing of it is left.
    While the service returns, the works come to their end, each in two steps.
    (Calls with other arguments are not among these: [js_unanswered] is one that
    is never answered.) *)
Theorem js_answers `{!Script E} `{!NapiLaws E} :
  (always_answers (H2 := policy_good policy) ∧ drains (H2 := policy_good policy)) ∧
  (always_answers (H2 := eth_good (P:=P) ethernet) ∧ drains (H2 := eth_good (P:=P) ethernet)) ∧
  (always_answers (H2 := dns_good (P:=P) dns) ∧ drains (H2 := dns_good (P:=P) dns)).
Proof. split_and!; first [apply good_always_answers | apply good_drains]. Qed.

(** C40. Whatever the services reply, everything that reaches a script is of the
    types of its module: a promise is resolved with a value and rejected with an
    error, a callback gets exactly one of the two. *)
Theorem js_types `{!Script E} `{!NapiLaws E} :
  types_of (H2 := policy_good policy) policy_type is_number ∧
  types_of (H2 := eth_good (P:=P) ethernet) eth_type eth_error_type ∧
  types_of (H2 := dns_good (P:=P) dns) dns_type (λ y, y = JsString "fail").
Proof. split_and!; [apply policy_types|apply eth_types|apply dns_types]. Qed.

End Modules.

(** ** The witnesses *)

Import SampleJson SampleDisk SamplePlatform Unbounded.
#[local] Existing Instances sample_ids pworld_objects eworld_objects dworld_objects unit_objects.

#[local] Abbreviation sample_step := (script_step (H2 := policy_good (E := engine) sample_policy)).

Lemma sample_run : sample_step sample_j0 sample_j1 ∧ sample_step sample_j1 sample_j2 ∧ sample_step sample_j2 sample_j3.
Proof.
  split_and!.
  - eapply (good_call_step _ OpSetUidPolicy 0%nat (PSetUidPolicy 10003 1, None)); [reflexivity|vm_compute; reflexivity].
  - apply (good_execute _ 2%nat); [by left|vm_compute; reflexivity].
  - apply (good_conclude _ 2%nat); [by left|vm_compute; reflexivity].
Qed.

Lemma sample_runs : rtc (good_step (H2 := policy_good (E := engine) sample_policy)) sample_j0 sample_j3.
Proof. destruct sample_run as (H1 & H2 & H3). eapply rtc_l, rtc_l, rtc_once; apply good_script; eassumption. Qed.

Lemma sample_log : ∃ e, j_log sample_j3 = [Resolved 1 (Some 5%nat) e] ∧ shape e 5 = Some (JsNumber 0).
Proof. eexists. split; [vm_compute; reflexivity|reflexivity]. Qed.

(** The value that a delivery shows is the one of its engine. *)
Lemma sample_shows x a : x ∈ j_log sample_j3 → shows x a → a = AResolved 1 (JsNumber 0).
Proof.
  destruct sample_log as (e & -> & He). intros ->%list_elem_of_singleton Hx.
  destruct a as [d y|d y|]; [|destruct Hx..]. destruct Hx as [<- (h & [= <-] & Hy)]. cbn in *. congruence.
Qed.

Lemma js_behaves_witness :
  behaves (H0 := NapiNetPolicy.binding (E := engine) quiet_policy).
Proof.
  apply (js_behaves (E := engine) (P := buffer) quiet_policy quiet_ethernet quiet_dns).
  - by intros h [] s; eexists.
  - by intros h [] s; eexists.
  - by intros h [] s; eexists.
Defined.

(** The machine has given the same answer. *)
Lemma js_refines_witness :
  ∃ m, rtc (mstep (H := policy_contract (E := engine) sample_policy)) (m_start (client_construct sample_world)) m ∧
    simulates (Contract0 := policy_contract (E := engine) sample_policy) sample_j3 m ∧ m_answers m = [AResolved 1 (JsNumber 0)].
Proof.
  destruct (js_refines (E := engine) (P := buffer) sample_policy sample_ethernet sample_dns) as (Hr & _).
  destruct (Hr en_start (client_construct sample_world) sample_j3 sample_runs) as (m & Hm & Hs).
  exists m. split; [exact Hm|]. split; [exact Hs|]. pose proof (si_answers _ _ Hs) as Ha.
  destruct sample_log as (e & Hlog & _). rewrite Hlog in Ha.
  apply Forall2_cons_inv_l in Ha as (a & l & Hx & Hl & ->). apply Forall2_nil_inv_l in Hl as ->.
  f_equal. apply (sample_shows (Resolved 1 (Some 5%nat) e)); [rewrite Hlog; by left|exact Hx].
Defined.

(** The promise of the call is resolved with the code of the service. *)
Lemma js_answers_witness :
  ∃ x, x ∈ j_log sample_j3 ∧ shows x (AResolved 1 (JsNumber 0)) ∧ j_contexts sample_j3 = ∅ ∧ j_works sample_j3 = ∅.
Proof.
  destruct (js_answers (E := engine) (P := buffer) sample_policy sample_ethernet sample_dns) as ((Ha & _) & _).
  destruct sample_run as (_ & Hexec & Hend).
  destruct (Ha en_start (client_construct sample_world) sample_j0 OpSetUidPolicy 0%nat (PSetUidPolicy 10003 1) None
    (Some 2%nat) sample_j1 sample_j3) as (_ & (r & n & n' & x & Hs & Hx & Hshow) & _ & Hc & Hw & _).
  - apply rtc_refl.
  - reflexivity.
  - vm_compute. reflexivity.
  - eapply rtc_l, rtc_once; apply good_script; eassumption.
  - vm_compute. reflexivity.
  - exists x. split; [exact Hx|]. split; [|split; [exact Hc|exact Hw]]. pose proof (sample_shows x _ Hx Hshow) as Heq.
    change (way_for None (j_next sample_j0 + 1)%nat) with (ByPromise 1) in *. rewrite <- Heq. exact Hshow.
Defined.

Lemma js_types_witness :
  ∃ x, x ∈ j_log sample_j3 ∧ is_number (JsNumber 0) ∧ shows x (AResolved 1 (JsNumber 0)).
Proof.
  destruct (js_types (E := engine) (P := buffer) sample_policy sample_ethernet sample_dns) as (Ht & _).
  destruct sample_log as (e & Hlog & _). exists (Resolved 1 (Some 5%nat) e).
  assert (Hx : Resolved 1 (Some 5%nat) e ∈ j_log sample_j3) by (rewrite Hlog; by left). split; [exact Hx|].
  destruct (Ht en_start (client_construct sample_world) sample_j3 _ sample_runs Hx) as (a & Hs & Hy).
  pose proof (sample_shows _ a Hx Hs) as ->. split; [|exact Hs]. destruct Hy as [Hy|(l & Hl & _)]; [exact Hy|congruence].
Defined.

Lemma js_unanswered_witness :
  ∃ j1 j2 j3, call (H0 := NapiEthernet.binding (P:=buffer) quiet_ethernet) OpSetIfaceConfig 4 sample_eth_j0 = Some (None, j1) ∧
    execute (H0 := NapiEthernet.binding (P:=buffer) quiet_ethernet) 1 j1 = Some (tt, j2) ∧
    conclude (H0 := NapiEthernet.binding (P:=buffer) quiet_ethernet) 1 j2 = Some (tt, j3) ∧
    j_log j3 = [] ∧ is_Some (j_contexts j3 !! 0%nat).
Proof.
  destruct (js_unanswered (E := engine) (P := buffer) quiet_ethernet 4%nat "eth0" 2 JsUndefined sample_eth_j0
    0 (one_object tt)) as (j1 & j2 & j3 & H1 & H2 & _ & H3 & H4 & H5 & _).
  - reflexivity.
  - discriminate.
  - discriminate.
  - reflexivity.
  - exists j1, j2, j3. split_and!; assumption.
Defined.
