(* ===== verification/NapiMap.v ===== *)
(** * From a script to the policies

    The bindings, the client library, the proxy, the stub and the policy service
    together: what scripts are told about policies is a map from uids to
    policies that their own calls have made. *)

From S2P Require Import Prelude Parcel Parcelables CppStrings Files Ipc Host Policy.
From S2P Require Import PolicySpec PolicyCorrect PolicyProps PolicyIpc Client Clients ClientSpec.
From S2P Require Import ClientProps Napi NapiPolicy NapiSafe NapiSpec NapiRefine NapiPolicyProps.
From S2P Require Import NapiEthernet NapiEthernetProps NapiDns NapiDnsProps EthernetCorrect Dns.
From S2P Require Import NapiHistory NapiSample NapiProps.
Import RemoteClient.

(** ** The map along a history *)

Definition policies_after (m : gmap Z Z) (qs : list policy_request) : gmap Z Z := foldl (λ m q, policy_spec q m) m qs.

Lemma policies_after_size m qs : (size (policies_after m qs) <= size m + length qs)%nat.
Proof.
  revert m. induction qs as [|q qs IH]; intros m; [cbn; lia|].
  change (policies_after m (q :: qs)) with (policies_after (policy_spec q m) qs). cbn [length].
  specialize (IH (policy_spec q m)). pose proof (size_spec q m). lia.
Qed.

Lemma conforms_snoc qs m rs q r :
  conforms qs m rs → policy_answer q (policies_after m qs) r → conforms (qs ++ [q]) m (rs ++ [r]).
Proof.
  revert m rs. induction qs as [|q' qs IH]; intros m [|r' rs] Hc Ha; try done. destruct Hc as [Hr Hc].
  split; [done|]. by apply IH.
Qed.

(** The uids and the policies of a script have their types. *)
Lemma policy_request_typed {E} `{Script E} op args q cb :
  policy_request_of (E := E) op args = Some (q, cb) → well_typed q.
Proof.
  assert (Hu : ∀ z, in_u 32 (to_u 32 z)) by (intros z; by apply to_u_range).
  assert (Hi : ∀ z, in_i 32 (to_i 32 z)) by (intros z; by apply to_i_range).
  intros Hq. destruct op; cbn in Hq.
  - destruct args as [|[] [|[] args]]; try done. apply with_callback_inv in Hq as [-> _]. split; [apply Hu|apply Hi].
  - destruct args as [|[] args]; try done. apply with_callback_inv in Hq as [-> _]. apply Hu.
  - destruct args as [|[] args]; try done. apply with_callback_inv in Hq as [-> _]. apply Hi.
  - destruct args as [|[] [|y args]]; try done. apply with_callback_inv in Hq as [-> _].
    destruct y; try apply Hu. cbv zeta. case_match; apply Hu.
Qed.

Section Policies.
Context {E F K J P : Type} `{Script E} `{FileSystem F} `{JsonLaws J} `{Platform K} `{!HealthyDisk F}.
Context `{RemoteObjects (pworld F K)} `{SystemAbilities} `{ParcelLaws P} `{!RoomyParcel P} `{IpcPlatform P}.
Context (object : nat → INetPolicyService (pworld F K)) (h : nat).
Hypothesis object_law : object h = net_policy_proxy (policy_stub (J:=J) (P:=P)).
Implicit Type n : cworld (pworld F K).

(** A client that has the object of the service, whose policies are [m]. *)
Definition has_policies (m : gmap Z Z) n : Prop := service_ n = Some h ∧ repr m (c_system n).

Lemma policy_serves q m n :
  has_policies m n → well_typed q → Z.of_nat (size m) < 2 ^ 32 - 1 →
  wp (policy_client_call object q) (λ r n', policy_answer q m r ∧ has_policies (policy_spec q m) n') n.
Proof.
  intros [Hs Hr] Hq Hm. destruct (policy_handle_ok (J:=J) m q (c_system n) Hr Hq Hm) as (r & w & Hh & Ha & Hw).
  exists r, (set_system w n). split; [|by split].
  rewrite policy_client_forwards. apply (forward_answer _ _ _ n (Some h) n r w).
  - unfold NetPolicyClient.GetProxy, GetProxy, mbind, st_bind, gets. by rewrite Hs.
  - intros h' [= <-]. rewrite object_law. transitivity (policy_call (policy_stub (J:=J) (P:=P)) q (c_system n)).
    + by destruct q.
    + by apply policy_ipc_transparent.
Qed.

Lemma history_policies m n l n' :
  history (H := policy_contract (E := E) object) n l n' → has_policies m n →
  Forall (asked_for (Contract0 := policy_contract (E := E) object)) (requests l) →
  Z.of_nat (size m + length l) < 2 ^ 32 →
  conforms (requests l) m (replies_of l) ∧ has_policies (policies_after m (requests l)) n'.
Proof.
  intros Hl Hn. induction Hl as [|l n1 q r a n2 Hl IH Hs]; intros Hq Hm; [by split|].
  unfold requests, replies_of in *. rewrite fmap_app in Hq. apply Forall_app in Hq as [Hq Hq1].
  apply Forall_inv in Hq1 as (op & args & cb & Hreq).
  rewrite length_app in Hm. cbn in Hm. destruct IH as [Hc Hn1]; [done|lia|].
  pose proof (policies_after_size m ((λ x, x.1.1) <$> l)) as Hsize. rewrite length_fmap in Hsize.
  destruct (policy_serves q _ n1 Hn1) as (r' & n2' & Hr & Ha & Hn2); [exact (policy_request_typed (E := E) op args q cb Hreq)|lia|].
  cbn in Hs. rewrite Hs in Hr. injection Hr as <- <-. rewrite !fmap_app. split; [by apply conforms_snoc|].
  unfold policies_after. by rewrite foldl_app.
Qed.

End Policies.

(** ** The properties *)

(** While nothing else uses the client libraries, what a script is told, in the
    three modules, are the replies to a sequence of its requests, each served
    once and each reply told once at most, which only grows while the calls, the
    works and the answers are interleaved. That the works take effect one after
    another is how [execute] is made, and is not shown here. *)
Lemma js_linearizes {E S1 S2 S3 P} `{NapiLaws E} `{RemoteObjects S1} `{RemoteObjects S2} `{RemoteObjects S3}
    `{SystemAbilities} `{IpcPlatform P} (policy : nat → INetPolicyService S1)
    (ethernet : nat → IEthernetService S2) (dns : nat → IDnsResolverService S3) :
  linearizes (H2 := policy_good (E := E) policy) ∧ linearizes (H2 := eth_good (E := E) (P:=P) ethernet) ∧
  linearizes (H2 := dns_good (E := E) (P:=P) dns).
Proof. split_and!; apply good_linearizes. Qed.

(** C12. From the script to the file and back: over the client library, the proxy,
    the stub and the policy service with the policies [m], however the calls of
    scripts are interleaved, every work that waits can run, the service has the
    policies that their requests have made one after another, and every answer is
    the one that a map from uids to policies gives at its place in that order. *)
Theorem script_policies {E F K J P} `{NapiLaws E} `{FileSystem F} `{JsonLaws J} `{Platform K} `{!HealthyDisk F}
    `{RemoteObjects (pworld F K)} `{SystemAbilities} `{ParcelLaws P} `{!RoomyParcel P} `{IpcPlatform P}
    (object : nat → INetPolicyService (pworld F K)) h m (e : E) n j :
  object h = net_policy_proxy (policy_stub (J:=J) (P:=P)) → has_policies h m n →
  rtc (script_step (H2 := policy_good (E := E) object)) (module_load e n) j →
  Z.of_nat (size m + j_next j) < 2 ^ 32 - 1 →
  ∃ l : list (policy_request * policy_reply * way), NoDup (handles l) ∧
    (∀ x, x ∈ j_log j → ∃ q r a, (q, r, a) ∈ l ∧
       shows x (answer_of (H := policy_contract (E := E) object) q r a)) ∧
    conforms (requests l) m (replies_of l) ∧ has_policies h (policies_after m (requests l)) (j_native j) ∧
    ∀ x, x ∈ j_queue j → is_Some (execute (H0 := NapiNetPolicy.binding object) x j).
Proof.
  intros Hobject Hn Hj Hm.
  destruct (good_linearizes (H2 := policy_good (E := E) object) e n j j Hj (rtc_refl _ _)) as (l & _ & (Hl & Hq & Hd & Hlen & Ha) & _).
  exists l. split; [exact Hd|]. split; [exact Ha|].
  destruct (history_policies (J:=J) (P:=P) object h Hobject m n l (j_native j) Hl Hn Hq) as [Hc Hp]; [lia|].
  split; [exact Hc|]. split; [exact Hp|]. intros x Hx.
  destruct (script_steps_simulate (H2 := policy_good (E := E) object) _ _ j (jinv_load_module e n) (simulates_load e n) Hj) as (m' & _ & Hs & _).
  destruct (execute_returns (H2 := policy_good (E := E) object) j m' x Hs Hx) as (q & (op & args & cb & Hreq) & Hret). apply Hret.
  pose proof (policies_after_size m (requests l)) as Hsize. unfold requests in Hsize at 2. rewrite length_fmap in Hsize.
  destruct (policy_serves (J:=J) (P:=P) object h Hobject q _ _ Hp) as (r & n' & Hr & _);
    [exact (policy_request_typed (E := E) op args q cb Hreq)|lia|]. by eexists.
Qed.

(** ** The witnesses *)

Import SampleJson SampleDisk SamplePlatform Unbounded.
#[local] Existing Instances sample_ids pworld_objects eworld_objects dworld_objects.

#[local] Abbreviation sample_step := (script_step (H2 := policy_good (E := engine) sample_policy)).

#[local] Abbreviation sample_explains :=
  (explains (Contract0 := policy_contract (E := engine) sample_policy) (one_object sample_world)).

Lemma sample_asks : sample_step sample_k0 sample_k1.
Proof.
  eapply (good_call_step _ OpSetUidPolicy 0%nat (PSetUidPolicy 10003 1, None)); [reflexivity|vm_compute; reflexivity].
Qed.

Lemma sample_serves : sample_step sample_k1 sample_k2.
Proof. apply (good_execute _ 2%nat); [by left|vm_compute; reflexivity]. Qed.

Lemma js_linearizes_witness : ∃ l k, sample_explains l sample_k1 ∧ sample_explains (l ++ k) sample_k2.
Proof.
  destruct (js_linearizes (E := engine) (P := buffer) sample_policy sample_ethernet sample_dns) as (Hl & _).
  apply (Hl en_start (one_object sample_world)); apply rtc_once; [exact sample_asks|exact sample_serves].
Defined.

Lemma script_policies_witness :
  ∃ l, conforms (requests l) (list_to_map sample_kvs) (replies_of l) ∧
    has_policies 7 (policies_after (list_to_map sample_kvs) (requests l)) (j_native sample_k2).
Proof.
  destruct (script_policies (E := engine) (J := J) (P := buffer) sample_policy 7 (list_to_map sample_kvs) en_start
    (one_object sample_world) sample_k2) as (l & _ & _ & Hc & Hp & _).
  - reflexivity.
  - split; [reflexivity|exact sample_repr].
  - eapply rtc_l, rtc_once; [exact sample_asks|exact sample_serves].
  - vm_compute. reflexivity.
  - exists l. split; [exact Hc|exact Hp].
Defined.
